(** * Tavily-load: a shallow embedding of the key-rotating reverse proxy

    The Go packages [errors], [types], [config], [repository], [cache],
    [usage], [keymanager], [handler], [middleware] and [proxy] are embedded
    as Rocq modules of the same names.  Go's [int]/[int64] are integers of [Z]
    wrapped to 64 bits, Go strings are byte strings ([string]), the
    concurrent maps of the key manager are finite maps ([gmap string _]),
    a [float64] is the rational it denotes, with the rounding of each
    operation written out, and a Go function that may panic returns an
    [outcome] next to the state it leaves behind. *)

From Stdlib Require Import ZArith String Ascii List Lia Bool QArith Qround Qpower.
From Stdlib Require Import DecimalString Floats.
From Stdlib Require DecimalPos.
From stdpp Require Import gmap strings list fin_maps.

Open Scope string_scope.
Open Scope list_scope.
Open Scope Z_scope.

(** ** Go primitives *)

Module Go.

(** Two's-complement wrap-around of a 64-bit signed integer. *)
Definition wrap64 (z : Z) : Z := (z + 2 ^ 63) mod 2 ^ 64 - 2 ^ 63.

Definition MaxInt64 : Z := 2 ^ 63 - 1.
Definition MinInt64 : Z := - 2 ^ 63.

Definition in_int64 (z : Z) : bool := (MinInt64 <=? z) && (z <=? MaxInt64).

(** The result of running a Go function: it returns, or it panics (an index
    or slice bound out of range, an integer division by zero). *)
Inductive outcome (A : Type) : Type :=
| Returned (a : A)
| Panicked (msg : string).
Arguments Returned {A} a.
Arguments Panicked {A} msg.

Definition returned {A} (o : outcome A) : bool :=
  match o with Returned _ => true | Panicked _ => false end.

(** [a % b] on Go integers: truncated remainder, a run-time panic when
    [b = 0]. *)
Definition rem (a b : Z) : outcome Z :=
  if b =? 0 then Panicked "integer divide by zero" else Returned (Z.rem a b).

(** [len(s)] in bytes. *)
Definition len (s : string) : Z := Z.of_nat (String.length s).

(** [s[:n]]: a run-time panic when [n] exceeds [len(s)]. *)
Definition slice_to (s : string) (n : nat) : outcome string :=
  if (n <=? String.length s)%nat then Returned (substring 0 n s)
  else Panicked "slice bounds out of range".

(** [l[i]] on a slice. *)
Definition index {A} (l : list A) (i : Z) : outcome A :=
  if i <? 0 then Panicked "index out of range"
  else match l !! Z.to_nat i with
       | Some a => Returned a
       | None => Panicked "index out of range"
       end.

(** [strings.HasPrefix(s, prefix)]. *)
Definition HasPrefix (s prefix : string) : bool := String.prefix prefix s.

(** [strings.HasSuffix(s, suffix)]. *)
Definition HasSuffix (s suffix : string) : bool :=
  let n := String.length s in
  let k := String.length suffix in
  (k <=? n)%nat && String.eqb (substring (n - k) k s) suffix.

(** [strings.Contains(s, substr)]. *)
Definition Contains (s substr : string) : bool :=
  match String.index 0 substr s with Some _ => true | None => false end.

(** [strings.ToLower] on the ASCII letters.  Lower-casing a rune outside
    ASCII neither yields nor removes one of the bytes of [".txt"], the one
    suffix the result is tested for. *)
Definition lowerAscii (c : ascii) : ascii :=
  let n := nat_of_ascii c in
  if (65 <=? n)%nat && (n <=? 90)%nat then ascii_of_nat (n + 32) else c.

Fixpoint ToLower (s : string) : string :=
  match s with
  | EmptyString => EmptyString
  | String c rest => String (lowerAscii c) (ToLower rest)
  end.

(** The UTF-8 encodings of the runes for which [unicode.IsSpace] holds. *)
Definition spaceEncodings : list (list ascii) :=
  List.map (List.map ascii_of_nat)
    ([[9]; [10]; [11]; [12]; [13]; [32]; [194; 133]; [194; 160]; [225; 154; 128]]
     ++ List.map (fun b => [226; 128; b]) [128; 129; 130; 131; 132; 133; 134; 135; 136; 137; 138]
     ++ [[226; 128; 168]; [226; 128; 169]; [226; 128; 175]; [226; 129; 159];
         [227; 128; 128]])%nat.

Fixpoint stripPrefix (prefix l : list ascii) : option (list ascii) :=
  match prefix, l with
  | [], _ => Some l
  | p :: prefix', c :: l' =>
      if Ascii.eqb p c then stripPrefix prefix' l' else None
  | _ :: _, [] => None
  end.

(** The input without one leading space rune, when it starts with one
    ([encodings] are tried in turn). *)
Fixpoint stripOne (encodings : list (list ascii)) (l : list ascii)
  : option (list ascii) :=
  match encodings with
  | [] => None
  | e :: rest =>
      match stripPrefix e l with
      | Some l' => Some l'
      | None => stripOne rest l
      end
  end.

Fixpoint stripAll (fuel : nat) (encodings : list (list ascii)) (l : list ascii)
  : list ascii :=
  match fuel with
  | O => l
  | S fuel' =>
      match stripOne encodings l with
      | Some l' => stripAll fuel' encodings l'
      | None => l
      end
  end.

Definition trimLeft (l : list ascii) : list ascii :=
  stripAll (length l) spaceEncodings l.

(** Trailing space runes are leading reversed encodings of the reversed
    input. *)
Definition trimRight (l : list ascii) : list ascii :=
  rev (stripAll (length l) (List.map (@rev ascii) spaceEncodings) (rev l)).

(** [strings.TrimSpace]. *)
Definition TrimSpace (s : string) : string :=
  string_of_list_ascii (trimRight (trimLeft (list_ascii_of_string s))).

(** Whether the bytes start, or end, with the encoding of a space rune. *)
Definition startsWithSpace (l : list ascii) : bool :=
  match stripOne spaceEncodings l with Some _ => true | None => false end.

Definition endsWithSpace (l : list ascii) : bool :=
  match stripOne (List.map (@rev ascii) spaceEncodings) (rev l) with
  | Some _ => true
  | None => false
  end.

(** [bufio.MaxScanTokenSize]. *)
Definition MaxScanTokenSize : Z := 65536.

Definition dropCR (line : list ascii) : list ascii :=
  match rev line with
  | c :: before => if Ascii.eqb c (ascii_of_nat 13) then rev before else line
  | [] => line
  end.

(** The tokens that [bufio.Scanner] with the default [ScanLines] split
    function yields on [text]: [line] holds the bytes of the current line
    in reverse and [n] their number.  A line that does not fit the
    scanner's buffer ends the scan. *)
Fixpoint scanLines (text : list ascii) (line : list ascii) (n : Z) : list string :=
  match text with
  | [] =>
      match line with
      | [] => []
      | _ => [string_of_list_ascii (dropCR (rev line))]
      end
  | c :: rest =>
      if Ascii.eqb c (ascii_of_nat 10)
      then string_of_list_ascii (dropCR (rev line)) :: scanLines rest [] 0
      else if MaxScanTokenSize <=? n + 1 then []
      else scanLines rest (c :: line) (n + 1)
  end.

(** [fmt.Sprintf("%d", z)]. *)
Definition itoa (z : Z) : string := NilZero.string_of_int (Z.to_int z).

(** [time.Time] as seconds on the server's clock; [time.Time{}] is [0]. *)
Definition Time := Z.
Definition zeroTime : Time := 0.
Definition Minute : Z := 60.

(** Membership of a string in a list of [case] labels. *)
Definition oneof (s : string) (cases : list string) : bool :=
  existsb (String.eqb s) cases.

(** *** binary64

    A finite [float64] is the rational number it denotes.  A conversion or
    an arithmetic operation yields the binary64 nearest to the exact
    result, the one with the even significand of two that are equally near:
    [float64] below.  The exponent is left unbounded: the integers of 64
    bits and the quotients of two of them are far from the overflow and
    underflow thresholds of binary64. *)

(** [floor (log2 q)] for a positive [q]: the quotient of a numerator of
    [a + 1] bits and a denominator of [b + 1] bits lies strictly between
    [2 ^ (a - b - 1)] and [2 ^ (a - b + 1)]. *)
Definition ilog2 (q : Q) : Z :=
  let k := Z.log2 (Qnum q) - Z.log2 (Z.pos (Qden q)) in
  if Qle_bool (2 ^ k) q then k else k - 1.

(** The integer nearest to [q], the even one of two that are equally near. *)
Definition roundHalfEven (q : Q) : Z :=
  let f := Qfloor q in
  match (q - inject_Z f ?= 1 # 2)%Q with
  | Lt => f
  | Gt => f + 1
  | Eq => if Z.even f then f else f + 1
  end.

(** The binary64 nearest to a positive [q]: a significand of 53 bits, that
    is an integer from [2 ^ 52] up, times a power of two. *)
Definition nearest64 (q : Q) : Q :=
  let e := ilog2 q - 52 in
  Qred (inject_Z (roundHalfEven (q / 2 ^ e)) * 2 ^ e).

(** Rounding to binary64; on an integer, the conversion [float64(n)]. *)
Definition float64 (q : Q) : Q :=
  match (q ?= 0)%Q with
  | Eq => 0%Q
  | Gt => nearest64 q
  | Lt => (- nearest64 (- q))%Q
  end.

(** The rational that a primitive binary64 value denotes, if it is finite. *)
Definition denoted (f : float) : option Q :=
  match Prim2SF f with
  | S754_zero _ => Some 0%Q
  | S754_finite s m e =>
      Some (Qred ((if s then - inject_Z (Z.pos m) else inject_Z (Z.pos m)) * 2 ^ e))
  | _ => None
  end.

End Go.

Import Go.

(** ** Package errors *)

Module errors.

Definition ErrorType := string.

Definition ErrorTypeUnauthorized : ErrorType := "unauthorized".
Definition ErrorTypeInvalidKey : ErrorType := "invalid_key".
Definition ErrorTypeForbidden : ErrorType := "forbidden".
Definition ErrorTypeNotFound : ErrorType := "not_found".
Definition ErrorTypeBadRequest : ErrorType := "bad_request".
Definition ErrorTypeRateLimit : ErrorType := "rate_limit".
Definition ErrorTypeQuotaExceeded : ErrorType := "quota_exceeded".
Definition ErrorTypeServerError : ErrorType := "server_error".
Definition ErrorTypeTimeout : ErrorType := "timeout".
Definition ErrorTypeNetworkError : ErrorType := "network_error".
Definition ErrorTypeNoKeysAvailable : ErrorType := "no_keys_available".
Definition ErrorTypeConfigError : ErrorType := "config_error".
Definition ErrorTypeInternalError : ErrorType := "internal_error".

Record TavilyError : Type := {
  Type_ : ErrorType;
  Message : string;
  StatusCode : Z;
  Key : string;
  Permanent : bool;
  Retryable : bool;
  Details : string
}.

Definition IsPermanent (e : TavilyError) : bool := Permanent e.
Definition IsRetryable (e : TavilyError) : bool := Retryable e.

(** [classifyError]: the pair (permanent, retryable) of an error type.  The
    status code is an argument of the Go function and is not inspected. *)
Definition classifyError (errorType : ErrorType) (statusCode : Z) : bool * bool :=
  if oneof errorType [ErrorTypeUnauthorized; ErrorTypeInvalidKey; ErrorTypeForbidden]
  then (true, true)
  else if oneof errorType [ErrorTypeNotFound; ErrorTypeBadRequest]
  then (false, false)
  else if oneof errorType [ErrorTypeRateLimit; ErrorTypeQuotaExceeded]
  then (false, true)
  else if oneof errorType [ErrorTypeServerError; ErrorTypeTimeout; ErrorTypeNetworkError]
  then (false, true)
  else if oneof errorType [ErrorTypeNoKeysAvailable]
  then (false, false)
  else (false, true).

Definition NewTavilyError (errorType : ErrorType) (message : string) (statusCode : Z)
  : TavilyError :=
  let '(permanent, retryable) := classifyError errorType statusCode in
  {| Type_ := errorType; Message := message; StatusCode := statusCode;
     Key := ""; Permanent := permanent; Retryable := retryable; Details := "" |}.

Definition NewTavilyErrorWithKey (errorType : ErrorType) (message : string)
    (statusCode : Z) (key : string) : TavilyError :=
  let err := NewTavilyError errorType message statusCode in
  {| Type_ := Type_ err; Message := Message err; StatusCode := StatusCode err;
     Key := key; Permanent := Permanent err; Retryable := Retryable err;
     Details := Details err |}.

(** The [switch statusCode] of [ParseHTTPError]. *)
Definition statusKind (statusCode : Z) : ErrorType * string :=
  if statusCode =? 401 then (ErrorTypeUnauthorized, "Invalid or expired API key")
  else if statusCode =? 403 then (ErrorTypeForbidden, "Access forbidden")
  else if statusCode =? 404 then (ErrorTypeNotFound, "Endpoint not found")
  else if statusCode =? 400 then (ErrorTypeBadRequest, "Bad request")
  else if statusCode =? 429 then (ErrorTypeRateLimit, "Rate limit exceeded")
  else if statusCode =? 432 then (ErrorTypeQuotaExceeded, "API quota exceeded")
  else if statusCode =? 433 then (ErrorTypeQuotaExceeded, "Monthly quota exceeded")
  else if (statusCode =? 500) || (statusCode =? 502) || (statusCode =? 503)
          || (statusCode =? 504)
  then (ErrorTypeServerError, "Server error")
  else (ErrorTypeInternalError, "HTTP " +:+ itoa statusCode +:+ " error").

Definition ParseHTTPError (statusCode : Z) (body : string) (key : string)
  : TavilyError :=
  let '(errorType, message) := statusKind statusCode in
  let message :=
    if (0 <? len body) && (len body <? 500)
    then message +:+ ": " +:+ body
    else message in
  NewTavilyErrorWithKey errorType message statusCode key.

(** The [Error] method of [TavilyError]: the key preview [e.Key[:8]] panics on a
    non-empty key of fewer than eight bytes. *)
Definition Error (e : TavilyError) : outcome string :=
  if String.eqb (Key e) "" then
    Returned ("[" +:+ Type_ e +:+ "] " +:+ Message e)
  else
    match slice_to (Key e) 8 with
    | Returned k =>
        Returned ("[" +:+ Type_ e +:+ "] " +:+ Message e +:+ " (key: " +:+ k +:+ "...)")
    | Panicked msg => Panicked msg
    end.

(** The flags of an error kind, as the taxonomy table lists them. *)
Definition flags (e : TavilyError) : ErrorType * bool * bool :=
  (Type_ e, Permanent e, Retryable e).

(** Status codes that [ParseHTTPError] has a [case] for. *)
Definition categorised (statusCode : Z) : bool :=
  existsb (Z.eqb statusCode) [401; 403; 404; 400; 429; 432; 433; 500; 502; 503; 504].

End errors.

(** ** Package types *)

Module types.

Definition SelectionStrategy := string.
Definition StrategyPlanFirst : SelectionStrategy := "plan_first".
Definition StrategyRoundRobin : SelectionStrategy := "round_robin".

Module KeyStatus.
Record t : Type := {
  Active : bool;
  ErrorCount : Z;
  RequestCount : Z;
  LastUsed : Time;
  LastError : string;
  BlacklistedAt : Time;
  Permanent : bool
}.
End KeyStatus.

Module BlacklistEntry.
Record t : Type := {
  Key : string;
  Reason : string;
  BlacklistedAt : Time;
  Permanent : bool;
  ErrorCount : Z
}.
End BlacklistEntry.

Module KeyUsage.
Record t : Type := { Usage : Z; Limit : Z }.
End KeyUsage.

Module AccountUsage.
Record t : Type := {
  CurrentPlan : string;
  PlanUsage : Z;
  PlanLimit : Z;
  PaygoUsage : Z;
  PaygoLimit : Z
}.
End AccountUsage.

Module TavilyUsage.
Record t : Type := { Key : KeyUsage.t; Account : AccountUsage.t }.
End TavilyUsage.

(** The three utilisations are [float64] in Go: the rationals that the
    binary64 values denote. *)
Module RemainingPoints.
Record t : Type := {
  KeyRemaining : Z;
  PlanRemaining : Z;
  PaygoRemaining : Z;
  TotalRemaining : Z;
  KeyUtilization : Q;
  PlanUtilization : Q;
  PaygoUtilization : Q
}.
End RemainingPoints.

Module KeyStats.
Record t : Type := {
  TotalKeys : Z;
  ActiveKeys : Z;
  BlacklistedKeys : Z;
  CurrentIndex : Z;
  RequestCounts : gmap string Z;
  ErrorCounts : gmap string Z;
  LastUsed : gmap string Time;
  KeyStatus : gmap string KeyStatus.t
}.
End KeyStats.

End types.

(** ** Package config *)

Module config.

(** The fields of [Config] that [validate] checks or that the key manager and
    the proxy handler read. *)
Record Config : Type := {
  DBHost : string;
  DBUsername : string;
  DBPassword : string;
  DBName : string;
  DBMaxOpenConns : Z;
  DBMaxIdleConns : Z;
  RedisHost : string;
  RedisPoolSize : Z;
  StartIndex : Z;
  BlacklistThreshold : Z;
  MaxRetries : Z;
  MaxConcurrentRequests : Z;
  TavilyBaseURL : string;
  LogLevel : string;
  LogFormat : string;
  DefaultSelectionStrategy : string
}.

(** The process environment: [os.Getenv] returns the empty string for an
    unset variable. *)
Definition Env := string -> string.

Definition getEnvString (env : Env) (key defaultValue : string) : string :=
  let value := env key in
  if String.eqb value "" then defaultValue else value.

Definition digit (c : ascii) : option Z :=
  let n := Z.of_nat (nat_of_ascii c) in
  if (48 <=? n) && (n <=? 57) then Some (n - 48) else None.

Fixpoint digits (s : string) (acc : Z) : option Z :=
  match s with
  | EmptyString => Some acc
  | String c rest =>
      match digit c with
      | Some d => digits rest (10 * acc + d)
      | None => None
      end
  end.

(** [strconv.Atoi]: an optional sign, then at least one decimal digit and
    nothing else; a value outside 64 bits is an error. *)
Definition Atoi (s : string) : option Z :=
  let unsigned (body : string) : option Z :=
    match body with
    | EmptyString => None
    | _ => digits body 0
    end in
  let signed :=
    match s with
    | String "-"%char rest => option_map Z.opp (unsigned rest)
    | String "+"%char rest => unsigned rest
    | _ => unsigned s
    end in
  match signed with
  | Some z => if in_int64 z then Some z else None
  | None => None
  end.

Definition getEnvInt (env : Env) (key : string) (defaultValue : Z) : Z :=
  let value := env key in
  if String.eqb value "" then defaultValue
  else match Atoi value with
       | Some intValue => intValue
       | None => defaultValue
       end.

Definition contains (slice : list string) (item : string) : bool :=
  existsb (fun s => String.eqb s item) slice.

(** [validate]: the first failed check, or [None]. *)
Definition validate (c : Config) : option string :=
  if String.eqb (DBHost c) "" then Some "DB_HOST is required"
  else if String.eqb (DBUsername c) "" then Some "DB_USERNAME is required"
  else if String.eqb (DBPassword c) "" then Some "DB_PASSWORD is required"
  else if String.eqb (DBName c) "" then Some "DB_NAME is required"
  else if String.eqb (RedisHost c) "" then Some "REDIS_HOST is required"
  else if String.eqb (TavilyBaseURL c) "" then Some "TAVILY_BASE_URL is required"
  else if MaxRetries c <? 0 then Some "MAX_RETRIES must be >= 0"
  else if MaxConcurrentRequests c <=? 0 then Some "MAX_CONCURRENT_REQUESTS must be > 0"
  else if BlacklistThreshold c <=? 0 then Some "BLACKLIST_THRESHOLD must be > 0"
  else if DBMaxOpenConns c <=? 0 then Some "DB_MAX_OPEN_CONNS must be > 0"
  else if DBMaxIdleConns c <? 0 then Some "DB_MAX_IDLE_CONNS must be >= 0"
  else if RedisPoolSize c <=? 0 then Some "REDIS_POOL_SIZE must be > 0"
  else if negb (contains ["debug"; "info"; "warn"; "error"] (LogLevel c))
  then Some "LOG_LEVEL must be one of: debug, info, warn, error"
  else if negb (contains ["text"; "json"] (LogFormat c))
  then Some "LOG_FORMAT must be one of: text, json"
  else None.

(** [Load]: every field from its environment variable or its default, then
    validation. *)
Definition Load (env : Env) : Config + string :=
  let c := {|
    DBHost := getEnvString env "DB_HOST" "localhost";
    DBUsername := getEnvString env "DB_USERNAME" "tavily_user";
    DBPassword := getEnvString env "DB_PASSWORD" "tavily_password";
    DBName := getEnvString env "DB_NAME" "tavily_load";
    DBMaxOpenConns := getEnvInt env "DB_MAX_OPEN_CONNS" 25;
    DBMaxIdleConns := getEnvInt env "DB_MAX_IDLE_CONNS" 5;
    RedisHost := getEnvString env "REDIS_HOST" "localhost";
    RedisPoolSize := getEnvInt env "REDIS_POOL_SIZE" 10;
    StartIndex := getEnvInt env "START_INDEX" 0;
    BlacklistThreshold := getEnvInt env "BLACKLIST_THRESHOLD" 1;
    MaxRetries := getEnvInt env "MAX_RETRIES" 3;
    MaxConcurrentRequests := getEnvInt env "MAX_CONCURRENT_REQUESTS" 100;
    TavilyBaseURL := getEnvString env "TAVILY_BASE_URL" "https://api.tavily.com";
    LogLevel := getEnvString env "LOG_LEVEL" "info";
    LogFormat := getEnvString env "LOG_FORMAT" "text";
    DefaultSelectionStrategy :=
      getEnvString env "DEFAULT_SELECTION_STRATEGY" "round_robin"
  |} in
  match validate c with
  | Some err => inr ("configuration validation failed: " +:+ err)
  | None => inl c
  end.

(** The environment with no variable set. *)
Definition emptyEnv : Env := fun _ => "".

End config.

(** ** Package repository

    The relational store behind [KeyRepository]: the rows of [api_keys] in
    insertion order (the order of [created_at]), the rows of
    [key_blacklist_history], the next auto-increment id, and whether the
    database answers at all.  [key_value] is [UNIQUE].

    A row is held as the struct that [Scan] fills from it.  The column
    [blacklist_reason] is nullable and has no default, and a [NULL] does not
    convert to the Go string of the struct: [null_reason] holds the ids of
    the rows in which the column is [NULL] (ids are never reused, so the id
    of a deleted row may stay behind), and every read of such a row fails.
    The server is taken in its default strict mode, with the [utf8mb4]
    character set of the connection: it refuses a value that does not fit
    its column. *)

Module repository.

Record APIKey : Type := {
  ID : Z;
  KeyValue : string;
  Name : string;
  Description : string;
  IsActive : bool;
  IsBlacklisted : bool;
  BlacklistedUntil : option Time;
  BlacklistReason : string;
  CreatedAt : Time;
  UpdatedAt : Time
}.

Record BlacklistHistory : Type := {
  HistoryKeyID : Z;
  HistoryBlacklistedAt : Time;
  HistoryBlacklistedUntil : option Time;
  HistoryReason : string;
  HistoryIsPermanent : bool
}.

Record KeyRepository : Type := {
  api_keys : list APIKey;
  null_reason : gset Z;
  key_blacklist_history : list BlacklistHistory;
  next_id : Z;
  reachable : bool
}.

Definition connectionError : string := "driver: bad connection".
Definition duplicateError (keyValue : string) : string :=
  "Error 1062: Duplicate entry '" +:+ keyValue +:+ "' for key 'key_value'".
Definition noRowsError : string := "sql: no rows in result set".

(** The error of [Scan] on a row whose [blacklist_reason] is [NULL]. *)
Definition scanError : string :=
  "sql: Scan error on column index 7, name "
  +:+ String (ascii_of_nat 34) "blacklist_reason" +:+ String (ascii_of_nat 34)
        ": converting NULL to string is unsupported".

Definition dataTooLong (column : string) : string :=
  "Error 1406: Data too long for column '" +:+ column +:+ "' at row 1".

(** The server's message also quotes the bytes it could not read. *)
Definition incorrectString (column : string) : string :=
  "Error 1366: Incorrect string value for column '" +:+ column +:+ "' at row 1".

Definition between (low b high : Z) : bool := (low <=? b) && (b <=? high).

(** The number of characters that well-formed UTF-8 encodes; [None] for
    bytes that are not well-formed UTF-8. *)
Fixpoint characters (bytes : list Z) : option Z :=
  match bytes with
  | [] => Some 0
  | b0 :: rest =>
      if b0 <? 128 then option_map Z.succ (characters rest)
      else if between 194 b0 223 then
        match rest with
        | b1 :: rest =>
            if between 128 b1 191 then option_map Z.succ (characters rest) else None
        | _ => None
        end
      else if between 224 b0 239 then
        match rest with
        | b1 :: b2 :: rest =>
            if between (if b0 =? 224 then 160 else 128) b1 (if b0 =? 237 then 159 else 191)
               && between 128 b2 191
            then option_map Z.succ (characters rest) else None
        | _ => None
        end
      else if between 240 b0 244 then
        match rest with
        | b1 :: b2 :: b3 :: rest =>
            if between (if b0 =? 240 then 144 else 128) b1 (if b0 =? 244 then 143 else 191)
               && between 128 b2 191 && between 128 b3 191
            then option_map Z.succ (characters rest) else None
        | _ => None
        end
      else None
  end.

Definition bytesOf (s : string) : list Z :=
  List.map (fun c => Z.of_nat (nat_of_ascii c)) (list_ascii_of_string s).

(** What the server finds wrong with a value for a [VARCHAR(width)]
    column. *)
Definition varcharError (column : string) (width : Z) (value : string) : option string :=
  match characters (bytesOf value) with
  | None => Some (incorrectString column)
  | Some n => if width <? n then Some (dataTooLong column) else None
  end.

(** The same for a [TEXT] column, which holds 65535 bytes. *)
Definition textError (column : string) (value : string) : option string :=
  match characters (bytesOf value) with
  | None => Some (incorrectString column)
  | Some _ => if 65535 <? len value then Some (dataTooLong column) else None
  end.

(** The columns of the [INSERT] of [CreateKey], in their order. *)
Definition insertError (keyValue name description : string) : option string :=
  match varcharError "key_value" 255 keyValue with
  | Some err => Some err
  | None =>
      match varcharError "name" 255 name with
      | Some err => Some err
      | None => textError "description" description
      end
  end.

Definition findByValue (rows : list APIKey) (keyValue : string) : option APIKey :=
  List.find (fun k => String.eqb (KeyValue k) keyValue) rows.

(** [Scan] of a row into the struct. *)
Definition Scan (r : KeyRepository) (row : APIKey) : APIKey + string :=
  if bool_decide (ID row ∈ null_reason r) then inr scanError else inl row.

(** The [rows.Next()] loop of the two listing queries: the first row that
    does not scan ends it. *)
Fixpoint scanAll (r : KeyRepository) (rows : list APIKey) : list APIKey + string :=
  match rows with
  | [] => inl []
  | row :: rest =>
      match Scan r row with
      | inr err => inr err
      | inl key =>
          match scanAll r rest with
          | inr err => inr err
          | inl keys => inl (key :: keys)
          end
      end
  end.

Definition GetKeyByValue (r : KeyRepository) (keyValue : string) : APIKey + string :=
  if negb (reachable r) then inr connectionError
  else match findByValue (api_keys r) keyValue with
       | Some row => Scan r row
       | None => inr noRowsError
       end.

Definition GetKeyByID (r : KeyRepository) (id : Z) : APIKey + string :=
  if negb (reachable r) then inr connectionError
  else match List.find (fun k => ID k =? id) (api_keys r) with
       | Some row => Scan r row
       | None => inr noRowsError
       end.

(** [CreateKey]: [INSERT INTO api_keys (key_value, name, description,
    is_active, is_blacklisted) VALUES (?, ?, ?, true, false)], which leaves
    [blacklist_reason] at [NULL]; then the row is read back by its id. *)
Definition CreateKey (r : KeyRepository) (now : Time)
    (keyValue name description : string) : KeyRepository * (APIKey + string) :=
  if negb (reachable r) then (r, inr connectionError)
  else match insertError keyValue name description with
       | Some err => (r, inr err)
       | None =>
           match findByValue (api_keys r) keyValue with
           | Some _ => (r, inr (duplicateError keyValue))
           | None =>
               let id := next_id r in
               let row := {| ID := id; KeyValue := keyValue; Name := name;
                             Description := description; IsActive := true;
                             IsBlacklisted := false; BlacklistedUntil := None;
                             BlacklistReason := ""; CreatedAt := now;
                             UpdatedAt := now |} in
               let r' := {| api_keys := api_keys r ++ [row];
                            null_reason := {[id]} ∪ null_reason r;
                            key_blacklist_history := key_blacklist_history r;
                            next_id := id + 1;
                            reachable := reachable r |} in
               (r', GetKeyByID r' id)
           end
       end.

(** The [WHERE] clause of [GetAllActiveKeys]. *)
Definition activeAt (now : Time) (k : APIKey) : bool :=
  IsActive k &&
  (negb (IsBlacklisted k) ||
   match BlacklistedUntil k with
   | Some until => until <? now
   | None => false
   end).

Definition GetAllActiveKeys (r : KeyRepository) (now : Time)
  : list APIKey + string :=
  if negb (reachable r) then inr connectionError
  else scanAll r (List.filter (activeAt now) (api_keys r)).

Definition GetAllKeys (r : KeyRepository) : list APIKey + string :=
  if negb (reachable r) then inr connectionError else scanAll r (api_keys r).

Definition setBlacklisted (reason : string) (until : option Time) (now : Time)
    (id : Z) (k : APIKey) : APIKey :=
  if ID k =? id then
    {| ID := ID k; KeyValue := KeyValue k; Name := Name k;
       Description := Description k; IsActive := IsActive k;
       IsBlacklisted := true; BlacklistedUntil := until;
       BlacklistReason := reason; CreatedAt := CreatedAt k; UpdatedAt := now |}
  else k.

(** [BlacklistKey]: one transaction that reads the id of the row, marks
    the row, which sets its [blacklist_reason], and appends to the history;
    an unknown key value rolls it back. *)
Definition BlacklistKey (r : KeyRepository) (now : Time) (keyValue reason : string)
    (permanent : bool) (until : option Time) : KeyRepository * option string :=
  if negb (reachable r) then (r, Some connectionError)
  else match findByValue (api_keys r) keyValue with
       | None => (r, Some noRowsError)
       | Some k =>
           ({| api_keys := List.map (setBlacklisted reason until now (ID k)) (api_keys r);
               null_reason := null_reason r ∖ {[ID k]};
               key_blacklist_history :=
                 key_blacklist_history r ++
                 [{| HistoryKeyID := ID k; HistoryBlacklistedAt := now;
                     HistoryBlacklistedUntil := until; HistoryReason := reason;
                     HistoryIsPermanent := permanent |}];
               next_id := next_id r;
               reachable := reachable r |}, None)
       end.

Definition clearBlacklisted (now : Time) (keyValue : string) (k : APIKey) : APIKey :=
  if String.eqb (KeyValue k) keyValue then
    {| ID := ID k; KeyValue := KeyValue k; Name := Name k;
       Description := Description k; IsActive := IsActive k;
       IsBlacklisted := false; BlacklistedUntil := None;
       BlacklistReason := ""; CreatedAt := CreatedAt k; UpdatedAt := now |}
  else k.

(** The ids of the rows with a key value. *)
Definition idsOf (rows : list APIKey) (keyValue : string) : gset Z :=
  list_to_set (List.map ID (List.filter (fun k => String.eqb (KeyValue k) keyValue) rows)).

(** [UnblacklistKey]: one [UPDATE ... WHERE key_value = ?], which sets
    [blacklist_reason] to the empty string; a key value that matches no row
    is no error. *)
Definition UnblacklistKey (r : KeyRepository) (now : Time) (keyValue : string)
  : KeyRepository * option string :=
  if negb (reachable r) then (r, Some connectionError)
  else ({| api_keys := List.map (clearBlacklisted now keyValue) (api_keys r);
           null_reason := null_reason r ∖ idsOf (api_keys r) keyValue;
           key_blacklist_history := key_blacklist_history r;
           next_id := next_id r;
           reachable := reachable r |}, None).

(** [DeleteKey]: [DELETE FROM api_keys WHERE key_value = ?]; the history rows
    of a deleted key go with it ([ON DELETE CASCADE]). *)
Definition DeleteKey (r : KeyRepository) (keyValue : string)
  : KeyRepository * option string :=
  if negb (reachable r) then (r, Some connectionError)
  else
    let deleted := List.filter (fun k => String.eqb (KeyValue k) keyValue) (api_keys r) in
    ({| api_keys :=
          List.filter (fun k => negb (String.eqb (KeyValue k) keyValue)) (api_keys r);
        null_reason := null_reason r;
        key_blacklist_history :=
          List.filter
            (fun h => negb (existsb (fun k => ID k =? HistoryKeyID h) deleted))
            (key_blacklist_history r);
        next_id := next_id r;
        reachable := reachable r |}, None).

(** An empty, reachable database. *)
Definition emptyRepository : KeyRepository :=
  {| api_keys := []; null_reason := ∅; key_blacklist_history := []; next_id := 1;
     reachable := true |}.

(** The key values stored in the repository. *)
Definition storedKeys (r : KeyRepository) : list string :=
  List.map KeyValue (api_keys r).

(** The auto-increment counter is ahead of every id in the table. *)
Definition wellFormed (r : KeyRepository) : Prop :=
  forall row, In row (api_keys r) -> ID row < next_id r.

End repository.

(** ** Package cache

    The key/value server behind [UsageCache], as far as the usage tracker
    reads it back: the usage snapshots held under the keys [usage:<key>],
    and whether the server answers a call within its deadline.  A snapshot
    goes in as JSON and comes back as it went in.  The server drops an
    entry five minutes after it was set, and it may stop answering and
    resume: changes of this state that no call of the program makes. *)

Module cache.

Import types.

Record UsageCache : Type := {
  snapshots : gmap string TavilyUsage.t;
  answers : bool
}.

(** The error of a call that the server does not answer in time. *)
Definition timeoutError : string := "i/o timeout".

(** [redis.Nil], the error of a [GET] on a key that is not set. *)
Definition Nil : string := "redis: nil".

(** [SetUsage]: [SET usage:<key> <json> EX 300]. *)
Definition SetUsage (c : UsageCache) (key : string) (usage : TavilyUsage.t)
  : UsageCache * option string :=
  if answers c
  then ({| snapshots := <[key := usage]> (snapshots c); answers := true |}, None)
  else (c, Some timeoutError).

(** [GetUsage]: [GET usage:<key>], then the JSON is decoded. *)
Definition GetUsage (c : UsageCache) (key : string) : TavilyUsage.t + string :=
  if answers c
  then match snapshots c !! key with
       | Some usage => inl usage
       | None => inr Nil
       end
  else inr timeoutError.

(** The cache of a server that answers and holds no usage snapshot. *)
Definition connected : UsageCache := {| snapshots := ∅; answers := true |}.

(** The server after it has resumed answering, with the entries it held. *)
Definition resumed (c : UsageCache) : UsageCache :=
  {| snapshots := snapshots c; answers := true |}.

(** The server after the entry of [key] has reached its five minutes. *)
Definition expired (key : string) (c : UsageCache) : UsageCache :=
  {| snapshots := delete key (snapshots c); answers := answers c |}.

End cache.

(** ** Package usage

    The tracker's key/value cache and its in-memory map of usage snapshots.
    The per-key analytics (health score, cost efficiency) feed no decision
    of the key manager and are left out. *)

Module usage.

Import types.

Record Tracker : Type := {
  usageCache : cache.UsageCache;
  memoryCache : list (string * TavilyUsage.t)
}.

(** [NewTracker], on a cache that holds no usage snapshot yet. *)
Definition NewTracker : Tracker :=
  {| usageCache := cache.connected; memoryCache := [] |}.

(** [sync.Map.Store]. *)
Fixpoint store {A} (key : string) (v : A) (l : list (string * A)) : list (string * A) :=
  match l with
  | [] => [(key, v)]
  | (k, x) :: rest =>
      if String.eqb k key then (k, v) :: rest else (k, x) :: store key v rest
  end.

(** [sync.Map.Load]. *)
Fixpoint load {A} (key : string) (l : list (string * A)) : option A :=
  match l with
  | [] => None
  | (k, x) :: rest => if String.eqb k key then Some x else load key rest
  end.

(** [GetUsage]: the snapshot of the key/value cache when the cache gives
    one, else the one of the in-memory map; [None] stands for the error. *)
Definition GetUsage (t : Tracker) (key : string) : option TavilyUsage.t :=
  match cache.GetUsage (usageCache t) key with
  | inl usage => Some usage
  | inr _ => load key (memoryCache t)
  end.

Definition GetAllUsage (t : Tracker) : list (string * TavilyUsage.t) :=
  memoryCache t.

(** [UpdateUsage]: the snapshot goes to the key/value cache, and to the
    in-memory map whether the cache took it or not; then the debug log line
    takes [key[:12]]. *)
Definition UpdateUsage (t : Tracker) (key : string) (u : TavilyUsage.t)
  : Tracker * outcome unit :=
  let t' := {| usageCache := fst (cache.SetUsage (usageCache t) key u);
               memoryCache := store key u (memoryCache t) |} in
  match slice_to key 12 with
  | Returned _ => (t', Returned tt)
  | Panicked msg => (t', Panicked msg)
  end.

(** [float64(usage) / float64(limit)] when [limit > 0], else the zero value
    of the variable: both conversions round, and so does the division. *)
Definition utilization (usage limit : Z) : Q :=
  if 0 <? limit
  then float64 (float64 (inject_Z usage) / float64 (inject_Z limit))
  else 0%Q.

(** The body of [CalculateRemainingPoints] once the snapshot is at hand. *)
Definition remainingOf (u : TavilyUsage.t) : RemainingPoints.t :=
  let k := TavilyUsage.Key u in
  let a := TavilyUsage.Account u in
  let keyRemaining := wrap64 (KeyUsage.Limit k - KeyUsage.Usage k) in
  let planRemaining := wrap64 (AccountUsage.PlanLimit a - AccountUsage.PlanUsage a) in
  let paygoRemaining := wrap64 (AccountUsage.PaygoLimit a - AccountUsage.PaygoUsage a) in
  let totalRemaining := wrap64 (wrap64 (keyRemaining + planRemaining) + paygoRemaining) in
  {| RemainingPoints.KeyRemaining := keyRemaining;
     RemainingPoints.PlanRemaining := planRemaining;
     RemainingPoints.PaygoRemaining := paygoRemaining;
     RemainingPoints.TotalRemaining := totalRemaining;
     RemainingPoints.KeyUtilization := utilization (KeyUsage.Usage k) (KeyUsage.Limit k);
     RemainingPoints.PlanUtilization :=
       utilization (AccountUsage.PlanUsage a) (AccountUsage.PlanLimit a);
     RemainingPoints.PaygoUtilization :=
       utilization (AccountUsage.PaygoUsage a) (AccountUsage.PaygoLimit a) |}.

Definition CalculateRemainingPoints (t : Tracker) (key : string)
  : option RemainingPoints.t :=
  option_map remainingOf (GetUsage t key).

(** The same computation on the primitive binary64 numbers, for
    non-negative arguments below 2^63 ([PrimFloat.of_uint63] converts as Go
    does there): a cross-check of [utilization] on concrete snapshots. *)
Definition utilization64 (usage limit : Z) : float :=
  if 0 <? limit
  then PrimFloat.div (PrimFloat.of_uint63 (Uint63.of_Z usage))
                     (PrimFloat.of_uint63 (Uint63.of_Z limit))
  else PrimFloat.zero.

(** The order in which one [range] loop visits the entries of a Go map: the
    language leaves it open, so the caller supplies it. *)
Definition RangeOrder := list (string * TavilyUsage.t) -> list (string * TavilyUsage.t).

(** A traversal visits entries of the map it ranges over and nothing else. *)
Definition visitsEntries (order : RangeOrder) : Prop :=
  forall l, incl (List.map fst (order l)) (List.map fst l).

(** A traversal visits every entry of the map once. *)
Definition traversal (order : RangeOrder) : Prop :=
  forall l, Permutation (order l) l.

(** Whether [selectPlanFirstKey] considers a snapshot at all. *)
Definition hasCredits (u : TavilyUsage.t) : bool :=
  0 <? RemainingPoints.TotalRemaining (remainingOf u).

(** One pass of [selectPlanFirstKey]: the best key so far and its amount,
    starting from the empty key and [-1].  The loop ranges over the keys of
    the map it was handed and asks [CalculateRemainingPoints] for each. *)
Definition bestBy (t : Tracker) (amount : RemainingPoints.t -> Z)
    (visited : list (string * TavilyUsage.t)) : string * Z :=
  fold_left
    (fun (best : string * Z) (entry : string * TavilyUsage.t) =>
       match CalculateRemainingPoints t (fst entry) with
       | None => best
       | Some remaining =>
           if RemainingPoints.TotalRemaining remaining <=? 0 then best
           else if snd best <? amount remaining then (fst entry, amount remaining)
           else best
       end)
    visited ("", -1).

Definition selectPlanFirstKey (t : Tracker) (first second : RangeOrder)
    (allUsage : list (string * TavilyUsage.t)) : option string :=
  let '(bestPlanKey, mostPlanRemaining) :=
    bestBy t RemainingPoints.PlanRemaining (first allUsage) in
  if negb (String.eqb bestPlanKey "") && (0 <? mostPlanRemaining)
  then Some bestPlanKey
  else
    let '(bestPaygoKey, _) :=
      bestBy t RemainingPoints.PaygoRemaining (second allUsage) in
    if negb (String.eqb bestPaygoKey "") then Some bestPaygoKey else None.

(** [GetOptimalKey]: [None] stands for the returned error. *)
Definition GetOptimalKey (t : Tracker) (first second : RangeOrder)
    (strategy : SelectionStrategy) : option string :=
  let allUsage := GetAllUsage t in
  match allUsage with
  | [] => None
  | _ =>
      if String.eqb strategy StrategyPlanFirst
      then selectPlanFirstKey t first second allUsage
      else None
  end.

Definition GetRecommendedStrategy (t : Tracker) : SelectionStrategy :=
  match GetAllUsage t with
  | [] => StrategyRoundRobin
  | allUsage =>
      let totalPlanRemaining :=
        fold_left
          (fun (total : Z) (entry : string * TavilyUsage.t) =>
             match CalculateRemainingPoints t (fst entry) with
             | None => total
             | Some remaining => wrap64 (total + RemainingPoints.PlanRemaining remaining)
             end)
          allUsage 0 in
      if 0 <? totalPlanRemaining then StrategyPlanFirst else StrategyRoundRobin
  end.

End usage.

(** ** Package keymanager *)

Module keymanager.

Import types.

(** The [Manager] struct.  The repository is the store behind the [keyRepo]
    pointer, which the HTTP handler shares.  The writes to the key/value
    cache and the fire-and-forget counter flushes reach no state that the
    manager reads back and are left out. *)
Record Manager : Type := {
  keys : list string;
  currentIndex : Z;
  keyRepo : repository.KeyRepository;
  blacklist : gmap string BlacklistEntry.t;
  keyStatus : gmap string KeyStatus.t;
  requestCounts : gmap string Z;
  errorCounts : gmap string Z;
  lastUsed : gmap string Time;
  config : config.Config;
  usageTracker : usage.Tracker;
  selectionStrategy : SelectionStrategy;
  startTime : Time
}.

Definition set_keys (v : list string) (m : Manager) : Manager :=
  {| keys := v; currentIndex := currentIndex m; keyRepo := keyRepo m;
     blacklist := blacklist m; keyStatus := keyStatus m;
     requestCounts := requestCounts m; errorCounts := errorCounts m;
     lastUsed := lastUsed m; config := config m; usageTracker := usageTracker m;
     selectionStrategy := selectionStrategy m; startTime := startTime m |}.

Definition set_currentIndex (v : Z) (m : Manager) : Manager :=
  {| keys := keys m; currentIndex := v; keyRepo := keyRepo m;
     blacklist := blacklist m; keyStatus := keyStatus m;
     requestCounts := requestCounts m; errorCounts := errorCounts m;
     lastUsed := lastUsed m; config := config m; usageTracker := usageTracker m;
     selectionStrategy := selectionStrategy m; startTime := startTime m |}.

Definition set_keyRepo (v : repository.KeyRepository) (m : Manager) : Manager :=
  {| keys := keys m; currentIndex := currentIndex m; keyRepo := v;
     blacklist := blacklist m; keyStatus := keyStatus m;
     requestCounts := requestCounts m; errorCounts := errorCounts m;
     lastUsed := lastUsed m; config := config m; usageTracker := usageTracker m;
     selectionStrategy := selectionStrategy m; startTime := startTime m |}.

Definition set_blacklist (v : gmap string BlacklistEntry.t) (m : Manager) : Manager :=
  {| keys := keys m; currentIndex := currentIndex m; keyRepo := keyRepo m;
     blacklist := v; keyStatus := keyStatus m;
     requestCounts := requestCounts m; errorCounts := errorCounts m;
     lastUsed := lastUsed m; config := config m; usageTracker := usageTracker m;
     selectionStrategy := selectionStrategy m; startTime := startTime m |}.

Definition set_keyStatus (v : gmap string KeyStatus.t) (m : Manager) : Manager :=
  {| keys := keys m; currentIndex := currentIndex m; keyRepo := keyRepo m;
     blacklist := blacklist m; keyStatus := v;
     requestCounts := requestCounts m; errorCounts := errorCounts m;
     lastUsed := lastUsed m; config := config m; usageTracker := usageTracker m;
     selectionStrategy := selectionStrategy m; startTime := startTime m |}.

Definition set_requestCounts (v : gmap string Z) (m : Manager) : Manager :=
  {| keys := keys m; currentIndex := currentIndex m; keyRepo := keyRepo m;
     blacklist := blacklist m; keyStatus := keyStatus m;
     requestCounts := v; errorCounts := errorCounts m;
     lastUsed := lastUsed m; config := config m; usageTracker := usageTracker m;
     selectionStrategy := selectionStrategy m; startTime := startTime m |}.

Definition set_errorCounts (v : gmap string Z) (m : Manager) : Manager :=
  {| keys := keys m; currentIndex := currentIndex m; keyRepo := keyRepo m;
     blacklist := blacklist m; keyStatus := keyStatus m;
     requestCounts := requestCounts m; errorCounts := v;
     lastUsed := lastUsed m; config := config m; usageTracker := usageTracker m;
     selectionStrategy := selectionStrategy m; startTime := startTime m |}.

Definition set_lastUsed (v : gmap string Time) (m : Manager) : Manager :=
  {| keys := keys m; currentIndex := currentIndex m; keyRepo := keyRepo m;
     blacklist := blacklist m; keyStatus := keyStatus m;
     requestCounts := requestCounts m; errorCounts := errorCounts m;
     lastUsed := v; config := config m; usageTracker := usageTracker m;
     selectionStrategy := selectionStrategy m; startTime := startTime m |}.

Definition set_usageTracker (v : usage.Tracker) (m : Manager) : Manager :=
  {| keys := keys m; currentIndex := currentIndex m; keyRepo := keyRepo m;
     blacklist := blacklist m; keyStatus := keyStatus m;
     requestCounts := requestCounts m; errorCounts := errorCounts m;
     lastUsed := lastUsed m; config := config m; usageTracker := v;
     selectionStrategy := selectionStrategy m; startTime := startTime m |}.

Definition set_selectionStrategy (v : SelectionStrategy) (m : Manager) : Manager :=
  {| keys := keys m; currentIndex := currentIndex m; keyRepo := keyRepo m;
     blacklist := blacklist m; keyStatus := keyStatus m;
     requestCounts := requestCounts m; errorCounts := errorCounts m;
     lastUsed := lastUsed m; config := config m; usageTracker := usageTracker m;
     selectionStrategy := v; startTime := startTime m |}.

(** What the clock and the Go runtime decide for one call: the time, and the
    orders of the two map traversals of plan-first selection. *)
Record Runtime : Type := {
  now : Time;
  firstPass : usage.RangeOrder;
  secondPass : usage.RangeOrder
}.

(** A runtime that visits maps in stored order. *)
Definition at_time (t : Time) : Runtime :=
  {| now := t; firstPass := fun l => l; secondPass := fun l => l |}.

(** The status record of a freshly loaded or reset key. *)
Definition freshStatus : KeyStatus.t :=
  {| KeyStatus.Active := true; KeyStatus.ErrorCount := 0;
     KeyStatus.RequestCount := 0; KeyStatus.LastUsed := zeroTime;
     KeyStatus.LastError := ""; KeyStatus.BlacklistedAt := zeroTime;
     KeyStatus.Permanent := false |}.

(** The loop body shared by [initializeKeyStatus] and [ResetKeys]. *)
Definition initKey (m : Manager) (key : string) : Manager :=
  set_errorCounts (<[key := 0]> (errorCounts m))
    (set_requestCounts (<[key := 0]> (requestCounts m))
       (set_keyStatus (<[key := freshStatus]> (keyStatus m)) m)).

Definition initializeKeyStatus (m : Manager) : Manager :=
  fold_left initKey (keys m) m.

(** [loadKeys]: the error message, or the manager with its key slice and its
    cursor at [StartIndex % len(keys)]. *)
Definition loadKeys (m : Manager) (rt : Runtime) : Manager + string :=
  match repository.GetAllActiveKeys (keyRepo m) (now rt) with
  | inr err => inr ("failed to load keys from database: " +:+ err)
  | inl apiKeys =>
      if Z.of_nat (length apiKeys) =? 0
      then inr "no active API keys found in database"
      else
        let keys := List.map repository.KeyValue apiKeys in
        inl (set_currentIndex
               (Z.rem (config.StartIndex (config m)) (Z.of_nat (length keys)))
               (set_keys keys m))
  end.

(** The struct literal [NewManager] starts from. *)
Definition blank (cfg : config.Config) (keyRepo : repository.KeyRepository)
    (rt : Runtime) : Manager :=
  {| keys := []; currentIndex := 0; keyRepo := keyRepo;
     blacklist := ∅; keyStatus := ∅; requestCounts := ∅; errorCounts := ∅;
     lastUsed := ∅; config := cfg; usageTracker := usage.NewTracker;
     selectionStrategy := StrategyPlanFirst; startTime := now rt |}.

Definition NewManager (cfg : config.Config) (keyRepo : repository.KeyRepository)
    (rt : Runtime) : Manager + string :=
  let manager := blank cfg keyRepo rt in
  match loadKeys manager rt with
  | inr err => inr ("failed to load keys: " +:+ err)
  | inl manager => inl (initializeKeyStatus manager)
  end.

(** The counter behind [getRequestCountPtr] / [getErrorCountPtr]: a missing
    entry is created at zero. *)
Definition counter (counts : gmap string Z) (key : string) : Z :=
  default 0 (counts !! key).

Definition ensure (counts : gmap string Z) (key : string) : gmap string Z :=
  match counts !! key with
  | Some _ => counts
  | None => <[key := 0]> counts
  end.

(** [atomic.AddInt64(ptr, 1)] on the counter of [key]. *)
Definition increment (counts : gmap string Z) (key : string) : gmap string Z :=
  <[key := wrap64 (counter counts key + 1)]> counts.

Definition updateKeyUsage (key : string) (rt : Runtime) (m : Manager) : Manager :=
  let m := set_lastUsed (<[key := now rt]> (lastUsed m)) m in
  let m := set_requestCounts (increment (requestCounts m) key) m in
  match keyStatus m !! key with
  | Some status =>
      let status :=
        {| KeyStatus.Active := KeyStatus.Active status;
           KeyStatus.ErrorCount := KeyStatus.ErrorCount status;
           KeyStatus.RequestCount := wrap64 (KeyStatus.RequestCount status + 1);
           KeyStatus.LastUsed := now rt;
           KeyStatus.LastError := KeyStatus.LastError status;
           KeyStatus.BlacklistedAt := KeyStatus.BlacklistedAt status;
           KeyStatus.Permanent := KeyStatus.Permanent status |} in
      set_keyStatus (<[key := status]> (keyStatus m)) m
  | None => m
  end.

Definition isBlacklisted (m : Manager) (key : string) : bool :=
  match blacklist m !! key with Some _ => true | None => false end.

(** What a selection returns: the key, or the error. *)
Definition Selected := (string + errors.TavilyError)%type.

(** The [for] loop of [getRoundRobinKey], [n] iterations left. *)
Fixpoint roundRobinLoop (n : nat) (totalKeys : Z) (rt : Runtime) (m : Manager)
  : Manager * outcome Selected :=
  match n with
  | O =>
      (m, Returned (inr (errors.NewTavilyError errors.ErrorTypeNoKeysAvailable
                           "all API keys are blacklisted" 500)))
  | S n' =>
      let advanced := wrap64 (currentIndex m + 1) in
      let m := set_currentIndex advanced m in
      match index (keys m) (Z.rem advanced totalKeys) with
      | Panicked msg => (m, Panicked msg)
      | Returned key =>
          if isBlacklisted m key then roundRobinLoop n' totalKeys rt m
          else (updateKeyUsage key rt m, Returned (inl key))
      end
  end.

Definition getRoundRobinKey (rt : Runtime) (m : Manager) : Manager * outcome Selected :=
  let totalKeys := Z.of_nat (length (keys m)) in
  if totalKeys =? 0
  then (m, Returned (inr (errors.NewTavilyError errors.ErrorTypeNoKeysAvailable
                            "no API keys available" 500)))
  else roundRobinLoop (length (keys m)) totalKeys rt m.

Definition GetNextKeyWithStrategy (strategy : SelectionStrategy) (rt : Runtime)
    (m : Manager) : Manager * outcome Selected :=
  let planned :=
    if String.eqb strategy StrategyPlanFirst
    then match usage.GetOptimalKey (usageTracker m) (firstPass rt) (secondPass rt) strategy with
         | Some key => if isBlacklisted m key then None else Some key
         | None => None
         end
    else None in
  match planned with
  | Some key => (updateKeyUsage key rt m, Returned (inl key))
  | None => getRoundRobinKey rt m
  end.

Definition GetNextKey (rt : Runtime) (m : Manager) : Manager * outcome Selected :=
  GetNextKeyWithStrategy (selectionStrategy m) rt m.

(** [BlacklistKey]: the expiry [until] goes to the repository; the in-memory
    entry has no such field. *)
Definition BlacklistKey (key : string) (permanent : bool) (rt : Runtime)
    (m : Manager) : Manager :=
  let reason := if permanent then "permanent error" else "temporary error" in
  let until := if permanent then None else Some (now rt + 5 * Minute) in
  let m := set_errorCounts (ensure (errorCounts m) key) m in
  let errorCount := counter (errorCounts m) key in
  let m := set_keyRepo
             (fst (repository.BlacklistKey (keyRepo m) (now rt) key reason permanent until))
             m in
  let entry :=
    {| BlacklistEntry.Key := key; BlacklistEntry.Reason := reason;
       BlacklistEntry.BlacklistedAt := now rt;
       BlacklistEntry.Permanent := permanent;
       BlacklistEntry.ErrorCount := errorCount |} in
  let m := set_blacklist (<[key := entry]> (blacklist m)) m in
  match keyStatus m !! key with
  | Some status =>
      let status :=
        {| KeyStatus.Active := false;
           KeyStatus.ErrorCount := KeyStatus.ErrorCount status;
           KeyStatus.RequestCount := KeyStatus.RequestCount status;
           KeyStatus.LastUsed := KeyStatus.LastUsed status;
           KeyStatus.LastError := KeyStatus.LastError status;
           KeyStatus.BlacklistedAt := now rt;
           KeyStatus.Permanent := permanent |} in
      set_keyStatus (<[key := status]> (keyStatus m)) m
  | None => m
  end.

Definition ResetKeys (m : Manager) : Manager :=
  fold_left initKey (keys m) (set_blacklist ∅ m).

(** [RecordError]: the counter, the status record, then the threshold.
    [err.Error()] may panic after the two error counters were bumped; the
    threshold check is then never reached. *)
Definition RecordError (key : string) (err : errors.TavilyError) (rt : Runtime)
    (m : Manager) : Manager * outcome unit :=
  let m := set_errorCounts (increment (errorCounts m) key) m in
  let bump (status : KeyStatus.t) (lastError : string) : KeyStatus.t :=
    {| KeyStatus.Active := KeyStatus.Active status;
       KeyStatus.ErrorCount := wrap64 (KeyStatus.ErrorCount status + 1);
       KeyStatus.RequestCount := KeyStatus.RequestCount status;
       KeyStatus.LastUsed := KeyStatus.LastUsed status;
       KeyStatus.LastError := lastError;
       KeyStatus.BlacklistedAt := KeyStatus.BlacklistedAt status;
       KeyStatus.Permanent := KeyStatus.Permanent status |} in
  let recorded : Manager * outcome unit :=
    match keyStatus m !! key with
    | Some status =>
        match errors.Error err with
        | Returned text =>
            (set_keyStatus (<[key := bump status text]> (keyStatus m)) m, Returned tt)
        | Panicked msg =>
            (set_keyStatus (<[key := bump status (KeyStatus.LastError status)]> (keyStatus m)) m,
             Panicked msg)
        end
    | None => (m, Returned tt)
    end in
  match recorded with
  | (m, Panicked msg) => (m, Panicked msg)
  | (m, Returned _) =>
      let errorCount := counter (errorCounts m) key in
      if config.BlacklistThreshold (config m) <=? errorCount
      then (BlacklistKey key (errors.IsPermanent err) rt m, Returned tt)
      else (m, Returned tt)
  end.

(** The loop body of [GetStats] for one key. *)
Definition statKey (m : Manager) (stats : KeyStats.t) (key : string) : KeyStats.t :=
  let requests :=
    match requestCounts m !! key with
    | Some c => <[key := c]> (KeyStats.RequestCounts stats)
    | None => KeyStats.RequestCounts stats
    end in
  let errs :=
    match errorCounts m !! key with
    | Some c => <[key := c]> (KeyStats.ErrorCounts stats)
    | None => KeyStats.ErrorCounts stats
    end in
  let used :=
    match lastUsed m !! key with
    | Some t => <[key := t]> (KeyStats.LastUsed stats)
    | None => KeyStats.LastUsed stats
    end in
  let '(statuses, active, blacklisted) :=
    match keyStatus m !! key with
    | Some status =>
        (<[key := status]> (KeyStats.KeyStatus stats),
         if KeyStatus.Active status
         then wrap64 (KeyStats.ActiveKeys stats + 1) else KeyStats.ActiveKeys stats,
         if KeyStatus.Active status
         then KeyStats.BlacklistedKeys stats
         else wrap64 (KeyStats.BlacklistedKeys stats + 1))
    | None =>
        (KeyStats.KeyStatus stats, KeyStats.ActiveKeys stats,
         KeyStats.BlacklistedKeys stats)
    end in
  {| KeyStats.TotalKeys := KeyStats.TotalKeys stats;
     KeyStats.ActiveKeys := active;
     KeyStats.BlacklistedKeys := blacklisted;
     KeyStats.CurrentIndex := KeyStats.CurrentIndex stats;
     KeyStats.RequestCounts := requests;
     KeyStats.ErrorCounts := errs;
     KeyStats.LastUsed := used;
     KeyStats.KeyStatus := statuses |}.

(** [GetStats]: [currentIndex % totalKeys] comes first and panics on an
    empty key slice. *)
Definition GetStats (m : Manager) : outcome KeyStats.t :=
  let totalKeys := Z.of_nat (length (keys m)) in
  match rem (currentIndex m) totalKeys with
  | Panicked msg => Panicked msg
  | Returned currentIndex =>
      Returned
        (fold_left (statKey m) (keys m)
           {| KeyStats.TotalKeys := totalKeys;
              KeyStats.ActiveKeys := 0;
              KeyStats.BlacklistedKeys := 0;
              KeyStats.CurrentIndex := currentIndex;
              KeyStats.RequestCounts := ∅;
              KeyStats.ErrorCounts := ∅;
              KeyStats.LastUsed := ∅;
              KeyStats.KeyStatus := ∅ |})
  end.

Definition GetBlacklist (m : Manager) : list BlacklistEntry.t :=
  List.map snd (map_to_list (blacklist m)).

Definition SetSelectionStrategy (strategy : SelectionStrategy) (m : Manager) : Manager :=
  set_selectionStrategy strategy m.

Definition GetSelectionStrategy (m : Manager) : SelectionStrategy :=
  selectionStrategy m.

(** One key of [UpdateUsageFromAPI], with the snapshot the upstream
    [/usage] endpoint returned for it. *)
Definition UpdateUsage (key : string) (u : TavilyUsage.t) (m : Manager)
  : Manager * outcome unit :=
  let '(t, o) := usage.UpdateUsage (usageTracker m) key u in
  (set_usageTracker t m, o).

(** The calls that reach a running manager, from the proxy pipeline and from
    the management surface. *)
Inductive call : Type :=
| CallGetNextKey (rt : Runtime)
| CallRecordError (key : string) (err : errors.TavilyError) (rt : Runtime)
| CallBlacklistKey (key : string) (permanent : bool) (rt : Runtime)
| CallResetKeys
| CallSetSelectionStrategy (strategy : SelectionStrategy)
| CallUpdateUsage (key : string) (u : TavilyUsage.t).

(** The state a call leaves behind, whether it returned or panicked. *)
Definition after (m : Manager) (c : call) : Manager :=
  match c with
  | CallGetNextKey rt => fst (GetNextKey rt m)
  | CallRecordError key err rt => fst (RecordError key err rt m)
  | CallBlacklistKey key permanent rt => BlacklistKey key permanent rt m
  | CallResetKeys => ResetKeys m
  | CallSetSelectionStrategy strategy => SetSelectionStrategy strategy m
  | CallUpdateUsage key u => fst (UpdateUsage key u m)
  end.

Definition afterAll (m : Manager) (calls : list call) : Manager :=
  fold_left after calls m.

(** The key a selection hands out, if it hands one out. *)
Definition handedOut (o : outcome Selected) : option string :=
  match o with
  | Returned (inl key) => Some key
  | _ => None
  end.

(** What recording a request or an error leaves alone. *)
Definition framed (m m' : Manager) : Prop :=
  keys m' = keys m /\ usageTracker m' = usageTracker m /\
  config m' = config m /\ currentIndex m' = currentIndex m.

(** Whether a selection hands out [key]. *)
Definition handsOut (o : outcome Selected) (key : string) : bool :=
  match handedOut o with
  | Some k => String.eqb k key
  | None => false
  end.

(** The selections and error records of the proxy pipeline, interleaved in
    any order requests may run in: an error is recorded for a key only
    against one of its selections that is still in flight. *)
Inductive event : Type :=
| EvSelect (rt : Runtime)
| EvError (key : string) (err : errors.TavilyError) (rt : Runtime)
| EvSuccess (key : string).

(** The number of selections of each key that are still in flight. *)
Definition inFlight (pending : gmap string nat) (key : string) : nat :=
  default 0%nat (pending !! key).

(** One event: the new manager, the new in-flight counts, and whether the
    event kept the discipline. *)
Definition play (st : Manager * gmap string nat) (e : event)
  : Manager * gmap string nat * bool :=
  let '(m, pending) := st in
  match e with
  | EvSelect rt =>
      let '(m', o) := GetNextKey rt m in
      match handedOut o with
      | Some key => (m', <[key := S (inFlight pending key)]> pending, true)
      | None => (m', pending, true)
      end
  | EvError key err rt =>
      let m' := fst (RecordError key err rt m) in
      match inFlight pending key with
      | O => (m', pending, false)
      | S n => (m', <[key := n]> pending, true)
      end
  | EvSuccess key =>
      match inFlight pending key with
      | O => (m, pending, false)
      | S n => (m, <[key := n]> pending, true)
      end
  end.

(** A whole interleaving from a state with nothing in flight. *)
Fixpoint playAll (st : Manager * gmap string nat) (es : list event)
  : Manager * gmap string nat * bool :=
  match es with
  | [] => (st, true)
  | e :: rest =>
      let '(st', ok) := play st e in
      let '(st'', ok') := playAll st' rest in
      (st'', ok && ok')
  end.

(** The accounting invariant of an interleaving: for every key, the errors
    recorded plus the selections still in flight do not exceed the requests
    recorded, and no counter exceeds the number [n] of events so far. *)
Definition accounted (st : Manager * gmap string nat) (n : Z) : Prop :=
  forall k,
    0 <= counter (errorCounts (fst st)) k /\
    counter (errorCounts (fst st)) k + Z.of_nat (inFlight (snd st) k)
      <= counter (requestCounts (fst st)) k /\
    counter (requestCounts (fst st)) k <= n.

Definition replay (m : Manager) (es : list event) : Manager :=
  fst (fst (playAll (m, ∅) es)).

Definition disciplined (m : Manager) (es : list event) : bool :=
  snd (playAll (m, ∅) es).

(** The blacklist map and the status records agree on the keys of the
    slice: a key has a status record, and the record says active exactly
    when the blacklist has no entry for the key. *)
Definition consistent (m : Manager) : Prop :=
  forall key, In key (keys m) ->
    exists status,
      keyStatus m !! key = Some status /\
      KeyStatus.Active status = negb (isBlacklisted m key).

(** The number of keys of [ks] that are not blacklisted. *)
Definition available (m : Manager) (ks : list string) : Z :=
  Z.of_nat (length (List.filter (fun key => negb (isBlacklisted m key)) ks)).

(** How many of [i] consecutive round-robin selections over [N] keys, none
    of them blacklisted, starting with the cursor at [c], land on the key
    at index [j]: every key once per full turn, and once more when the
    started turn has reached it. *)
Definition turns (c N i j : Z) : Z :=
  i / N + (if (j - c - 1) mod N <? i mod N then 1 else 0).

End keymanager.


(** ** Package handler *)

Module handler.

Import types.

(** A JSON document, as [encoding/json] writes a Go map, slice or scalar. *)
#[warnings="-register-all"]
Inductive JSON : Type :=
| JNull
| JBool (b : bool)
| JNumber (z : Z)
| JString (s : string)
| JArray (items : list JSON)
| JObject (fields : list (string * JSON)).

Definition field (name : string) (j : JSON) : option JSON :=
  match j with
  | JObject fields => usage.load name fields
  | _ => None
  end.

Inductive Body : Type :=
| Text (s : string)
| Document (j : JSON)
| Streamed (upstreamBody : string).

Record Response : Type := { status : Z; body : Body }.

(** What a handler did with its [http.ResponseWriter] and how it ended:
    the response written, if any; the panic it ended in, if any; and the
    keys of the upstream calls it made, in order. *)
Record Exchange : Type := {
  written : option Response;
  panic : option string;
  upstreamCalls : list string
}.

(** [http.Error(w, msg, code)]. *)
Definition httpError (msg : string) (code : Z) : Response :=
  {| status := code; body := Text (msg +:+ "
") |}.

Definition sent (r : Response) (calls : list string) : Exchange :=
  {| written := Some r; panic := None; upstreamCalls := calls |}.

Definition panicked (w : option Response) (msg : string) (calls : list string) : Exchange :=
  {| written := w; panic := Some msg; upstreamCalls := calls |}.

Definition StatusOK : Z := 200.
Definition StatusCreated : Z := 201.
Definition StatusBadRequest : Z := 400.
Definition StatusMethodNotAllowed : Z := 405.
Definition StatusConflict : Z := 409.
Definition StatusInternalServerError : Z := 500.
Definition StatusServiceUnavailable : Z := 503.

(** The recovery middleware around every handler: a panic before anything
    was written becomes a 500.  After a response was written, its status and
    the body sent so far stay as they are. *)
Definition Recovery (e : Exchange) : option Response :=
  match panic e, written e with
  | Some _, None => Some (httpError "Internal server error" StatusInternalServerError)
  | _, w => w
  end.

Record Stats : Type := {
  RequestsTotal : Z;
  RequestsSuccess : Z;
  RequestsError : Z
}.

(** The [Handler] struct.  Its [config] and [keyRepo] pointers are the key
    manager's: [config (keyManager h)] and [keyRepo (keyManager h)]. *)
Record Handler : Type := {
  keyManager : keymanager.Manager;
  stats : Stats
}.

Definition config (h : Handler) : config.Config := keymanager.config (keyManager h).
Definition keyRepo (h : Handler) : repository.KeyRepository :=
  keymanager.keyRepo (keyManager h).

Definition NewHandler (keyManager : keymanager.Manager) : Handler :=
  {| keyManager := keyManager;
     stats := {| RequestsTotal := 0; RequestsSuccess := 0; RequestsError := 0 |} |}.

Definition set_keyManager (m : keymanager.Manager) (h : Handler) : Handler :=
  {| keyManager := m; stats := stats h |}.

Definition set_keyRepo (r : repository.KeyRepository) (h : Handler) : Handler :=
  set_keyManager (keymanager.set_keyRepo r (keyManager h)) h.

Definition countTotal (h : Handler) : Handler :=
  {| keyManager := keyManager h;
     stats := {| RequestsTotal := wrap64 (RequestsTotal (stats h) + 1);
                 RequestsSuccess := RequestsSuccess (stats h);
                 RequestsError := RequestsError (stats h) |} |}.

Definition countSuccess (h : Handler) : Handler :=
  {| keyManager := keyManager h;
     stats := {| RequestsTotal := RequestsTotal (stats h);
                 RequestsSuccess := wrap64 (RequestsSuccess (stats h) + 1);
                 RequestsError := RequestsError (stats h) |} |}.

Definition countError (h : Handler) : Handler :=
  {| keyManager := keyManager h;
     stats := {| RequestsTotal := RequestsTotal (stats h);
                 RequestsSuccess := RequestsSuccess (stats h);
                 RequestsError := wrap64 (RequestsError (stats h) + 1) |} |}.

(** What the upstream API does with one call. *)
Inductive UpstreamReply : Type :=
| Unbuildable
| TransportError (msg : string)
| HTTPResponse (statusCode : Z) (responseBody : string).

(** One client request to a proxied endpoint: whether its body can be read,
    what the upstream answers to the call made with a key at an attempt, and
    what clock and runtime each attempt sees. *)
Record Request : Type := {
  endpoint : string;
  bodyReadable : bool;
  upstream : string -> nat -> UpstreamReply;
  runtime : nat -> keymanager.Runtime
}.

(** [makeRequest]: the upstream response, or the classified error. *)
Definition makeRequest (req : Request) (apiKey : string) (attempt : nat)
  : Response + errors.TavilyError :=
  match upstream req apiKey attempt with
  | Unbuildable =>
      inr (errors.NewTavilyError errors.ErrorTypeInternalError "Failed to create request" 500)
  | TransportError msg =>
      inr (errors.NewTavilyErrorWithKey errors.ErrorTypeNetworkError
             ("Network error: " +:+ msg) 500 apiKey)
  | HTTPResponse statusCode responseBody =>
      if 400 <=? statusCode
      then inr (errors.ParseHTTPError statusCode responseBody apiKey)
      else inl {| status := statusCode; body := Streamed responseBody |}
  end.

(** The code after the retry loop of [proxyTavilyRequest]. *)
Definition allRetriesFailed (lastErr : option errors.TavilyError)
    (calls : list string) (h : Handler) : Handler * Exchange :=
  let h := countError h in
  match lastErr with
  | Some tavilyErr =>
      (h, sent (httpError (errors.Message tavilyErr) (errors.StatusCode tavilyErr)) calls)
  | None =>
      (h, sent (httpError "Request failed after all retries" StatusInternalServerError) calls)
  end.

(** The retry loop of [proxyTavilyRequest] with [left] iterations to go,
    [attempt] being the loop variable. *)
Fixpoint retryLoop (left : nat) (attempt : nat) (req : Request)
    (lastErr : option errors.TavilyError) (calls : list string) (h : Handler)
  : Handler * Exchange :=
  match left with
  | O => allRetriesFailed lastErr calls h
  | S left' =>
      let rt := runtime req attempt in
      let '(m, selected) := keymanager.GetNextKey rt (keyManager h) in
      let h := set_keyManager m h in
      match selected with
      | Panicked msg => (h, panicked None msg calls)
      | Returned (inr _) =>
          (countError h,
           sent (httpError "No API keys available" StatusServiceUnavailable) calls)
      | Returned (inl apiKey) =>
          let calls := calls ++ [apiKey] in
          match makeRequest req apiKey attempt with
          | inr err =>
              let '(m, recorded) := keymanager.RecordError apiKey err rt (keyManager h) in
              let h := set_keyManager m h in
              match recorded with
              | Panicked msg => (h, panicked None msg calls)
              | Returned _ =>
                  if negb (errors.IsRetryable err)
                  then allRetriesFailed (Some err) calls h
                  else
                    match slice_to apiKey 12 with
                    | Panicked msg => (h, panicked None msg calls)
                    | Returned _ => retryLoop left' (S attempt) req (Some err) calls h
                    end
              end
          | inl resp =>
              let h := countSuccess h in
              match slice_to apiKey 12 with
              | Panicked msg => (h, panicked (Some resp) msg calls)
              | Returned _ => (h, sent resp calls)
              end
          end
      end
  end.

(** [proxyTavilyRequest]: the loop runs for [attempt = 0 .. MaxRetries]. *)
Definition proxyTavilyRequest (req : Request) (h : Handler) : Handler * Exchange :=
  let h := countTotal h in
  if negb (bodyReadable req)
  then (countError h, sent (httpError "Failed to read request body" StatusBadRequest) [])
  else retryLoop (Z.to_nat (config.MaxRetries (config h) + 1)) 0 req None [] h.

Definition noKeysAvailable : Response :=
  httpError "No API keys available" StatusServiceUnavailable.

(** The classified error of the last of [calls], the calls of one client
    request in order: what the loop holds in [lastErr]. *)
Definition lastFailure (req : Request) (calls : list string) : option errors.TavilyError :=
  match last calls with
  | Some key =>
      match makeRequest req key (length calls - 1) with
      | inr err => Some err
      | inl _ => None
      end
  | None => None
  end.

(** The retry contract, read off the upstream calls [calls] that a client
    request made out of a budget of [total] attempts: a last call that
    succeeded is forwarded; a last call that failed with a non-retryable
    error, or that used up the budget, gives the client that error's own
    status code and message; a last call that failed with attempts to spare
    means that the next selection found no key, and the client gets 503. *)
Definition promised (req : Request) (total : nat) (calls : list string) : Response :=
  match last calls with
  | Some key =>
      match makeRequest req key (length calls - 1) with
      | inl resp => resp
      | inr err =>
          if negb (errors.IsRetryable err) || (length calls =? total)%nat
          then httpError (errors.Message err) (errors.StatusCode err)
          else noKeysAvailable
      end
  | None =>
      if (total =? 0)%nat
      then httpError "Request failed after all retries" StatusInternalServerError
      else noKeysAvailable
  end.

(** Every one of [calls] failed with a retryable error. *)
Definition retried (req : Request) (calls : list string) : Prop :=
  forall (i : nat) (key : string),
    calls !! i = Some key ->
    exists err, makeRequest req key i = inr err /\ errors.IsRetryable err = true.

(** A key long enough for the [apiKey[:12]] of the log lines. *)
Definition longEnough (key : string) : bool := (12 <=? String.length key)%nat.

(** The conditions under which serving [req] cannot panic: every key of the
    manager and of the usage tracker has at least twelve bytes, the map
    traversals of each attempt visit map entries only, and the rotation
    cursor is at least -1 and far enough from the end of the 64-bit range
    for the advances of a whole retry loop. *)
Definition steady (req : Request) (h : Handler) : Prop :=
  let m := keyManager h in
  forallb longEnough (keymanager.keys m) = true /\
  forallb longEnough (List.map fst (usage.memoryCache (keymanager.usageTracker m))) = true /\
  (forall attempt,
     usage.visitsEntries (keymanager.firstPass (runtime req attempt)) /\
     usage.visitsEntries (keymanager.secondPass (runtime req attempt))) /\
  -1 <= keymanager.currentIndex m /\
  keymanager.currentIndex m
    + (config.MaxRetries (config h) + 1) * Z.of_nat (length (keymanager.keys m))
    < 2 ^ 63.

(** *** The strategy endpoint *)

Definition getStrategyHandler (h : Handler) : Handler * Exchange :=
  let currentStrategy := keymanager.GetSelectionStrategy (keyManager h) in
  let recommendedStrategy :=
    usage.GetRecommendedStrategy (keymanager.usageTracker (keyManager h)) in
  (h, sent {| status := StatusOK;
              body := Document (JObject
                [("available_strategies",
                  JArray [JString StrategyPlanFirst; JString StrategyRoundRobin]);
                 ("current_strategy", JString currentStrategy);
                 ("recommended_strategy", JString recommendedStrategy)]) |} []).

(** The [validStrategies] map of [setStrategyHandler]. *)
Definition validStrategies (strategy : SelectionStrategy) : bool :=
  String.eqb strategy StrategyPlanFirst || String.eqb strategy StrategyRoundRobin.

(** [setStrategyHandler]: [decoded] is the [strategy] field of the JSON
    body (empty when the field is absent), or [None] when the body does not
    decode. *)
Definition setStrategyHandler (decoded : option SelectionStrategy) (h : Handler)
  : Handler * Exchange :=
  match decoded with
  | None => (h, sent (httpError "Invalid request body" StatusBadRequest) [])
  | Some strategy =>
      if negb (validStrategies strategy)
      then (h, sent (httpError "Invalid strategy" StatusBadRequest) [])
      else
        (set_keyManager (keymanager.SetSelectionStrategy strategy (keyManager h)) h,
         sent {| status := StatusOK;
                 body := Document (JObject
                   [("message", JString "Selection strategy updated");
                    ("status", JString "success");
                    ("strategy", JString strategy)]) |} [])
  end.

Definition StrategyHandler (method : string) (decoded : option SelectionStrategy)
    (h : Handler) : Handler * Exchange :=
  if String.eqb method "GET" then getStrategyHandler h
  else if String.eqb method "POST" then setStrategyHandler decoded h
  else (h, sent (httpError "Method not allowed" StatusMethodNotAllowed) []).

(** The [current_strategy] field of a strategy document. *)
Definition currentStrategyOf (e : Exchange) : option string :=
  match written e with
  | Some {| status := _; body := Document j |} =>
      match field "current_strategy" j with
      | Some (JString s) => Some s
      | _ => None
      end
  | _ => None
  end.

Definition statusOf (e : Exchange) : option Z := option_map status (written e).

(** *** Key management endpoints *)

Record AddKeyRequest : Type := {
  Key : string;
  Name : string;
  Description : string
}.

(** [addKeyHandler]: [decoded] is the JSON body, or [None] when it does not
    decode; [now] is the database clock. *)
Definition addKeyHandler (decoded : option AddKeyRequest) (now : Time) (h : Handler)
  : Handler * Exchange :=
  match decoded with
  | None => (h, sent (httpError "Invalid request body" StatusBadRequest) [])
  | Some request =>
      if negb (HasPrefix (Key request) "tvly-")
      then (h, sent (httpError "Invalid key format: key must start with 'tvly-'"
                       StatusBadRequest) [])
      else if String.eqb (Key request) ""
      then (h, sent (httpError "Key is required" StatusBadRequest) [])
      else
        let name := if String.eqb (Name request) "" then "API Key" else Name request in
        let '(repo, created) :=
          repository.CreateKey (keyRepo h) now (Key request) name (Description request) in
        let h := set_keyRepo repo h in
        match created with
        | inr err =>
            if Contains err "Duplicate entry"
            then (h, sent (httpError "Key already exists" StatusConflict) [])
            else (h, sent (httpError "Failed to create key" StatusInternalServerError) [])
        | inl createdKey =>
            match slice_to (repository.KeyValue createdKey) 12 with
            | Panicked msg => (h, panicked None msg [])
            | Returned preview =>
                (h, sent {| status := StatusCreated;
                            body := Document (JObject
                              [("key", JObject
                                  [("created_at", JNumber (repository.CreatedAt createdKey));
                                   ("description", JString (repository.Description createdKey));
                                   ("id", JNumber (repository.ID createdKey));
                                   ("key_preview", JString (preview +:+ "..."));
                                   ("name", JString (repository.Name createdKey))]);
                               ("message", JString "API key added successfully");
                               ("status", JString "success")]) |} [])
            end
        end
  end.

(** The body of the scanning loop of [parseKeysFromText] for one line:
    whether the trimmed line is kept. *)
Definition keepLine (line : string) : bool :=
  if String.eqb line "" || HasPrefix line "#" then false
  else if negb (HasPrefix line "tvly-") then false
  else true.

Definition parseKeysFromText (text : string) : list string :=
  List.filter keepLine
    (List.map TrimSpace (scanLines (list_ascii_of_string text) [] 0)).

(** The counters of [importKeysToDatabase]. *)
Record ImportCount : Type := {
  imported : Z;
  skipped : Z;
  failed : Z;
  errorDetails : list string
}.

(** The loop of [importKeysToDatabase] from index [i]: every iteration
    formats a log line with [key[:12]]. *)
Fixpoint importLoop (keys : list string) (i : Z) (namePrefix : string) (now : Time)
    (repo : repository.KeyRepository) (count : ImportCount)
  : repository.KeyRepository * outcome ImportCount :=
  match keys with
  | [] => (repo, Returned count)
  | key :: rest =>
      let name := namePrefix +:+ " " +:+ itoa (wrap64 (i + 1)) in
      let '(repo, created) :=
        repository.CreateKey repo now key name "Imported via web interface" in
      match slice_to key 12 with
      | Panicked msg => (repo, Panicked msg)
      | Returned preview =>
          let count :=
            match created with
            | inr err =>
                if Contains err "Duplicate entry"
                then {| imported := imported count;
                        skipped := wrap64 (skipped count + 1);
                        failed := failed count;
                        errorDetails := errorDetails count |}
                else {| imported := imported count;
                        skipped := skipped count;
                        failed := wrap64 (failed count + 1);
                        errorDetails :=
                          errorDetails count ++
                          ["Key " +:+ preview +:+ "...: " +:+ err] |}
            | inl _ =>
                {| imported := wrap64 (imported count + 1);
                   skipped := skipped count;
                   failed := failed count;
                   errorDetails := errorDetails count |}
            end in
          importLoop rest (i + 1) namePrefix now repo count
      end
  end.

(** Whether the values that [importLoop] sends to the database for [keys]
    all fit their columns. *)
Fixpoint importFits (keys : list string) (i : Z) (namePrefix : string) : bool :=
  match keys with
  | [] => true
  | key :: rest =>
      match repository.insertError key (namePrefix +:+ " " +:+ itoa (wrap64 (i + 1)))
              "Imported via web interface" with
      | None => importFits rest (i + 1) namePrefix
      | Some _ => false
      end
  end.

Definition importKeysToDatabase (keys : list string) (namePrefix : string)
    (now : Time) (repo : repository.KeyRepository)
  : repository.KeyRepository * outcome JSON :=
  let namePrefix := if String.eqb namePrefix "" then "Imported Key" else namePrefix in
  match importLoop keys 0 namePrefix now repo
          {| imported := 0; skipped := 0; failed := 0; errorDetails := [] |} with
  | (repo, Panicked msg) => (repo, Panicked msg)
  | (repo, Returned count) =>
      let errs :=
        if 0 <? failed count
        then [("errors", JArray (List.map JString (errorDetails count)))]
        else [] in
      let verdict :=
        if imported count =? 0
        then [("message", JString "No new keys were imported");
              ("status", JString "warning")]
        else [("message",
               JString ("Successfully imported " +:+ itoa (imported count) +:+ " keys"));
              ("status", JString "success")] in
      (repo,
       Returned (JObject
         ([("error_count", JNumber (failed count))] ++ errs ++
          [("imported_count", JNumber (imported count))] ++
          [("skipped_count", JNumber (skipped count))] ++
          [("total_keys", JNumber (Z.of_nat (length keys)))] ++ verdict)))
  end.

(** The shared tail of the two import handlers once the text is at hand. *)
Definition importText (text namePrefix notFound : string) (now : Time) (h : Handler)
  : Handler * Exchange :=
  let keys := parseKeysFromText text in
  if Z.of_nat (length keys) =? 0
  then (h, sent (httpError notFound StatusBadRequest) [])
  else
    let '(repo, results) := importKeysToDatabase keys namePrefix now (keyRepo h) in
    let h := set_keyRepo repo h in
    match results with
    | Panicked msg => (h, panicked None msg [])
    | Returned doc => (h, sent {| status := StatusOK; body := Document doc |} [])
    end.

Record BulkImportRequest : Type := {
  Keys : string;
  Prefix : string
}.

Definition BulkImportKeysHandler (decoded : option BulkImportRequest) (now : Time)
    (h : Handler) : Handler * Exchange :=
  match decoded with
  | None => (h, sent (httpError "Invalid request body" StatusBadRequest) [])
  | Some request =>
      if String.eqb (Keys request) ""
      then (h, sent (httpError "Keys text is required" StatusBadRequest) [])
      else importText (Keys request) (Prefix request)
             "No valid keys found in the provided text" now h
  end.

(** A multipart upload as [FileUploadKeysHandler] sees it: whether the form
    parses, the file part if there is one, and the [prefix] form value. *)
Record Upload : Type := {
  formParses : bool;
  file : option (string * string);
  prefix : string
}.

Definition FileUploadKeysHandler (upload : Upload) (now : Time) (h : Handler)
  : Handler * Exchange :=
  if negb (formParses upload)
  then (h, sent (httpError "Failed to parse form" StatusBadRequest) [])
  else
    match file upload with
    | None => (h, sent (httpError "Failed to get file from form" StatusBadRequest) [])
    | Some (filename, content) =>
        if negb (HasSuffix (ToLower filename) ".txt")
        then (h, sent (httpError "Only .txt files are allowed" StatusBadRequest) [])
        else if String.eqb content ""
        then (h, sent (httpError "Failed to read file content"
                         StatusInternalServerError) [])
        else importText content (prefix upload)
               "No valid keys found in the uploaded file" now h
    end.

(** *** Listing and deleting keys *)

Definition StatusNotFound : Z := 404.

(** The loop of [listKeysHandler]: one JSON object per row, with the
    preview [key.KeyValue[:12]]. *)
Fixpoint listRows (keys : list repository.APIKey) : outcome (list JSON) :=
  match keys with
  | [] => Returned []
  | key :: rest =>
      match slice_to (repository.KeyValue key) 12 with
      | Panicked msg => Panicked msg
      | Returned preview =>
          match listRows rest with
          | Panicked msg => Panicked msg
          | Returned rows =>
              Returned
                (JObject
                   [("blacklist_reason", JString (repository.BlacklistReason key));
                    ("blacklisted_until",
                     match repository.BlacklistedUntil key with
                     | Some until => JNumber until
                     | None => JNull
                     end);
                    ("created_at", JNumber (repository.CreatedAt key));
                    ("description", JString (repository.Description key));
                    ("id", JNumber (repository.ID key));
                    ("is_active", JBool (repository.IsActive key));
                    ("is_blacklisted", JBool (repository.IsBlacklisted key));
                    ("key_preview", JString (preview +:+ "..."));
                    ("name", JString (repository.Name key));
                    ("updated_at", JNumber (repository.UpdatedAt key))] :: rows)
          end
      end
  end.

Definition listKeysHandler (h : Handler) : Handler * Exchange :=
  match repository.GetAllKeys (keyRepo h) with
  | inr _ => (h, sent (httpError "Failed to fetch keys" StatusInternalServerError) [])
  | inl keys =>
      match listRows keys with
      | Panicked msg => (h, panicked None msg [])
      | Returned rows =>
          (h, sent {| status := StatusOK;
                      body := Document (JObject
                        [("count", JNumber (Z.of_nat (length rows)));
                         ("keys", JArray rows)]) |} [])
      end
  end.

(** [strconv.ParseInt(s, 10, 64)]: the syntax and the range of
    [strconv.Atoi] on a 64-bit platform. *)
Definition ParseInt (s : string) : option Z := config.Atoi s.

(** [deleteKeyHandler]: [keyID] is the [id] query parameter, empty when it
    is absent. *)
Definition deleteKeyHandler (keyID : string) (h : Handler) : Handler * Exchange :=
  if String.eqb keyID ""
  then (h, sent (httpError "Key ID is required" StatusBadRequest) [])
  else
    match ParseInt keyID with
    | None => (h, sent (httpError "Invalid key ID" StatusBadRequest) [])
    | Some id =>
        match repository.GetKeyByID (keyRepo h) id with
        | inr _ => (h, sent (httpError "Key not found" StatusNotFound) [])
        | inl key =>
            let '(repo, err) :=
              repository.DeleteKey (keyRepo h) (repository.KeyValue key) in
            let h := set_keyRepo repo h in
            match err with
            | Some _ =>
                (h, sent (httpError "Failed to delete key" StatusInternalServerError) [])
            | None =>
                (h, sent {| status := StatusOK;
                            body := Document (JObject
                              [("message", JString "API key deleted successfully");
                               ("status", JString "success")]) |} [])
            end
        end
    end.

(** A request to [/api/keys]: the method with what each handler reads of
    the request. *)
Record KeysRequest : Type := {
  method : string;
  idParameter : string;
  addBody : option AddKeyRequest
}.

Definition KeysHandler (r : KeysRequest) (now : Time) (h : Handler)
  : Handler * Exchange :=
  if String.eqb (method r) "GET" then listKeysHandler h
  else if String.eqb (method r) "POST" then addKeyHandler (addBody r) now h
  else if String.eqb (method r) "DELETE" then deleteKeyHandler (idParameter r) h
  else (h, sent (httpError "Method not allowed" StatusMethodNotAllowed) []).

(** *** The blacklist endpoints *)

Definition entryJSON (entry : BlacklistEntry.t) : JSON :=
  JObject [("key", JString (BlacklistEntry.Key entry));
           ("reason", JString (BlacklistEntry.Reason entry));
           ("blacklisted_at", JNumber (BlacklistEntry.BlacklistedAt entry));
           ("permanent", JBool (BlacklistEntry.Permanent entry));
           ("error_count", JNumber (BlacklistEntry.ErrorCount entry))].

(** [BlacklistHandler]: a [nil] slice of entries is encoded as [null]. *)
Definition BlacklistHandler (h : Handler) : Handler * Exchange :=
  let blacklist := keymanager.GetBlacklist (keyManager h) in
  (h, sent {| status := StatusOK;
              body := Document (JObject
                [("blacklisted_keys",
                  match blacklist with
                  | [] => JNull
                  | _ => JArray (List.map entryJSON blacklist)
                  end);
                 ("count", JNumber (Z.of_nat (length blacklist)))]) |} []).

Definition ResetKeysHandler (h : Handler) : Handler * Exchange :=
  (set_keyManager (keymanager.ResetKeys (keyManager h)) h,
   sent {| status := StatusOK;
           body := Document (JObject
             [("message", JString "All keys reset and blacklist cleared");
              ("status", JString "success")]) |} []).

(** The calls of one client request that ended in a classified error:
    all of them, or all but the last when the last one succeeded. *)
Definition failedCalls (req : Request) (calls : list string) : list string :=
  match lastFailure req calls with
  | Some _ => calls
  | None => removelast calls
  end.

(** How often [key] occurs in [calls]. *)
Definition occurrences (key : string) (calls : list string) : Z :=
  Z.of_nat (count_occ string_dec calls key).

(** Client requests served one after the other. *)
Definition serveAll (reqs : list Request) (h : Handler) : Handler :=
  fold_left (fun h req => fst (proxyTavilyRequest req h)) reqs h.

(** The three public ways of adding keys. *)
Inductive keyRequest : Type :=
| AddKey (decoded : option AddKeyRequest)
| BulkImport (decoded : option BulkImportRequest)
| FileUpload (upload : Upload).

Definition serveKeyRequest (r : keyRequest) (now : Time) (h : Handler)
  : Handler * Exchange :=
  match r with
  | AddKey decoded => addKeyHandler decoded now h
  | BulkImport decoded => BulkImportKeysHandler decoded now h
  | FileUpload upload => FileUploadKeysHandler upload now h
  end.

End handler.

(** ** Package middleware *)

Module middleware.

(** The text before the first space of [s] and the text after it. *)
Fixpoint cut (s : string) : option (string * string) :=
  match s with
  | EmptyString => None
  | String c rest =>
      if Ascii.eqb c " "%char then Some (EmptyString, rest)
      else match cut rest with
           | Some (before, after) => Some (String c before, after)
           | None => None
           end
  end.

(** [strings.SplitN(s, " ", 2)]. *)
Definition SplitN2 (s : string) : list string :=
  match cut s with
  | Some (before, after) => [before; after]
  | None => [s]
  end.

Definition StatusUnauthorized : Z := 401.

Module AuthMiddleware.

(** The [Handler] method of [AuthMiddleware] around [next]: [None] when
    the request is passed on to [next], the response written otherwise.
    [authHeader] is [r.Header.Get("Authorization")]. *)
Definition Handler (authKey authHeader : string) : option handler.Response :=
  if String.eqb authKey "" then None
  else if String.eqb authHeader ""
  then Some (handler.httpError "Authorization header required" StatusUnauthorized)
  else
    match SplitN2 authHeader with
    | [scheme; token] =>
        if negb (String.eqb scheme "Bearer")
        then Some (handler.httpError "Invalid authorization header format"
                     StatusUnauthorized)
        else if negb (String.eqb token authKey)
        then Some (handler.httpError "Invalid authorization token" StatusUnauthorized)
        else None
    | _ => Some (handler.httpError "Invalid authorization header format"
                   StatusUnauthorized)
    end.

End AuthMiddleware.

End middleware.

(** ** Package proxy *)

Module proxy.

Record KeyManagerHealth : Type := {
  TotalKeys : Z;
  ActiveKeys : Z;
  BlacklistedKeys : Z
}.

Record HealthStatus : Type := {
  Status : string;
  Timestamp : Time;
  Version : string;
  Uptime : Z;
  KeyManager : KeyManagerHealth
}.

(** The [Health] method of [Server]: [startTime] is the server's start and
    [now] the clock.  The request and connection figures of the Go struct
    are constant zeros. *)
Definition Health (keyManager : keymanager.Manager) (startTime now : Time)
  : outcome HealthStatus :=
  match keymanager.GetStats keyManager with
  | Panicked msg => Panicked msg
  | Returned keyStats =>
      let status :=
        if types.KeyStats.ActiveKeys keyStats =? 0 then "unhealthy" else "healthy" in
      Returned {| Status := status; Timestamp := now; Version := "1.0.0";
                  Uptime := now - startTime;
                  KeyManager :=
                    {| TotalKeys := types.KeyStats.TotalKeys keyStats;
                       ActiveKeys := types.KeyStats.ActiveKeys keyStats;
                       BlacklistedKeys := types.KeyStats.BlacklistedKeys keyStats |} |}
  end.

End proxy.

(** ** Fixtures: the configurations and key sets of the scenarios *)

Module fixtures.

(** The configuration loaded from an environment with no variable set. *)
Definition defaultConfig : config.Config :=
  {| config.DBHost := "localhost";
     config.DBUsername := "tavily_user";
     config.DBPassword := "tavily_password";
     config.DBName := "tavily_load";
     config.DBMaxOpenConns := 25;
     config.DBMaxIdleConns := 5;
     config.RedisHost := "localhost";
     config.RedisPoolSize := 10;
     config.StartIndex := 0;
     config.BlacklistThreshold := 1;
     config.MaxRetries := 3;
     config.MaxConcurrentRequests := 100;
     config.TavilyBaseURL := "https://api.tavily.com";
     config.LogLevel := "info";
     config.LogFormat := "text";
     config.DefaultSelectionStrategy := "round_robin" |}.

(** The default configuration with another blacklist threshold and retry
    budget. *)
Definition tuned (threshold retries : Z) : config.Config :=
  {| config.DBHost := config.DBHost defaultConfig;
     config.DBUsername := config.DBUsername defaultConfig;
     config.DBPassword := config.DBPassword defaultConfig;
     config.DBName := config.DBName defaultConfig;
     config.DBMaxOpenConns := config.DBMaxOpenConns defaultConfig;
     config.DBMaxIdleConns := config.DBMaxIdleConns defaultConfig;
     config.RedisHost := config.RedisHost defaultConfig;
     config.RedisPoolSize := config.RedisPoolSize defaultConfig;
     config.StartIndex := config.StartIndex defaultConfig;
     config.BlacklistThreshold := threshold;
     config.MaxRetries := retries;
     config.MaxConcurrentRequests := config.MaxConcurrentRequests defaultConfig;
     config.TavilyBaseURL := config.TavilyBaseURL defaultConfig;
     config.LogLevel := config.LogLevel defaultConfig;
     config.LogFormat := config.LogFormat defaultConfig;
     config.DefaultSelectionStrategy := config.DefaultSelectionStrategy defaultConfig |}.

(** One more row, for [keyValue], with an empty blacklist reason, as
    [UnblacklistKey] leaves the row of a key. *)
Definition withKey (r : repository.KeyRepository) (at_ : Time) (keyValue : string)
  : repository.KeyRepository :=
  {| repository.api_keys :=
       repository.api_keys r ++
       [{| repository.ID := repository.next_id r;
           repository.KeyValue := keyValue;
           repository.Name := "API Key";
           repository.Description := "";
           repository.IsActive := true;
           repository.IsBlacklisted := false;
           repository.BlacklistedUntil := None;
           repository.BlacklistReason := "";
           repository.CreatedAt := at_;
           repository.UpdatedAt := at_ |}];
     repository.null_reason := repository.null_reason r;
     repository.key_blacklist_history := repository.key_blacklist_history r;
     repository.next_id := repository.next_id r + 1;
     repository.reachable := repository.reachable r |}.

(** A repository with a row for each of [keyValues], inserted in that
    order at times 1, 2, 3, ... *)
Fixpoint repositoryWith (keyValues : list string) (at_ : Time)
    (r : repository.KeyRepository) : repository.KeyRepository :=
  match keyValues with
  | [] => r
  | k :: rest => repositoryWith rest (at_ + 1) (withKey r at_ k)
  end.

Definition repositoryOf (keyValues : list string) : repository.KeyRepository :=
  repositoryWith keyValues 1 repository.emptyRepository.

(** The manager started at time [t] on [keyValues], or the blank struct
    when construction fails. *)
Definition managerOf (cfg : config.Config) (keyValues : list string) (t : Time)
  : keymanager.Manager :=
  match keymanager.NewManager cfg (repositoryOf keyValues) (keymanager.at_time t) with
  | inl m => m
  | inr _ => keymanager.blank cfg (repositoryOf keyValues) (keymanager.at_time t)
  end.

(** [n] selections in a row at times [t], [t+1], ...: the state reached and
    what each selection returned. *)
Fixpoint selections (n : nat) (t : Time) (m : keymanager.Manager)
  : keymanager.Manager * list (outcome keymanager.Selected) :=
  match n with
  | O => (m, [])
  | S n' =>
      let '(m, o) := keymanager.GetNextKey (keymanager.at_time t) m in
      let '(m, os) := selections n' (t + 1) m in
      (m, o :: os)
  end.

(** Selections in a row at the given runtimes: the state reached and what
    each selection returned. *)
Fixpoint selectionsAt (rts : list keymanager.Runtime) (m : keymanager.Manager)
  : keymanager.Manager * list (outcome keymanager.Selected) :=
  match rts with
  | [] => (m, [])
  | rt :: rest =>
      let '(m, o) := keymanager.GetNextKey rt m in
      let '(m, os) := selectionsAt rest m in
      (m, o :: os)
  end.

(** A runtime that visits maps in the reverse of the stored order. *)
Definition backwards (t : Time) : keymanager.Runtime :=
  {| keymanager.now := t; keymanager.firstPass := @rev _;
     keymanager.secondPass := @rev _ |}.

(** A snapshot whose three buckets are all at [used] of [limit]. *)
Definition snapshot (used limit : Z) : types.TavilyUsage.t :=
  {| types.TavilyUsage.Key :=
       {| types.KeyUsage.Usage := used; types.KeyUsage.Limit := limit |};
     types.TavilyUsage.Account :=
       {| types.AccountUsage.CurrentPlan := "researcher";
          types.AccountUsage.PlanUsage := used; types.AccountUsage.PlanLimit := limit;
          types.AccountUsage.PaygoUsage := used; types.AccountUsage.PaygoLimit := limit |} |}.

(** Usage and limit pairs on which the two computations of a utilisation
    are compared: small numbers, numbers around 2^53 where the conversions
    start to round, ties, and the ends of the 64-bit range. *)
Definition usagePairs : list (Z * Z) :=
  [(1500, 1000); (400, 1000); (1, 3); (2, 3); (0, 7); (1, 1); (10, 4);
   (2 ^ 53 + 1, 2 ^ 53); (2 ^ 53 + 1, 3); (2 ^ 53 + 3, 2 ^ 53 + 1);
   (9007199254740993, 9007199254740995); (2 ^ 63 - 1, 2 ^ 63 - 1);
   (2 ^ 63 - 1, 1); (1, 2 ^ 63 - 1); (2 ^ 62 + 1, 2 ^ 63 - 1025);
   (123456789012345678, 987654321098765432)].

(** A key file with a comment, a blank line, a padded key, a foreign key,
    a commented-out key and a key on a line that ends in CR LF. *)
Definition keysText : string :=
  "# production keys

  tvly-abcdefghijkl  
sk-not-a-tavily-key
#tvly-commented-out
tvly-mnopqrstuvwx" +:+ String (ascii_of_nat 13) "
".

(** Two keys of production length. *)
Definition keyA : string := "tvly-AAAAAAAAAAAA".
Definition keyB : string := "tvly-BBBBBBBBBBBB".

(** Two requests in flight at once: both select, the one on [keyB] fails
    with a 500, the one on [keyA] succeeds, a third request selects. *)
Definition interleaving : list keymanager.event :=
  [keymanager.EvSelect (keymanager.at_time 11);
   keymanager.EvSelect (keymanager.at_time 12);
   keymanager.EvError keyB (errors.ParseHTTPError 500 "upstream down" keyB)
     (keymanager.at_time 13);
   keymanager.EvSuccess keyA;
   keymanager.EvSelect (keymanager.at_time 14)].

(** An upstream that answers every call with the same reply. *)
Definition always (reply : handler.UpstreamReply) : string -> nat -> handler.UpstreamReply :=
  fun _ _ => reply.

(** A client request served at time [t]. *)
Definition requestAt (t : Time) (upstream : string -> nat -> handler.UpstreamReply)
  : handler.Request :=
  {| handler.endpoint := "/search"; handler.bodyReadable := true;
     handler.upstream := upstream;
     handler.runtime := fun attempt => keymanager.at_time (t + Z.of_nat attempt) |}.

End fixtures.

(** * Properties *)

(** ** Reading rows *)

Section reading_rows.

Import repository.

Lemma Scan_inl (r : KeyRepository) (row key : APIKey) :
  Scan r row = inl key <-> key = row /\ ID row ∉ null_reason r.
Proof.
  unfold Scan. destruct (bool_decide_reflect (ID row ∈ null_reason r)) as [Hin | Hout].
  - split; [discriminate | intros [_ H]; contradiction].
  - split; [intros H; inversion H; subst; split; [reflexivity | exact Hout]
           | intros [-> _]; reflexivity].
Qed.

Lemma Scan_inr (r : KeyRepository) (row : APIKey) (err : string) :
  Scan r row = inr err <-> err = scanError /\ ID row ∈ null_reason r.
Proof.
  unfold Scan. destruct (bool_decide_reflect (ID row ∈ null_reason r)) as [Hin | Hout].
  - split; [intros H; inversion H; subst; split; [reflexivity | exact Hin]
           | intros [-> _]; reflexivity].
  - split; [discriminate | intros [_ H]; contradiction].
Qed.

(** A listing that succeeds returns the rows it was given. *)
Lemma scanAll_inl (r : KeyRepository) (rows keys : list APIKey) :
  scanAll r rows = inl keys <->
  keys = rows /\ forall row, In row rows -> ID row ∉ null_reason r.
Proof.
  revert keys. induction rows as [| row rows IH]; intros keys; cbn [scanAll].
  - split; [intros H; inversion H; split; [reflexivity | intros ? []]
           | intros [-> _]; reflexivity].
  - destruct (Scan r row) as [key | err] eqn:Hs.
    + apply Scan_inl in Hs. destruct Hs as [-> Hout].
      destruct (scanAll r rows) as [keys' | err'].
      * destruct (proj1 (IH keys') eq_refl) as [-> Hall].
        split.
        -- intros H. inversion H. split; [reflexivity |].
           intros x [<- | Hx]; [exact Hout | apply Hall, Hx].
        -- intros [-> _]. reflexivity.
      * split; [discriminate |]. intros [-> Hall].
        assert (H : @inr (list APIKey) string err' = inl rows); [| discriminate].
        apply IH. split; [reflexivity |]. intros x Hx. apply Hall. now right.
    + apply Scan_inr in Hs. destruct Hs as [_ Hin].
      split; [discriminate |]. intros [_ Hall]. exfalso. apply (Hall row); [now left | exact Hin].
Qed.

(** A listing fails as soon as one of its rows has no blacklist reason. *)
Lemma scanAll_inr (r : KeyRepository) (rows : list APIKey) (row : APIKey) :
  In row rows -> ID row ∈ null_reason r -> scanAll r rows = inr scanError.
Proof.
  intros Hin Hnull. induction rows as [| k rows IH]; [destruct Hin |].
  cbn [scanAll]. destruct (Scan r k) as [key | err] eqn:Hs.
  - apply Scan_inl in Hs. destruct Hs as [-> Hout].
    destruct Hin as [-> | Hin]; [contradiction |].
    rewrite (IH Hin). reflexivity.
  - apply Scan_inr in Hs. destruct Hs as [-> _]. reflexivity.
Qed.

Lemma GetAllActiveKeys_inl (r : KeyRepository) (now : Time) (keys : list APIKey) :
  GetAllActiveKeys r now = inl keys ->
  reachable r = true /\ keys = List.filter (activeAt now) (api_keys r).
Proof.
  unfold GetAllActiveKeys. destruct (reachable r); cbn [negb]; [| discriminate].
  intros H. apply scanAll_inl in H. split; [reflexivity | apply H].
Qed.

Lemma GetKeyByValue_inl (r : KeyRepository) (keyValue : string) (row : APIKey) :
  GetKeyByValue r keyValue = inl row <->
  reachable r = true /\ findByValue (api_keys r) keyValue = Some row /\
  ID row ∉ null_reason r.
Proof.
  unfold GetKeyByValue. destruct (reachable r); cbn [negb].
  2:{ split; [discriminate | intros [H _]; discriminate]. }
  destruct (findByValue (api_keys r) keyValue) as [k |].
  - rewrite Scan_inl. split.
    + intros [-> H]. auto.
    + intros (_ & H & Hout). inversion H; subst. auto.
  - split; [discriminate | intros (_ & H & _); discriminate].
Qed.

Lemma GetKeyByID_inl (r : KeyRepository) (id : Z) (row : APIKey) :
  GetKeyByID r id = inl row <->
  reachable r = true /\ List.find (fun k => ID k =? id) (api_keys r) = Some row /\
  ID row ∉ null_reason r.
Proof.
  unfold GetKeyByID. destruct (reachable r); cbn [negb].
  2:{ split; [discriminate | intros [H _]; discriminate]. }
  destruct (List.find _ (api_keys r)) as [k |].
  - rewrite Scan_inl. split.
    + intros [-> H]. auto.
    + intros (_ & H & Hout). inversion H; subst. auto.
  - split; [discriminate | intros (_ & H & _); discriminate].
Qed.

End reading_rows.

(** ** The error taxonomy *)

Section taxonomy.

Import errors.

Lemma flags_ParseHTTPError (statusCode : Z) (body key : string) :
  flags (ParseHTTPError statusCode body key) =
  (fst (statusKind statusCode),
   fst (classifyError (fst (statusKind statusCode)) statusCode),
   snd (classifyError (fst (statusKind statusCode)) statusCode)).
Proof.
  unfold ParseHTTPError, NewTavilyErrorWithKey, NewTavilyError, flags.
  destruct (statusKind statusCode) as [kind msg]; simpl.
  destruct (classifyError kind statusCode); reflexivity.
Qed.

Lemma flags_NewTavilyError (kind : ErrorType) (msg : string) (statusCode : Z) :
  flags (NewTavilyError kind msg statusCode) =
  (kind, fst (classifyError kind statusCode), snd (classifyError kind statusCode)).
Proof.
  unfold NewTavilyError, flags.
  destruct (classifyError kind statusCode); reflexivity.
Qed.

Lemma statusKind_uncategorised (statusCode : Z) :
  categorised statusCode = false ->
  fst (statusKind statusCode) = ErrorTypeInternalError.
Proof.
  unfold categorised, statusKind; simpl; intros H.
  repeat (apply orb_false_iff in H; destruct H as [?E H]).
  repeat match goal with
         | E : (_ =? _) = false |- _ => rewrite E; clear E
         end.
  reflexivity.
Qed.

(** C3: classification gives every upstream outcome the kind and the
    permanent/retryable flags of the taxonomy table: 401 unauthorized
    (permanent, retryable); 403 forbidden (permanent, retryable);
    invalid_key (permanent, retryable); 404 not_found and 400 bad_request
    (neither); 429 rate_limit and 432/433 quota_exceeded (retryable only);
    500/502/503/504 server_error, timeout and network_error (retryable
    only); no_keys_available (neither); every other status internal_error
    (retryable, not permanent). *)
Theorem classification_follows_taxonomy :
  (forall body key,
     flags (ParseHTTPError 401 body key) = ("unauthorized", true, true) /\
     flags (ParseHTTPError 403 body key) = ("forbidden", true, true) /\
     flags (ParseHTTPError 404 body key) = ("not_found", false, false) /\
     flags (ParseHTTPError 400 body key) = ("bad_request", false, false) /\
     flags (ParseHTTPError 429 body key) = ("rate_limit", false, true) /\
     flags (ParseHTTPError 432 body key) = ("quota_exceeded", false, true) /\
     flags (ParseHTTPError 433 body key) = ("quota_exceeded", false, true) /\
     flags (ParseHTTPError 500 body key) = ("server_error", false, true) /\
     flags (ParseHTTPError 502 body key) = ("server_error", false, true) /\
     flags (ParseHTTPError 503 body key) = ("server_error", false, true) /\
     flags (ParseHTTPError 504 body key) = ("server_error", false, true)) /\
  (forall msg statusCode,
     flags (NewTavilyError ErrorTypeInvalidKey msg statusCode) = ("invalid_key", true, true) /\
     flags (NewTavilyError ErrorTypeTimeout msg statusCode) = ("timeout", false, true) /\
     flags (NewTavilyError ErrorTypeNetworkError msg statusCode)
       = ("network_error", false, true) /\
     flags (NewTavilyError ErrorTypeNoKeysAvailable msg statusCode)
       = ("no_keys_available", false, false)) /\
  (forall statusCode body key,
     categorised statusCode = false ->
     flags (ParseHTTPError statusCode body key) = ("internal_error", false, true)).
Proof.
  split; [| split].
  - intros body key. rewrite !flags_ParseHTTPError. repeat split; reflexivity.
  - intros msg statusCode. rewrite !flags_NewTavilyError. repeat split; reflexivity.
  - intros statusCode body key H.
    rewrite flags_ParseHTTPError, (statusKind_uncategorised _ H). reflexivity.
Qed.

(** A status the switch has no case for: 418. *)
Lemma classification_follows_taxonomy_witness :
  categorised 418 = false /\
  flags (ParseHTTPError 418 "short and stout" "tvly-0123456789")
    = ("internal_error", false, true).
Proof.
  split; [reflexivity |].
  apply (proj2 (proj2 classification_follows_taxonomy)). reflexivity.
Defined.

End taxonomy.

(** ** The key slice is fixed once the manager is built *)

Section key_slice.

Import keymanager.

Lemma keys_fold_initKey (ks : list string) (m : Manager) :
  keys (fold_left initKey ks m) = keys m.
Proof.
  revert m; induction ks as [| k ks IH]; intros m; simpl; [reflexivity |].
  rewrite IH. reflexivity.
Qed.

Lemma keys_updateKeyUsage (key : string) (rt : Runtime) (m : Manager) :
  keys (updateKeyUsage key rt m) = keys m.
Proof.
  unfold updateKeyUsage; simpl.
  destruct (keyStatus m !! key); reflexivity.
Qed.

Lemma keys_roundRobinLoop (n : nat) (totalKeys : Z) (rt : Runtime) (m : Manager) :
  keys (fst (roundRobinLoop n totalKeys rt m)) = keys m.
Proof.
  revert m; induction n as [| n IH]; intros m; simpl; [reflexivity |].
  destruct (index _ _) as [key | msg]; simpl; [| reflexivity].
  destruct (isBlacklisted _ key); simpl.
  - rewrite IH. reflexivity.
  - rewrite keys_updateKeyUsage. reflexivity.
Qed.

Lemma keys_GetNextKeyWithStrategy (strategy : types.SelectionStrategy) (rt : Runtime)
    (m : Manager) :
  keys (fst (GetNextKeyWithStrategy strategy rt m)) = keys m.
Proof.
  unfold GetNextKeyWithStrategy.
  match goal with |- context [match ?p with Some _ => _ | None => _ end] =>
    destruct p as [key |] end; simpl.
  - apply keys_updateKeyUsage.
  - unfold getRoundRobinKey.
    destruct (Z.of_nat (length (keys m)) =? 0); simpl; [reflexivity |].
    apply keys_roundRobinLoop.
Qed.

Lemma keys_BlacklistKey (key : string) (permanent : bool) (rt : Runtime) (m : Manager) :
  keys (BlacklistKey key permanent rt m) = keys m.
Proof.
  unfold BlacklistKey; simpl.
  destruct (keyStatus m !! key); reflexivity.
Qed.

Lemma keys_RecordError (key : string) (err : errors.TavilyError) (rt : Runtime)
    (m : Manager) :
  keys (fst (RecordError key err rt m)) = keys m.
Proof.
  unfold RecordError; simpl.
  destruct (keyStatus m !! key) as [status |]; simpl.
  - destruct (errors.Error err); simpl; [| reflexivity].
    destruct (_ <=? _); simpl; [rewrite keys_BlacklistKey |]; reflexivity.
  - destruct (_ <=? _); simpl; [rewrite keys_BlacklistKey |]; reflexivity.
Qed.

Lemma keys_after (m : Manager) (c : call) : keys (after m c) = keys m.
Proof.
  destruct c; simpl.
  - apply keys_GetNextKeyWithStrategy.
  - apply keys_RecordError.
  - apply keys_BlacklistKey.
  - unfold ResetKeys. rewrite keys_fold_initKey. reflexivity.
  - reflexivity.
  - unfold UpdateUsage. destruct (usage.UpdateUsage _ _ _); reflexivity.
Qed.

Lemma keys_afterAll (calls : list call) (m : Manager) :
  keys (afterAll m calls) = keys m.
Proof.
  unfold afterAll. revert m; induction calls as [| c calls IH]; intros m; simpl.
  - reflexivity.
  - rewrite IH. apply keys_after.
Qed.

Lemma NewManager_keys (cfg : config.Config) (repo : repository.KeyRepository)
    (rt : Runtime) (m : Manager) :
  NewManager cfg repo rt = inl m ->
  exists apiKeys,
    repository.GetAllActiveKeys repo (now rt) = inl apiKeys /\
    apiKeys <> [] /\
    keys m = List.map repository.KeyValue apiKeys.
Proof.
  unfold NewManager, loadKeys; simpl.
  destruct (repository.GetAllActiveKeys repo (now rt)) as [apiKeys | err];
    [| discriminate].
  destruct apiKeys as [| k rest]; simpl; [discriminate |].
  intros H; injection H as <-.
  exists (k :: rest). split; [reflexivity |]. split; [discriminate |].
  unfold initializeKeyStatus. rewrite keys_fold_initKey. reflexivity.
Qed.

Lemma statKey_fixed (m : Manager) (ks : list string) (s : types.KeyStats.t) :
  types.KeyStats.TotalKeys (fold_left (statKey m) ks s) = types.KeyStats.TotalKeys s /\
  types.KeyStats.CurrentIndex (fold_left (statKey m) ks s)
    = types.KeyStats.CurrentIndex s.
Proof.
  revert s; induction ks as [| k ks IH]; intros s; simpl; [split; reflexivity |].
  destruct (IH (statKey m s k)) as [-> ->].
  unfold statKey. destruct (keyStatus m !! k); split; reflexivity.
Qed.

(** C9: the statistics operation never divides by zero.  A manager that
    [NewManager] returned has at least one key, no call changes the key
    slice, and so [GetStats] returns (its [currentIndex % totalKeys] is
    defined) after any sequence of calls. *)
Theorem GetStats_never_divides_by_zero (cfg : config.Config)
    (repo : repository.KeyRepository) (rt : Runtime) (m : Manager)
    (calls : list call) :
  NewManager cfg repo rt = inl m ->
  (1 <= length (keys (afterAll m calls)))%nat /\
  exists stats,
    GetStats (afterAll m calls) = Returned stats /\
    types.KeyStats.TotalKeys stats = Z.of_nat (length (keys m)) /\
    types.KeyStats.CurrentIndex stats
      = Z.rem (currentIndex (afterAll m calls)) (Z.of_nat (length (keys m))).
Proof.
  intros H. destruct (NewManager_keys _ _ _ _ H) as (apiKeys & _ & Hne & Hkeys).
  assert (Hlen : (1 <= length (keys m))%nat).
  { rewrite Hkeys, length_map. destruct apiKeys; [congruence | simpl; lia]. }
  rewrite keys_afterAll. split; [exact Hlen |].
  unfold GetStats, rem. rewrite keys_afterAll.
  destruct (Z.of_nat (length (keys m)) =? 0) eqn:E; [lia |].
  eexists. split; [reflexivity |].
  match goal with |- context [fold_left (statKey ?m') ?ks ?s] =>
    destruct (statKey_fixed m' ks s) as [-> ->] end.
  split; reflexivity.
Qed.

(** Three keys, the default configuration, and a burst of calls that
    blacklists, resets and selects. *)
Lemma GetStats_never_divides_by_zero_witness :
  let m := fixtures.managerOf fixtures.defaultConfig ["K1"; "K2"; "K3"] 10 in
  let calls :=
    [CallGetNextKey (at_time 11); CallBlacklistKey "K2" false (at_time 12);
     CallGetNextKey (at_time 13); CallResetKeys;
     CallSetSelectionStrategy types.StrategyRoundRobin] in
  NewManager fixtures.defaultConfig (fixtures.repositoryOf ["K1"; "K2"; "K3"])
    (at_time 10) = inl m /\
  (1 <= length (keys (afterAll m calls)))%nat /\
  exists stats,
    GetStats (afterAll m calls) = Returned stats /\
    types.KeyStats.TotalKeys stats = Z.of_nat (length (keys m)) /\
    types.KeyStats.CurrentIndex stats
      = Z.rem (currentIndex (afterAll m calls)) (Z.of_nat (length (keys m))).
Proof.
  assert (H : NewManager fixtures.defaultConfig
                (fixtures.repositoryOf ["K1"; "K2"; "K3"]) (at_time 10)
              = inl (fixtures.managerOf fixtures.defaultConfig ["K1"; "K2"; "K3"] 10))
    by (vm_compute; reflexivity).
  split; [exact H |].
  exact (GetStats_never_divides_by_zero _ _ _ _ _ H).
Defined.

End key_slice.

(** ** The selection strategy: its start value and the strategy endpoint *)

Section strategy.

Import handler.

Lemma selectionStrategy_fold_initKey (ks : list string) (m : keymanager.Manager) :
  keymanager.selectionStrategy (fold_left keymanager.initKey ks m)
  = keymanager.selectionStrategy m.
Proof.
  revert m; induction ks as [| k ks IH]; intros m; simpl; [reflexivity |].
  rewrite IH. reflexivity.
Qed.

(** C7, as the code has it: whatever the configured default selection
    strategy, a manager starts with [plan_first]; [NewManager] never reads
    [DefaultSelectionStrategy]. *)
Theorem NewManager_starts_with_plan_first (cfg : config.Config)
    (repo : repository.KeyRepository) (rt : keymanager.Runtime)
    (m : keymanager.Manager) :
  keymanager.NewManager cfg repo rt = inl m ->
  keymanager.GetSelectionStrategy m = types.StrategyPlanFirst.
Proof.
  unfold keymanager.NewManager, keymanager.loadKeys; simpl.
  destruct (repository.GetAllActiveKeys repo (keymanager.now rt)) as [apiKeys | err];
    [| discriminate].
  destruct (_ =? 0); [discriminate |].
  intros H; injection H as <-.
  unfold keymanager.GetSelectionStrategy, keymanager.initializeKeyStatus.
  rewrite selectionStrategy_fold_initKey. reflexivity.
Qed.

(** The environment with no variable set loads the default configuration,
    whose default selection strategy is [round_robin]; the manager built
    from it is on [plan_first]. *)
Lemma NewManager_starts_with_plan_first_witness :
  config.Load config.emptyEnv = inl fixtures.defaultConfig /\
  config.DefaultSelectionStrategy fixtures.defaultConfig = "round_robin" /\
  keymanager.NewManager fixtures.defaultConfig (fixtures.repositoryOf ["K1"; "K2"; "K3"])
    (keymanager.at_time 10)
  = inl (fixtures.managerOf fixtures.defaultConfig ["K1"; "K2"; "K3"] 10) /\
  keymanager.GetSelectionStrategy
    (fixtures.managerOf fixtures.defaultConfig ["K1"; "K2"; "K3"] 10) = "plan_first".
Proof.
  split; [vm_compute; reflexivity |].
  split; [reflexivity |].
  assert (H : keymanager.NewManager fixtures.defaultConfig
                (fixtures.repositoryOf ["K1"; "K2"; "K3"]) (keymanager.at_time 10)
              = inl (fixtures.managerOf fixtures.defaultConfig ["K1"; "K2"; "K3"] 10))
    by (vm_compute; reflexivity).
  split; [exact H |].
  exact (NewManager_starts_with_plan_first _ _ _ _ H).
Defined.

(** C6: a POST of a known strategy answers 200 and a GET then reads that
    strategy; a POST of an unknown strategy answers 400 and changes nothing,
    so a GET reads what it read before. *)
Theorem strategy_round_trip (h : Handler) (strategy : types.SelectionStrategy) :
  let posted := StrategyHandler "POST" (Some strategy) h in
  (strategy = types.StrategyPlanFirst \/ strategy = types.StrategyRoundRobin ->
   statusOf (snd posted) = Some 200 /\
   currentStrategyOf (snd (StrategyHandler "GET" None (fst posted))) = Some strategy) /\
  (strategy <> types.StrategyPlanFirst /\ strategy <> types.StrategyRoundRobin ->
   statusOf (snd posted) = Some 400 /\
   fst posted = h /\
   currentStrategyOf (snd (StrategyHandler "GET" None (fst posted)))
   = Some (keymanager.GetSelectionStrategy (keyManager h))).
Proof.
  split.
  - intros [-> | ->]; simpl; split; reflexivity.
  - intros [Hp Hr].
    unfold StrategyHandler; simpl. unfold setStrategyHandler, validStrategies.
    apply String.eqb_neq in Hp, Hr. rewrite Hp, Hr; simpl.
    repeat split; reflexivity.
Qed.

Lemma strategy_round_trip_witness :
  let h := NewHandler (fixtures.managerOf fixtures.defaultConfig ["K1"; "K2"; "K3"] 10) in
  (statusOf (snd (StrategyHandler "POST" (Some "round_robin") h)) = Some 200 /\
   currentStrategyOf
     (snd (StrategyHandler "GET" None
             (fst (StrategyHandler "POST" (Some "round_robin") h))))
   = Some "round_robin") /\
  (statusOf (snd (StrategyHandler "POST" (Some "cost_optimized") h)) = Some 400 /\
   fst (StrategyHandler "POST" (Some "cost_optimized") h) = h /\
   currentStrategyOf
     (snd (StrategyHandler "GET" None
             (fst (StrategyHandler "POST" (Some "cost_optimized") h))))
   = Some "plan_first").
Proof.
  intros h. split.
  - apply (proj1 (strategy_round_trip h "round_robin")). right; reflexivity.
  - apply (proj2 (strategy_round_trip h "cost_optimized")). split; discriminate.
Defined.

End strategy.

(** ** Utilisation ratios *)

Section utilisation.

Import types usage.

Lemma two_pos (e : Z) : (0 < 2 ^ e)%Q.
Proof. apply Qpower_0_lt. reflexivity. Qed.

Lemma two_nonzero : ~ (2 == 0)%Q.
Proof. discriminate. Qed.

Lemma two_mono (a b : Z) : a <= b -> (2 ^ a <= 2 ^ b)%Q.
Proof. intros H. apply Qpower_le_compat_l; [exact H | discriminate]. Qed.

Lemma two_mono_lt (a b : Z) : a < b -> (2 ^ a < 2 ^ b)%Q.
Proof. intros H. apply Qpower_lt_compat_l; [exact H | reflexivity]. Qed.

Lemma two_inject (a : Z) : 0 <= a -> (inject_Z (2 ^ a) == 2 ^ a)%Q.
Proof. intros H. apply (Zpower_Qpower 2 a H). Qed.

(** [ilog2] brackets its argument. *)
Lemma ilog2_spec (q : Q) :
  (0 < q)%Q -> (2 ^ ilog2 q <= q /\ q < 2 ^ (ilog2 q + 1))%Q.
Proof.
  intros Hq. destruct q as [n d]. unfold ilog2. cbn [Qnum Qden].
  assert (Hn : 0 < n) by (unfold Qlt in Hq; simpl in Hq; lia).
  pose proof (Z.log2_spec n Hn) as [Hn1 Hn2].
  pose proof (Z.log2_spec (Z.pos d) (Pos2Z.is_pos d)) as [Hd1 Hd2].
  pose proof (Z.log2_nonneg n) as Ha. pose proof (Z.log2_nonneg (Z.pos d)) as Hb.
  set (a := Z.log2 n) in *. set (b := Z.log2 (Z.pos d)) in *.
  assert (Hnd : ((n # d) * inject_Z (Z.pos d) == inject_Z n)%Q).
  { unfold Qeq, Qmult, inject_Z. cbn [Qnum Qden]. rewrite Pos.mul_1_r. ring. }
  (* q < 2^(a - b + 1) *)
  assert (Hup : (n # d < 2 ^ (a - b + 1))%Q).
  { replace (a - b + 1) with ((a + 1) - b) by lia.
    rewrite Qpower_minus by exact two_nonzero.
    apply Qlt_shift_div_l; [apply two_pos |].
    apply Qle_lt_trans with ((n # d) * inject_Z (Z.pos d))%Q.
    - apply Qmult_le_l; [exact Hq |].
      rewrite <- (two_inject b) by lia. rewrite <- Zle_Qle. exact Hd1.
    - rewrite Hnd. rewrite <- (two_inject (a + 1)) by lia.
      rewrite <- Zlt_Qlt. replace (Z.succ a) with (a + 1) in Hn2 by lia. exact Hn2. }
  (* 2^(a - b - 1) <= q *)
  assert (Hlow : (2 ^ (a - b - 1) <= n # d)%Q).
  { replace (a - b - 1) with (a - (b + 1)) by lia.
    rewrite Qpower_minus by exact two_nonzero.
    apply Qle_shift_div_r; [apply two_pos |].
    apply Qle_trans with ((n # d) * inject_Z (Z.pos d))%Q.
    - rewrite Hnd. rewrite <- (two_inject a) by lia. rewrite <- Zle_Qle. exact Hn1.
    - apply Qmult_le_l; [exact Hq |].
      rewrite <- (two_inject (b + 1)) by lia. rewrite <- Zle_Qle.
      replace (Z.succ b) with (b + 1) in Hd2 by lia. lia. }
  destruct (Qle_bool (2 ^ (a - b)) (n # d)) eqn:E.
  - apply Qle_bool_iff in E. split; [exact E | exact Hup].
  - split; [exact Hlow |].
    replace (a - b - 1 + 1) with (a - b) by lia.
    apply Qnot_le_lt. intros H. apply Qle_bool_iff in H. congruence.
Qed.

Lemma ilog2_mono (x y : Q) : (0 < x)%Q -> (x <= y)%Q -> ilog2 x <= ilog2 y.
Proof.
  intros Hx Hxy.
  assert (Hy : (0 < y)%Q) by (eapply Qlt_le_trans; eassumption).
  destruct (ilog2_spec x Hx) as [Hx1 _]. destruct (ilog2_spec y Hy) as [_ Hy2].
  destruct (Z_lt_le_dec (ilog2 y) (ilog2 x)) as [Hlt | Hle]; [exfalso | exact Hle].
  assert (H : (2 ^ (ilog2 y + 1) <= 2 ^ ilog2 x)%Q) by (apply two_mono; lia).
  apply (Qlt_irrefl y).
  eapply Qlt_le_trans; [exact Hy2 |].
  eapply Qle_trans; [exact H |]. eapply Qle_trans; eassumption.
Qed.

(** Rounding to the nearest integer stays between the integers around. *)
Lemma roundHalfEven_floor (q : Q) :
  Qfloor q <= roundHalfEven q <= Qfloor q + 1.
Proof.
  unfold roundHalfEven. destruct (_ ?= _)%Q; [destruct (Z.even _) | |]; lia.
Qed.

Lemma roundHalfEven_le (q : Q) (k : Z) : (q <= inject_Z k)%Q -> roundHalfEven q <= k.
Proof.
  intros H. pose proof (Qfloor_le q) as Hf.
  assert (Hfk : Qfloor q <= k).
  { rewrite Zle_Qle. eapply Qle_trans; eassumption. }
  destruct (Z.eq_dec (Qfloor q) k) as [He | Hne].
  - (* q = k: the fractional part is 0 *)
    unfold roundHalfEven. rewrite He.
    assert (Hq : (q == inject_Z k)%Q).
    { apply Qle_antisym; [exact H |]. rewrite <- He. exact Hf. }
    assert (Hc : (q - inject_Z k ?= 1 # 2)%Q = Lt).
    { apply Qlt_alt. rewrite Hq. unfold Qminus. rewrite Qplus_opp_r. reflexivity. }
    rewrite Hc. lia.
  - pose proof (roundHalfEven_floor q). lia.
Qed.

Lemma roundHalfEven_ge (q : Q) (k : Z) : (inject_Z k <= q)%Q -> k <= roundHalfEven q.
Proof.
  intros H. pose proof (roundHalfEven_floor q).
  assert (k <= Qfloor q); [| lia].
  rewrite <- (Qfloor_Z k). apply Qfloor_resp_le. exact H.
Qed.

Lemma roundHalfEven_mono (x y : Q) : (x <= y)%Q -> roundHalfEven x <= roundHalfEven y.
Proof.
  intros Hxy. pose proof (Qfloor_resp_le x y Hxy) as Hf.
  pose proof (roundHalfEven_floor x) as Hx. pose proof (roundHalfEven_floor y) as Hy.
  destruct (Z.eq_dec (Qfloor x) (Qfloor y)) as [He | Hne]; [| lia].
  unfold roundHalfEven in *. rewrite He in *.
  set (f := Qfloor y) in *.
  assert (Hr : (x - inject_Z f <= y - inject_Z f)%Q).
  { unfold Qminus. apply Qplus_le_l. exact Hxy. }
  destruct (x - inject_Z f ?= 1 # 2)%Q eqn:Ex;
    destruct (y - inject_Z f ?= 1 # 2)%Q eqn:Ey;
    try (destruct (Z.even f); lia); try lia; exfalso.
  - apply Qeq_alt in Ex. apply Qlt_alt in Ey. rewrite Ex in Hr.
    exact (Qlt_irrefl _ (Qle_lt_trans _ _ _ Hr Ey)).
  - apply Qgt_alt in Ex. apply Qeq_alt in Ey. rewrite Ey in Hr.
    exact (Qlt_irrefl _ (Qle_lt_trans _ _ _ Hr Ex)).
  - apply Qgt_alt in Ex. apply Qlt_alt in Ey.
    apply (Qlt_irrefl (1 # 2)).
    eapply Qlt_trans; [exact Ex |]. eapply Qle_lt_trans; eassumption.
Qed.

(** The significand of a positive number lies between [2^52] and [2^53]. *)
Lemma significand_bounds (q : Q) :
  (0 < q)%Q ->
  let e := ilog2 q - 52 in
  2 ^ 52 <= roundHalfEven (q / 2 ^ e) <= 2 ^ 53.
Proof.
  intros Hq e. destruct (ilog2_spec q Hq) as [H1 H2].
  split.
  - apply roundHalfEven_ge. apply Qle_shift_div_l; [apply two_pos |].
    rewrite (two_inject 52) by lia. rewrite <- Qpower_plus by exact two_nonzero.
    replace (52 + e) with (ilog2 q) by (unfold e; lia). exact H1.
  - apply roundHalfEven_le. apply Qle_shift_div_r; [apply two_pos |].
    rewrite (two_inject 53) by lia. rewrite <- Qpower_plus by exact two_nonzero.
    replace (53 + e) with (ilog2 q + 1) by (unfold e; lia). apply Qlt_le_weak. exact H2.
Qed.

Lemma nearest64_pos (q : Q) : (0 < q)%Q -> (0 < nearest64 q)%Q.
Proof.
  intros Hq. unfold nearest64. rewrite Qred_correct.
  pose proof (significand_bounds q Hq) as [H _].
  apply Qmult_lt_0_compat; [| apply two_pos].
  replace 0%Q with (inject_Z 0) by reflexivity. rewrite <- Zlt_Qlt. lia.
Qed.

Lemma nearest64_mono (x y : Q) :
  (0 < x)%Q -> (x <= y)%Q -> (nearest64 x <= nearest64 y)%Q.
Proof.
  intros Hx Hxy.
  assert (Hy : (0 < y)%Q) by (eapply Qlt_le_trans; eassumption).
  pose proof (ilog2_mono x y Hx Hxy) as He.
  pose proof (significand_bounds x Hx) as [_ Hmx].
  pose proof (significand_bounds y Hy) as [Hmy _].
  unfold nearest64. rewrite !Qred_correct. cbv zeta in Hmx, Hmy.
  destruct (Z.eq_dec (ilog2 x) (ilog2 y)) as [Heq | Hne].
  - rewrite Heq. apply Qmult_le_compat_r; [| apply Qlt_le_weak, two_pos].
    rewrite <- Zle_Qle. apply roundHalfEven_mono.
    apply Qmult_le_compat_r; [exact Hxy |].
    apply Qlt_le_weak, Qinv_lt_0_compat, two_pos.
  - apply Qle_trans with (inject_Z (2 ^ 53) * 2 ^ (ilog2 x - 52))%Q.
    { apply Qmult_le_compat_r; [| apply Qlt_le_weak, two_pos].
      rewrite <- Zle_Qle. exact Hmx. }
    apply Qle_trans with (inject_Z (2 ^ 52) * 2 ^ (ilog2 y - 52))%Q.
    2:{ apply Qmult_le_compat_r; [| apply Qlt_le_weak, two_pos].
        rewrite <- Zle_Qle. exact Hmy. }
    rewrite (two_inject 53), (two_inject 52) by lia.
    rewrite <- !Qpower_plus by exact two_nonzero.
    apply two_mono. lia.
Qed.

Lemma float64_zero (q : Q) : (q == 0)%Q -> float64 q = 0%Q.
Proof. intros H. unfold float64. apply Qeq_alt in H. rewrite H. reflexivity. Qed.

Lemma float64_pos (q : Q) : (0 < q)%Q -> float64 q = nearest64 q.
Proof.
  intros H. unfold float64. apply Qgt_alt in H. rewrite H. reflexivity.
Qed.

(** Conversion to binary64 is monotone on the non-negative numbers. *)
Lemma float64_mono (x y : Q) : (0 <= x)%Q -> (x <= y)%Q -> (float64 x <= float64 y)%Q.
Proof.
  intros Hx Hxy.
  destruct (Qlt_le_dec 0 x) as [Hpos | Hzero].
  - rewrite (float64_pos x Hpos), (float64_pos y) by (eapply Qlt_le_trans; eassumption).
    apply nearest64_mono; assumption.
  - rewrite (float64_zero x) by (apply Qle_antisym; assumption).
    destruct (Qlt_le_dec 0 y) as [Hy | Hy].
    + rewrite (float64_pos y Hy). apply Qlt_le_weak, nearest64_pos. exact Hy.
    + rewrite (float64_zero y); [apply Qle_refl |].
      apply Qle_antisym; [exact Hy |]. eapply Qle_trans; eassumption.
Qed.

Lemma float64_one : float64 1 = 1%Q.
Proof. vm_compute. reflexivity. Qed.

Lemma utilization_bounds (used limit : Z) :
  0 < limit -> 0 <= used <= limit ->
  (0 <= utilization used limit /\ utilization used limit <= 1)%Q.
Proof.
  intros Hl [H0 H1]. unfold utilization.
  destruct (0 <? limit) eqn:E; [| apply Z.ltb_ge in E; lia].
  assert (Hlq : (0 < inject_Z limit)%Q) by (rewrite <- (Zlt_Qlt 0); exact Hl).
  assert (Huq : (0 <= inject_Z used)%Q) by (rewrite <- (Zle_Qle 0); exact H0).
  assert (Hul : (inject_Z used <= inject_Z limit)%Q) by (rewrite <- Zle_Qle; exact H1).
  assert (Hb : (0 < float64 (inject_Z limit))%Q).
  { rewrite (float64_pos _ Hlq). apply nearest64_pos. exact Hlq. }
  assert (Ha : (0 <= float64 (inject_Z used))%Q).
  { rewrite <- (float64_zero 0) at 1 by reflexivity.
    apply float64_mono; [apply Qle_refl | exact Huq]. }
  assert (Hab : (float64 (inject_Z used) <= float64 (inject_Z limit))%Q)
    by (apply float64_mono; assumption).
  assert (Hq0 : (0 <= float64 (inject_Z used) / float64 (inject_Z limit))%Q).
  { apply Qle_shift_div_l; [exact Hb |]. rewrite Qmult_0_l. exact Ha. }
  assert (Hq1 : (float64 (inject_Z used) / float64 (inject_Z limit) <= 1)%Q).
  { apply Qle_shift_div_r; [exact Hb |]. rewrite Qmult_1_l. exact Hab. }
  split.
  - rewrite <- (float64_zero 0) at 1 by reflexivity.
    apply float64_mono; [apply Qle_refl | exact Hq0].
  - rewrite <- float64_one. apply float64_mono; assumption.
Qed.

Lemma utilization_without_limit (used limit : Z) :
  limit <= 0 -> utilization used limit = 0%Q.
Proof.
  intros H. unfold utilization.
  destruct (0 <? limit) eqn:E; [apply Z.ltb_lt in E; lia | reflexivity].
Qed.

(** On every pair of [fixtures.usagePairs] the rounding written out in
    [float64] gives the number that the primitive binary64 division gives;
    and the binary64 quotient of 2^53 + 1 by 2^53 is 1. *)
Lemma utilization_is_the_binary64_quotient :
  forallb (fun p => match denoted (utilization64 (fst p) (snd p)) with
                    | Some q => Qeq_bool q (utilization (fst p) (snd p))
                    | None => false
                    end) fixtures.usagePairs = true /\
  utilization (2 ^ 53 + 1) (2 ^ 53) = 1%Q.
Proof. vm_compute. split; reflexivity. Qed.

(** C8 fails as stated: the upstream reports 1500 points used of a limit of
    1000, the limit is positive, and each of the three utilisations is 3/2,
    on the primitive binary64 numbers as well.  A negative usage gives a
    negative ratio. *)
Lemma utilization_above_one :
  let t := fst (UpdateUsage NewTracker "tvly-0123456789" (fixtures.snapshot 1500 1000)) in
  exists r,
    CalculateRemainingPoints t "tvly-0123456789" = Some r /\
    (1 < RemainingPoints.KeyUtilization r)%Q /\
    (1 < RemainingPoints.PlanUtilization r)%Q /\
    (1 < RemainingPoints.PaygoUtilization r)%Q /\
    PrimFloat.ltb 1 (utilization64 1500 1000) = true /\
    (utilization (-5) 1000 < 0)%Q.
Proof.
  eexists. split; [vm_compute; reflexivity |].
  repeat split; vm_compute; reflexivity.
Qed.

(** C8, amended: when a limit is positive and the usage reported against
    it lies between 0 and that limit, the utilisation of that bucket, the
    binary64 quotient of the two numbers converted to binary64, lies in
    [0,1]; this holds for the key, plan and pay-as-you-go buckets alike. *)
Theorem utilization_in_unit_interval (t : Tracker) (key : string)
    (u : TavilyUsage.t) :
  GetUsage t key = Some u ->
  exists r,
    CalculateRemainingPoints t key = Some r /\
    (0 < KeyUsage.Limit (TavilyUsage.Key u) ->
     0 <= KeyUsage.Usage (TavilyUsage.Key u) <= KeyUsage.Limit (TavilyUsage.Key u) ->
     (0 <= RemainingPoints.KeyUtilization r /\ RemainingPoints.KeyUtilization r <= 1)%Q) /\
    (0 < AccountUsage.PlanLimit (TavilyUsage.Account u) ->
     0 <= AccountUsage.PlanUsage (TavilyUsage.Account u)
       <= AccountUsage.PlanLimit (TavilyUsage.Account u) ->
     (0 <= RemainingPoints.PlanUtilization r /\ RemainingPoints.PlanUtilization r <= 1)%Q) /\
    (0 < AccountUsage.PaygoLimit (TavilyUsage.Account u) ->
     0 <= AccountUsage.PaygoUsage (TavilyUsage.Account u)
       <= AccountUsage.PaygoLimit (TavilyUsage.Account u) ->
     (0 <= RemainingPoints.PaygoUtilization r /\ RemainingPoints.PaygoUtilization r <= 1)%Q).
Proof.
  intros H. unfold CalculateRemainingPoints. rewrite H; simpl.
  eexists. split; [reflexivity |]. simpl.
  repeat split; intros; apply utilization_bounds; assumption.
Qed.

(** 400 points used of 1000 in every bucket. *)
Lemma utilization_in_unit_interval_witness :
  let t := fst (UpdateUsage NewTracker "tvly-0123456789" (fixtures.snapshot 400 1000)) in
  GetUsage t "tvly-0123456789" = Some (fixtures.snapshot 400 1000) /\
  exists r,
    CalculateRemainingPoints t "tvly-0123456789" = Some r /\
    (0 <= RemainingPoints.KeyUtilization r /\ RemainingPoints.KeyUtilization r <= 1)%Q /\
    (0 <= RemainingPoints.PlanUtilization r /\ RemainingPoints.PlanUtilization r <= 1)%Q /\
    (0 <= RemainingPoints.PaygoUtilization r /\ RemainingPoints.PaygoUtilization r <= 1)%Q.
Proof.
  intros t.
  assert (H : GetUsage t "tvly-0123456789" = Some (fixtures.snapshot 400 1000)) by reflexivity.
  split; [exact H |].
  destruct (utilization_in_unit_interval t _ _ H) as (r & Hr & Hk & Hp & Hg).
  exists r. split; [exact Hr |].
  split; [apply Hk | split; [apply Hp | apply Hg]]; simpl; lia.
Defined.

End utilisation.

(** ** Keys enter the repository only with the [tvly-] prefix *)

Section key_intake.

Import handler.

Lemma keepLine_spec (line : string) :
  keepLine line = true <->
  line <> "" /\ HasPrefix line "#" = false /\ HasPrefix line "tvly-" = true.
Proof.
  unfold keepLine.
  destruct (String.eqb_spec line "") as [-> | Hne]; simpl.
  - split; [discriminate | intros [H _]; congruence].
  - destruct (HasPrefix line "#"); simpl.
    + split; [discriminate | intros (_ & H & _); discriminate].
    + destruct (HasPrefix line "tvly-"); simpl.
      * split; [intros _; repeat split; assumption | reflexivity].
      * split; [discriminate | intros (_ & _ & H); discriminate].
Qed.

Lemma tvly_prefix_kept (line : string) :
  HasPrefix line "tvly-" = true -> keepLine line = true.
Proof.
  unfold keepLine, HasPrefix. intros Hp. rewrite Hp.
  destruct line as [| c rest]; [discriminate |].
  change (String.prefix "tvly-" (String c rest))
    with (if Ascii.ascii_dec "t"%char c then String.prefix "vly-" rest else false) in Hp.
  destruct (Ascii.ascii_dec "t"%char c) as [<- |]; [reflexivity | discriminate].
Qed.

Lemma storedKeys_CreateKey (r : repository.KeyRepository) (now : Time)
    (keyValue name description : string) (key : string) :
  In key (repository.storedKeys
            (fst (repository.CreateKey r now keyValue name description))) ->
  In key (repository.storedKeys r) \/ key = keyValue.
Proof.
  unfold repository.CreateKey, repository.storedKeys.
  destruct (negb (repository.reachable r)); cbn [fst]; [tauto |].
  destruct (repository.insertError _ _ _); cbn [fst]; [tauto |].
  destruct (repository.findByValue _ _); cbn [fst repository.api_keys]; [tauto |].
  rewrite map_app, in_app_iff; simpl. intros [H | [H | []]]; auto.
Qed.

Lemma storedKeys_importLoop (keys : list string) (i : Z) (namePrefix : string)
    (now : Time) (repo : repository.KeyRepository) (count : ImportCount)
    (key : string) :
  In key (repository.storedKeys (fst (importLoop keys i namePrefix now repo count))) ->
  In key (repository.storedKeys repo) \/ In key keys.
Proof.
  revert i repo count; induction keys as [| k keys IH]; intros i repo count; simpl.
  - tauto.
  - pose proof (storedKeys_CreateKey repo now k
                  (namePrefix +:+ " " +:+ itoa (wrap64 (i + 1)))
                  "Imported via web interface" key) as Hc.
    destruct (repository.CreateKey repo now k _ _) as [repo' created]; simpl in *.
    destruct (slice_to k 12) as [preview | msg]; simpl.
    + intros H. apply IH in H. destruct H as [H | H]; [| tauto].
      apply Hc in H. destruct H as [H | ->]; tauto.
    + intros H. apply Hc in H. destruct H as [H | ->]; tauto.
Qed.

Lemma storedKeys_importText (text namePrefix notFound : string) (now : Time)
    (h : Handler) (key : string) :
  In key (repository.storedKeys (keyRepo (fst (importText text namePrefix notFound now h)))) ->
  In key (repository.storedKeys (keyRepo h)) \/ In key (parseKeysFromText text).
Proof.
  unfold importText.
  destruct (_ =? 0); simpl; [tauto |].
  unfold importKeysToDatabase.
  pose proof (storedKeys_importLoop (parseKeysFromText text) 0
                (if String.eqb namePrefix "" then "Imported Key" else namePrefix)
                now (keyRepo h)
                {| imported := 0; skipped := 0; failed := 0; errorDetails := [] |}
                key) as Hl.
  destruct (importLoop _ _ _ _ _ _) as [repo [count | msg]]; simpl in *; exact Hl.
Qed.

(** C10: every key accepted through the key-add and bulk-import interfaces
    starts with [tvly-].  The add endpoint answers 400 to a key without the
    prefix and stores nothing; the text parser returns only trimmed lines
    that are non-empty, do not begin with [#] and begin with [tvly-],
    and it returns every scanned line whose trimmed form is such; and a key
    that is in the repository after an add, a bulk import or a file upload
    was there before or starts with [tvly-]. *)
Theorem accepted_keys_start_with_tvly (h : Handler) (now : Time) :
  (forall request,
     HasPrefix (Key request) "tvly-" = false ->
     addKeyHandler (Some request) now h
     = (h, sent (httpError "Invalid key format: key must start with 'tvly-'" 400) [])) /\
  (forall text key,
     In key (parseKeysFromText text) ->
     key <> "" /\ HasPrefix key "#" = false /\ HasPrefix key "tvly-" = true) /\
  (forall text line,
     In line (scanLines (list_ascii_of_string text) [] 0) ->
     HasPrefix (TrimSpace line) "tvly-" = true ->
     In (TrimSpace line) (parseKeysFromText text)) /\
  (forall request key,
     In key (repository.storedKeys (keyRepo (fst (serveKeyRequest request now h)))) ->
     In key (repository.storedKeys (keyRepo h)) \/ HasPrefix key "tvly-" = true).
Proof.
  split; [| split; [| split]].
  - intros request H. unfold addKeyHandler. rewrite H. reflexivity.
  - intros text key H. unfold parseKeysFromText in H.
    apply filter_In in H. destruct H as [_ H]. apply keepLine_spec. exact H.
  - intros text line Hin Hp. unfold parseKeysFromText.
    apply filter_In. split; [apply in_map; exact Hin |].
    apply tvly_prefix_kept. exact Hp.
  - assert (Hparsed : forall text key,
              In key (parseKeysFromText text) -> HasPrefix key "tvly-" = true).
    { intros text key H. unfold parseKeysFromText in H.
      apply filter_In in H. destruct H as [_ H]. apply keepLine_spec in H. tauto. }
    intros [decoded | decoded | upload] key; simpl.
    + unfold addKeyHandler. destruct decoded as [request |]; simpl; [| tauto].
      destruct (HasPrefix (Key request) "tvly-") eqn:Hp; simpl; [| tauto].
      destruct (String.eqb (Key request) ""); simpl; [tauto |].
      match goal with |- context [repository.CreateKey ?r ?n ?k ?nm ?d] =>
        pose proof (storedKeys_CreateKey r n k nm d key) as Hc;
        destruct (repository.CreateKey r n k nm d) as [repo created] end.
      simpl in Hc.
      assert (Hgoal : In key (repository.storedKeys repo) ->
                      In key (repository.storedKeys (keyRepo h)) \/
                      HasPrefix key "tvly-" = true).
      { intros H. apply Hc in H. destruct H as [H | ->]; [left | right]; assumption. }
      destruct created as [createdKey | err]; simpl.
      * destruct (slice_to _ 12); simpl; exact Hgoal.
      * destruct (Contains err _); simpl; exact Hgoal.
    + unfold BulkImportKeysHandler. destruct decoded as [request |]; simpl; [| tauto].
      destruct (String.eqb (Keys request) ""); simpl; [tauto |].
      intros H. apply storedKeys_importText in H.
      destruct H as [H | H]; [left; exact H | right; eapply Hparsed; exact H].
    + unfold FileUploadKeysHandler.
      destruct (formParses upload); simpl; [| tauto].
      destruct (file upload) as [[filename content] |]; simpl; [| tauto].
      destruct (HasSuffix _ _); simpl; [| tauto].
      destruct (String.eqb content ""); simpl; [tauto |].
      intros H. apply storedKeys_importText in H.
      destruct H as [H | H]; [left; exact H | right; eapply Hparsed; exact H].
Qed.

(** A foreign key at the add endpoint, and the sample key file. *)
Lemma accepted_keys_start_with_tvly_witness :
  let h := NewHandler (fixtures.managerOf fixtures.defaultConfig ["tvly-AAAAAAAAAAAA"] 10) in
  let foreign := {| Key := "sk-123"; Name := ""; Description := "" |} in
  HasPrefix (Key foreign) "tvly-" = false /\
  addKeyHandler (Some foreign) 20 h
  = (h, sent (httpError "Invalid key format: key must start with 'tvly-'" 400) []) /\
  parseKeysFromText fixtures.keysText = ["tvly-abcdefghijkl"; "tvly-mnopqrstuvwx"] /\
  ("tvly-abcdefghijkl" <> "" /\ HasPrefix "tvly-abcdefghijkl" "#" = false /\
   HasPrefix "tvly-abcdefghijkl" "tvly-" = true).
Proof.
  intros h foreign.
  destruct (accepted_keys_start_with_tvly h 20) as (Hadd & Hparse & _ & _).
  split; [reflexivity |].
  split; [apply Hadd; reflexivity |].
  split; [vm_compute; reflexivity |].
  apply (Hparse fixtures.keysText). vm_compute. left; reflexivity.
Defined.

End key_intake.

(** ** Selection: rotation order and the blacklist *)

Section selection.

Import keymanager.

Lemma wrap64_small (z : Z) : - 2 ^ 63 <= z < 2 ^ 63 -> wrap64 z = z.
Proof.
  intros H. unfold wrap64.
  rewrite Z.mod_small; lia.
Qed.

Lemma isBlacklisted_updateKeyUsage (key k : string) (rt : Runtime) (m : Manager) :
  isBlacklisted (updateKeyUsage key rt m) k = isBlacklisted m k.
Proof.
  unfold updateKeyUsage, isBlacklisted; simpl.
  destruct (keyStatus m !! key); reflexivity.
Qed.

Lemma isBlacklisted_BlacklistKey (key : string) (permanent : bool) (rt : Runtime)
    (m : Manager) :
  isBlacklisted (BlacklistKey key permanent rt m) key = true.
Proof.
  unfold BlacklistKey, isBlacklisted; simpl.
  destruct (keyStatus m !! key); simpl; rewrite lookup_insert_eq; reflexivity.
Qed.

Lemma roundRobinLoop_skips_blacklisted (n : nat) (totalKeys : Z) (rt : Runtime)
    (m : Manager) (key : string) :
  isBlacklisted m key = true ->
  handsOut (snd (roundRobinLoop n totalKeys rt m)) key = false.
Proof.
  revert m; induction n as [| n IH]; intros m Hb; simpl; [reflexivity |].
  destruct (index _ _) as [k | msg]; simpl; [| reflexivity].
  destruct (isBlacklisted _ k) eqn:Hk; simpl.
  - apply IH. exact Hb.
  - unfold handsOut; simpl.
    destruct (String.eqb_spec k key) as [-> |]; [| reflexivity].
    unfold isBlacklisted in *; simpl in *. congruence.
Qed.

(** A key with an entry in the in-memory blacklist is never handed out,
    whatever the strategy and whatever the time. *)
Lemma blacklisted_key_is_skipped (strategy : types.SelectionStrategy) (rt : Runtime)
    (m : Manager) (key : string) :
  isBlacklisted m key = true ->
  handsOut (snd (GetNextKeyWithStrategy strategy rt m)) key = false.
Proof.
  intros Hb. unfold GetNextKeyWithStrategy.
  assert (Hrr : handsOut (snd (getRoundRobinKey rt m)) key = false).
  { unfold getRoundRobinKey. destruct (_ =? 0); simpl; [reflexivity |].
    apply roundRobinLoop_skips_blacklisted. exact Hb. }
  destruct (String.eqb strategy types.StrategyPlanFirst); [| exact Hrr].
  destruct (usage.GetOptimalKey _ _ _ _) as [k |]; [| exact Hrr].
  destruct (isBlacklisted m k) eqn:Hk; [exact Hrr |].
  unfold handsOut; simpl.
  destruct (String.eqb_spec k key) as [-> |]; [congruence | reflexivity].
Qed.

(** C1, as the code has it: a key blacklisted temporarily at [rt0] is not
    handed out by any later selection, at whatever time [rt] it runs: the
    in-memory blacklist entry carries no expiry and selection only looks
    the key up. *)
Theorem temporary_blacklist_never_expires (m : Manager) (key : string)
    (rt0 rt : Runtime) :
  handsOut (snd (GetNextKey rt (BlacklistKey key false rt0 m))) key = false.
Proof.
  apply blacklisted_key_is_skipped. apply isBlacklisted_BlacklistKey.
Qed.

(** The expiry scenario: K1 is blacklisted temporarily at t0 = 1000.  The
    repository row gets [blacklisted_until = 1300] and the repository's own
    active-key query lists K1 again at t0 + 6 min, but selection at
    t0 + 3 min and at t0 + 6 min both answer that all keys are blacklisted. *)
Lemma temporary_blacklist_scenario :
  let m := BlacklistKey "K1" false (at_time 1000)
             (fixtures.managerOf fixtures.defaultConfig ["K1"] 10) in
  List.map repository.BlacklistedUntil (repository.api_keys (keyRepo m)) = [Some 1300] /\
  option_map (List.map repository.KeyValue)
    (match repository.GetAllActiveKeys (keyRepo m) 1360 with
     | inl ks => Some ks | inr _ => None end) = Some ["K1"] /\
  snd (GetNextKey (at_time 1180) m)
  = Returned (inr (errors.NewTavilyError errors.ErrorTypeNoKeysAvailable
                     "all API keys are blacklisted" 500)) /\
  snd (GetNextKey (at_time 1360) m)
  = Returned (inr (errors.NewTavilyError errors.ErrorTypeNoKeysAvailable
                     "all API keys are blacklisted" 500)).
Proof. vm_compute. repeat split; reflexivity. Qed.

(** With a second key in rotation, K2 is served at t0 + 6 min and K1 is
    still passed over. *)
Lemma temporary_blacklist_scenario_two_keys :
  let m := BlacklistKey "K1" false (at_time 1000)
             (fixtures.managerOf fixtures.defaultConfig ["K1"; "K2"] 10) in
  List.map handedOut (snd (fixtures.selections 4 1360 m))
  = [Some "K2"; Some "K2"; Some "K2"; Some "K2"].
Proof. vm_compute. reflexivity. Qed.

(** The first round-robin selection from cursor [c] over keys none of which
    is blacklisted returns the key at index [(c + 1) mod N]: the cursor is
    advanced and the advanced value is the index read. *)
Lemma round_robin_reads_advanced_cursor (rt : Runtime) (m : Manager) (key : string) :
  0 <= currentIndex m < 2 ^ 63 - 1 ->
  keys m !! Z.to_nat ((currentIndex m + 1) mod Z.of_nat (length (keys m))) = Some key ->
  isBlacklisted m key = false ->
  handedOut (snd (getRoundRobinKey rt m)) = Some key /\
  currentIndex (fst (getRoundRobinKey rt m)) = currentIndex m + 1.
Proof.
  intros Hc Hk Hb. unfold getRoundRobinKey.
  assert (Hlen : 0 < Z.of_nat (length (keys m))).
  { destruct (keys m); [rewrite lookup_nil in Hk; discriminate | simpl; lia]. }
  destruct (Z.of_nat (length (keys m)) =? 0) eqn:E; [lia |].
  destruct (length (keys m)) as [| n] eqn:El; [simpl in Hlen; lia |].
  cbn [roundRobinLoop].
  rewrite wrap64_small by lia.
  cbn [keys set_currentIndex].
  rewrite Z.rem_mod_nonneg by lia.
  unfold index.
  destruct (_ <? 0) eqn:Eneg.
  { apply Z.ltb_lt in Eneg.
    pose proof (Z.mod_pos_bound (currentIndex m + 1) (Z.of_nat (S n))). lia. }
  rewrite Hk.
  replace (isBlacklisted _ key) with (isBlacklisted m key) by reflexivity.
  rewrite Hb. simpl.
  split; [reflexivity |].
  unfold updateKeyUsage; simpl. destruct (keyStatus m !! key); reflexivity.
Qed.

(** C2, as the code has it: keys K1, K2, K3 loaded in that order, start
    index 0, strategy round_robin, six selections in a row.  The cursor
    starts at 0 and is advanced before it is read, so the keys come out as
    K2, K3, K1, K2, K3, K1; every request counter ends at 2. *)
Theorem rotation_starts_at_second_key :
  let m0 := SetSelectionStrategy types.StrategyRoundRobin
              (fixtures.managerOf fixtures.defaultConfig ["K1"; "K2"; "K3"] 10) in
  let '(m, selected) := fixtures.selections 6 11 m0 in
  keys m0 = ["K1"; "K2"; "K3"] /\
  currentIndex m0 = 0 /\
  List.map handedOut selected
  = [Some "K2"; Some "K3"; Some "K1"; Some "K2"; Some "K3"; Some "K1"] /\
  List.map (counter (requestCounts m)) ["K1"; "K2"; "K3"] = [2; 2; 2].
Proof. vm_compute. repeat split; reflexivity. Qed.

End selection.

(** ** Request and error counters *)

Section counters.

Import keymanager.

Lemma counter_increment (counts : gmap string Z) (key k : string) :
  counter (increment counts key) k
  = if decide (key = k) then wrap64 (counter counts key + 1) else counter counts k.
Proof.
  unfold increment, counter at 1. rewrite lookup_insert.
  destruct (decide (key = k)); reflexivity.
Qed.

Lemma counter_ensure (counts : gmap string Z) (key k : string) :
  counter (ensure counts key) k = counter counts k.
Proof.
  unfold ensure, counter.
  destruct (counts !! key) eqn:E; [reflexivity |].
  rewrite lookup_insert. destruct (decide (key = k)) as [<- |]; [| reflexivity].
  rewrite E. reflexivity.
Qed.

Lemma counts_updateKeyUsage (key : string) (rt : Runtime) (m : Manager) :
  errorCounts (updateKeyUsage key rt m) = errorCounts m /\
  requestCounts (updateKeyUsage key rt m) = increment (requestCounts m) key.
Proof.
  unfold updateKeyUsage; simpl.
  destruct (keyStatus m !! key); split; reflexivity.
Qed.

Lemma counts_roundRobinLoop (n : nat) (totalKeys : Z) (rt : Runtime) (m : Manager) :
  errorCounts (fst (roundRobinLoop n totalKeys rt m)) = errorCounts m /\
  requestCounts (fst (roundRobinLoop n totalKeys rt m))
  = match handedOut (snd (roundRobinLoop n totalKeys rt m)) with
    | Some key => increment (requestCounts m) key
    | None => requestCounts m
    end.
Proof.
  revert m; induction n as [| n IH]; intros m; simpl; [split; reflexivity |].
  destruct (index _ _) as [key | msg]; simpl; [| split; reflexivity].
  destruct (isBlacklisted _ key); simpl.
  - destruct (IH (set_currentIndex (wrap64 (currentIndex m + 1)) m)) as [He Hr].
    split; [rewrite He | rewrite Hr]; reflexivity.
  - destruct (counts_updateKeyUsage key rt
                (set_currentIndex (wrap64 (currentIndex m + 1)) m)) as [He Hr].
    split; [rewrite He | rewrite Hr]; reflexivity.
Qed.

Lemma counts_GetNextKey (rt : Runtime) (m : Manager) :
  errorCounts (fst (GetNextKey rt m)) = errorCounts m /\
  requestCounts (fst (GetNextKey rt m))
  = match handedOut (snd (GetNextKey rt m)) with
    | Some key => increment (requestCounts m) key
    | None => requestCounts m
    end.
Proof.
  unfold GetNextKey, GetNextKeyWithStrategy.
  match goal with |- context [match ?p with Some _ => _ | None => _ end] =>
    destruct p as [key |] end; simpl.
  - apply counts_updateKeyUsage.
  - unfold getRoundRobinKey.
    destruct (_ =? 0); simpl; [split; reflexivity |].
    apply counts_roundRobinLoop.
Qed.

Lemma counts_BlacklistKey (key : string) (permanent : bool) (rt : Runtime) (m : Manager) :
  requestCounts (BlacklistKey key permanent rt m) = requestCounts m /\
  errorCounts (BlacklistKey key permanent rt m) = ensure (errorCounts m) key.
Proof.
  unfold BlacklistKey; simpl.
  destruct (keyStatus m !! key); split; reflexivity.
Qed.

Lemma counts_RecordError (key : string) (err : errors.TavilyError) (rt : Runtime)
    (m : Manager) :
  requestCounts (fst (RecordError key err rt m)) = requestCounts m /\
  forall k, counter (errorCounts (fst (RecordError key err rt m))) k
            = counter (increment (errorCounts m) key) k.
Proof.
  unfold RecordError; simpl.
  assert (Hb : forall m0 : Manager,
             errorCounts m0 = increment (errorCounts m) key ->
             requestCounts m0 = requestCounts m ->
             requestCounts (BlacklistKey key (errors.IsPermanent err) rt m0)
             = requestCounts m /\
             forall k, counter (errorCounts
                                  (BlacklistKey key (errors.IsPermanent err) rt m0)) k
                       = counter (increment (errorCounts m) key) k).
  { intros m0 He Hr.
    destruct (counts_BlacklistKey key (errors.IsPermanent err) rt m0) as [-> ->].
    split; [exact Hr |]. intros k. rewrite counter_ensure, He. reflexivity. }
  destruct (keyStatus m !! key) as [status |]; simpl.
  - destruct (errors.Error err); simpl; [| split; reflexivity].
    destruct (_ <=? _); simpl; [apply Hb; reflexivity | split; reflexivity].
  - destruct (_ <=? _); simpl; [apply Hb; reflexivity | split; reflexivity].
Qed.

Lemma inFlight_insert (pending : gmap string nat) (key k : string) (n : nat) :
  inFlight (<[key := n]> pending) k
  = if decide (key = k) then n else inFlight pending k.
Proof.
  unfold inFlight. rewrite lookup_insert.
  destruct (decide (key = k)); reflexivity.
Qed.

Lemma accounted_mono (st : Manager * gmap string nat) (n n' : Z) :
  accounted st n -> n <= n' -> accounted st n'.
Proof.
  intros H Hle k. destruct (H k) as (H0 & H1 & H2). repeat split; lia.
Qed.

(** One disciplined event keeps the accounting, with one more event on the
    clock. *)
Lemma play_accounted (st : Manager * gmap string nat) (e : event) (n : Z) :
  accounted st n -> n < 2 ^ 63 - 1 ->
  snd (play st e) = true ->
  accounted (fst (play st e)) (n + 1).
Proof.
  destruct st as [m pending]. intros Hacc Hn.
  destruct e as [rt | key err rt | key]; simpl.
  - destruct (counts_GetNextKey rt m) as [He Hr].
    destruct (GetNextKey rt m) as [m' o]; simpl in *.
    destruct (handedOut o) as [key |]; simpl; intros _ k; simpl.
    + rewrite He, Hr, counter_increment, inFlight_insert.
      destruct (Hacc k) as (H0 & H1 & H2); destruct (Hacc key) as (K0 & K1 & K2).
      simpl in *.
      destruct (decide (key = k)) as [<- |].
      * rewrite wrap64_small by lia. lia.
      * lia.
    + rewrite He, Hr. destruct (Hacc k) as (H0 & H1 & H2); simpl in *. lia.
  - destruct (counts_RecordError key err rt m) as [Hr He].
    destruct (inFlight pending key) as [| j] eqn:Ej; simpl; [discriminate |].
    intros _ k; simpl.
    rewrite Hr, He, counter_increment, inFlight_insert.
    destruct (Hacc k) as (H0 & H1 & H2); destruct (Hacc key) as (K0 & K1 & K2).
    simpl in *. rewrite Ej in K1.
    destruct (decide (key = k)) as [<- |].
    + rewrite wrap64_small by lia. lia.
    + lia.
  - destruct (inFlight pending key) as [| j] eqn:Ej; simpl; [discriminate |].
    intros _ k; simpl. rewrite inFlight_insert.
    destruct (Hacc k) as (H0 & H1 & H2); destruct (Hacc key) as (K0 & K1 & K2).
    simpl in *. rewrite Ej in K1.
    destruct (decide (key = k)) as [<- |]; lia.
Qed.

Lemma playAll_accounted (es : list event) (st : Manager * gmap string nat)
    (n : Z) (j : nat) :
  accounted st n -> n + Z.of_nat (length es) < 2 ^ 63 ->
  snd (playAll st es) = true ->
  accounted (fst (playAll st (firstn j es))) (n + Z.of_nat (length es)).
Proof.
  revert st n j; induction es as [| e es IH]; intros st n j Hacc Hn Hok.
  - rewrite firstn_nil. simpl. apply (accounted_mono _ n); [exact Hacc | simpl; lia].
  - simpl length in *. destruct j as [| j].
    + simpl. apply (accounted_mono _ n); [exact Hacc | lia].
    + simpl in Hok |- *.
      pose proof (play_accounted st e n Hacc) as Hstep.
      destruct (play st e) as [st' ok].
      specialize (IH st' (n + 1) j).
      destruct (playAll st' es) as [st'' ok'] eqn:Eall. simpl in Hok.
      apply andb_true_iff in Hok. destruct Hok as [-> ->].
      destruct (playAll st' (firstn j es)) as [st3 ok3] eqn:E3. simpl in *.
      replace (n + Z.of_nat (S (length es)))
        with (n + 1 + Z.of_nat (length es)) by lia.
      apply IH; [apply Hstep; [lia | reflexivity] | lia | reflexivity].
Qed.

Lemma counter_fold_initKey (ks : list string) (m : Manager) (k : string) :
  counter (requestCounts m) k = 0 -> counter (errorCounts m) k = 0 ->
  counter (requestCounts (fold_left initKey ks m)) k = 0 /\
  counter (errorCounts (fold_left initKey ks m)) k = 0.
Proof.
  revert m; induction ks as [| key ks IH]; intros m Hr He; simpl; [tauto |].
  apply IH; unfold initKey, counter; simpl; rewrite lookup_insert;
    destruct (decide (key = k)); auto.
Qed.

Lemma NewManager_accounted (cfg : config.Config) (repo : repository.KeyRepository)
    (rt : Runtime) (m : Manager) :
  NewManager cfg repo rt = inl m -> accounted (m, ∅) 0.
Proof.
  unfold NewManager, loadKeys; simpl.
  destruct (repository.GetAllActiveKeys repo (now rt)) as [apiKeys | err];
    [| discriminate].
  destruct (_ =? 0); [discriminate |].
  intros H; injection H as <-. intros k; simpl.
  unfold initializeKeyStatus.
  match goal with |- context [fold_left initKey ?ks ?m0] =>
    destruct (counter_fold_initKey ks m0 k) as [-> ->];
      [reflexivity | reflexivity |] end.
  unfold inFlight. rewrite lookup_empty. simpl. lia.
Qed.

(** C5: from the zero counters of a freshly built manager, along every
    interleaving of selections (which record the request) and error records
    in which an error is recorded only against a selection of that key still
    in flight, at every point of the interleaving every key's error count is
    at most its request count.  (The counters are 64-bit; the interleaving
    has fewer than 2^63 events.) *)
Theorem request_count_bounds_error_count (cfg : config.Config)
    (repo : repository.KeyRepository) (rt : Runtime) (m : Manager)
    (es : list event) (j : nat) (k : string) :
  NewManager cfg repo rt = inl m ->
  disciplined m es = true ->
  Z.of_nat (length es) < 2 ^ 63 ->
  counter (errorCounts (replay m (firstn j es))) k
  <= counter (requestCounts (replay m (firstn j es))) k.
Proof.
  intros Hnew Hd Hlen.
  pose proof (playAll_accounted es (m, ∅) 0 j (NewManager_accounted _ _ _ _ Hnew)
                ltac:(lia) Hd k) as (H0 & H1 & _).
  unfold replay. lia.
Qed.

(** Two keys, two overlapping requests and a third one. *)
Lemma request_count_bounds_error_count_witness :
  let m := fixtures.managerOf fixtures.defaultConfig [fixtures.keyA; fixtures.keyB] 10 in
  NewManager fixtures.defaultConfig
    (fixtures.repositoryOf [fixtures.keyA; fixtures.keyB]) (at_time 10) = inl m /\
  disciplined m fixtures.interleaving = true /\
  Z.of_nat (length fixtures.interleaving) < 2 ^ 63 /\
  counter (errorCounts (replay m (firstn 3 fixtures.interleaving))) fixtures.keyB
  <= counter (requestCounts (replay m (firstn 3 fixtures.interleaving))) fixtures.keyB.
Proof.
  intros m.
  assert (Hnew : NewManager fixtures.defaultConfig
                   (fixtures.repositoryOf [fixtures.keyA; fixtures.keyB]) (at_time 10)
                 = inl m) by (vm_compute; reflexivity).
  assert (Hd : disciplined m fixtures.interleaving = true) by (vm_compute; reflexivity).
  assert (Hlen : Z.of_nat (length fixtures.interleaving) < 2 ^ 63)
    by (vm_compute; reflexivity).
  repeat split; try assumption.
  exact (request_count_bounds_error_count _ _ _ m fixtures.interleaving 3
           fixtures.keyB Hnew Hd Hlen).
Defined.

(** Outside C5: a reset between a selection and its error record
    zeroes the request counter first, and the error count then exceeds it. *)
Remark reset_in_flight_breaks_the_order :
  let m := afterAll (fixtures.managerOf fixtures.defaultConfig [fixtures.keyA] 10)
             [CallGetNextKey (at_time 11); CallResetKeys;
              CallRecordError fixtures.keyA
                (errors.ParseHTTPError 400 "" fixtures.keyA) (at_time 12)] in
  counter (requestCounts m) fixtures.keyA = 0 /\
  counter (errorCounts m) fixtures.keyA = 1.
Proof. vm_compute. split; reflexivity. Qed.

(** *** The proxy pipeline keeps the discipline *)

Lemma select_accounted (rt : Runtime) (m : Manager) (pending : gmap string nat) (n : Z) :
  accounted (m, pending) n -> n < 2 ^ 63 - 1 ->
  exists pending',
    accounted (fst (GetNextKey rt m), pending') (n + 1) /\
    forall key, handedOut (snd (GetNextKey rt m)) = Some key ->
                (0 < inFlight pending' key)%nat.
Proof.
  intros Hacc Hn.
  pose proof (play_accounted (m, pending) (EvSelect rt) n Hacc Hn) as H.
  cbn [play] in H. destruct (GetNextKey rt m) as [m' o]. cbn [fst snd].
  destruct (handedOut o) as [key |]; cbn [fst snd] in H.
  - eexists. split; [apply H; reflexivity |].
    intros k Hk; injection Hk as <-. rewrite inFlight_insert.
    destruct (decide (key = key)); [lia | congruence].
  - eexists. split; [apply H; reflexivity | discriminate].
Qed.

Lemma error_accounted (key : string) (err : errors.TavilyError) (rt : Runtime)
    (m : Manager) (pending : gmap string nat) (n : Z) :
  accounted (m, pending) n -> n < 2 ^ 63 - 1 ->
  (0 < inFlight pending key)%nat ->
  exists pending', accounted (fst (RecordError key err rt m), pending') (n + 1).
Proof.
  intros Hacc Hn Hp.
  pose proof (play_accounted (m, pending) (EvError key err rt) n Hacc Hn) as H.
  cbn [play] in H.
  destruct (inFlight pending key) as [| j]; [lia |]. cbn [fst snd] in H.
  eexists. apply H. reflexivity.
Qed.

Lemma accounted_settled (m : Manager) (pending : gmap string nat) (n n' : Z) :
  accounted (m, pending) n -> n <= n' -> accounted (m, ∅) n'.
Proof.
  intros H Hle k. destruct (H k) as (H0 & H1 & H2). cbn [fst snd] in *.
  unfold inFlight at 1. rewrite lookup_empty. simpl. repeat split; lia.
Qed.

Lemma keyManager_allRetriesFailed (lastErr : option errors.TavilyError)
    (calls : list string) (h : handler.Handler) :
  handler.keyManager (fst (handler.allRetriesFailed lastErr calls h))
  = handler.keyManager h.
Proof. destruct lastErr; reflexivity. Qed.

Lemma retryLoop_accounted (left : nat) :
  forall (attempt : nat) (req : handler.Request) (lastErr : option errors.TavilyError)
         (calls : list string) (h : handler.Handler) (pending : gmap string nat) (n : Z),
    accounted (handler.keyManager h, pending) n ->
    n + 2 * Z.of_nat left < 2 ^ 63 ->
    accounted
      (handler.keyManager (fst (handler.retryLoop left attempt req lastErr calls h)), ∅)
      (n + 2 * Z.of_nat left).
Proof.
  induction left as [| left IH]; intros attempt req lastErr calls h pending n Hacc Hn.
  - cbn [handler.retryLoop]. rewrite keyManager_allRetriesFailed.
    apply (accounted_settled _ pending n); [exact Hacc | lia].
  - cbn [handler.retryLoop].
    destruct (select_accounted (handler.runtime req attempt) (handler.keyManager h)
                pending n Hacc ltac:(lia)) as (p1 & Hacc1 & Hin).
    destruct (GetNextKey (handler.runtime req attempt) (handler.keyManager h))
      as [m1 selected].
    cbn [fst snd] in Hacc1, Hin.
    destruct selected as [[apiKey | noKey] | msg]; cbn [fst handler.keyManager
      handler.set_keyManager handler.countError];
      try (apply (accounted_settled _ p1 (n + 1)); [exact Hacc1 | lia]).
    destruct (handler.makeRequest req apiKey attempt) as [resp | err].
    + destruct (slice_to apiKey 12); cbn [fst handler.keyManager handler.countSuccess
        handler.set_keyManager];
        apply (accounted_settled _ p1 (n + 1)); try exact Hacc1; lia.
    + destruct (error_accounted apiKey err (handler.runtime req attempt) m1 p1 (n + 1)
                  Hacc1 ltac:(lia) (Hin apiKey eq_refl)) as (p2 & Hacc2).
      destruct (RecordError apiKey err (handler.runtime req attempt) m1)
        as [m2 recorded].
      cbn [fst] in Hacc2.
      destruct recorded as [[] | msg]; cbn [fst handler.keyManager handler.set_keyManager];
        [| apply (accounted_settled _ p2 (n + 1 + 1)); [exact Hacc2 | lia]].
      destruct (errors.IsRetryable err); cbn [negb].
      * destruct (slice_to apiKey 12); cbn [fst handler.keyManager handler.set_keyManager];
          [| apply (accounted_settled _ p2 (n + 1 + 1)); [exact Hacc2 | lia]].
        replace (n + 2 * Z.of_nat (S left)) with (n + 1 + 1 + 2 * Z.of_nat left) by lia.
        apply (IH _ _ _ _ _ p2). { exact Hacc2. } lia.
      * rewrite keyManager_allRetriesFailed.
        cbn [handler.keyManager handler.set_keyManager].
        apply (accounted_settled _ p2 (n + 1 + 1)); [exact Hacc2 | lia].
Qed.

Lemma config_fold_initKey (ks : list string) (m : Manager) :
  config (fold_left initKey ks m) = config m.
Proof.
  revert m; induction ks as [| k ks IH]; intros m; simpl; [reflexivity |].
  rewrite IH. reflexivity.
Qed.

Lemma config_NewManager (cfg : config.Config) (repo : repository.KeyRepository)
    (rt : Runtime) (m : Manager) :
  NewManager cfg repo rt = inl m -> config m = cfg.
Proof.
  unfold NewManager, loadKeys; simpl.
  destruct (repository.GetAllActiveKeys repo (now rt)); [| discriminate].
  destruct (_ =? 0); [discriminate |].
  intros H; injection H as <-. unfold initializeKeyStatus.
  rewrite config_fold_initKey. reflexivity.
Qed.

Lemma config_roundRobinLoop (n : nat) (totalKeys : Z) (rt : Runtime) (m : Manager) :
  config (fst (roundRobinLoop n totalKeys rt m)) = config m.
Proof.
  revert m; induction n as [| n IH]; intros m; simpl; [reflexivity |].
  destruct (index _ _) as [key | msg]; simpl; [| reflexivity].
  destruct (isBlacklisted _ key); simpl.
  - rewrite IH. reflexivity.
  - unfold updateKeyUsage; simpl. destruct (keyStatus m !! key); reflexivity.
Qed.

Lemma config_GetNextKey (rt : Runtime) (m : Manager) :
  config (fst (GetNextKey rt m)) = config m.
Proof.
  unfold GetNextKey, GetNextKeyWithStrategy.
  match goal with |- context [match ?p with Some _ => _ | None => _ end] =>
    destruct p as [key |] end; simpl.
  - unfold updateKeyUsage; simpl. destruct (keyStatus m !! key); reflexivity.
  - unfold getRoundRobinKey.
    destruct (_ =? 0); simpl; [reflexivity |]. apply config_roundRobinLoop.
Qed.

Lemma config_RecordError (key : string) (err : errors.TavilyError) (rt : Runtime)
    (m : Manager) :
  config (fst (RecordError key err rt m)) = config m.
Proof.
  unfold RecordError; simpl.
  assert (Hb : forall m0, config (BlacklistKey key (errors.IsPermanent err) rt m0)
                          = config m0).
  { intros m0. unfold BlacklistKey; simpl. destruct (keyStatus m0 !! key); reflexivity. }
  destruct (keyStatus m !! key) as [status |]; simpl.
  - destruct (errors.Error err); simpl; [| reflexivity].
    destruct (_ <=? _); simpl; [rewrite Hb |]; reflexivity.
  - destruct (_ <=? _); simpl; [rewrite Hb |]; reflexivity.
Qed.

Lemma config_retryLoop (left : nat) :
  forall (attempt : nat) (req : handler.Request) (lastErr : option errors.TavilyError)
         (calls : list string) (h : handler.Handler),
    handler.config (fst (handler.retryLoop left attempt req lastErr calls h))
    = handler.config h.
Proof.
  unfold handler.config.
  induction left as [| left IH]; intros attempt req lastErr calls h.
  - cbn [handler.retryLoop]. rewrite keyManager_allRetriesFailed. reflexivity.
  - cbn [handler.retryLoop].
    pose proof (config_GetNextKey (handler.runtime req attempt) (handler.keyManager h))
      as Hc1.
    destruct (GetNextKey (handler.runtime req attempt) (handler.keyManager h))
      as [m1 selected]. cbn [fst] in Hc1.
    destruct selected as [[apiKey | noKey] | msg]; cbn [fst handler.keyManager
      handler.set_keyManager handler.countError]; try exact Hc1.
    destruct (handler.makeRequest req apiKey attempt) as [resp | err].
    + destruct (slice_to apiKey 12); exact Hc1.
    + pose proof (config_RecordError apiKey err (handler.runtime req attempt) m1) as Hc2.
      destruct (RecordError apiKey err (handler.runtime req attempt) m1)
        as [m2 recorded]. cbn [fst] in Hc2.
      destruct recorded as [[] | msg]; cbn [fst handler.keyManager handler.set_keyManager];
        [| congruence].
      destruct (errors.IsRetryable err); cbn [negb].
      * destruct (slice_to apiKey 12); cbn [fst handler.keyManager handler.set_keyManager];
          [| congruence].
        rewrite IH. cbn [handler.keyManager handler.set_keyManager]. congruence.
      * rewrite keyManager_allRetriesFailed.
        cbn [handler.keyManager handler.set_keyManager]. congruence.
Qed.

Lemma proxyTavilyRequest_accounted (req : handler.Request) (h : handler.Handler) (n : Z) :
  let step := 2 * Z.max 0 (config.MaxRetries (handler.config h) + 1) in
  accounted (handler.keyManager h, ∅) n ->
  n + step < 2 ^ 63 ->
  handler.config (fst (handler.proxyTavilyRequest req h)) = handler.config h /\
  accounted (handler.keyManager (fst (handler.proxyTavilyRequest req h)), ∅) (n + step).
Proof.
  intros step Hacc Hn. unfold handler.proxyTavilyRequest.
  destruct (negb (handler.bodyReadable req)).
  - split; [reflexivity |]. cbn [fst]. apply (accounted_settled _ ∅ n); [exact Hacc | lia].
  - split; [rewrite config_retryLoop; reflexivity |].
    change (handler.config (handler.countTotal h)) with (handler.config h).
    replace (n + step)
      with (n + 2 * Z.of_nat (Z.to_nat (config.MaxRetries (handler.config h) + 1)))
      by (subst step; lia).
    apply (retryLoop_accounted _ _ _ _ _ _ ∅); [exact Hacc | subst step; lia].
Qed.

(** The pipeline itself obeys the discipline: serving any list of client
    requests one after the other, on a freshly built manager, leaves every
    key's error count at most its request count. *)
Lemma sequential_requests_keep_order (cfg : config.Config)
    (repo : repository.KeyRepository) (rt : Runtime) (m : Manager)
    (reqs : list handler.Request) (k : string) :
  NewManager cfg repo rt = inl m ->
  2 * (Z.max 0 (config.MaxRetries cfg + 1)) * Z.of_nat (length reqs) < 2 ^ 63 ->
  let m' := handler.keyManager (handler.serveAll reqs (handler.NewHandler m)) in
  counter (errorCounts m') k <= counter (requestCounts m') k.
Proof.
  intros Hnew Hlen m'.
  pose proof (config_NewManager _ _ _ _ Hnew) as Hcfg.
  set (step := 2 * Z.max 0 (config.MaxRetries cfg + 1)) in *.
  assert (Hgen : forall reqs h n,
    handler.config h = cfg ->
    accounted (handler.keyManager h, ∅) n ->
    n + step * Z.of_nat (length reqs) < 2 ^ 63 ->
    accounted (handler.keyManager (handler.serveAll reqs h), ∅)
      (n + step * Z.of_nat (length reqs))).
  { clear. intros reqs. induction reqs as [| req reqs IH]; intros h n Hc Hacc Hn.
    - simpl. apply (accounted_settled _ ∅ n); [exact Hacc | lia].
    - cbn [handler.serveAll fold_left]. fold (handler.serveAll reqs).
      cbn [length] in *.
      destruct (proxyTavilyRequest_accounted req h n Hacc) as [Hc' Hacc'].
      { rewrite Hc. fold step. lia. }
      rewrite Hc in Hacc'. fold step in Hacc'.
      replace (n + step * Z.of_nat (S (length reqs)))
        with (n + step + step * Z.of_nat (length reqs)) by lia.
      apply IH; [congruence | exact Hacc' | lia]. }
  destruct (Hgen reqs (handler.NewHandler m) 0 Hcfg
              (NewManager_accounted _ _ _ _ Hnew) ltac:(lia) k) as (H0 & H1 & _).
  cbn [fst snd] in *. subst m'. lia.
Qed.

End counters.

(** ** The retry loop of the proxy pipeline *)

Section retries.

Import handler.

Lemma upstreamCalls_allRetriesFailed (lastErr : option errors.TavilyError)
    (calls : list string) (h : Handler) :
  upstreamCalls (snd (allRetriesFailed lastErr calls h)) = calls /\
  panic (snd (allRetriesFailed lastErr calls h)) = None /\
  written (snd (allRetriesFailed lastErr calls h))
  = Some match lastErr with
         | Some err => httpError (errors.Message err) (errors.StatusCode err)
         | None => httpError "Request failed after all retries" 500
         end.
Proof. destruct lastErr; repeat split; reflexivity. Qed.

Lemma retried_snoc (req : Request) (calls : list string) (key : string)
    (err : errors.TavilyError) :
  retried req calls ->
  makeRequest req key (length calls) = inr err ->
  errors.IsRetryable err = true ->
  retried req (calls ++ [key]).
Proof.
  intros Hr Hm He i k Hi.
  destruct (Nat.lt_ge_cases i (length calls)) as [Hlt | Hge].
  - rewrite lookup_app_l in Hi by exact Hlt. apply Hr. exact Hi.
  - rewrite lookup_app_r in Hi by exact Hge.
    destruct (i - length calls)%nat as [| d] eqn:Ed; simpl in Hi; [| discriminate].
    injection Hi as <-. assert (i = length calls) as -> by lia.
    exists err. split; assumption.
Qed.

Lemma retried_front (req : Request) (calls : list string) (key : string) :
  retried req calls ->
  forall i k, (calls ++ [key]) !! i = Some k -> (S i < length (calls ++ [key]))%nat ->
    exists err, makeRequest req k i = inr err /\ errors.IsRetryable err = true.
Proof.
  intros Hr i k Hi Hlt. rewrite length_app in Hlt; simpl in Hlt.
  rewrite lookup_app_l in Hi by lia. apply Hr. exact Hi.
Qed.

Lemma lastFailure_retried (req : Request) (calls : list string) (key : string) :
  retried req calls -> last calls = Some key ->
  exists err,
    makeRequest req key (length calls - 1) = inr err /\
    errors.IsRetryable err = true /\
    lastFailure req calls = Some err.
Proof.
  intros Hr Hl.
  assert (Hi : calls !! (length calls - 1)%nat = Some key).
  { rewrite <- Hl, last_lookup. f_equal. lia. }
  destruct (Hr _ _ Hi) as (err & Hm & He).
  exists err. unfold lastFailure. rewrite Hl, Hm. repeat split; assumption.
Qed.

(** The loop invariant: [attempt] counts the calls made, all of them failed
    retryably, and [lastErr] is the error of the last one.  The result
    stays within the attempt budget, made no call after a call that did not
    fail retryably, and, unless it panicked, wrote what the contract
    promises. *)
Lemma retryLoop_contract (left : nat) :
  forall (attempt : nat) (req : Request) (lastErr : option errors.TavilyError)
         (calls : list string) (h : Handler),
    attempt = length calls ->
    retried req calls ->
    lastErr = lastFailure req calls ->
    let e := snd (retryLoop left attempt req lastErr calls h) in
    (length (upstreamCalls e) <= length calls + left)%nat /\
    (forall i key, upstreamCalls e !! i = Some key ->
                   (S i < length (upstreamCalls e))%nat ->
       exists err, makeRequest req key i = inr err /\ errors.IsRetryable err = true) /\
    (panic e = None ->
     written e = Some (promised req (length calls + left) (upstreamCalls e))).
Proof.
  induction left as [| left IH]; intros attempt req lastErr calls h Hatt Hret Hlast.
  - cbn [retryLoop].
    destruct (upstreamCalls_allRetriesFailed lastErr calls h) as (-> & _ & ->).
    split; [lia |]. split; [intros i key Hi _; apply Hret; exact Hi |].
    intros _. f_equal. unfold promised. rewrite Nat.add_0_r.
    destruct (last calls) as [key |] eqn:El.
    + destruct (lastFailure_retried _ _ _ Hret El) as (err & Hm & He & Hl).
      rewrite Hlast, Hl, Hm, Nat.eqb_refl, orb_true_r. reflexivity.
    + unfold lastFailure in Hlast. rewrite El in Hlast. subst lastErr.
      apply last_None in El. subst calls. reflexivity.
  - cbn [retryLoop].
    destruct (keymanager.GetNextKey (runtime req attempt) (keyManager h))
      as [m selected].
    destruct selected as [[apiKey | noKey] | msg]; cbn [snd upstreamCalls panic written
      panicked sent].
    + (* a key was selected: one more upstream call *)
      assert (Hlen : length (calls ++ [apiKey]) = S (length calls))
        by (rewrite length_app; simpl; lia).
      assert (Hlast' : last (calls ++ [apiKey]) = Some apiKey) by apply last_snoc.
      rewrite Hatt.
      destruct (makeRequest req apiKey (length calls)) as [resp | err] eqn:Hm.
      * (* success *)
        assert (Hp : promised req (length calls + S left) (calls ++ [apiKey]) = resp).
        { unfold promised. rewrite Hlast', Hlen.
          replace (S (length calls) - 1)%nat with (length calls) by lia.
          rewrite Hm. reflexivity. }
        destruct (slice_to apiKey 12); cbn [snd upstreamCalls panic written panicked sent];
          (split; [lia |]); (split; [apply retried_front; exact Hret |]);
          intros Hpanic; [rewrite Hp; reflexivity | discriminate].
      * destruct (keymanager.RecordError apiKey err _ _) as [m' recorded].
        destruct recorded as [[] | msg];
          cbn [snd upstreamCalls panic written panicked sent].
        2:{ split; [lia |]. split; [apply retried_front; exact Hret |]. discriminate. }
        destruct (errors.IsRetryable err) eqn:He; cbn [negb].
        -- destruct (slice_to apiKey 12);
             cbn [snd upstreamCalls panic written panicked sent].
           2:{ split; [lia |]. split; [apply retried_front; exact Hret |]. discriminate. }
           specialize (IH (S (length calls)) req (Some err) (calls ++ [apiKey])
                         (set_keyManager m' (set_keyManager m h))).
           rewrite Hlen in IH.
           replace (length calls + S left)%nat with (S (length calls) + left)%nat by lia.
           apply IH.
           ++ reflexivity.
           ++ eapply retried_snoc; eassumption.
           ++ unfold lastFailure. rewrite Hlast', Hlen.
              replace (S (length calls) - 1)%nat with (length calls) by lia.
              rewrite Hm. reflexivity.
        -- destruct (upstreamCalls_allRetriesFailed (Some err) (calls ++ [apiKey])
                       (set_keyManager m' (set_keyManager m h))) as (-> & _ & ->).
           split; [lia |]. split; [apply retried_front; exact Hret |].
           intros _. f_equal. unfold promised. rewrite Hlast', Hlen.
           replace (S (length calls) - 1)%nat with (length calls) by lia.
           rewrite Hm, He. reflexivity.
    + (* selection failed: 503 *)
      split; [lia |]. split; [intros i key Hi _; apply Hret; exact Hi |].
      intros _. f_equal. unfold promised.
      destruct (last calls) as [key |] eqn:El.
      * destruct (lastFailure_retried _ _ _ Hret El) as (err & Hm & He & _).
        rewrite Hm, He.
        replace (length calls =? length calls + S left)%nat with false
          by (symmetry; apply Nat.eqb_neq; lia).
        reflexivity.
      * replace (length calls + S left =? 0)%nat with false
          by (symmetry; apply Nat.eqb_neq; lia).
        reflexivity.
    + (* selection panicked *)
      split; [lia |]. split; [intros i key Hi _; apply Hret; exact Hi |]. discriminate.
Qed.

(** A loop that panics has either written nothing, or has just copied the
    response of its last call, which succeeded. *)
Lemma retryLoop_panic (left : nat) :
  forall (attempt : nat) (req : Request) (lastErr : option errors.TavilyError)
         (calls : list string) (h : Handler),
    attempt = length calls ->
    let e := snd (retryLoop left attempt req lastErr calls h) in
    panic e <> None ->
    written e = None \/
    exists key resp,
      last (upstreamCalls e) = Some key /\
      makeRequest req key (length (upstreamCalls e) - 1) = inl resp /\
      written e = Some resp.
Proof.
  induction left as [| left IH]; intros attempt req lastErr calls h Hatt.
  - cbn [retryLoop]. intros Hp. exfalso. apply Hp.
    destruct lastErr; reflexivity.
  - cbn [retryLoop].
    destruct (keymanager.GetNextKey (runtime req attempt) (keyManager h))
      as [m selected].
    destruct selected as [[apiKey | noKey] | msg];
      cbn [snd upstreamCalls panic written panicked sent].
    + assert (Hlen : length (calls ++ [apiKey]) = S (length calls))
        by (rewrite length_app; simpl; lia).
      rewrite Hatt.
      destruct (makeRequest req apiKey (length calls)) as [resp | err] eqn:Hm.
      * destruct (slice_to apiKey 12);
          cbn [snd upstreamCalls panic written panicked sent]; intros Hp.
        -- exfalso. apply Hp. reflexivity.
        -- right. exists apiKey, resp. rewrite last_snoc, Hlen.
           replace (S (length calls) - 1)%nat with (length calls) by lia.
           repeat split; [exact Hm].
      * destruct (keymanager.RecordError apiKey err _ _) as [m' recorded].
        destruct recorded as [[] | msg];
          cbn [snd upstreamCalls panic written panicked sent].
        2:{ intros _. left. reflexivity. }
        destruct (errors.IsRetryable err); cbn [negb].
        -- destruct (slice_to apiKey 12);
             cbn [snd upstreamCalls panic written panicked sent].
           2:{ intros _. left. reflexivity. }
           apply IH. rewrite Hlen. reflexivity.
        -- intros Hp. exfalso. apply Hp. reflexivity.
    + intros Hp. exfalso. apply Hp. reflexivity.
    + intros _. left. reflexivity.
Qed.

Lemma validate_ranges (c : config.Config) :
  config.validate c = None ->
  0 <= config.MaxRetries c /\ 0 < config.BlacklistThreshold c.
Proof.
  unfold config.validate.
  repeat match goal with
         | |- context [if ?b then Some _ else _] =>
             destruct b eqn:?; [discriminate |]
         end.
  intros _. split; lia.
Qed.

(** C4 fails as stated: one key, the default configuration (threshold 1,
    three retries), an upstream that answers 500.  The only attempt fails
    with the classified error 500 "Server error: upstream down"; that
    error blacklists the key, the next selection finds none, and the client
    receives 503 "No API keys available". *)
Lemma failed_attempt_answered_with_503 :
  let h := NewHandler (fixtures.managerOf fixtures.defaultConfig [fixtures.keyA] 10) in
  let req := fixtures.requestAt 100 (fixtures.always (HTTPResponse 500 "upstream down")) in
  let e := snd (proxyTavilyRequest req h) in
  upstreamCalls e = [fixtures.keyA] /\
  option_map (fun err => (errors.StatusCode err, errors.Message err, errors.Retryable err))
    (lastFailure req (upstreamCalls e))
  = Some (500, "Server error: upstream down", true) /\
  panic e = None /\
  written e = Some (httpError "No API keys available" 503).
Proof. vm_compute. repeat split; reflexivity. Qed.

(** A non-retryable error: the upstream answers 400, the loop stops after
    one call although three retries remain, and the client receives the
    400 with the message of the classified error. *)
Lemma non_retryable_stops_the_loop :
  let h := NewHandler (fixtures.managerOf (fixtures.tuned 5 3)
                         [fixtures.keyA; fixtures.keyB] 10) in
  let req := fixtures.requestAt 100 (fixtures.always (HTTPResponse 400 "no query")) in
  let e := snd (proxyTavilyRequest req h) in
  upstreamCalls e = [fixtures.keyB] /\
  panic e = None /\
  written e = Some (httpError "Bad request: no query" 400).
Proof. vm_compute. repeat split; reflexivity. Qed.

(** With a key shorter than twelve bytes the log line of a retry takes
    [apiKey[:12]] and the handler panics before it has written anything; the
    recovery middleware answers 500 "Internal server error". *)
Lemma short_key_panics_on_retry :
  let h := NewHandler (fixtures.managerOf (fixtures.tuned 5 2) ["tvly-abc"] 10) in
  let req := fixtures.requestAt 100 (fixtures.always (HTTPResponse 500 "upstream down")) in
  let e := snd (proxyTavilyRequest req h) in
  upstreamCalls e = ["tvly-abc"] /\
  panic e = Some "slice bounds out of range" /\
  Recovery e = Some (httpError "Internal server error" 500).
Proof. vm_compute. repeat split; reflexivity. Qed.

End retries.

(** ** The pipeline does not panic on well-formed keys *)

Section no_panic.

Import keymanager.

Lemma framed_updateKeyUsage (key : string) (rt : Runtime) (m : Manager) :
  framed m (updateKeyUsage key rt m).
Proof.
  unfold framed, updateKeyUsage; simpl.
  destruct (keyStatus m !! key); repeat split; reflexivity.
Qed.

Lemma framed_BlacklistKey (key : string) (permanent : bool) (rt : Runtime)
    (m : Manager) :
  framed m (BlacklistKey key permanent rt m).
Proof.
  unfold framed, BlacklistKey; simpl.
  destruct (keyStatus m !! key); repeat split; reflexivity.
Qed.

Lemma framed_RecordError (key : string) (err : errors.TavilyError) (rt : Runtime)
    (m : Manager) :
  framed m (fst (RecordError key err rt m)).
Proof.
  unfold RecordError; simpl.
  assert (Hb : forall m0, framed m m0 ->
                          framed m (BlacklistKey key (errors.IsPermanent err) rt m0)).
  { intros m0 (H1 & H2 & H3 & H4).
    destruct (framed_BlacklistKey key (errors.IsPermanent err) rt m0)
      as (K1 & K2 & K3 & K4).
    repeat split; congruence. }
  destruct (keyStatus m !! key) as [status |]; simpl.
  - destruct (errors.Error err); simpl; [| repeat split; reflexivity].
    destruct (_ <=? _); simpl; [apply Hb |]; repeat split; reflexivity.
  - destruct (_ <=? _); simpl; [apply Hb |]; repeat split; reflexivity.
Qed.

Lemma RecordError_returns (key : string) (err : errors.TavilyError) (rt : Runtime)
    (m : Manager) (text : string) :
  errors.Error err = Returned text ->
  snd (RecordError key err rt m) = Returned tt.
Proof.
  intros He. unfold RecordError; simpl. rewrite He.
  destruct (keyStatus m !! key); simpl; destruct (_ <=? _); reflexivity.
Qed.

Lemma longEnough_prints (key : string) (kind : errors.ErrorType) (msg : string)
    (statusCode : Z) :
  handler.longEnough key = true ->
  exists text,
    errors.Error (errors.NewTavilyErrorWithKey kind msg statusCode key) = Returned text.
Proof.
  unfold handler.longEnough. intros H. apply Nat.leb_le in H.
  unfold errors.Error, errors.NewTavilyErrorWithKey, errors.NewTavilyError.
  destruct (errors.classifyError kind statusCode); simpl.
  destruct (String.eqb_spec key "") as [-> | _]; [simpl in H; lia |].
  unfold slice_to.
  destruct (8 <=? String.length key)%nat eqn:E; [eexists; reflexivity |].
  apply Nat.leb_gt in E. lia.
Qed.

Lemma makeRequest_error_prints (req : handler.Request) (key : string) (attempt : nat)
    (err : errors.TavilyError) :
  handler.longEnough key = true ->
  handler.makeRequest req key attempt = inr err ->
  exists text, errors.Error err = Returned text.
Proof.
  intros Hk. unfold handler.makeRequest, errors.ParseHTTPError.
  destruct (handler.upstream req key attempt) as [| msg | statusCode body].
  - intros H; injection H as <-. eexists; reflexivity.
  - intros H; injection H as <-. apply longEnough_prints. exact Hk.
  - destruct (400 <=? statusCode); [| discriminate].
    destruct (errors.statusKind statusCode) as [kind msg].
    intros H; injection H as <-. apply longEnough_prints. exact Hk.
Qed.

Lemma bestBy_visited (t : usage.Tracker) (amount : types.RemainingPoints.t -> Z)
    (visited : list (string * types.TavilyUsage.t)) (best : string * Z) :
  let step := fun (best : string * Z) (entry : string * types.TavilyUsage.t) =>
    match usage.CalculateRemainingPoints t (fst entry) with
    | None => best
    | Some remaining =>
        if types.RemainingPoints.TotalRemaining remaining <=? 0 then best
        else if snd best <? amount remaining then (fst entry, amount remaining)
        else best
    end in
  fst (fold_left step visited best) = fst best \/
  In (fst (fold_left step visited best)) (List.map fst visited).
Proof.
  intros step. revert best; induction visited as [| entry rest IH]; intros best; simpl.
  - left; reflexivity.
  - destruct (IH (step best entry)) as [H | H]; [| right; right; exact H].
    rewrite H. unfold step.
    destruct (usage.CalculateRemainingPoints t (fst entry)); [| left; reflexivity].
    destruct (_ <=? 0); [left; reflexivity |].
    destruct (_ <? _); [right; left; reflexivity | left; reflexivity].
Qed.

Lemma GetOptimalKey_stored (t : usage.Tracker) (first second : usage.RangeOrder)
    (strategy : types.SelectionStrategy) (key : string) :
  usage.visitsEntries first -> usage.visitsEntries second ->
  usage.GetOptimalKey t first second strategy = Some key ->
  In key (List.map fst (usage.memoryCache t)).
Proof.
  intros Hf Hs. unfold usage.GetOptimalKey, usage.GetAllUsage.
  destruct (usage.memoryCache t) as [| e0 l0] eqn:El; [discriminate |].
  rewrite <- El. clear El e0 l0.
  destruct (String.eqb strategy types.StrategyPlanFirst); [| discriminate].
  unfold usage.selectPlanFirstKey, usage.bestBy.
  pose proof (bestBy_visited t types.RemainingPoints.PlanRemaining
                (first (usage.memoryCache t)) ("", -1)) as H1.
  pose proof (bestBy_visited t types.RemainingPoints.PaygoRemaining
                (second (usage.memoryCache t)) ("", -1)) as H2.
  cbv zeta in H1, H2.
  destruct (fold_left _ (first _) _) as [k1 a1]; simpl in H1.
  destruct (String.eqb_spec k1 "") as [-> | Hne1]; simpl.
  - destruct (fold_left _ (second _) _) as [k2 a2]; simpl in H2.
    destruct (String.eqb_spec k2 "") as [-> | Hne2]; simpl; [discriminate |].
    intros H; injection H as <-.
    destruct H2 as [H2 | H2]; [congruence | apply (Hs _ _ H2)].
  - destruct (0 <? a1); simpl.
    + intros H; injection H as <-.
      destruct H1 as [H1 | H1]; [congruence | apply (Hf _ _ H1)].
    + destruct (fold_left _ (second _) _) as [k2 a2]; simpl in H2.
      destruct (String.eqb_spec k2 "") as [-> | Hne2]; simpl; [discriminate |].
      intros H; injection H as <-.
      destruct H2 as [H2 | H2]; [congruence | apply (Hs _ _ H2)].
Qed.

Lemma roundRobinLoop_returns (n : nat) (rt : Runtime) :
  forall m : Manager,
    (0 < length (keys m))%nat ->
    -1 <= currentIndex m -> currentIndex m + Z.of_nat n < 2 ^ 63 ->
    let r := roundRobinLoop n (Z.of_nat (length (keys m))) rt m in
    (exists sel, snd r = Returned sel /\
                 forall key, sel = inl key -> In key (keys m)) /\
    keys (fst r) = keys m /\ usageTracker (fst r) = usageTracker m /\
    config (fst r) = config m /\
    currentIndex m <= currentIndex (fst r) <= currentIndex m + Z.of_nat n.
Proof.
  induction n as [| n IH]; intros m Hlen Hlo Hhi.
  - simpl. split; [eexists; split; [reflexivity | discriminate] |].
    repeat split; lia.
  - cbn [roundRobinLoop].
    rewrite wrap64_small by lia.
    set (m1 := set_currentIndex (currentIndex m + 1) m).
    change (keys m1) with (keys m).
    rewrite Z.rem_mod_nonneg by lia.
    pose proof (Z.mod_pos_bound (currentIndex m + 1) (Z.of_nat (length (keys m)))
                  ltac:(lia)) as Hmod.
    unfold index. destruct (_ <? 0) eqn:Eneg; [apply Z.ltb_lt in Eneg; lia |].
    destruct (keys m !! Z.to_nat ((currentIndex m + 1) mod Z.of_nat (length (keys m))))
      as [key |] eqn:Ek.
    2:{ apply lookup_ge_None in Ek. lia. }
    destruct (isBlacklisted m1 key).
    + specialize (IH m1). change (keys m1) with (keys m) in IH.
      change (currentIndex m1) with (currentIndex m + 1) in IH.
      change (usageTracker m1) with (usageTracker m) in IH.
      change (config m1) with (config m) in IH.
      destruct IH as (Hsel & Hk & Ht & Hc & Hci); [exact Hlen | lia | lia |].
      split; [exact Hsel |]. repeat split; try assumption; lia.
    + destruct (framed_updateKeyUsage key rt m1) as (Hk & Ht & Hc & Hci).
      cbn [fst snd]. split.
      * eexists; split; [reflexivity |]. intros k H; injection H as <-.
        apply list_elem_of_In. eapply list_elem_of_lookup_2. exact Ek.
      * rewrite Hk, Ht, Hc, Hci. subst m1; simpl. repeat split; lia.
Qed.

Lemma GetNextKey_returns (rt : Runtime) (m : Manager) :
  usage.visitsEntries (firstPass rt) -> usage.visitsEntries (secondPass rt) ->
  -1 <= currentIndex m ->
  currentIndex m + Z.of_nat (length (keys m)) < 2 ^ 63 ->
  let r := GetNextKey rt m in
  (exists sel, snd r = Returned sel /\
     forall key, sel = inl key ->
       In key (keys m) \/ In key (List.map fst (usage.memoryCache (usageTracker m)))) /\
  keys (fst r) = keys m /\ usageTracker (fst r) = usageTracker m /\
  config (fst r) = config m /\
  currentIndex m <= currentIndex (fst r)
    <= currentIndex m + Z.of_nat (length (keys m)).
Proof.
  intros Hf Hs Hlo Hhi. unfold GetNextKey, GetNextKeyWithStrategy.
  assert (Hrr :
    let r := getRoundRobinKey rt m in
    (exists sel, snd r = Returned sel /\
       forall key, sel = inl key ->
         In key (keys m) \/ In key (List.map fst (usage.memoryCache (usageTracker m)))) /\
    keys (fst r) = keys m /\ usageTracker (fst r) = usageTracker m /\
    config (fst r) = config m /\
    currentIndex m <= currentIndex (fst r)
      <= currentIndex m + Z.of_nat (length (keys m))).
  { unfold getRoundRobinKey.
    destruct (Z.of_nat (length (keys m)) =? 0) eqn:E.
    - simpl. split; [eexists; split; [reflexivity | discriminate] |].
      repeat split; lia.
    - apply Z.eqb_neq in E.
      destruct (roundRobinLoop_returns (length (keys m)) rt m ltac:(lia) Hlo Hhi)
        as ((sel & Hsel & Hin) & Hrest).
      split; [| exact Hrest].
      exists sel. split; [exact Hsel |]. intros key H. left. apply Hin. exact H. }
  destruct (String.eqb (selectionStrategy m) types.StrategyPlanFirst);
    [| exact Hrr].
  destruct (usage.GetOptimalKey _ _ _ _) as [key |] eqn:Eo; [| exact Hrr].
  destruct (isBlacklisted m key); [exact Hrr |].
  destruct (framed_updateKeyUsage key rt m) as (Hk & Ht & Hc & Hci).
  cbn [fst snd]. split.
  - eexists; split; [reflexivity |]. intros k H; injection H as <-.
    right. exact (GetOptimalKey_stored _ _ _ _ _ Hf Hs Eo).
  - rewrite Hk, Ht, Hc, Hci. repeat split; lia.
Qed.

Lemma longEnough_slice (key : string) :
  handler.longEnough key = true -> exists preview, slice_to key 12 = Returned preview.
Proof.
  unfold handler.longEnough, slice_to. intros ->. eexists; reflexivity.
Qed.

Lemma panic_allRetriesFailed (lastErr : option errors.TavilyError)
    (calls : list string) (h : handler.Handler) :
  handler.panic (snd (handler.allRetriesFailed lastErr calls h)) = None.
Proof. destruct lastErr; reflexivity. Qed.

Lemma retryLoop_no_panic (left : nat) :
  forall (attempt : nat) (req : handler.Request) (lastErr : option errors.TavilyError)
         (calls : list string) (h : handler.Handler),
    let m := handler.keyManager h in
    forallb handler.longEnough (keys m) = true ->
    forallb handler.longEnough (List.map fst (usage.memoryCache (usageTracker m))) = true ->
    (forall attempt,
       usage.visitsEntries (firstPass (handler.runtime req attempt)) /\
       usage.visitsEntries (secondPass (handler.runtime req attempt))) ->
    -1 <= currentIndex m ->
    currentIndex m + Z.of_nat left * Z.of_nat (length (keys m)) < 2 ^ 63 ->
    handler.panic (snd (handler.retryLoop left attempt req lastErr calls h)) = None.
Proof.
  induction left as [| left IH]; intros attempt req lastErr calls h m Hk Ht Hv Hlo Hhi.
  - apply panic_allRetriesFailed.
  - cbn [handler.retryLoop].
    destruct (Hv attempt) as [Hf Hs].
    pose proof (GetNextKey_returns (handler.runtime req attempt) m Hf Hs Hlo
                  ltac:(lia)) as Hnext.
    fold m. destruct (GetNextKey (handler.runtime req attempt) m) as [m1 selected].
    cbn [fst snd] in Hnext.
    destruct Hnext as ((sel & -> & Hin) & Hk1 & Ht1 & Hc1 & Hci1).
    destruct sel as [apiKey | noKey]; [| reflexivity].
    assert (Hlong : handler.longEnough apiKey = true).
    { destruct (Hin apiKey eq_refl) as [H | H].
      - exact (proj1 (forallb_forall _ _) Hk _ H).
      - exact (proj1 (forallb_forall _ _) Ht _ H). }
    destruct (longEnough_slice _ Hlong) as [preview Hslice].
    destruct (handler.makeRequest req apiKey attempt) as [resp | err] eqn:Hm.
    + rewrite Hslice. reflexivity.
    + destruct (makeRequest_error_prints _ _ _ _ Hlong Hm) as [text Htext].
      pose proof (RecordError_returns apiKey err (handler.runtime req attempt) m1 text
                    Htext) as Hrec.
      pose proof (framed_RecordError apiKey err (handler.runtime req attempt) m1)
        as (Hk2 & Ht2 & Hc2 & Hci2).
      change (handler.keyManager (handler.set_keyManager m1 h)) with m1.
      destruct (RecordError apiKey err (handler.runtime req attempt) m1)
        as [m2 recorded].
      cbn [fst snd] in *. subst recorded.
      destruct (errors.IsRetryable err); cbn [negb].
      * rewrite Hslice. apply IH; cbn [handler.keyManager handler.set_keyManager].
        -- rewrite Hk2, Hk1. exact Hk.
        -- rewrite Ht2, Ht1. exact Ht.
        -- exact Hv.
        -- lia.
        -- rewrite Hk2, Hk1, Hci2. lia.
      * apply panic_allRetriesFailed.
Qed.

(** With well-formed keys the whole handler returns: no log line and no
    index runs out of range. *)
Lemma proxyTavilyRequest_no_panic (req : handler.Request) (h : handler.Handler) :
  0 <= config.MaxRetries (handler.config h) ->
  handler.steady req h ->
  handler.panic (snd (handler.proxyTavilyRequest req h)) = None.
Proof.
  intros Hr (Hk & Ht & Hv & Hlo & Hhi).
  unfold handler.proxyTavilyRequest.
  destruct (negb (handler.bodyReadable req)); [reflexivity |].
  apply retryLoop_no_panic; try assumption.
  change (handler.keyManager (handler.countTotal h)) with (handler.keyManager h).
  change (handler.config (handler.countTotal h)) with (handler.config h).
  rewrite Z2Nat.id by lia. exact Hhi.
Qed.

End no_panic.

(** ** The retry contract *)

Section retry_contract.

Import handler.

(** C4, amended: with a validated configuration and a readable body, a
    client request makes at most [MaxRetries + 1] upstream calls; every call
    but the last failed with a retryable error, so a non-retryable error
    ends the loop at once; the handler does not panic when the keys are
    well-formed ([steady]); the handler not panicking, the client receives
    what [promised] says: the upstream response of a last call that
    succeeded; the status code and message of the last classified error
    when that error is not retryable or was the [MaxRetries + 1]-th call;
    and 503 when a selection found no key; and when the handler panics,
    either it has written nothing and the recovery middleware answers 500
    "Internal server error", or its last call succeeded and the response of
    that call had already been written to the client. *)
Theorem retry_budget_and_last_error (req : Request) (h : Handler) :
  config.validate (config h) = None ->
  bodyReadable req = true ->
  let e := snd (proxyTavilyRequest req h) in
  Z.of_nat (length (upstreamCalls e)) <= config.MaxRetries (config h) + 1 /\
  (forall i key, upstreamCalls e !! i = Some key ->
                 (S i < length (upstreamCalls e))%nat ->
     exists err, makeRequest req key i = inr err /\ errors.IsRetryable err = true) /\
  (steady req h -> panic e = None) /\
  (panic e = None ->
   written e
   = Some (promised req (Z.to_nat (config.MaxRetries (config h) + 1)) (upstreamCalls e))) /\
  (panic e <> None ->
   (written e = None /\
    Recovery e = Some (httpError "Internal server error" StatusInternalServerError)) \/
   (exists key resp,
      last (upstreamCalls e) = Some key /\
      makeRequest req key (length (upstreamCalls e) - 1) = inl resp /\
      written e = Some resp)).
Proof.
  intros Hv Hb. apply validate_ranges in Hv. destruct Hv as [Hr _].
  split; [| split; [| split; [| split]]].
  5: {
    unfold proxyTavilyRequest. rewrite Hb. cbn [negb].
    change (config (countTotal h)) with (config h).
    intros Hp.
    destruct (retryLoop_panic (Z.to_nat (config.MaxRetries (config h) + 1)) 0 req
                None [] (countTotal h) eq_refl Hp) as [Hw | Hw]; [left | right; exact Hw].
    split; [exact Hw |]. unfold Recovery. rewrite Hw.
    destruct (panic _); [reflexivity | contradiction]. }
  4: {
    unfold proxyTavilyRequest. rewrite Hb. cbn [negb].
    change (config (countTotal h)) with (config h).
    apply (retryLoop_contract (Z.to_nat (config.MaxRetries (config h) + 1)) 0 req
             None [] (countTotal h) eq_refl); [| reflexivity].
    intros i key Hi. rewrite lookup_nil in Hi. discriminate. }
  3: { apply proxyTavilyRequest_no_panic. exact Hr. }
  all: unfold proxyTavilyRequest; rewrite Hb; cbn [negb];
    change (config (countTotal h)) with (config h);
    pose proof (retryLoop_contract (Z.to_nat (config.MaxRetries (config h) + 1)) 0 req
                  None [] (countTotal h) eq_refl) as H;
    cbn [length Nat.add] in H;
    destruct H as (Ha & Hb' & _);
    [ intros i key Hi; rewrite lookup_nil in Hi; discriminate
    | reflexivity
    | first [ exact Hb' | lia ] ].
Qed.

(** Retry exhaustion: one key, threshold 5, two retries, an upstream that
    answers 500.  Three calls on the key, and the client receives the 500
    with the message of the last classified error. *)
Lemma retry_budget_and_last_error_witness :
  let h := NewHandler (fixtures.managerOf (fixtures.tuned 5 2) [fixtures.keyA] 10) in
  let req := fixtures.requestAt 100 (fixtures.always (HTTPResponse 500 "upstream down")) in
  let e := snd (proxyTavilyRequest req h) in
  config.validate (config h) = None /\
  bodyReadable req = true /\
  upstreamCalls e = [fixtures.keyA; fixtures.keyA; fixtures.keyA] /\
  Z.of_nat (length (upstreamCalls e)) <= 2 + 1 /\
  panic e = None /\
  written e = Some (httpError "Server error: upstream down" 500).
Proof.
  intros h req e.
  assert (Hv : config.validate (config h) = None) by (vm_compute; reflexivity).
  assert (Hb : bodyReadable req = true) by reflexivity.
  assert (Hcalls : upstreamCalls e = [fixtures.keyA; fixtures.keyA; fixtures.keyA])
    by (vm_compute; reflexivity).
  assert (Hs : steady req h).
  { repeat split; try (vm_compute; reflexivity); try (intros l x Hx; exact Hx);
      vm_compute; discriminate. }
  destruct (retry_budget_and_last_error req h Hv Hb) as (Hbudget & _ & Hp & Hw & _).
  fold e in Hp, Hw. specialize (Hp Hs).
  split; [exact Hv |]. split; [exact Hb |]. split; [exact Hcalls |].
  split; [exact Hbudget |]. split; [exact Hp |].
  rewrite (Hw Hp), Hcalls. vm_compute. reflexivity.
Defined.

End retry_contract.

(** ** Resetting the keys *)

Section reset.

Import keymanager.

Lemma blacklist_fold_initKey (ks : list string) (m : Manager) :
  blacklist (fold_left initKey ks m) = blacklist m /\
  keyRepo (fold_left initKey ks m) = keyRepo m /\
  currentIndex (fold_left initKey ks m) = currentIndex m.
Proof.
  revert m. induction ks as [|k ks IH]; intros m; simpl; [auto|].
  destruct (IH (initKey m k)) as (-> & -> & ->). auto.
Qed.

Lemma fold_initKey_outside (ks : list string) (k : string) :
  forall m : Manager,
    ~ In k ks ->
    keyStatus (fold_left initKey ks m) !! k = keyStatus m !! k /\
    requestCounts (fold_left initKey ks m) !! k = requestCounts m !! k /\
    errorCounts (fold_left initKey ks m) !! k = errorCounts m !! k.
Proof.
  induction ks as [|a ks IH]; intros m Hk; simpl; [auto|].
  destruct (IH (initKey m a)) as (-> & -> & ->).
  - intros H. apply Hk. now right.
  - assert (a <> k) by (intros ->; apply Hk; now left).
    simpl. rewrite !lookup_insert_ne by assumption. auto.
Qed.

Lemma fold_initKey_inside (ks : list string) (k : string) :
  forall m : Manager,
    In k ks ->
    keyStatus (fold_left initKey ks m) !! k = Some freshStatus /\
    requestCounts (fold_left initKey ks m) !! k = Some 0 /\
    errorCounts (fold_left initKey ks m) !! k = Some 0.
Proof.
  induction ks as [|a ks IH]; intros m Hk; simpl; [destruct Hk|].
  destruct (in_dec string_dec k ks) as [Hin|Hout].
  - now apply IH.
  - destruct Hk as [->|Hk]; [|contradiction].
    destruct (fold_initKey_outside ks k (initKey m k) Hout) as (-> & -> & ->).
    simpl. rewrite !lookup_insert_eq. auto.
Qed.

(** X1.  [ResetKeys] empties the blacklist, gives every key of the slice a
    fresh status record and zeroes its two counters; the cursor, the key
    slice and the repository rows (which keep their blacklist marks) are
    left as they were, and the blacklist endpoint reports no entry
    afterwards. *)
Theorem ResetKeys_clears_blacklist_and_counters (m : Manager) :
  let m' := ResetKeys m in
  GetBlacklist m' = [] /\
  (forall key, isBlacklisted m' key = false) /\
  (forall key, In key (keys m) ->
     keyStatus m' !! key = Some freshStatus /\
     counter (requestCounts m') key = 0 /\
     counter (errorCounts m') key = 0) /\
  keys m' = keys m /\
  currentIndex m' = currentIndex m /\
  keyRepo m' = keyRepo m /\
  (forall h,
     handler.keyManager h = m ->
     snd (handler.BlacklistHandler (fst (handler.ResetKeysHandler h)))
     = handler.sent
         {| handler.status := 200;
            handler.body := handler.Document (handler.JObject
              [("blacklisted_keys", handler.JNull);
               ("count", handler.JNumber 0)]) |} []).
Proof.
  intros m'. unfold m', ResetKeys.
  destruct (blacklist_fold_initKey (keys m) (set_blacklist ∅ m)) as (Hb & Hr & Hc).
  assert (Hg : GetBlacklist (fold_left initKey (keys m) (set_blacklist ∅ m)) = []).
  { unfold GetBlacklist. rewrite Hb. simpl. now rewrite map_to_list_empty. }
  split; [exact Hg|].
  split; [intros key; unfold isBlacklisted; rewrite Hb; simpl; now rewrite lookup_empty|].
  split.
  { intros key Hin.
    destruct (fold_initKey_inside (keys m) key (set_blacklist ∅ m) Hin) as (Hs & Hq & He).
    unfold counter. rewrite Hs, Hq, He. auto. }
  split; [now rewrite keys_fold_initKey|].
  split; [now rewrite Hc|].
  split; [now rewrite Hr|].
  intros h <-. unfold handler.BlacklistHandler, handler.ResetKeysHandler. simpl.
  unfold ResetKeys. rewrite Hg. reflexivity.
Qed.

End reset.
(** ** Availability of the selection *)

Section availability.

Import keymanager.

Lemma blacklist_updateKeyUsage (key : string) (rt : Runtime) (m : Manager) :
  blacklist (updateKeyUsage key rt m) = blacklist m /\
  selectionStrategy (updateKeyUsage key rt m) = selectionStrategy m /\
  keyRepo (updateKeyUsage key rt m) = keyRepo m.
Proof.
  unfold updateKeyUsage. simpl. destruct (keyStatus m !! key); auto.
Qed.

Lemma blacklist_roundRobinLoop (n : nat) (totalKeys : Z) (rt : Runtime) :
  forall m : Manager,
    blacklist (fst (roundRobinLoop n totalKeys rt m)) = blacklist m /\
    selectionStrategy (fst (roundRobinLoop n totalKeys rt m)) = selectionStrategy m /\
    keyRepo (fst (roundRobinLoop n totalKeys rt m)) = keyRepo m.
Proof.
  induction n as [|n IH]; intros m; simpl; [auto|].
  destruct (index _ _) as [key|msg]; simpl; [|auto].
  match goal with |- context [isBlacklisted ?m' key] => destruct (isBlacklisted m' key) end.
  - destruct (IH (set_currentIndex (wrap64 (currentIndex m + 1)) m)) as (-> & -> & ->).
    auto.
  - simpl. apply (blacklist_updateKeyUsage key rt
                    (set_currentIndex (wrap64 (currentIndex m + 1)) m)).
Qed.

Lemma blacklist_GetNextKeyWithStrategy (strategy : types.SelectionStrategy)
    (rt : Runtime) (m : Manager) :
  blacklist (fst (GetNextKeyWithStrategy strategy rt m)) = blacklist m /\
  selectionStrategy (fst (GetNextKeyWithStrategy strategy rt m)) = selectionStrategy m /\
  keyRepo (fst (GetNextKeyWithStrategy strategy rt m)) = keyRepo m.
Proof.
  unfold GetNextKeyWithStrategy.
  match goal with |- context [match ?p with Some _ => _ | None => _ end] =>
    destruct p as [key|] end.
  - apply blacklist_updateKeyUsage.
  - unfold getRoundRobinKey. destruct (_ =? 0); [auto|]. apply blacklist_roundRobinLoop.
Qed.

(** X2.  A selection never hands out a key that has a blacklist entry,
    whatever the strategy, and it leaves the blacklist as it was. *)
Theorem selection_never_returns_blacklisted_key (strategy : types.SelectionStrategy)
    (rt : Runtime) (m : Manager) (key : string) :
  handedOut (snd (GetNextKeyWithStrategy strategy rt m)) = Some key ->
  isBlacklisted m key = false /\
  blacklist (fst (GetNextKeyWithStrategy strategy rt m)) = blacklist m.
Proof.
  intros Hk. split; [|apply blacklist_GetNextKeyWithStrategy].
  destruct (isBlacklisted m key) eqn:Hb; [|reflexivity].
  pose proof (blacklisted_key_is_skipped strategy rt m key Hb) as Hs.
  unfold handsOut in Hs. rewrite Hk, String.eqb_refl in Hs. discriminate.
Qed.

Lemma selection_never_returns_blacklisted_key_witness :
  let m := BlacklistKey "K2" true (at_time 20)
             (fixtures.managerOf fixtures.defaultConfig ["K1"; "K2"; "K3"] 10) in
  handedOut (snd (GetNextKeyWithStrategy types.StrategyRoundRobin (at_time 30) m))
  = Some "K3" /\
  isBlacklisted m "K3" = false /\
  blacklist (fst (GetNextKeyWithStrategy types.StrategyRoundRobin (at_time 30) m))
  = blacklist m.
Proof.
  intros m.
  assert (H : handedOut (snd (GetNextKeyWithStrategy types.StrategyRoundRobin
                                (at_time 30) m)) = Some "K3") by (vm_compute; reflexivity).
  split; [exact H|].
  exact (selection_never_returns_blacklisted_key _ _ _ _ H).
Defined.

(** The scan of [getRoundRobinKey]: with the cursor at [c] and [N] keys, the
    loop looks at the positions [(c + 1) mod N], [(c + 2) mod N], ... and
    returns the first key without a blacklist entry. *)
Lemma roundRobinLoop_scan (n : nat) (rt : Runtime) :
  forall m : Manager,
    (0 < length (keys m))%nat ->
    -1 <= currentIndex m -> currentIndex m + Z.of_nat n < 2 ^ 63 ->
    let N := Z.of_nat (length (keys m)) in
    let c := currentIndex m in
    let r := roundRobinLoop n N rt m in
    match snd r with
    | Returned (inl key) =>
        isBlacklisted m key = false /\
        exists i, 1 <= i <= Z.of_nat n /\
          keys m !! Z.to_nat ((c + i) mod N) = Some key /\
          currentIndex (fst r) = c + i /\
          forall j, 1 <= j < i ->
            exists k, keys m !! Z.to_nat ((c + j) mod N) = Some k /\
                      isBlacklisted m k = true
    | Returned (inr e) =>
        e = errors.NewTavilyError errors.ErrorTypeNoKeysAvailable
              "all API keys are blacklisted" 500 /\
        currentIndex (fst r) = c + Z.of_nat n /\
        requestCounts (fst r) = requestCounts m /\
        forall j, 1 <= j <= Z.of_nat n ->
          exists k, keys m !! Z.to_nat ((c + j) mod N) = Some k /\
                    isBlacklisted m k = true
    | Panicked _ => False
    end.
Proof.
  induction n as [|n IH]; intros m Hlen Hlo Hhi N c r.
  - subst r. simpl. repeat split; try lia.
  - subst r. cbn [roundRobinLoop].
    assert (Hw : wrap64 (currentIndex m + 1) = c + 1).
    { apply wrap64_small. subst c. lia. }
    rewrite Hw.
    assert (HN : 0 < N) by (subst N; lia).
    assert (Hrem : Z.rem (c + 1) N = (c + 1) mod N).
    { apply Z.rem_mod_nonneg; subst c; lia. }
    rewrite Hrem.
    pose proof (Z.mod_pos_bound (c + 1) N HN) as Hb.
    cbn [keys set_currentIndex]. fold N.
    unfold index.
    destruct ((c + 1) mod N <? 0) eqn:Hneg; [lia|].
    destruct (keys m !! Z.to_nat ((c + 1) mod N)) as [key|] eqn:Hkey.
    2:{ apply lookup_ge_None in Hkey. subst N. lia. }
    change (isBlacklisted (set_currentIndex (c + 1) m) key) with (isBlacklisted m key).
    destruct (isBlacklisted m key) eqn:Hbl.
    + specialize (IH (set_currentIndex (c + 1) m)).
      cbn [keys currentIndex set_currentIndex] in IH. fold N in IH.
      specialize (IH Hlen ltac:(subst c; lia) ltac:(subst c; lia)).
      cbn zeta in IH.
      destruct (snd (roundRobinLoop n N rt (set_currentIndex (c + 1) m)))
        as [[k|e]|msg]; [| |exact IH].
      * destruct IH as (Hk & i & Hi & Hl & Hc & Hall).
        split; [exact Hk|].
        exists (i + 1). split; [lia|].
        replace (c + (i + 1)) with (c + 1 + i) by lia.
        split; [exact Hl|]. split; [exact Hc|].
        intros j Hj. destruct (Z.eq_dec j 1) as [->|Hne].
        -- exists key. auto.
        -- destruct (Hall (j - 1) ltac:(lia)) as (k' & Hk' & Hb').
           exists k'. replace (c + j) with (c + 1 + (j - 1)) by lia. auto.
      * destruct IH as (He & Hc & Hq & Hall).
        split; [exact He|]. split; [rewrite Hc; lia|]. split; [exact Hq|].
        intros j Hj. destruct (Z.eq_dec j 1) as [->|Hne].
        -- exists key. auto.
        -- destruct (Hall (j - 1) ltac:(lia)) as (k' & Hk' & Hb').
           exists k'. replace (c + j) with (c + 1 + (j - 1)) by lia. auto.
    + cbn [snd fst]. split; [exact Hbl|].
      exists 1. split; [lia|]. split; [exact Hkey|].
      split.
      * destruct (framed_updateKeyUsage key rt (set_currentIndex (c + 1) m))
          as (_ & _ & _ & Hc). rewrite Hc. reflexivity.
      * intros j Hj. lia.
Qed.

Lemma cyclic_position (c p N : Z) :
  0 <= p < N ->
  exists j, 1 <= j <= N /\ (c + j) mod N = p.
Proof.
  intros Hp. exists ((p - c - 1) mod N + 1).
  pose proof (Z.mod_pos_bound (p - c - 1) N ltac:(lia)).
  split; [lia|].
  replace (c + ((p - c - 1) mod N + 1)) with (c + 1 + (p - c - 1) mod N) by lia.
  rewrite Zplus_mod_idemp_r.
  replace (c + 1 + (p - c - 1)) with p by lia.
  apply Z.mod_small. lia.
Qed.

(** X3.  Availability: while some key of the slice has no blacklist entry,
    a selection returns a key, and that key has no blacklist entry. *)
Theorem selection_serves_while_a_key_is_free (strategy : types.SelectionStrategy)
    (rt : Runtime) (m : Manager) (free : string) :
  In free (keys m) ->
  isBlacklisted m free = false ->
  -1 <= currentIndex m ->
  currentIndex m + Z.of_nat (length (keys m)) < 2 ^ 63 ->
  exists key,
    snd (GetNextKeyWithStrategy strategy rt m) = Returned (inl key) /\
    isBlacklisted m key = false.
Proof.
  intros Hin Hfree Hlo Hhi. unfold GetNextKeyWithStrategy.
  match goal with |- context [match ?p with Some _ => _ | None => _ end] =>
    destruct p as [key|] eqn:Hp end.
  - exists key. split; [reflexivity|].
    destruct (String.eqb strategy types.StrategyPlanFirst); [|discriminate].
    destruct (usage.GetOptimalKey _ _ _ _) as [k|]; [|discriminate].
    destruct (isBlacklisted m k) eqn:Hb; [discriminate|]. now inversion Hp; subst.
  - unfold getRoundRobinKey.
    assert (Hlen : (0 < length (keys m))%nat).
    { destruct (keys m); [destruct Hin|simpl; lia]. }
    destruct (Z.of_nat (length (keys m)) =? 0) eqn:Hz; [lia|].
    pose proof (roundRobinLoop_scan (length (keys m)) rt m Hlen Hlo Hhi) as Hscan.
    cbn zeta in Hscan.
    destruct (snd (roundRobinLoop (length (keys m)) (Z.of_nat (length (keys m))) rt m))
      as [[k|e]|msg]; [| |destruct Hscan].
    + exists k. split; [reflexivity|]. apply Hscan.
    + exfalso. destruct Hscan as (_ & _ & _ & Hall).
      apply list_elem_of_In, list_elem_of_lookup_1 in Hin. destruct Hin as [p Hp'].
      pose proof (lookup_lt_Some _ _ _ Hp') as Hlt.
      destruct (cyclic_position (currentIndex m) (Z.of_nat p)
                  (Z.of_nat (length (keys m))) ltac:(lia)) as (j & Hj & Hmod).
      destruct (Hall j Hj) as (k & Hk & Hb).
      rewrite Hmod, Nat2Z.id, Hp' in Hk. inversion Hk; subst. congruence.
Qed.

Lemma selection_serves_while_a_key_is_free_witness :
  let m := BlacklistKey "K1" false (at_time 20)
             (BlacklistKey "K2" true (at_time 20)
                (fixtures.managerOf fixtures.defaultConfig ["K1"; "K2"; "K3"] 10)) in
  In "K3" (keys m) /\ isBlacklisted m "K3" = false /\
  exists key,
    snd (GetNextKeyWithStrategy types.StrategyPlanFirst (at_time 30) m)
    = Returned (inl key) /\
    isBlacklisted m key = false.
Proof.
  intros m.
  assert (Hin : In "K3" (keys m)) by (vm_compute; auto).
  assert (Hb : isBlacklisted m "K3" = false) by (vm_compute; reflexivity).
  split; [exact Hin|]. split; [exact Hb|].
  apply (selection_serves_while_a_key_is_free types.StrategyPlanFirst (at_time 30) m
           "K3" Hin Hb); vm_compute; congruence.
Defined.

(** X4.  Exhaustion: when every key of a non-empty slice has a blacklist
    entry, round-robin selection returns the [no_keys_available] error
    after a full turn of the cursor, and credits no key with a request. *)
Theorem round_robin_fails_when_all_keys_are_blacklisted (rt : Runtime) (m : Manager) :
  keys m <> [] ->
  (forall key, In key (keys m) -> isBlacklisted m key = true) ->
  -1 <= currentIndex m ->
  currentIndex m + Z.of_nat (length (keys m)) < 2 ^ 63 ->
  snd (getRoundRobinKey rt m)
  = Returned (inr (errors.NewTavilyError errors.ErrorTypeNoKeysAvailable
                     "all API keys are blacklisted" 500)) /\
  currentIndex (fst (getRoundRobinKey rt m))
  = currentIndex m + Z.of_nat (length (keys m)) /\
  requestCounts (fst (getRoundRobinKey rt m)) = requestCounts m.
Proof.
  intros Hne Hall Hlo Hhi. unfold getRoundRobinKey.
  assert (Hlen : (0 < length (keys m))%nat).
  { destruct (keys m); [congruence|simpl; lia]. }
  destruct (Z.of_nat (length (keys m)) =? 0) eqn:Hz; [lia|].
  pose proof (roundRobinLoop_scan (length (keys m)) rt m Hlen Hlo Hhi) as Hscan.
  cbn zeta in Hscan.
  destruct (snd (roundRobinLoop (length (keys m)) (Z.of_nat (length (keys m))) rt m))
    as [[k|e]|msg]; [| |destruct Hscan].
  - exfalso. destruct Hscan as (Hk & i & _ & Hl & _).
    apply list_elem_of_lookup_2, list_elem_of_In in Hl.
    rewrite (Hall k Hl) in Hk. discriminate.
  - destruct Hscan as (-> & Hc & Hq & _). auto.
Qed.

Lemma round_robin_fails_when_all_keys_are_blacklisted_witness :
  let m := BlacklistKey "K1" false (at_time 20)
             (BlacklistKey "K2" true (at_time 20)
                (fixtures.managerOf fixtures.defaultConfig ["K1"; "K2"] 10)) in
  keys m = ["K1"; "K2"] /\
  snd (getRoundRobinKey (at_time 30) m)
  = Returned (inr (errors.NewTavilyError errors.ErrorTypeNoKeysAvailable
                     "all API keys are blacklisted" 500)) /\
  currentIndex (fst (getRoundRobinKey (at_time 30) m)) = currentIndex m + 2 /\
  requestCounts (fst (getRoundRobinKey (at_time 30) m)) = requestCounts m.
Proof.
  intros m.
  assert (Hk : keys m = ["K1"; "K2"]) by (vm_compute; reflexivity).
  split; [exact Hk|].
  apply (round_robin_fails_when_all_keys_are_blacklisted (at_time 30) m).
  - rewrite Hk. discriminate.
  - rewrite Hk. intros key [<-|[<-|[]]]; vm_compute; reflexivity.
  - vm_compute. congruence.
  - vm_compute. reflexivity.
Defined.

End availability.
(** ** The blacklist threshold *)

Section thresholds.

Import keymanager.

Lemma blacklist_BlacklistKey (key : string) (permanent : bool) (rt : Runtime)
    (m : Manager) :
  blacklist (BlacklistKey key permanent rt m)
  = <[key := {| types.BlacklistEntry.Key := key;
                types.BlacklistEntry.Reason :=
                  if permanent then "permanent error" else "temporary error";
                types.BlacklistEntry.BlacklistedAt := now rt;
                types.BlacklistEntry.Permanent := permanent;
                types.BlacklistEntry.ErrorCount := counter (errorCounts m) key |}]>
      (blacklist m).
Proof.
  unfold BlacklistKey. cbn [keyStatus set_blacklist set_keyRepo set_errorCounts
                            errorCounts blacklist].
  rewrite counter_ensure.
  destruct (keyStatus m !! key); reflexivity.
Qed.

Lemma blacklist_RecordError (key : string) (err : errors.TavilyError) (rt : Runtime)
    (m : Manager) :
  let n := wrap64 (counter (errorCounts m) key + 1) in
  let m' := fst (RecordError key err rt m) in
  (snd (RecordError key err rt m) = Returned tt ->
   config.BlacklistThreshold (config m) <= n ->
   blacklist m'
   = <[key := {| types.BlacklistEntry.Key := key;
                 types.BlacklistEntry.Reason :=
                   if errors.IsPermanent err then "permanent error" else "temporary error";
                 types.BlacklistEntry.BlacklistedAt := now rt;
                 types.BlacklistEntry.Permanent := errors.IsPermanent err;
                 types.BlacklistEntry.ErrorCount := n |}]> (blacklist m)) /\
  (snd (RecordError key err rt m) <> Returned tt \/
   n < config.BlacklistThreshold (config m) ->
   blacklist m' = blacklist m).
Proof.
  intros n m'. subst m'. unfold RecordError.
  cbn [keyStatus set_errorCounts].
  assert (Hn : counter (increment (errorCounts m) key) key = n).
  { rewrite counter_increment. destruct (decide (key = key)); [reflexivity|congruence]. }
  destruct (keyStatus m !! key) as [status|].
  - destruct (errors.Error err) as [text|msg].
    + cbn [errorCounts set_keyStatus set_errorCounts config]. rewrite Hn.
      destruct (config.BlacklistThreshold (config m) <=? n) eqn:Ht.
      * cbn [fst snd]. rewrite blacklist_BlacklistKey.
        cbn [errorCounts set_keyStatus set_errorCounts blacklist now]. rewrite Hn.
        split; [reflexivity|]. intros [H|H]; [congruence|lia].
      * cbn [fst snd]. split; [lia|reflexivity].
    + cbn [fst snd]. split; [discriminate|reflexivity].
  - cbn [errorCounts set_keyStatus set_errorCounts config]. rewrite Hn.
    destruct (config.BlacklistThreshold (config m) <=? n) eqn:Ht.
    * cbn [fst snd]. rewrite blacklist_BlacklistKey.
      cbn [errorCounts set_keyStatus set_errorCounts blacklist now]. rewrite Hn.
      split; [reflexivity|]. intros [H|H]; [congruence|lia].
    * cbn [fst snd]. split; [lia|reflexivity].
Qed.

(** X5.  [RecordError] counts the error and compares the new count with
    [BlacklistThreshold]: at or above the threshold the key gets a blacklist
    entry whose permanence is the error's, below it the blacklist is
    untouched; no other key's entry changes. *)
Theorem RecordError_blacklists_at_threshold (key : string) (err : errors.TavilyError)
    (rt : Runtime) (m : Manager) (text : string) :
  errors.Error err = Returned text ->
  0 <= counter (errorCounts m) key < 2 ^ 63 - 1 ->
  let n := counter (errorCounts m) key + 1 in
  let m' := fst (RecordError key err rt m) in
  counter (errorCounts m') key = n /\
  (config.BlacklistThreshold (config m) <= n ->
   blacklist m' !! key
   = Some {| types.BlacklistEntry.Key := key;
             types.BlacklistEntry.Reason :=
               if errors.IsPermanent err then "permanent error" else "temporary error";
             types.BlacklistEntry.BlacklistedAt := now rt;
             types.BlacklistEntry.Permanent := errors.IsPermanent err;
             types.BlacklistEntry.ErrorCount := n |}) /\
  (n < config.BlacklistThreshold (config m) -> blacklist m' = blacklist m) /\
  (forall other, other <> key -> blacklist m' !! other = blacklist m !! other).
Proof.
  intros Herr Hc n m'.
  assert (Hw : wrap64 (counter (errorCounts m) key + 1) = n).
  { apply wrap64_small. lia. }
  pose proof (RecordError_returns key err rt m text Herr) as Hret.
  destruct (blacklist_RecordError key err rt m) as [Hat Hbelow].
  cbn zeta in Hat, Hbelow. rewrite Hw in Hat, Hbelow. fold m' in Hat, Hbelow.
  split.
  { destruct (counts_RecordError key err rt m) as [_ Hcnt]. subst m'.
    rewrite Hcnt, counter_increment.
    destruct (decide (key = key)); [exact Hw|congruence]. }
  split.
  { intros Ht. rewrite (Hat Hret Ht). apply lookup_insert_eq. }
  split.
  { intros Ht. apply Hbelow. now right. }
  intros other Hne.
  destruct (Z_lt_le_dec n (config.BlacklistThreshold (config m))) as [Ht|Ht].
  - rewrite Hbelow; [reflexivity|now right].
  - rewrite (Hat Hret Ht). apply lookup_insert_ne. congruence.
Qed.

Lemma RecordError_blacklists_at_threshold_witness :
  let m := fixtures.managerOf (fixtures.tuned 2 3) [fixtures.keyA; fixtures.keyB] 10 in
  let err := errors.ParseHTTPError 401 "" fixtures.keyA in
  let m1 := fst (RecordError fixtures.keyA err (at_time 20) m) in
  let m2 := fst (RecordError fixtures.keyA err (at_time 21) m1) in
  (counter (errorCounts m1) fixtures.keyA = 1 /\ blacklist m1 = blacklist m) /\
  (counter (errorCounts m2) fixtures.keyA = 2 /\
   option_map types.BlacklistEntry.Permanent (blacklist m2 !! fixtures.keyA)
   = Some true).
Proof.
  intros m err m1 m2.
  assert (He : errors.Error err
               = Returned "[unauthorized] Invalid or expired API key (key: tvly-AAA...)")
    by (vm_compute; reflexivity).
  split.
  - destruct (RecordError_blacklists_at_threshold fixtures.keyA err (at_time 20) m _ He)
      as (Hc & _ & Hb & _); [vm_compute; split; congruence|].
    split; [exact Hc|]. apply Hb. vm_compute. reflexivity.
  - destruct (RecordError_blacklists_at_threshold fixtures.keyA err (at_time 21) m1 _ He)
      as (Hc & Hb & _); [vm_compute; split; congruence|].
    split; [exact Hc|]. fold m2 in Hb. rewrite Hb; [reflexivity|].
    vm_compute. congruence.
Defined.

(** X6.  An error recorded for a key of one to seven bytes that has a
    status record never reaches the threshold check: formatting the error
    panics on [e.Key[:8]] after the error counter was bumped, and the key
    gets no blacklist entry however many errors it collects. *)
Theorem short_key_is_never_blacklisted (key : string) (err : errors.TavilyError)
    (rt : Runtime) (m : Manager) (status : types.KeyStatus.t) :
  errors.Key err = key ->
  (0 < String.length key < 8)%nat ->
  keyStatus m !! key = Some status ->
  snd (RecordError key err rt m) = Panicked "slice bounds out of range" /\
  blacklist (fst (RecordError key err rt m)) = blacklist m /\
  counter (errorCounts (fst (RecordError key err rt m))) key
  = wrap64 (counter (errorCounts m) key + 1).
Proof.
  intros Hkey Hlen Hst.
  assert (Herr : errors.Error err = Panicked "slice bounds out of range").
  { unfold errors.Error. rewrite Hkey.
    destruct (String.eqb_spec key "") as [->|_]; [simpl in Hlen; lia|].
    unfold slice_to. destruct (Nat.leb_spec 8 (String.length key)); [lia|reflexivity]. }
  assert (Hsnd : snd (RecordError key err rt m) = Panicked "slice bounds out of range").
  { unfold RecordError. cbn [keyStatus set_errorCounts]. rewrite Hst, Herr. reflexivity. }
  split; [exact Hsnd|]. split.
  - apply (blacklist_RecordError key err rt m). left. rewrite Hsnd. discriminate.
  - destruct (counts_RecordError key err rt m) as [_ Hcnt].
    rewrite Hcnt, counter_increment. destruct (decide (key = key)); congruence.
Qed.

Lemma short_key_is_never_blacklisted_witness :
  let m := fixtures.managerOf fixtures.defaultConfig ["tvly-ab"] 10 in
  let err := errors.ParseHTTPError 401 "" "tvly-ab" in
  snd (RecordError "tvly-ab" err (at_time 20) m) = Panicked "slice bounds out of range" /\
  blacklist (fst (RecordError "tvly-ab" err (at_time 20) m)) = blacklist m /\
  counter (errorCounts (fst (RecordError "tvly-ab" err (at_time 20) m))) "tvly-ab" = 1 /\
  config.BlacklistThreshold (config m) = 1.
Proof.
  intros m err.
  destruct (short_key_is_never_blacklisted "tvly-ab" err (at_time 20) m
              freshStatus) as (Hp & Hb & Hc).
  - reflexivity.
  - simpl. lia.
  - vm_compute. reflexivity.
  - split; [exact Hp|]. split; [exact Hb|]. split; [rewrite Hc|]; vm_compute; reflexivity.
Defined.

End thresholds.
(** ** The blacklist in the repository *)

Section write_through.

Import keymanager.

Lemma KeyValue_setBlacklisted (reason : string) (until : option Time) (now : Time)
    (id : Z) (k : repository.APIKey) :
  repository.KeyValue (repository.setBlacklisted reason until now id k)
  = repository.KeyValue k.
Proof.
  unfold repository.setBlacklisted. destruct (_ =? _); reflexivity.
Qed.

Lemma findByValue_setBlacklisted (reason : string) (until : option Time) (now : Time)
    (id : Z) (rows : list repository.APIKey) (keyValue : string) :
  repository.findByValue
    (List.map (repository.setBlacklisted reason until now id) rows) keyValue
  = option_map (repository.setBlacklisted reason until now id)
      (repository.findByValue rows keyValue).
Proof.
  unfold repository.findByValue.
  induction rows as [|k rows IH]; simpl; [reflexivity|].
  rewrite KeyValue_setBlacklisted.
  destruct (String.eqb (repository.KeyValue k) keyValue); [reflexivity|exact IH].
Qed.

Lemma keyRepo_BlacklistKey (key : string) (permanent : bool) (rt : Runtime)
    (m : Manager) :
  keyRepo (BlacklistKey key permanent rt m)
  = fst (repository.BlacklistKey (keyRepo m) (now rt) key
           (if permanent then "permanent error" else "temporary error") permanent
           (if permanent then None else Some (now rt + 300))).
Proof.
  unfold BlacklistKey. cbn [keyStatus set_blacklist set_keyRepo set_errorCounts keyRepo].
  destruct (keyStatus m !! key); reflexivity.
Qed.

Lemma ID_setBlacklisted (reason : string) (until : option Time) (now : Time)
    (id : Z) (k : repository.APIKey) :
  repository.ID (repository.setBlacklisted reason until now id k) = repository.ID k.
Proof.
  unfold repository.setBlacklisted. destruct (_ =? _); reflexivity.
Qed.

Lemma repository_BlacklistKey_row (r : repository.KeyRepository) (now : Time)
    (key reason : string) (permanent : bool) (until : option Time)
    (row : repository.APIKey) :
  repository.reachable r = true ->
  repository.findByValue (repository.api_keys r) key = Some row ->
  let r' := fst (repository.BlacklistKey r now key reason permanent until) in
  repository.reachable r' = true /\
  repository.api_keys r'
  = List.map (repository.setBlacklisted reason until now (repository.ID row))
      (repository.api_keys r) /\
  repository.null_reason r' = repository.null_reason r ∖ {[repository.ID row]} /\
  repository.GetKeyByValue r' key
  = inl (repository.setBlacklisted reason until now (repository.ID row) row) /\
  repository.key_blacklist_history r'
  = repository.key_blacklist_history r
    ++ [{| repository.HistoryKeyID := repository.ID row;
           repository.HistoryBlacklistedAt := now;
           repository.HistoryBlacklistedUntil := until;
           repository.HistoryReason := reason;
           repository.HistoryIsPermanent := permanent |}].
Proof.
  intros Hreach Hfind r'. subst r'. unfold repository.BlacklistKey.
  rewrite Hreach, Hfind. cbn [negb fst repository.reachable repository.api_keys
    repository.key_blacklist_history repository.null_reason].
  repeat (split; [reflexivity |]). split; [| reflexivity].
  apply GetKeyByValue_inl.
  cbn [repository.reachable repository.api_keys repository.null_reason].
  split; [reflexivity |]. split.
  - rewrite findByValue_setBlacklisted, Hfind. reflexivity.
  - rewrite ID_setBlacklisted. intros H. apply elem_of_difference in H.
    destruct H as [_ H]. apply H. now apply elem_of_singleton.
Qed.

Lemma activeAt_setBlacklisted (reason : string) (until : option Time) (now t : Time)
    (row : repository.APIKey) :
  repository.activeAt t
    (repository.setBlacklisted reason until now (repository.ID row) row)
  = repository.IsActive row
    && match until with Some u => u <? t | None => false end.
Proof.
  unfold repository.setBlacklisted. rewrite Z.eqb_refl. unfold repository.activeAt.
  cbn [repository.IsActive repository.IsBlacklisted repository.BlacklistedUntil negb orb].
  reflexivity.
Qed.

(** X7.  [BlacklistKey] writes through to the repository: the row of the
    key is marked blacklisted with the reason, and with an expiry five
    minutes ahead exactly when the blacklisting is temporary; the history
    gets one more row; and the row counts as active for a later key load
    only if it was active, the blacklisting was temporary and the expiry
    has passed. *)
Theorem BlacklistKey_writes_through (key : string) (permanent : bool) (rt : Runtime)
    (m : Manager) (row : repository.APIKey) :
  repository.GetKeyByValue (keyRepo m) key = inl row ->
  let m' := BlacklistKey key permanent rt m in
  let reason := if permanent then "permanent error" else "temporary error" in
  let until := if permanent then None else Some (now rt + 300) in
  isBlacklisted m' key = true /\
  (exists row',
     repository.GetKeyByValue (keyRepo m') key = inl row' /\
     repository.ID row' = repository.ID row /\
     repository.IsBlacklisted row' = true /\
     repository.BlacklistedUntil row' = until /\
     repository.BlacklistReason row' = reason /\
     forall t, repository.activeAt t row'
               = repository.IsActive row && negb permanent && (now rt + 300 <? t)) /\
  repository.key_blacklist_history (keyRepo m')
  = repository.key_blacklist_history (keyRepo m)
    ++ [{| repository.HistoryKeyID := repository.ID row;
           repository.HistoryBlacklistedAt := now rt;
           repository.HistoryBlacklistedUntil := until;
           repository.HistoryReason := reason;
           repository.HistoryIsPermanent := permanent |}].
Proof.
  intros Hrow m' reason until.
  split; [apply isBlacklisted_BlacklistKey|].
  unfold m'. rewrite keyRepo_BlacklistKey. fold reason until.
  apply GetKeyByValue_inl in Hrow. destruct Hrow as (Hreach & Hfind & _).
  destruct (repository_BlacklistKey_row (keyRepo m) (now rt) key reason permanent until
              row Hreach Hfind) as (_ & _ & _ & Hget & Hhist).
  split; [|exact Hhist].
  eexists. split; [exact Hget|].
  split; [unfold repository.setBlacklisted; rewrite Z.eqb_refl; reflexivity|].
  split; [unfold repository.setBlacklisted; rewrite Z.eqb_refl; reflexivity|].
  split; [unfold repository.setBlacklisted; rewrite Z.eqb_refl; reflexivity|].
  split; [unfold repository.setBlacklisted; rewrite Z.eqb_refl; reflexivity|].
  intros t. rewrite activeAt_setBlacklisted. subst until.
  destruct permanent; cbn [negb]; destruct (repository.IsActive row); reflexivity.
Qed.

Lemma BlacklistKey_writes_through_witness :
  let m := fixtures.managerOf fixtures.defaultConfig ["K1"; "K2"] 10 in
  let m' := BlacklistKey "K2" false (at_time 1000) m in
  isBlacklisted m' "K2" = true /\
  (exists row',
     repository.GetKeyByValue (keyRepo m') "K2" = inl row' /\
     repository.ID row' = 2 /\
     repository.IsBlacklisted row' = true /\
     repository.BlacklistedUntil row' = Some 1300 /\
     repository.BlacklistReason row' = "temporary error" /\
     repository.activeAt 1300 row' = false /\
     repository.activeAt 1301 row' = true) /\
  length (repository.key_blacklist_history (keyRepo m')) = 1%nat.
Proof.
  intros m m'.
  destruct (BlacklistKey_writes_through "K2" false (at_time 1000) m
              {| repository.ID := 2; repository.KeyValue := "K2";
                 repository.Name := "API Key"; repository.Description := "";
                 repository.IsActive := true; repository.IsBlacklisted := false;
                 repository.BlacklistedUntil := None; repository.BlacklistReason := "";
                 repository.CreatedAt := 2; repository.UpdatedAt := 2 |})
    as (Hb & (row' & Hg & Hid & Hbl & Hu & Hr & Ha) & Hh).
  - vm_compute. reflexivity.
  - split; [exact Hb|]. split.
    + exists row'. repeat (split; [assumption|]).
      split; rewrite Ha; reflexivity.
    + fold m' in Hh. rewrite Hh. reflexivity.
Defined.

(** X8.  When the repository does not answer, or has no row for the key,
    [BlacklistKey] still blacklists the key in memory and leaves the
    repository as it was: the two views of the key diverge.  When the read
    of the key fails because its row has no blacklist reason yet, the
    repository is written: the row gets the mark and the reason, and reads
    of it succeed from then on. *)
Theorem BlacklistKey_without_row_is_memory_only (key : string) (permanent : bool)
    (rt : Runtime) (m : Manager) (err : string) :
  repository.GetKeyByValue (keyRepo m) key = inr err ->
  isBlacklisted (BlacklistKey key permanent rt m) key = true /\
  (err <> repository.scanError ->
   keyRepo (BlacklistKey key permanent rt m) = keyRepo m) /\
  (err = repository.scanError ->
   exists row',
     repository.GetKeyByValue (keyRepo (BlacklistKey key permanent rt m)) key = inl row' /\
     repository.IsBlacklisted row' = true).
Proof.
  intros Hrow. split; [apply isBlacklisted_BlacklistKey|].
  rewrite keyRepo_BlacklistKey.
  unfold repository.GetKeyByValue in Hrow.
  destruct (repository.reachable (keyRepo m)) eqn:Hreach; cbn [negb] in Hrow.
  - destruct (repository.findByValue (repository.api_keys (keyRepo m)) key) as [row|]
      eqn:Hfind.
    + apply Scan_inr in Hrow. destruct Hrow as [-> _].
      split; [congruence|]. intros _.
      match goal with
      | |- context [repository.BlacklistKey (keyRepo m) (now rt) key ?reason permanent ?until] =>
          destruct (repository_BlacklistKey_row (keyRepo m) (now rt) key reason permanent
                      until row Hreach Hfind) as (_ & _ & _ & Hget & _)
      end.
      eexists. split; [exact Hget|].
      unfold repository.setBlacklisted. rewrite Z.eqb_refl. reflexivity.
    + inversion Hrow; subst err. split; [|discriminate]. intros _.
      unfold repository.BlacklistKey. rewrite Hreach, Hfind. reflexivity.
  - inversion Hrow; subst err. split; [|discriminate]. intros _.
    unfold repository.BlacklistKey. rewrite Hreach. reflexivity.
Qed.

Lemma BlacklistKey_without_row_is_memory_only_witness :
  let m := fixtures.managerOf fixtures.defaultConfig ["K1"; "K2"] 10 in
  repository.GetKeyByValue (keyRepo m) "K9" = inr repository.noRowsError /\
  isBlacklisted (BlacklistKey "K9" true (at_time 20) m) "K9" = true /\
  keyRepo (BlacklistKey "K9" true (at_time 20) m) = keyRepo m.
Proof.
  intros m.
  assert (H : repository.GetKeyByValue (keyRepo m) "K9" = inr repository.noRowsError)
    by (vm_compute; reflexivity).
  split; [exact H|].
  destruct (BlacklistKey_without_row_is_memory_only "K9" true (at_time 20) m _ H)
    as (Hb & Hsame & _).
  split; [exact Hb|]. apply Hsame. discriminate.
Defined.

End write_through.
(** ** Round trips through the repository *)

Section repository_round_trips.

Import repository.

Lemma findByValue_None (rows : list APIKey) (keyValue : string) :
  findByValue rows keyValue = None <-> ~ In keyValue (List.map KeyValue rows).
Proof.
  unfold findByValue. induction rows as [|k rows IH]; simpl; [tauto|].
  destruct (String.eqb_spec (KeyValue k) keyValue) as [->|Hne].
  - split; [discriminate|]. intros H. exfalso. apply H. now left.
  - rewrite IH. tauto.
Qed.

Lemma findByValue_Some (rows : list APIKey) (keyValue : string) (row : APIKey) :
  findByValue rows keyValue = Some row -> In row rows /\ KeyValue row = keyValue.
Proof.
  unfold findByValue. intros H. apply find_some in H. destruct H as [Hin Heq].
  split; [exact Hin|]. now apply String.eqb_eq.
Qed.

Lemma findByValue_app (rows : list APIKey) (row : APIKey) :
  findByValue rows (KeyValue row) = None ->
  findByValue (rows ++ [row]) (KeyValue row) = Some row.
Proof.
  unfold findByValue. induction rows as [|k rows IH]; simpl.
  - now rewrite String.eqb_refl.
  - destruct (String.eqb (KeyValue k) (KeyValue row)); [discriminate|exact IH].
Qed.

Lemma unique_row (rows : list APIKey) (a b : APIKey) :
  NoDup (List.map KeyValue rows) ->
  In a rows -> In b rows -> KeyValue a = KeyValue b -> a = b.
Proof.
  induction rows as [|k rows IH]; simpl; intros Hnd Ha Hb Heq; [destruct Ha|].
  inversion Hnd as [|? ? Hout Hnd']; subst.
  destruct Ha as [->|Ha], Hb as [->|Hb]; auto.
  - exfalso. apply Hout, list_elem_of_In. rewrite Heq. now apply in_map.
  - exfalso. apply Hout, list_elem_of_In. rewrite <- Heq. now apply in_map.
Qed.


Lemma CreateKey_duplicate (r : repository.KeyRepository) (now : Time)
    (keyValue name description : string) :
  reachable r = true ->
  insertError keyValue name description = None ->
  In keyValue (storedKeys r) ->
  CreateKey r now keyValue name description = (r, inr (duplicateError keyValue)).
Proof.
  intros Hreach Hfits Hin. unfold CreateKey. rewrite Hreach, Hfits. cbn [negb].
  destruct (findByValue (api_keys r) keyValue) eqn:Hfind; [reflexivity|].
  now apply findByValue_None in Hfind.
Qed.

Lemma find_fresh_id (rows : list APIKey) (row : APIKey) :
  (forall k, In k rows -> ID k <> ID row) ->
  List.find (fun k => ID k =? ID row) (rows ++ [row]) = Some row.
Proof.
  induction rows as [|k rows IH]; intros Hall; cbn [app find].
  - now rewrite Z.eqb_refl.
  - destruct (Z.eqb_spec (ID k) (ID row)) as [He|_].
    + exfalso. apply (Hall k); [now left|exact He].
    + apply IH. intros k' Hk'. apply Hall. now right.
Qed.

(** A new key value gets a row, and the read-back of that row fails. *)
Lemma CreateKey_fresh (r : repository.KeyRepository) (now : Time)
    (keyValue name description : string) :
  reachable r = true ->
  wellFormed r ->
  insertError keyValue name description = None ->
  ~ In keyValue (storedKeys r) ->
  exists row,
    CreateKey r now keyValue name description
    = ({| api_keys := api_keys r ++ [row];
          null_reason := {[next_id r]} ∪ null_reason r;
          key_blacklist_history := key_blacklist_history r;
          next_id := next_id r + 1;
          reachable := true |}, inr scanError) /\
    ID row = next_id r /\
    KeyValue row = keyValue /\ IsActive row = true /\ IsBlacklisted row = false /\
    findByValue (api_keys r ++ [row]) keyValue = Some row.
Proof.
  intros Hreach Hwf Hfits Hout. apply findByValue_None in Hout.
  set (new := {| ID := next_id r; KeyValue := keyValue; Name := name;
                 Description := description; IsActive := true;
                 IsBlacklisted := false; BlacklistedUntil := None;
                 BlacklistReason := ""; CreatedAt := now; UpdatedAt := now |}).
  exists new.
  split; [|repeat (split; [reflexivity|]); exact (findByValue_app (api_keys r) new Hout)].
  unfold CreateKey. rewrite Hreach, Hfits. cbn [negb]. rewrite Hout. cbv zeta.
  fold new. f_equal. unfold GetKeyByID. cbn [reachable api_keys null_reason negb].
  pose proof (find_fresh_id (api_keys r) new) as Hfind.
  cbn [ID new] in Hfind. rewrite Hfind.
  - apply Scan_inr. split; [reflexivity|]. cbn [ID null_reason new].
    apply elem_of_union. left. now apply elem_of_singleton.
  - intros k Hk. specialize (Hwf k Hk). lia.
Qed.

Lemma wellFormed_CreateKey (r : repository.KeyRepository) (now : Time)
    (keyValue name description : string) :
  wellFormed r -> wellFormed (fst (CreateKey r now keyValue name description)).
Proof.
  intros Hwf. unfold CreateKey.
  destruct (negb (reachable r)); [exact Hwf|].
  destruct (insertError _ _ _); [exact Hwf|].
  destruct (findByValue _ _); [exact Hwf|].
  cbn [fst]. intros row Hin. cbn [api_keys next_id] in *.
  apply in_app_or in Hin. destruct Hin as [Hin|[<-|[]]].
  - specialize (Hwf row Hin). lia.
  - cbn [ID]. lia.
Qed.

(** The reads that fail once a new key value is stored. *)
Lemma CreateKey_fresh_reads (r : repository.KeyRepository) (now : Time)
    (keyValue name description : string) :
  reachable r = true ->
  wellFormed r ->
  insertError keyValue name description = None ->
  ~ In keyValue (storedKeys r) ->
  let r' := fst (CreateKey r now keyValue name description) in
  snd (CreateKey r now keyValue name description) = inr scanError /\
  storedKeys r' = storedKeys r ++ [keyValue] /\
  reachable r' = true /\
  GetKeyByValue r' keyValue = inr scanError /\
  GetAllKeys r' = inr scanError /\
  forall t, GetAllActiveKeys r' t = inr scanError.
Proof.
  intros Hreach Hwf Hfits Hout r'. subst r'.
  destruct (CreateKey_fresh r now keyValue name description Hreach Hwf Hfits Hout)
    as (row & -> & Hid & Hkv & Ha & Hb & Hfind).
  cbn [fst snd]. split; [reflexivity|].
  split; [unfold storedKeys; cbn [api_keys]; rewrite map_app; cbn [List.map];
          now rewrite Hkv|].
  split; [reflexivity|].
  assert (Hnull : ID row ∈ ({[next_id r]} ∪ null_reason r : gset Z)).
  { rewrite Hid. apply elem_of_union. left. now apply elem_of_singleton. }
  assert (Hin : In row (api_keys r ++ [row])) by (apply in_or_app; right; now left).
  split.
  { unfold GetKeyByValue. cbn [reachable api_keys negb]. rewrite Hfind.
    apply Scan_inr. split; [reflexivity|exact Hnull]. }
  split.
  { unfold GetAllKeys. cbn [reachable api_keys negb].
    apply (scanAll_inr _ _ row); [exact Hin|exact Hnull]. }
  intros t. unfold GetAllActiveKeys. cbn [reachable api_keys negb].
  apply (scanAll_inr _ _ row); [|exact Hnull].
  apply filter_In. split; [exact Hin|]. unfold activeAt. now rewrite Ha, Hb.
Qed.



Lemma KeyValue_clearBlacklisted (now : Time) (keyValue : string) (k : APIKey) :
  KeyValue (clearBlacklisted now keyValue k) = KeyValue k.
Proof.
  unfold clearBlacklisted. destruct (String.eqb _ _); reflexivity.
Qed.

Lemma findByValue_clearBlacklisted (now : Time) (cleared : string)
    (rows : list APIKey) (keyValue : string) :
  findByValue (List.map (clearBlacklisted now cleared) rows) keyValue
  = option_map (clearBlacklisted now cleared) (findByValue rows keyValue).
Proof.
  unfold findByValue. induction rows as [|k rows IH]; simpl; [reflexivity|].
  rewrite KeyValue_clearBlacklisted.
  destruct (String.eqb (KeyValue k) keyValue); [reflexivity|exact IH].
Qed.

Lemma ID_clearBlacklisted (now : Time) (keyValue : string) (k : APIKey) :
  ID (clearBlacklisted now keyValue k) = ID k.
Proof.
  unfold clearBlacklisted. destruct (String.eqb _ _); reflexivity.
Qed.

Lemma idsOf_clearBlacklisted (now : Time) (cleared : string) (rows : list APIKey)
    (keyValue : string) :
  idsOf (List.map (clearBlacklisted now cleared) rows) keyValue = idsOf rows keyValue.
Proof.
  unfold idsOf. f_equal.
  induction rows as [|k rows IH]; cbn [List.map List.filter]; [reflexivity|].
  rewrite KeyValue_clearBlacklisted.
  destruct (String.eqb (KeyValue k) keyValue); cbn [List.map];
    [rewrite ID_clearBlacklisted|]; now rewrite IH.
Qed.

Lemma clearBlacklisted_idempotent (now : Time) (keyValue : string) (k : APIKey) :
  clearBlacklisted now keyValue (clearBlacklisted now keyValue k)
  = clearBlacklisted now keyValue k.
Proof.
  unfold clearBlacklisted.
  destruct (String.eqb (KeyValue k) keyValue) eqn:E; cbn [KeyValue]; rewrite E;
    reflexivity.
Qed.

(** X10.  [UnblacklistKey] undoes the marks of [BlacklistKey] on the row of
    the key: the row is no longer blacklisted, has no expiry and no reason,
    and counts as active at any time if it was active before; the history
    keeps its rows; clearing a second time changes nothing. *)
Theorem UnblacklistKey_undoes_BlacklistKey (r : KeyRepository) (now now' : Time)
    (key reason : string) (permanent : bool) (until : option Time) (row : APIKey) :
  GetKeyByValue r key = inl row ->
  let r1 := fst (BlacklistKey r now key reason permanent until) in
  let r2 := fst (UnblacklistKey r1 now' key) in
  (exists row',
     GetKeyByValue r2 key = inl row' /\
     ID row' = ID row /\
     IsBlacklisted row' = false /\ BlacklistedUntil row' = None /\
     BlacklistReason row' = "" /\
     forall t, activeAt t row' = IsActive row) /\
  key_blacklist_history r2 = key_blacklist_history r1 /\
  UnblacklistKey r2 now' key = (r2, None).
Proof.
  intros Hrow r1 r2.
  apply GetKeyByValue_inl in Hrow. destruct Hrow as (Hreach & Hfind & Hnull).
  destruct (repository_BlacklistKey_row r now key reason permanent until row Hreach Hfind)
    as (Hreach1 & Hrows1 & Hnull1 & Hget1 & _).
  fold r1 in Hreach1, Hrows1, Hnull1, Hget1.
  destruct (findByValue_Some _ _ _ Hfind) as [_ Hkv].
  assert (Hr2 : r2 = {| api_keys := List.map (clearBlacklisted now' key) (api_keys r1);
                        null_reason := null_reason r1 ∖ idsOf (api_keys r1) key;
                        key_blacklist_history := key_blacklist_history r1;
                        next_id := next_id r1;
                        reachable := reachable r1 |}).
  { unfold r2, UnblacklistKey. rewrite Hreach1. reflexivity. }
  apply GetKeyByValue_inl in Hget1. destruct Hget1 as (_ & Hfind1 & Hout1).
  split; [|split].
  - eexists. split.
    + apply GetKeyByValue_inl. rewrite Hr2. cbn [reachable api_keys null_reason].
      split; [exact Hreach1|]. split.
      * rewrite findByValue_clearBlacklisted, Hfind1. reflexivity.
      * rewrite ID_clearBlacklisted. intros H. apply elem_of_difference in H.
        destruct H as [H _]. contradiction.
    + unfold clearBlacklisted. rewrite KeyValue_setBlacklisted, Hkv, String.eqb_refl.
      cbn [ID IsBlacklisted BlacklistedUntil BlacklistReason].
      rewrite ID_setBlacklisted.
      repeat (split; [reflexivity|]).
      intros t. unfold activeAt. cbn [IsActive IsBlacklisted negb orb].
      unfold setBlacklisted. rewrite Z.eqb_refl. cbn [IsActive].
      apply andb_true_r.
  - rewrite Hr2. reflexivity.
  - rewrite Hr2 at 1. unfold UnblacklistKey. cbn [reachable api_keys null_reason
      key_blacklist_history next_id]. rewrite Hreach1. cbn [negb].
    rewrite Hr2. f_equal. f_equal.
    + rewrite map_map. apply map_ext. intros a. apply clearBlacklisted_idempotent.
    + rewrite idsOf_clearBlacklisted. apply set_eq. intros x.
      rewrite !elem_of_difference. tauto.
    + symmetry. exact Hreach1.
Qed.

Lemma UnblacklistKey_undoes_BlacklistKey_witness :
  let r := fixtures.repositoryOf ["K1"; "K2"] in
  let r1 := fst (BlacklistKey r 100 "K2" "permanent error" true None) in
  let r2 := fst (UnblacklistKey r1 200 "K2") in
  List.map KeyValue (List.filter (activeAt 150) (api_keys r1)) = ["K1"] /\
  (exists row',
     GetKeyByValue r2 "K2" = inl row' /\
     IsBlacklisted row' = false /\
     activeAt 150 row' = true) /\
  UnblacklistKey r2 200 "K2" = (r2, None).
Proof.
  intros r r1 r2.
  destruct (UnblacklistKey_undoes_BlacklistKey r 100 200 "K2" "permanent error" true None
              {| ID := 2; KeyValue := "K2"; Name := "API Key"; Description := "";
                 IsActive := true; IsBlacklisted := false; BlacklistedUntil := None;
                 BlacklistReason := ""; CreatedAt := 2; UpdatedAt := 2 |})
    as ((row' & Hg & _ & Hb & _ & _ & Ha) & _ & Hidem).
  - vm_compute. reflexivity.
  - split; [vm_compute; reflexivity|]. split.
    + exists row'. split; [exact Hg|]. split; [exact Hb|]. rewrite Ha. reflexivity.
    + exact Hidem.
Defined.

End repository_round_trips.

(** ** The blacklist across a restart *)

Section restart.

Import keymanager.

(** X11.  The blacklist does not survive a restart, the repository marks
    do: a manager started on the repository that an earlier [BlacklistKey]
    wrote to has an empty blacklist, and it loads the key again exactly when
    the blacklisting was temporary and its five minutes are over. *)
Theorem restart_reloads_key_after_expiry (cfg : config.Config) (key : string)
    (permanent : bool) (rt rt' : Runtime) (m restarted : Manager)
    (row : repository.APIKey) :
  repository.GetKeyByValue (keyRepo m) key = inl row ->
  repository.IsActive row = true ->
  NoDup (repository.storedKeys (keyRepo m)) ->
  NewManager cfg (keyRepo (BlacklistKey key permanent rt m)) rt' = inl restarted ->
  blacklist restarted = ∅ /\
  (In key (keys restarted) <-> permanent = false /\ now rt + 300 < now rt').
Proof.
  intros Hrow Hactive Hnd Hnew.
  split.
  { unfold NewManager, loadKeys in Hnew.
    destruct (repository.GetAllActiveKeys _ _) as [apiKeys|e]; [|discriminate].
    cbn [keyRepo blank] in Hnew.
    destruct (Z.of_nat (length apiKeys) =? 0); [discriminate|].
    inversion Hnew; subst restarted. unfold initializeKeyStatus.
    now rewrite (proj1 (blacklist_fold_initKey _ _)). }
  destruct (NewManager_keys _ _ _ _ Hnew) as (apiKeys & Hload & _ & ->).
  rewrite keyRepo_BlacklistKey in Hload.
  apply GetKeyByValue_inl in Hrow. destruct Hrow as (Hreach & Hfind & _).
  match type of Hload with
  | context [repository.BlacklistKey (keyRepo m) (now rt) key ?reason permanent ?until] =>
      destruct (repository_BlacklistKey_row (keyRepo m) (now rt) key reason permanent
                  until row Hreach Hfind) as (Hreach' & Hrows & _ & _ & _);
      pose proof (activeAt_setBlacklisted reason until (now rt) (now rt') row) as Hact
  end.
  destruct (findByValue_Some _ _ _ Hfind) as [Hin Hkv].
  apply GetAllActiveKeys_inl in Hload. destruct Hload as [_ Hload].
  rewrite Hrows in Hload. subst apiKeys.
  rewrite Hactive in Hact. cbn [andb] in Hact.
  rewrite in_map_iff. split.
  - intros (k' & Hk' & Hin'). apply filter_In in Hin'. destruct Hin' as [Hin' Hact'].
    apply in_map_iff in Hin'. destruct Hin' as (k & <- & Hk).
    rewrite KeyValue_setBlacklisted in Hk'.
    assert (k = row) by (apply (unique_row _ _ _ Hnd Hk Hin); congruence).
    subst k. rewrite Hact in Hact'.
    destruct permanent; [discriminate|]. split; [reflexivity|lia].
  - intros [-> Ht].
    eexists. split; [rewrite <- Hkv; apply KeyValue_setBlacklisted|].
    apply filter_In. split; [apply in_map; exact Hin|].
    rewrite Hact. apply Z.ltb_lt. exact Ht.
Qed.

Lemma restart_reloads_key_after_expiry_witness :
  let m := fixtures.managerOf fixtures.defaultConfig ["K1"; "K2"] 10 in
  let repo := keyRepo (BlacklistKey "K2" false (at_time 1000) m) in
  (exists restarted,
     NewManager fixtures.defaultConfig repo (at_time 1200) = inl restarted /\
     blacklist restarted = ∅ /\ ~ In "K2" (keys restarted)) /\
  (exists restarted,
     NewManager fixtures.defaultConfig repo (at_time 1301) = inl restarted /\
     blacklist restarted = ∅ /\ In "K2" (keys restarted)).
Proof.
  intros m repo.
  pose (row := {| repository.ID := 2; repository.KeyValue := "K2";
                  repository.Name := "API Key"; repository.Description := "";
                  repository.IsActive := true; repository.IsBlacklisted := false;
                  repository.BlacklistedUntil := None; repository.BlacklistReason := "";
                  repository.CreatedAt := 2; repository.UpdatedAt := 2 |}).
  assert (Hrow : repository.GetKeyByValue (keyRepo m) "K2" = inl row)
    by (vm_compute; reflexivity).
  assert (Hnd : NoDup (repository.storedKeys (keyRepo m))).
  { vm_compute.
    repeat (apply NoDup_cons_2; [rewrite list_elem_of_In; simpl; intuition discriminate|]).
    apply NoDup_nil_2. }
  split.
  - destruct (NewManager fixtures.defaultConfig repo (at_time 1200)) as [restarted|e]
      eqn:Hnew; [|vm_compute in Hnew; discriminate].
    destruct (restart_reloads_key_after_expiry fixtures.defaultConfig "K2" false
                (at_time 1000) (at_time 1200) m restarted row Hrow eq_refl Hnd Hnew)
      as [Hb Hk].
    exists restarted. split; [reflexivity|]. split; [exact Hb|].
    intros Hin. apply Hk in Hin. cbn in Hin. lia.
  - destruct (NewManager fixtures.defaultConfig repo (at_time 1301)) as [restarted|e]
      eqn:Hnew; [|vm_compute in Hnew; discriminate].
    destruct (restart_reloads_key_after_expiry fixtures.defaultConfig "K2" false
                (at_time 1000) (at_time 1301) m restarted row Hrow eq_refl Hnd Hnew)
      as [Hb Hk].
    exists restarted. split; [reflexivity|]. split; [exact Hb|].
    apply Hk. cbn. split; [reflexivity|lia].
Defined.

End restart.
(** ** Loading the configuration *)

Section configuration.

Import config.

Lemma getEnvString_default (env : Env) (key defaultValue : string) :
  defaultValue <> "" -> String.eqb (getEnvString env key defaultValue) "" = false.
Proof.
  intros Hd. unfold getEnvString.
  destruct (String.eqb_spec (env key) "") as [_|Hne].
  - now apply String.eqb_neq.
  - now apply String.eqb_neq.
Qed.

Lemma contains_In (slice : list string) (item : string) :
  contains slice item = true -> In item slice.
Proof.
  unfold contains. intros H. apply existsb_exists in H.
  destruct H as (s & Hin & Heq). apply String.eqb_eq in Heq. now subst.
Qed.

(** X12.  [Load] never reports a missing required setting: every string
    that [validate] requires gets a non-empty default from [getEnvString],
    so the six "is required" checks cannot fail.  A load that fails names a
    numeric range, the log level or the log format; a load that succeeds
    returns a configuration within all the validated ranges. *)
Theorem Load_never_reports_a_missing_setting (env : Env) :
  match Load env with
  | inl c =>
      DBHost c <> "" /\ DBUsername c <> "" /\ DBPassword c <> "" /\ DBName c <> "" /\
      RedisHost c <> "" /\ TavilyBaseURL c <> "" /\
      0 <= MaxRetries c /\ 0 < MaxConcurrentRequests c /\ 0 < BlacklistThreshold c /\
      0 < DBMaxOpenConns c /\ 0 <= DBMaxIdleConns c /\ 0 < RedisPoolSize c /\
      In (LogLevel c) ["debug"; "info"; "warn"; "error"] /\
      In (LogFormat c) ["text"; "json"]
  | inr msg =>
      exists why,
        msg = "configuration validation failed: " +:+ why /\
        In why ["MAX_RETRIES must be >= 0";
                "MAX_CONCURRENT_REQUESTS must be > 0";
                "BLACKLIST_THRESHOLD must be > 0";
                "DB_MAX_OPEN_CONNS must be > 0";
                "DB_MAX_IDLE_CONNS must be >= 0";
                "REDIS_POOL_SIZE must be > 0";
                "LOG_LEVEL must be one of: debug, info, warn, error";
                "LOG_FORMAT must be one of: text, json"]
  end.
Proof.
  unfold Load, validate.
  cbn [DBHost DBUsername DBPassword DBName RedisHost TavilyBaseURL MaxRetries
       MaxConcurrentRequests BlacklistThreshold DBMaxOpenConns DBMaxIdleConns
       RedisPoolSize LogLevel LogFormat].
  rewrite !getEnvString_default by discriminate.
  destruct (getEnvInt env "MAX_RETRIES" 3 <? 0) eqn:H1;
    [eexists; split; [reflexivity|simpl; tauto]|].
  destruct (getEnvInt env "MAX_CONCURRENT_REQUESTS" 100 <=? 0) eqn:H2;
    [eexists; split; [reflexivity|simpl; tauto]|].
  destruct (getEnvInt env "BLACKLIST_THRESHOLD" 1 <=? 0) eqn:H3;
    [eexists; split; [reflexivity|simpl; tauto]|].
  destruct (getEnvInt env "DB_MAX_OPEN_CONNS" 25 <=? 0) eqn:H4;
    [eexists; split; [reflexivity|simpl; tauto]|].
  destruct (getEnvInt env "DB_MAX_IDLE_CONNS" 5 <? 0) eqn:H5;
    [eexists; split; [reflexivity|simpl; tauto]|].
  destruct (getEnvInt env "REDIS_POOL_SIZE" 10 <=? 0) eqn:H6;
    [eexists; split; [reflexivity|simpl; tauto]|].
  destruct (contains ["debug"; "info"; "warn"; "error"] (getEnvString env "LOG_LEVEL" "info"))
    eqn:H7; cbn [negb]; [|eexists; split; [reflexivity|simpl; tauto]].
  destruct (contains ["text"; "json"] (getEnvString env "LOG_FORMAT" "text"))
    eqn:H8; cbn [negb]; [|eexists; split; [reflexivity|simpl; tauto]].
  cbn [DBHost DBUsername DBPassword DBName RedisHost TavilyBaseURL MaxRetries
       MaxConcurrentRequests BlacklistThreshold DBMaxOpenConns DBMaxIdleConns
       RedisPoolSize LogLevel LogFormat].
  repeat (split; [apply String.eqb_neq, getEnvString_default; discriminate|]).
  repeat (split; [lia|]).
  split; apply contains_In; assumption.
Qed.

Lemma digits_of_uint_acc (d : Decimal.uint) :
  forall p : positive,
    digits (NilEmpty.string_of_uint d) (Z.pos p) = Some (Z.pos (Pos.of_uint_acc d p)).
Proof.
  induction d; intros p; cbn [NilEmpty.string_of_uint digits Pos.of_uint_acc];
    [reflexivity| | | | | | | | | |];
    match goal with
    | |- context [digit ?c] =>
        let v := eval vm_compute in (digit c) in change (digit c) with v
    end; cbv iota beta;
    match goal with
    | |- digits _ ?z = Some (Z.pos (Pos.of_uint_acc _ ?q)) =>
        replace z with (Z.pos q) by lia
    end; apply IHd.
Qed.

Lemma digits_of_uint (d : Decimal.uint) :
  digits (NilEmpty.string_of_uint d) 0 = Some (Z.of_N (Pos.of_uint d)).
Proof.
  induction d; cbn [NilEmpty.string_of_uint digits Pos.of_uint];
    [reflexivity| | | | | | | | | |];
    match goal with
    | |- context [digit ?c] =>
        let v := eval vm_compute in (digit c) in change (digit c) with v
    end; cbv iota beta;
    [exact IHd| | | | | | | | |];
    match goal with
    | |- digits _ ?z = _ =>
        let v := eval vm_compute in z in change z with v
    end; rewrite digits_of_uint_acc; reflexivity.
Qed.

Lemma Atoi_positive (p : positive) :
  Atoi (NilEmpty.string_of_uint (Pos.to_uint p))
  = if in_int64 (Z.pos p) then Some (Z.pos p) else None.
Proof.
  pose proof (digits_of_uint (Pos.to_uint p)) as Hd.
  rewrite DecimalPos.Unsigned.of_to in Hd. cbn [Z.of_N] in Hd.
  pose proof (DecimalPos.Unsigned.to_uint_nonnil p) as Hnil.
  unfold Atoi.
  destruct (Pos.to_uint p); [congruence| | | | | | | | | |];
    cbn [NilEmpty.string_of_uint] in *; rewrite Hd; reflexivity.
Qed.

Lemma itoa_positive (p : positive) :
  NilZero.string_of_uint (Pos.to_uint p) = NilEmpty.string_of_uint (Pos.to_uint p).
Proof.
  pose proof (DecimalPos.Unsigned.to_uint_nonnil p) as Hnil.
  unfold NilZero.string_of_uint. destruct (Pos.to_uint p); [congruence|..]; reflexivity.
Qed.

Lemma Atoi_itoa (z : Z) :
  in_int64 z = true -> Atoi (itoa z) = Some z.
Proof.
  intros Hz. unfold itoa. destruct z as [|p|p]; cbn [Z.to_int NilZero.string_of_int].
  - reflexivity.
  - rewrite itoa_positive, Atoi_positive, Hz. reflexivity.
  - rewrite itoa_positive.
    pose proof (digits_of_uint (Pos.to_uint p)) as Hd.
    rewrite DecimalPos.Unsigned.of_to in Hd. cbn [Z.of_N] in Hd.
    pose proof (DecimalPos.Unsigned.to_uint_nonnil p) as Hnil.
    unfold Atoi.
    assert (Hbody : match NilEmpty.string_of_uint (Pos.to_uint p) with
                    | EmptyString => None
                    | _ => digits (NilEmpty.string_of_uint (Pos.to_uint p)) 0
                    end = Some (Z.pos p)).
    { destruct (Pos.to_uint p); [congruence|..];
        cbn [NilEmpty.string_of_uint] in *; exact Hd. }
    cbv zeta. cbv beta. rewrite Hbody. cbn [option_map].
    change (- Z.pos p) with (Z.neg p). rewrite Hz. reflexivity.
Qed.

Lemma itoa_nonempty (z : Z) : itoa z <> "".
Proof.
  unfold itoa. destruct z as [|p|p]; cbn [Z.to_int NilZero.string_of_int];
    [discriminate| |discriminate].
  rewrite itoa_positive.
  pose proof (DecimalPos.Unsigned.to_uint_nonnil p) as Hnil.
  destruct (Pos.to_uint p); [congruence|..]; discriminate.
Qed.

(** X13.  [getEnvInt] reads back the decimal rendering of every 64-bit
    integer: a variable set to the text that [%d] prints for [z] yields
    [z], not the default. *)
Theorem getEnvInt_reads_decimal (env : Env) (key : string) (defaultValue z : Z) :
  in_int64 z = true ->
  env key = itoa z ->
  getEnvInt env key defaultValue = z.
Proof.
  intros Hz Henv. unfold getEnvInt. rewrite Henv.
  destruct (String.eqb_spec (itoa z) "") as [He|_].
  - now apply itoa_nonempty in He.
  - now rewrite Atoi_itoa.
Qed.

Lemma getEnvInt_reads_decimal_witness :
  let env := fun key => if String.eqb key "START_INDEX" then "-2" else "" in
  in_int64 (-2) = true /\
  env "START_INDEX" = itoa (-2) /\
  getEnvInt env "START_INDEX" 0 = -2 /\
  option_map StartIndex
    (match Load env with inl c => Some c | inr _ => None end) = Some (-2).
Proof.
  intros env. split; [reflexivity|]. split; [reflexivity|]. split.
  - apply (getEnvInt_reads_decimal env "START_INDEX" 0 (-2)); reflexivity.
  - vm_compute. reflexivity.
Defined.

End configuration.

(** ** The start index *)

Section start_index.

Import keymanager.

Lemma usageTracker_fold_initKey (ks : list string) (m : Manager) :
  usageTracker (fold_left initKey ks m) = usageTracker m.
Proof.
  revert m. induction ks as [|k ks IH]; intros m; simpl; [reflexivity|].
  now rewrite IH.
Qed.

Lemma NewManager_fresh (cfg : config.Config) (repo : repository.KeyRepository)
    (rt : Runtime) (m : Manager) :
  NewManager cfg repo rt = inl m ->
  keys m <> [] /\
  currentIndex m = Z.rem (config.StartIndex cfg) (Z.of_nat (length (keys m))) /\
  usageTracker m = usage.NewTracker /\
  selectionStrategy m = types.StrategyPlanFirst /\
  blacklist m = ∅ /\
  keyRepo m = repo.
Proof.
  intros Hnew. unfold NewManager, loadKeys in Hnew.
  destruct (repository.GetAllActiveKeys _ _) as [apiKeys|e]; [|discriminate].
  cbn [keyRepo blank config] in Hnew.
  destruct (Z.of_nat (length apiKeys) =? 0) eqn:Hlen; [discriminate|].
  inversion Hnew as [Hm]. clear Hnew. unfold initializeKeyStatus.
  cbn [keys set_currentIndex set_keys].
  destruct (blacklist_fold_initKey (List.map repository.KeyValue apiKeys)
              (set_currentIndex
                 (Z.rem (config.StartIndex cfg)
                    (Z.of_nat (length (List.map repository.KeyValue apiKeys))))
                 (set_keys (List.map repository.KeyValue apiKeys) (blank cfg repo rt))))
    as (Hb & Hr & Hc).
  rewrite keys_fold_initKey, usageTracker_fold_initKey, selectionStrategy_fold_initKey,
    Hb, Hr, Hc.
  cbn [keys set_currentIndex set_keys blank currentIndex usageTracker selectionStrategy
       blacklist keyRepo].
  repeat split.
  destruct apiKeys; [simpl in Hlen; discriminate|discriminate].
Qed.

(** X14.  [validate] does not look at [START_INDEX], and [loadKeys] takes
    the truncated remainder of it: with a negative 64-bit start index whose
    remainder by the number of keys is below -1, the first selection of a
    freshly started manager indexes the key slice at a negative position
    and panics. *)
Theorem negative_start_index_panics (cfg : config.Config)
    (repo : repository.KeyRepository) (rt rt' : Runtime) (m : Manager) :
  NewManager cfg repo rt = inl m ->
  - 2 ^ 63 <= config.StartIndex cfg ->
  Z.rem (config.StartIndex cfg) (Z.of_nat (length (keys m))) < -1 ->
  currentIndex m = Z.rem (config.StartIndex cfg) (Z.of_nat (length (keys m))) /\
  snd (GetNextKey rt' m) = Panicked "index out of range".
Proof.
  intros Hnew Hmin Hneg.
  destruct (NewManager_fresh _ _ _ _ Hnew) as (Hne & Hcur & Htr & Hst & _ & _).
  split; [exact Hcur|].
  assert (HN : 0 < Z.of_nat (length (keys m))).
  { destruct (keys m); [congruence|simpl; lia]. }
  assert (Hlt : config.StartIndex cfg < 0).
  { destruct (Z_lt_le_dec (config.StartIndex cfg) 0) as [H|H]; [exact H|].
    pose proof (Z.rem_bound_pos (config.StartIndex cfg) _ H HN). lia. }
  pose proof (Z.rem_bound_pos_neg (config.StartIndex cfg) _ HN ltac:(lia)) as Hb.
  assert (Hge : config.StartIndex cfg
                <= Z.rem (config.StartIndex cfg) (Z.of_nat (length (keys m)))).
  { replace (config.StartIndex cfg) with (- (- config.StartIndex cfg)) at 2 by lia.
    rewrite Z.rem_opp_l'.
    pose proof (Z.rem_le (- config.StartIndex cfg) _ ltac:(lia) HN). lia. }
  unfold GetNextKey, GetNextKeyWithStrategy. rewrite Hst, Htr.
  change (String.eqb types.StrategyPlanFirst types.StrategyPlanFirst) with true.
  cbn [usage.GetOptimalKey usage.GetAllUsage usage.memoryCache usage.NewTracker].
  cbv iota. unfold getRoundRobinKey.
  destruct (Z.of_nat (length (keys m)) =? 0) eqn:Hz; [lia|].
  destruct (length (keys m)) as [|n] eqn:Hn; [lia|].
  cbn [roundRobinLoop]. rewrite Hcur.
  set (c := Z.rem (config.StartIndex cfg) (Z.of_nat (S n))) in *.
  rewrite wrap64_small by lia.
  assert (Hrem : Z.rem (c + 1) (Z.of_nat (S n)) = c + 1).
  { replace (c + 1) with (- (- (c + 1))) at 1 by lia.
    rewrite Z.rem_opp_l', Z.rem_small by lia. lia. }
  rewrite Hrem. unfold index.
  destruct (c + 1 <? 0) eqn:Hc; [reflexivity|lia].
Qed.

Lemma negative_start_index_panics_witness :
  let env := fun key => if String.eqb key "START_INDEX" then "-2" else "" in
  exists cfg m,
    config.Load env = inl cfg /\
    NewManager cfg (fixtures.repositoryOf ["K1"; "K2"; "K3"]) (at_time 10) = inl m /\
    currentIndex m = -2 /\
    snd (GetNextKey (at_time 11) m) = Panicked "index out of range" /\
    handedOut (snd (GetNextKey (at_time 12) (fst (GetNextKey (at_time 11) m))))
    = Some "K1".
Proof.
  intros env.
  destruct (config.Load env) as [cfg|e] eqn:Hload; [|vm_compute in Hload; discriminate].
  destruct (NewManager cfg (fixtures.repositoryOf ["K1"; "K2"; "K3"]) (at_time 10))
    as [m|e] eqn:Hnew.
  2:{ vm_compute in Hload. inversion Hload; subst cfg. vm_compute in Hnew. discriminate. }
  exists cfg, m. split; [reflexivity|]. split; [exact Hnew|].
  assert (Hk : keys m = ["K1"; "K2"; "K3"]).
  { vm_compute in Hload. inversion Hload; subst cfg. vm_compute in Hnew.
    inversion Hnew. reflexivity. }
  assert (Hs : config.StartIndex cfg = -2).
  { vm_compute in Hload. inversion Hload. reflexivity. }
  destruct (negative_start_index_panics cfg _ (at_time 10) (at_time 11) m Hnew)
    as [Hc Hp].
  - rewrite Hs. lia.
  - rewrite Hk, Hs. vm_compute. reflexivity.
  - split; [rewrite Hc, Hk, Hs; reflexivity|]. split; [exact Hp|].
    vm_compute in Hload. inversion Hload; subst cfg. vm_compute in Hnew.
    inversion Hnew. vm_compute. reflexivity.
Defined.

End start_index.
(** ** Blacklist, status records and statistics *)

Section agreement.

Import keymanager.

Lemma consistent_updateKeyUsage (key : string) (rt : Runtime) (m : Manager) :
  consistent m -> consistent (updateKeyUsage key rt m).
Proof.
  intros H k Hk. rewrite keys_updateKeyUsage in Hk.
  rewrite isBlacklisted_updateKeyUsage.
  destruct (H k Hk) as (status & Hs & Ha).
  unfold updateKeyUsage. cbn [keyStatus set_requestCounts set_lastUsed].
  destruct (keyStatus m !! key) as [st|] eqn:Hst.
  - cbn [keyStatus set_keyStatus set_requestCounts set_lastUsed].
    destruct (decide (key = k)) as [->|Hne].
    + rewrite lookup_insert_eq. eexists. split; [reflexivity|].
      cbn [types.KeyStatus.Active]. congruence.
    + rewrite lookup_insert_ne by assumption. eauto.
  - cbn [keyStatus set_requestCounts set_lastUsed]. eauto.
Qed.

Lemma consistent_roundRobinLoop (n : nat) (totalKeys : Z) (rt : Runtime) :
  forall m : Manager, consistent m -> consistent (fst (roundRobinLoop n totalKeys rt m)).
Proof.
  induction n as [|n IH]; intros m H; simpl; [exact H|].
  destruct (index _ _) as [key|msg]; simpl; [|exact H].
  match goal with |- context [isBlacklisted ?m' key] => destruct (isBlacklisted m' key) end.
  - apply IH. exact H.
  - simpl. apply consistent_updateKeyUsage. exact H.
Qed.

Lemma consistent_GetNextKey (rt : Runtime) (m : Manager) :
  consistent m -> consistent (fst (GetNextKey rt m)).
Proof.
  intros H. unfold GetNextKey, GetNextKeyWithStrategy.
  match goal with |- context [match ?p with Some _ => _ | None => _ end] =>
    destruct p as [key|] end.
  - now apply consistent_updateKeyUsage.
  - unfold getRoundRobinKey. destruct (_ =? 0); [exact H|].
    now apply consistent_roundRobinLoop.
Qed.

Lemma consistent_BlacklistKey (key : string) (permanent : bool) (rt : Runtime)
    (m : Manager) :
  consistent m -> consistent (BlacklistKey key permanent rt m).
Proof.
  intros H k Hk. rewrite keys_BlacklistKey in Hk.
  destruct (H k Hk) as (status & Hs & Ha).
  unfold isBlacklisted. rewrite blacklist_BlacklistKey.
  unfold BlacklistKey. cbn [keyStatus set_blacklist set_keyRepo set_errorCounts].
  destruct (decide (key = k)) as [->|Hne].
  - rewrite lookup_insert_eq, Hs. cbn [keyStatus set_keyStatus].
    rewrite lookup_insert_eq. eexists. split; reflexivity.
  - rewrite lookup_insert_ne by assumption.
    destruct (keyStatus m !! key).
    + cbn [keyStatus set_keyStatus]. rewrite lookup_insert_ne by assumption.
      exists status. split; [exact Hs|exact Ha].
    + cbn [keyStatus set_blacklist set_keyRepo set_errorCounts].
      exists status. split; [exact Hs|exact Ha].
Qed.

Lemma consistent_bump (key : string) (status' : types.KeyStatus.t) (m : Manager) :
  (forall status, keyStatus m !! key = Some status ->
     types.KeyStatus.Active status' = types.KeyStatus.Active status) ->
  consistent m ->
  consistent (set_keyStatus (<[key := status']> (keyStatus m)) m).
Proof.
  intros Hsame H k Hk. destruct (H k Hk) as (status & Hs & Ha).
  cbn [keyStatus set_keyStatus].
  change (isBlacklisted (set_keyStatus _ m) k) with (isBlacklisted m k).
  destruct (decide (key = k)) as [->|Hne].
  - rewrite lookup_insert_eq. eexists. split; [reflexivity|].
    rewrite (Hsame status Hs). exact Ha.
  - rewrite lookup_insert_ne by assumption. eauto.
Qed.

Lemma consistent_RecordError (key : string) (err : errors.TavilyError) (rt : Runtime)
    (m : Manager) :
  consistent m -> consistent (fst (RecordError key err rt m)).
Proof.
  intros H. unfold RecordError. cbn [keyStatus set_errorCounts].
  set (m1 := set_errorCounts (increment (errorCounts m) key) m).
  assert (H1 : consistent m1) by exact H.
  destruct (keyStatus m !! key) as [status|] eqn:Hst.
  - destruct (errors.Error err) as [text|msg].
    + match goal with |- context [set_keyStatus (<[key := ?s]> _) m1] =>
        assert (H2 : consistent (set_keyStatus (<[key := s]> (keyStatus m1)) m1))
      end.
      { apply (consistent_bump key _ m1); [|exact H1]. intros st Hst'.
        change (keyStatus m1) with (keyStatus m) in Hst'.
        rewrite Hst in Hst'. now inversion Hst'. }
      cbv iota beta. destruct (_ <=? _); cbn [fst].
      * apply consistent_BlacklistKey. exact H2.
      * exact H2.
    + cbn [fst]. apply (consistent_bump key _ m1); [|exact H1]. intros st Hst'.
      change (keyStatus m1) with (keyStatus m) in Hst'.
      rewrite Hst in Hst'. now inversion Hst'.
  - cbv iota beta. destruct (_ <=? _); cbn [fst].
    + apply consistent_BlacklistKey. exact H1.
    + exact H1.
Qed.

Lemma consistent_ResetKeys (m : Manager) : consistent (ResetKeys m).
Proof.
  intros k Hk. unfold ResetKeys in *. rewrite keys_fold_initKey in Hk.
  destruct (fold_initKey_inside (keys m) k (set_blacklist ∅ m) Hk) as (Hs & _).
  exists freshStatus. split; [exact Hs|].
  unfold isBlacklisted. rewrite (proj1 (blacklist_fold_initKey _ _)).
  cbn [blacklist set_blacklist]. now rewrite lookup_empty.
Qed.

Lemma consistent_after (m : Manager) (c : call) :
  consistent m -> consistent (after m c).
Proof.
  intros H. destruct c as [rt|key err rt|key permanent rt| |strategy|key u];
    cbn [after].
  - now apply consistent_GetNextKey.
  - now apply consistent_RecordError.
  - now apply consistent_BlacklistKey.
  - apply consistent_ResetKeys.
  - exact H.
  - unfold UpdateUsage. destruct (usage.UpdateUsage _ _ _). exact H.
Qed.

Lemma consistent_NewManager (cfg : config.Config) (repo : repository.KeyRepository)
    (rt : Runtime) (m : Manager) :
  NewManager cfg repo rt = inl m -> consistent m.
Proof.
  intros Hnew k Hk.
  destruct (NewManager_fresh _ _ _ _ Hnew) as (_ & _ & _ & _ & Hb & _).
  unfold isBlacklisted. rewrite Hb, lookup_empty.
  unfold NewManager in Hnew. destruct (loadKeys _ _) as [m0|e]; [|discriminate].
  inversion Hnew; subst m. unfold initializeKeyStatus in *.
  rewrite keys_fold_initKey in Hk.
  destruct (fold_initKey_inside (keys m0) k m0 Hk) as (Hs & _).
  exists freshStatus. split; [exact Hs|reflexivity].
Qed.

(** X15.  The blacklist map and the status records never disagree: after
    any calls on a manager that [NewManager] built, every key of the slice
    has a status record, and the record says active exactly when the key
    has no blacklist entry. *)
Theorem blacklist_and_status_agree (cfg : config.Config)
    (repo : repository.KeyRepository) (rt : Runtime) (m : Manager)
    (calls : list call) (key : string) :
  NewManager cfg repo rt = inl m ->
  In key (keys m) ->
  exists status,
    keyStatus (afterAll m calls) !! key = Some status /\
    types.KeyStatus.Active status = negb (isBlacklisted (afterAll m calls) key).
Proof.
  intros Hnew Hin.
  assert (H : consistent (afterAll m calls)).
  { apply consistent_NewManager in Hnew. clear Hin. unfold afterAll.
    revert m Hnew. induction calls as [|c calls IH]; intros m H; simpl; [exact H|].
    apply IH. now apply consistent_after. }
  apply H. now rewrite keys_afterAll.
Qed.

Lemma blacklist_and_status_agree_witness :
  let m := fixtures.managerOf (fixtures.tuned 2 3) [fixtures.keyA; fixtures.keyB] 10 in
  let err := errors.ParseHTTPError 500 "" fixtures.keyA in
  let calls :=
    [CallGetNextKey (at_time 11); CallRecordError fixtures.keyA err (at_time 12);
     CallRecordError fixtures.keyA err (at_time 13); CallGetNextKey (at_time 14)] in
  isBlacklisted (afterAll m calls) fixtures.keyA = true /\
  exists status,
    keyStatus (afterAll m calls) !! fixtures.keyA = Some status /\
    types.KeyStatus.Active status = false.
Proof.
  intros m err calls.
  assert (Hb : isBlacklisted (afterAll m calls) fixtures.keyA = true)
    by (vm_compute; reflexivity).
  split; [exact Hb|].
  destruct (blacklist_and_status_agree (fixtures.tuned 2 3)
              (fixtures.repositoryOf [fixtures.keyA; fixtures.keyB]) (at_time 10) m
              calls fixtures.keyA) as (status & Hs & Ha).
  - vm_compute. reflexivity.
  - vm_compute. auto.
  - exists status. split; [exact Hs|]. rewrite Ha, Hb. reflexivity.
Defined.

Lemma available_cons (m : Manager) (k : string) (ks : list string) :
  available m (k :: ks)
  = (if isBlacklisted m k then 0 else 1) + available m ks.
Proof.
  unfold available. cbn [List.filter]. destruct (isBlacklisted m k); cbn [negb length]; lia.
Qed.

Lemma available_bounds (m : Manager) (ks : list string) :
  0 <= available m ks <= Z.of_nat (length ks).
Proof.
  induction ks as [|k ks IH]; [unfold available; simpl; lia|].
  rewrite available_cons. cbn [length]. destruct (isBlacklisted m k); lia.
Qed.

Lemma available_none (m : Manager) (ks : list string) :
  available m ks = 0 <-> forall key, In key ks -> isBlacklisted m key = true.
Proof.
  induction ks as [|k ks IH]; [unfold available; simpl; tauto|].
  rewrite available_cons. pose proof (available_bounds m ks). split.
  - intros H0 key [<-|Hin].
    + destruct (isBlacklisted m k); [reflexivity|lia].
    + apply IH; [|exact Hin]. destruct (isBlacklisted m k); lia.
  - intros Hall. rewrite (Hall k (or_introl eq_refl)).
    apply IH. intros key Hin. apply Hall. now right.
Qed.

Lemma fold_statKey_counts (m : Manager) (ks : list string) :
  forall s : types.KeyStats.t,
    (forall key, In key ks ->
       exists status, keyStatus m !! key = Some status /\
                      types.KeyStatus.Active status = negb (isBlacklisted m key)) ->
    0 <= types.KeyStats.ActiveKeys s -> 0 <= types.KeyStats.BlacklistedKeys s ->
    types.KeyStats.ActiveKeys s + types.KeyStats.BlacklistedKeys s
      + Z.of_nat (length ks) < 2 ^ 63 ->
    types.KeyStats.ActiveKeys (fold_left (statKey m) ks s)
    = types.KeyStats.ActiveKeys s + available m ks /\
    types.KeyStats.BlacklistedKeys (fold_left (statKey m) ks s)
    = types.KeyStats.BlacklistedKeys s + (Z.of_nat (length ks) - available m ks).
Proof.
  induction ks as [|k ks IH]; intros s Hall Ha Hb Hlt.
  - unfold available. simpl. lia.
  - cbn [fold_left]. rewrite available_cons. cbn [length] in *.
    destruct (Hall k (or_introl eq_refl)) as (status & Hs & Hact).
    assert (Hstep :
      types.KeyStats.ActiveKeys (statKey m s k)
      = types.KeyStats.ActiveKeys s + (if isBlacklisted m k then 0 else 1) /\
      types.KeyStats.BlacklistedKeys (statKey m s k)
      = types.KeyStats.BlacklistedKeys s + (if isBlacklisted m k then 1 else 0)).
    { unfold statKey. rewrite Hs, Hact.
      destruct (isBlacklisted m k); cbn [negb types.KeyStats.ActiveKeys
                                         types.KeyStats.BlacklistedKeys];
        rewrite ?wrap64_small by lia; lia. }
    destruct Hstep as [Hsa Hsb].
    destruct (IH (statKey m s k)) as [Hra Hrb].
    + intros key Hin. apply Hall. now right.
    + rewrite Hsa. destruct (isBlacklisted m k); lia.
    + rewrite Hsb. destruct (isBlacklisted m k); lia.
    + rewrite Hsa, Hsb. destruct (isBlacklisted m k); lia.
    + rewrite Hra, Hrb, Hsa, Hsb. destruct (isBlacklisted m k); lia.
Qed.

(** X16.  The key counts of [GetStats] partition the key slice: on a
    manager whose blacklist and status records agree, [ActiveKeys] is the
    number of keys without a blacklist entry, [BlacklistedKeys] is the rest
    of [TotalKeys], and [Health] reports "unhealthy" exactly when every key
    is blacklisted. *)
Theorem GetStats_counts_partition_the_keys (m : Manager) (startTime now : Time) :
  consistent m ->
  keys m <> [] ->
  Z.of_nat (length (keys m)) < 2 ^ 63 ->
  exists stats health,
    GetStats m = Returned stats /\
    types.KeyStats.ActiveKeys stats = available m (keys m) /\
    types.KeyStats.ActiveKeys stats + types.KeyStats.BlacklistedKeys stats
    = types.KeyStats.TotalKeys stats /\
    proxy.Health m startTime now = Returned health /\
    (proxy.Status health = "unhealthy" <->
     forall key, In key (keys m) -> isBlacklisted m key = true).
Proof.
  intros Hc Hne Hlt. unfold proxy.Health, GetStats, rem.
  destruct (Z.of_nat (length (keys m)) =? 0) eqn:Hz.
  { destruct (keys m); [congruence|simpl in Hz; lia]. }
  match goal with |- context [fold_left (statKey m) (keys m) ?s] =>
    destruct (fold_statKey_counts m (keys m) s Hc) as [Ha Hb];
      [simpl; lia|simpl; lia|simpl; lia|];
    destruct (statKey_fixed m (keys m) s) as [Ht _]
  end.
  cbn [types.KeyStats.ActiveKeys types.KeyStats.BlacklistedKeys
       types.KeyStats.TotalKeys] in Ha, Hb, Ht.
  eexists. eexists. split; [reflexivity|]. split; [rewrite Ha; lia|].
  split; [rewrite Ha, Hb, Ht; lia|]. split; [reflexivity|].
  cbn [proxy.Status]. rewrite Ha. rewrite <- available_none.
  destruct (0 + available m (keys m) =? 0) eqn:He; split; intros H;
    try reflexivity; try lia; discriminate.
Qed.

Lemma GetStats_counts_partition_the_keys_witness :
  let m := BlacklistKey "K2" true (at_time 20)
             (fixtures.managerOf fixtures.defaultConfig ["K1"; "K2"; "K3"] 10) in
  exists stats health,
    GetStats m = Returned stats /\
    types.KeyStats.ActiveKeys stats = 2 /\
    types.KeyStats.BlacklistedKeys stats = 1 /\
    proxy.Health m 10 30 = Returned health /\
    proxy.Status health = "healthy".
Proof.
  intros m.
  assert (Hc : consistent m).
  { apply consistent_BlacklistKey.
    apply (consistent_NewManager fixtures.defaultConfig
             (fixtures.repositoryOf ["K1"; "K2"; "K3"]) (at_time 10)).
    vm_compute. reflexivity. }
  destruct (GetStats_counts_partition_the_keys m 10 30 Hc)
    as (stats & health & Hs & Ha & Hp & Hh & Hu).
  - vm_compute. discriminate.
  - vm_compute. reflexivity.
  - exists stats, health. split; [exact Hs|].
    assert (Hav : available m (keys m) = 2) by (vm_compute; reflexivity).
    assert (Htot : types.KeyStats.TotalKeys stats = 3).
    { vm_compute in Hs. inversion Hs. reflexivity. }
    split; [congruence|]. split; [lia|]. split; [exact Hh|].
    vm_compute in Hh. inversion Hh. reflexivity.
Defined.

End agreement.
(** ** The usage tracker *)

Section tracker.

Import types usage.

Lemma load_store {A} (key k : string) (v : A) (l : list (string * A)) :
  load k (store key v l) = if String.eqb key k then Some v else load k l.
Proof.
  induction l as [|[k0 x] l IH]; simpl.
  - rewrite String.eqb_sym. reflexivity.
  - destruct (String.eqb_spec k0 key) as [->|Hne]; simpl.
    + destruct (String.eqb key k); reflexivity.
    + rewrite IH. destruct (String.eqb_spec k0 k) as [->|Hne'].
      * destruct (String.eqb_spec key k) as [->|_]; [congruence|reflexivity].
      * reflexivity.
Qed.

Lemma store_keys {A} (key : string) (v : A) (l : list (string * A)) :
  List.map fst (store key v l)
  = if existsb (String.eqb key) (List.map fst l)
    then List.map fst l else List.map fst l ++ [key].
Proof.
  induction l as [|[k0 x] l IH]; simpl; [reflexivity|].
  rewrite (String.eqb_sym key k0).
  destruct (String.eqb k0 key); simpl; [reflexivity|].
  rewrite IH. destruct (existsb _ _); reflexivity.
Qed.

Lemma existsb_load {A} (key : string) (l : list (string * A)) :
  existsb (String.eqb key) (List.map fst l)
  = match load key l with Some _ => true | None => false end.
Proof.
  induction l as [|[k0 x] l IH]; simpl; [reflexivity|].
  rewrite (String.eqb_sym key k0).
  destruct (String.eqb k0 key); [reflexivity|exact IH].
Qed.

Lemma GetUsage_cached (t : Tracker) (key : string) (u : TavilyUsage.t) :
  cache.answers (usageCache t) = true ->
  cache.snapshots (usageCache t) !! key = Some u ->
  GetUsage t key = Some u.
Proof.
  intros Ha Hs. unfold GetUsage, cache.GetUsage. rewrite Ha, Hs. reflexivity.
Qed.

Lemma GetUsage_uncached (t : Tracker) (key : string) :
  cache.answers (usageCache t) = false \/ cache.snapshots (usageCache t) !! key = None ->
  GetUsage t key = load key (memoryCache t).
Proof.
  unfold GetUsage, cache.GetUsage. intros [Ha | Hs].
  - rewrite Ha. reflexivity.
  - rewrite Hs. destruct (cache.answers _); reflexivity.
Qed.

(** X17.  [UpdateUsage] and the two stores of the tracker.  The snapshot
    always reaches the in-memory map, also when the call panics on its log
    line, and a key that already had a snapshot there gets no second entry;
    it reaches the key/value cache exactly when the server answers.  With
    the cache as the call left it, [GetUsage] returns the new snapshot for
    the key and what it returned before for every other key, and it still
    returns the new snapshot once the entry of the key has expired in the
    cache.  But after an update that the server did not answer, a server
    that resumes with the entry it held makes [GetUsage] return that older
    snapshot, although the in-memory map holds the new one. *)
Theorem UpdateUsage_then_GetUsage (t : Tracker) (key : string) (u : TavilyUsage.t) :
  let t' := fst (UpdateUsage t key u) in
  load key (memoryCache t') = Some u /\
  List.map fst (GetAllUsage t')
  = match load key (memoryCache t) with
    | Some _ => List.map fst (GetAllUsage t)
    | None => List.map fst (GetAllUsage t) ++ [key]
    end /\
  usageCache t' = fst (cache.SetUsage (usageCache t) key u) /\
  GetUsage t' key = Some u /\
  (forall other, other <> key -> GetUsage t' other = GetUsage t other) /\
  GetUsage {| usageCache := cache.expired key (usageCache t');
              memoryCache := memoryCache t' |} key = Some u /\
  (cache.answers (usageCache t) = false ->
   forall old,
     cache.snapshots (usageCache t) !! key = Some old ->
     GetUsage {| usageCache := cache.resumed (usageCache t');
                 memoryCache := memoryCache t' |} key = Some old).
Proof.
  intros t'.
  assert (Ht : memoryCache t' = store key u (memoryCache t)).
  { unfold t', UpdateUsage. destruct (slice_to key 12); reflexivity. }
  assert (Hc : usageCache t' = fst (cache.SetUsage (usageCache t) key u)).
  { unfold t', UpdateUsage. destruct (slice_to key 12); reflexivity. }
  assert (Hload : load key (memoryCache t') = Some u).
  { rewrite Ht, load_store, String.eqb_refl. reflexivity. }
  split; [exact Hload |].
  split.
  { unfold GetAllUsage. rewrite Ht, store_keys, existsb_load.
    destruct (load key (memoryCache t)); reflexivity. }
  split; [exact Hc |].
  split.
  { unfold GetUsage, cache.GetUsage. rewrite Hc. unfold cache.SetUsage.
    destruct (cache.answers (usageCache t)) eqn:Ha;
      cbn [fst cache.answers cache.snapshots].
    - rewrite lookup_insert_eq. reflexivity.
    - rewrite Ha. exact Hload. }
  split.
  { intros other Hne. unfold GetUsage, cache.GetUsage. rewrite Hc, Ht.
    unfold cache.SetUsage.
    assert (Hother : load other (store key u (memoryCache t)) = load other (memoryCache t)).
    { rewrite load_store. destruct (String.eqb_spec key other); [congruence | reflexivity]. }
    destruct (cache.answers (usageCache t)) eqn:Ha;
      cbn [fst cache.answers cache.snapshots].
    - rewrite lookup_insert_ne by congruence.
      destruct (cache.snapshots (usageCache t) !! other); [reflexivity | exact Hother].
    - rewrite Ha. exact Hother. }
  split.
  { rewrite GetUsage_uncached; [exact Hload |].
    right. cbn [usageCache cache.expired cache.snapshots]. apply lookup_delete_eq. }
  intros Ha old Hold. apply GetUsage_cached; cbn [usageCache cache.resumed cache.answers
    cache.snapshots]; [reflexivity |].
  rewrite Hc. unfold cache.SetUsage. rewrite Ha. exact Hold.
Qed.

(** A first update reaches the cache; the server then stops answering and a
    second update reaches the in-memory map only; the server resumes, and
    [GetUsage] returns the first snapshot while [GetAllUsage] lists the
    second. *)
Lemma stale_snapshot_after_failed_update :
  let t1 := fst (UpdateUsage NewTracker fixtures.keyA (fixtures.snapshot 100 1000)) in
  let silent := {| usageCache := {| cache.snapshots := cache.snapshots (usageCache t1);
                                    cache.answers := false |};
                   memoryCache := memoryCache t1 |} in
  let t2 := fst (UpdateUsage silent fixtures.keyA (fixtures.snapshot 900 1000)) in
  let back := {| usageCache := cache.resumed (usageCache t2);
                 memoryCache := memoryCache t2 |} in
  GetUsage t2 fixtures.keyA = Some (fixtures.snapshot 900 1000) /\
  GetUsage back fixtures.keyA = Some (fixtures.snapshot 100 1000) /\
  GetAllUsage back = [(fixtures.keyA, fixtures.snapshot 900 1000)].
Proof. vm_compute. repeat split; reflexivity. Qed.

Lemma best_fold_maximum {A : Type} (total value : A -> Z) (name : A -> string)
    (visited : list A) :
  forall best : string * Z,
    let step := fun (best : string * Z) (entry : A) =>
      if total entry <=? 0 then best
      else if snd best <? value entry then (name entry, value entry)
      else best in
    let r := fold_left step visited best in
    snd best <= snd r /\
    (forall entry, In entry visited -> 0 < total entry -> value entry <= snd r) /\
    (r = best \/
     exists entry, In entry visited /\ 0 < total entry /\
       fst r = name entry /\ snd r = value entry /\ snd best < snd r).
Proof.
  induction visited as [|e visited IH]; intros best step r.
  - subst r. cbn [fold_left]. split; [lia|]. split; [intros ? []|]. now left.
  - subst r. cbn [fold_left].
    specialize (IH (step best e)). cbv zeta in IH. fold step in IH.
    destruct IH as (Hle & Hmax & Hwho).
    assert (Hstep : (step best e = best /\ (0 < total e -> value e <= snd best)) \/
                    (step best e = (name e, value e) /\ 0 < total e /\
                     snd best < value e)).
    { unfold step. destruct (Z.leb_spec (total e) 0).
      - left. split; [reflexivity|]. lia.
      - destruct (Z.ltb_spec (snd best) (value e)).
        + right. auto.
        + left. split; [reflexivity|]. intros _. lia. }
    destruct Hstep as [[Heq Hold]|(Heq & Hcred & Hlt)]; rewrite Heq in *.
    + split; [exact Hle|]. split.
      * intros entry [<-|Hin] Hc; [specialize (Hold Hc); lia|now apply Hmax].
      * destruct Hwho as [Hsame|(entry & Hin & Hc & Hf & Hs & Hl)]; [now left|].
        right. exists entry. split; [now right|]. auto.
    + cbn [snd fst] in *. split; [lia|]. split.
      * intros entry [<-|Hin] Hc; [lia|now apply Hmax].
      * right.
        destruct Hwho as [Hsame|(entry & Hin & Hc & Hf & Hs & Hl)].
        -- exists e. split; [now left|]. rewrite Hsame. cbn [fst snd]. auto.
        -- exists entry. split; [now right|]. repeat split; auto. lia.
Qed.

Lemma fold_left_pointwise {A B : Type} (f g : A -> B -> A) (l : list B) (a : A) :
  (forall a b, f a b = g a b) -> fold_left f l a = fold_left g l a.
Proof.
  intros H. revert a. induction l as [|b l IH]; intros a; cbn [fold_left]; [reflexivity|].
  rewrite H. apply IH.
Qed.

(** The snapshot that a pass of the selection ranks a key by, with positive
    total credits. *)
Definition ranked (t : Tracker) (key : string) (u : TavilyUsage.t) : Prop :=
  In key (List.map fst (memoryCache t)) /\ GetUsage t key = Some u /\
  hasCredits u = true.

Lemma bestBy_maximum (t : Tracker) (amount : RemainingPoints.t -> Z)
    (visited : list (string * TavilyUsage.t)) :
  let r := bestBy t amount visited in
  (forall entry u, In entry visited -> GetUsage t (fst entry) = Some u ->
     hasCredits u = true -> amount (remainingOf u) <= snd r) /\
  (r = ("", -1) \/
   exists entry u, In entry visited /\ GetUsage t (fst entry) = Some u /\
     hasCredits u = true /\
     fst r = fst entry /\ snd r = amount (remainingOf u) /\ -1 < snd r).
Proof.
  intros r.
  set (total := fun entry : string * TavilyUsage.t =>
         match CalculateRemainingPoints t (fst entry) with
         | Some remaining => RemainingPoints.TotalRemaining remaining
         | None => 0
         end).
  set (value := fun entry : string * TavilyUsage.t =>
         match CalculateRemainingPoints t (fst entry) with
         | Some remaining => amount remaining
         | None => 0
         end).
  destruct (best_fold_maximum total value fst visited ("", -1)) as (_ & Hmax & Hwho).
  assert (Hr : fold_left
                 (fun (best : string * Z) (entry : string * TavilyUsage.t) =>
                    if total entry <=? 0 then best
                    else if snd best <? value entry then (fst entry, value entry)
                    else best) visited ("", -1) = r).
  { unfold r, bestBy. apply fold_left_pointwise. intros best entry.
    unfold total, value. destruct (CalculateRemainingPoints t (fst entry)); reflexivity. }
  rewrite Hr in Hmax, Hwho. clear Hr.
  assert (Hview : forall entry u, GetUsage t (fst entry) = Some u ->
            total entry = RemainingPoints.TotalRemaining (remainingOf u) /\
            value entry = amount (remainingOf u)).
  { intros entry u Hu. unfold total, value, CalculateRemainingPoints. rewrite Hu.
    split; reflexivity. }
  split.
  - intros entry u Hin Hu Hc. destruct (Hview entry u Hu) as [Ht Hv].
    rewrite <- Hv. apply Hmax; [exact Hin|]. rewrite Ht. now apply Z.ltb_lt.
  - destruct Hwho as [Hsame|(entry & Hin & Hc & Hf & Hs & Hl)]; [now left|].
    right. exists entry.
    destruct (GetUsage t (fst entry)) as [u|] eqn:Hu.
    + destruct (Hview entry u Hu) as [Ht Hv]. exists u.
      split; [exact Hin|]. split; [reflexivity|].
      split; [unfold hasCredits; apply Z.ltb_lt; rewrite <- Ht; exact Hc|].
      rewrite <- Hv. auto.
    + exfalso. unfold total, CalculateRemainingPoints in Hc. rewrite Hu in Hc.
      cbn [option_map] in Hc. lia.
Qed.

Lemma traversal_In (order : RangeOrder) (l : list (string * TavilyUsage.t))
    (entry : string * TavilyUsage.t) :
  traversal order -> (In entry (order l) <-> In entry l).
Proof.
  intros H. rewrite <- !list_elem_of_In. now rewrite (H l).
Qed.

Lemma In_keys (l : list (string * TavilyUsage.t)) (key : string) :
  In key (List.map fst l) <-> exists u, In (key, u) l.
Proof.
  rewrite in_map_iff. split.
  - intros ([k u] & Hk & Hin). cbn [fst] in Hk. subst k. now exists u.
  - intros (u & Hin). now exists (key, u).
Qed.

(** X18.  Plan-first selection is a maximum search over the snapshots that
    [GetUsage] returns, the ones of the key/value cache where the cache has
    them.  When every key of the in-memory map is non-empty and each
    traversal visits every entry once, the key that [GetOptimalKey]
    returns is a key of the map whose snapshot has positive total credits,
    and either its plan credits are positive and the largest among the
    snapshots with positive total credits, or no such snapshot has positive
    plan credits and its pay-as-you-go credits are the largest among
    them. *)
Theorem plan_first_picks_the_most_credits (t : Tracker) (first second : RangeOrder)
    (key : string) :
  traversal first -> traversal second ->
  (forall entry, In entry (memoryCache t) -> fst entry <> "") ->
  GetOptimalKey t first second StrategyPlanFirst = Some key ->
  let plan := fun u => RemainingPoints.PlanRemaining (remainingOf u) in
  let paygo := fun u => RemainingPoints.PaygoRemaining (remainingOf u) in
  exists u,
    ranked t key u /\
    ((0 < plan u /\ forall k u', ranked t k u' -> plan u' <= plan u) \/
     ((forall k u', ranked t k u' -> plan u' <= 0) /\
      forall k u', ranked t k u' -> paygo u' <= paygo u)).
Proof.
  intros Hfirst Hsecond Hkeys Hopt plan paygo.
  unfold GetOptimalKey, GetAllUsage in Hopt.
  destruct (memoryCache t) as [|e0 cache0] eqn:Hcache; [discriminate|].
  rewrite <- Hcache in *. clear e0 cache0 Hcache.
  change (String.eqb StrategyPlanFirst StrategyPlanFirst) with true in Hopt.
  cbv iota in Hopt. unfold selectPlanFirstKey in Hopt.
  pose proof (bestBy_maximum t RemainingPoints.PlanRemaining (first (memoryCache t))) as H1.
  pose proof (bestBy_maximum t RemainingPoints.PaygoRemaining (second (memoryCache t))) as H2.
  cbv zeta in H1, H2.
  destruct (bestBy t RemainingPoints.PlanRemaining (first (memoryCache t))) as [k1 a1].
  destruct (bestBy t RemainingPoints.PaygoRemaining (second (memoryCache t))) as [k2 a2].
  cbn [fst snd] in *.
  destruct H1 as (Hmax1 & Hwho1). destruct H2 as (Hmax2 & Hwho2).
  assert (Hall1 : forall k u', ranked t k u' -> plan u' <= a1).
  { intros k u' (Hk & Hu & Hc). apply In_keys in Hk. destruct Hk as (v & Hin).
    apply (Hmax1 (k, v) u');
      [apply (proj2 (traversal_In first _ _ Hfirst)); exact Hin|exact Hu|exact Hc]. }
  assert (Hall2 : forall k u', ranked t k u' -> paygo u' <= a2).
  { intros k u' (Hk & Hu & Hc). apply In_keys in Hk. destruct Hk as (v & Hin).
    apply (Hmax2 (k, v) u');
      [apply (proj2 (traversal_In second _ _ Hsecond)); exact Hin|exact Hu|exact Hc]. }
  destruct (negb (String.eqb k1 "") && (0 <? a1)) eqn:Hplan.
  - inversion Hopt; subst k1. apply andb_true_iff in Hplan. destruct Hplan as [_ Hpos].
    apply Z.ltb_lt in Hpos.
    destruct Hwho1 as [Hsame|(entry & u & Hin & Hu & Hc & Hf & Hs & _)].
    { inversion Hsame. lia. }
    exists u. split.
    { split; [|split; [rewrite Hf; exact Hu|exact Hc]].
      rewrite Hf. apply in_map.
      apply (proj1 (traversal_In first _ _ Hfirst)). exact Hin. }
    left. split; [unfold plan; rewrite <- Hs; exact Hpos|].
    intros k u' Hr. specialize (Hall1 k u' Hr). unfold plan in *. lia.
  - destruct (String.eqb_spec k2 "") as [->|Hk2]; [discriminate|].
    cbn [negb] in Hopt. inversion Hopt; subst k2.
    destruct Hwho2 as [Hsame|(entry & u & Hin & Hu & Hc & Hf & Hs & _)].
    { inversion Hsame. congruence. }
    exists u. split.
    { split; [|split; [rewrite Hf; exact Hu|exact Hc]].
      rewrite Hf. apply in_map.
      apply (proj1 (traversal_In second _ _ Hsecond)). exact Hin. }
    right. split.
    + intros k u' Hr.
      assert (Ha1 : a1 <= 0).
      { destruct Hwho1 as [Hsame|(entry1 & u1 & Hin1' & _ & _ & Hf1 & _)].
        - inversion Hsame. lia.
        - apply andb_false_iff in Hplan. destruct Hplan as [Hk|Hz].
          + apply negb_false_iff, String.eqb_eq in Hk. subst k1.
            exfalso. apply (Hkeys entry1);
              [apply (proj1 (traversal_In first _ _ Hfirst)); exact Hin1'|congruence].
          + apply Z.ltb_ge in Hz. exact Hz. }
      specialize (Hall1 k u' Hr). lia.
    + intros k u' Hr. specialize (Hall2 k u' Hr). unfold paygo in *. lia.
Qed.

(** Two keys whose snapshots the cache holds as well: 100 and 600 plan
    credits left; the maps are traversed in opposite orders. *)
Lemma plan_first_picks_the_most_credits_witness :
  let t := fst (UpdateUsage
                  (fst (UpdateUsage NewTracker fixtures.keyA (fixtures.snapshot 900 1000)))
                  fixtures.keyB (fixtures.snapshot 400 1000)) in
  GetOptimalKey t (fun l => l) (@rev _) StrategyPlanFirst = Some fixtures.keyB /\
  exists u,
    ranked t fixtures.keyB u /\
    RemainingPoints.PlanRemaining (remainingOf u) = 600 /\
    forall k u', ranked t k u' ->
      RemainingPoints.PlanRemaining (remainingOf u') <= 600.
Proof.
  intros t.
  assert (Ho : GetOptimalKey t (fun l => l) (@rev _) StrategyPlanFirst
               = Some fixtures.keyB) by (vm_compute; reflexivity).
  split; [exact Ho|].
  destruct (plan_first_picks_the_most_credits t (fun l => l) (@rev _) fixtures.keyB)
    as (u & Hr & Hcase).
  - intros l. reflexivity.
  - intros l. symmetry. apply Permutation_rev.
  - intros entry Hin. vm_compute in Hin.
    destruct Hin as [<-|[<-|[]]]; discriminate.
  - exact Ho.
  - assert (Hu : u = fixtures.snapshot 400 1000).
    { destruct Hr as (_ & Hget & _).
      assert (Hb : GetUsage t fixtures.keyB = Some (fixtures.snapshot 400 1000))
        by (vm_compute; reflexivity).
      congruence. }
    exists u. split; [exact Hr|]. subst u. split; [vm_compute; reflexivity|].
    destruct Hcase as [[_ Hmax]|[Hnone _]].
    + exact Hmax.
    + intros k u' Hr'. specialize (Hnone k u' Hr'). lia.
Defined.

(** A key that outranks every other key on plan credits is the choice of
    plan-first selection, whatever the order of the map traversals. *)
Lemma GetOptimalKey_unique_best (t : Tracker) (first second : RangeOrder)
    (key : string) (u : TavilyUsage.t) :
  traversal first ->
  key <> "" ->
  ranked t key u ->
  0 < RemainingPoints.PlanRemaining (remainingOf u) ->
  (forall k u', ranked t k u' -> k <> key ->
     RemainingPoints.PlanRemaining (remainingOf u')
     < RemainingPoints.PlanRemaining (remainingOf u)) ->
  GetOptimalKey t first second StrategyPlanFirst = Some key.
Proof.
  intros Hfirst Hne (Hk & Hu & Hc) Hpos Hbest.
  unfold GetOptimalKey, GetAllUsage.
  destruct (memoryCache t) as [|e0 cache0] eqn:Hcache; [destruct Hk|].
  rewrite <- Hcache in *. clear e0 cache0 Hcache.
  change (String.eqb StrategyPlanFirst StrategyPlanFirst) with true.
  cbv iota. unfold selectPlanFirstKey.
  pose proof (bestBy_maximum t RemainingPoints.PlanRemaining (first (memoryCache t))) as H1.
  cbv zeta in H1.
  destruct (bestBy t RemainingPoints.PlanRemaining (first (memoryCache t))) as [k1 a1].
  cbn [fst snd] in H1. destruct H1 as (Hmax1 & Hwho1).
  apply In_keys in Hk. destruct Hk as (v & Hin).
  assert (Ha : RemainingPoints.PlanRemaining (remainingOf u) <= a1).
  { apply (Hmax1 (key, v) u);
      [apply (proj2 (traversal_In first _ _ Hfirst)); exact Hin|exact Hu|exact Hc]. }
  destruct Hwho1 as [Hsame|(entry & u1 & Hin1 & Hu1 & Hc1 & Hf & Hs & _)].
  { inversion Hsame. lia. }
  assert (Hk1 : k1 = key).
  { destruct (string_dec k1 key) as [He|Hd]; [exact He|exfalso].
    assert (Hr : ranked t k1 u1).
    { split; [|split; [rewrite Hf; exact Hu1|exact Hc1]].
      rewrite Hf. apply in_map.
      apply (proj1 (traversal_In first _ _ Hfirst)). exact Hin1. }
    specialize (Hbest k1 u1 Hr Hd). lia. }
  rewrite Hk1. apply String.eqb_neq in Hne. rewrite Hne. cbn [negb andb].
  assert (Hz : (0 <? a1) = true) by (apply Z.ltb_lt; lia).
  rewrite Hz. reflexivity.
Qed.

End tracker.

(** ** Plan-first selection in a row *)

Section pinning.

Import keymanager.

(** X19.  Plan-first selection does not rotate.  While the strategy is
    plan-first, the usage snapshots stay as they are, and one key that has
    no blacklist entry outranks every other key on plan credits (by the
    snapshots that [GetUsage] returns), every selection of a run returns
    that key, whatever the order in which the runtime traverses the map at
    each selection; the round-robin cursor does not move, and the request
    counter of the key goes up by one per selection. *)
Theorem plan_first_pins_one_key (rts : list Runtime) :
  forall (m : Manager) (key : string) (u : types.TavilyUsage.t),
    let plan := fun u => types.RemainingPoints.PlanRemaining (usage.remainingOf u) in
    selectionStrategy m = types.StrategyPlanFirst ->
    (forall rt, In rt rts -> usage.traversal (firstPass rt)) ->
    key <> "" ->
    In key (List.map fst (usage.memoryCache (usageTracker m))) ->
    usage.GetUsage (usageTracker m) key = Some u ->
    usage.hasCredits u = true ->
    0 < plan u ->
    (forall k u',
       In k (List.map fst (usage.memoryCache (usageTracker m))) ->
       usage.GetUsage (usageTracker m) k = Some u' ->
       usage.hasCredits u' = true -> k <> key -> plan u' < plan u) ->
    isBlacklisted m key = false ->
    List.map handedOut (snd (fixtures.selectionsAt rts m))
    = repeat (Some key) (length rts) /\
    currentIndex (fst (fixtures.selectionsAt rts m)) = currentIndex m /\
    counter (requestCounts (fst (fixtures.selectionsAt rts m))) key
    = Nat.iter (length rts) (fun c => wrap64 (c + 1)) (counter (requestCounts m) key).
Proof.
  induction rts as [|rt rts IH]; intros m key u plan Hs Hrts Hne Hin Hu Hc Hpos Hbest Hb;
    [simpl; auto|].
  cbn [fixtures.selectionsAt length].
  assert (Ho : usage.GetOptimalKey (usageTracker m) (firstPass rt) (secondPass rt)
                 types.StrategyPlanFirst = Some key).
  { apply (GetOptimalKey_unique_best _ _ _ key u).
    - apply Hrts. now left.
    - exact Hne.
    - split; [exact Hin|]. split; [exact Hu|exact Hc].
    - exact Hpos.
    - intros k u' (Hk & Hu' & Hc') Hd. exact (Hbest k u' Hk Hu' Hc' Hd). }
  assert (Hsel : GetNextKey rt m = (updateKeyUsage key rt m, Returned (inl key))).
  { unfold GetNextKey, GetNextKeyWithStrategy. rewrite Hs.
    change (String.eqb types.StrategyPlanFirst types.StrategyPlanFirst) with true.
    rewrite Ho, Hb. reflexivity. }
  rewrite Hsel.
  destruct (blacklist_updateKeyUsage key rt m) as (Hbl & Hst & _).
  destruct (framed_updateKeyUsage key rt m) as (_ & Htr & _ & Hcur0).
  specialize (IH (updateKeyUsage key rt m) key u).
  destruct (fixtures.selectionsAt rts (updateKeyUsage key rt m)) as [m' os] eqn:Hrun.
  cbn [fst snd] in *. cbv zeta in IH. rewrite Htr in IH.
  destruct IH as (Hos & Hcur & Hcnt); try assumption.
  - now rewrite Hst.
  - intros rt' Hrt'. apply Hrts. now right.
  - now rewrite isBlacklisted_updateKeyUsage.
  - cbn [List.map repeat handedOut]. rewrite Hos. split; [reflexivity|].
    split; [now rewrite Hcur, Hcur0|].
    rewrite Hcnt. destruct (counts_updateKeyUsage key rt m) as [_ ->].
    rewrite counter_increment. destruct (decide (key = key)); [|congruence].
    exact (Nat.iter_swap (length rts) Z (fun c : Z => wrap64 (c + 1)) _).
Qed.

(** Two keys with 100 and 600 plan credits left; three selections, the
    second of which traverses the map backwards. *)
Lemma plan_first_pins_one_key_witness :
  let m0 := fixtures.managerOf fixtures.defaultConfig [fixtures.keyA; fixtures.keyB] 10 in
  let m := fst (UpdateUsage fixtures.keyB (fixtures.snapshot 400 1000)
                  (fst (UpdateUsage fixtures.keyA (fixtures.snapshot 900 1000) m0))) in
  let rts := [at_time 20; fixtures.backwards 21; at_time 22] in
  List.map handedOut (snd (fixtures.selectionsAt rts m))
  = [Some fixtures.keyB; Some fixtures.keyB; Some fixtures.keyB] /\
  currentIndex (fst (fixtures.selectionsAt rts m)) = currentIndex m /\
  counter (requestCounts (fst (fixtures.selectionsAt rts m))) fixtures.keyB = 3.
Proof.
  intros m0 m rts.
  assert (Hview : forall k u',
            In k (List.map fst (usage.memoryCache (usageTracker m))) ->
            usage.GetUsage (usageTracker m) k = Some u' ->
            (k = fixtures.keyA /\ u' = fixtures.snapshot 900 1000) \/
            (k = fixtures.keyB /\ u' = fixtures.snapshot 400 1000)).
  { intros k u' Hk Hu'. vm_compute in Hk. destruct Hk as [<-|[<-|[]]].
    - left. split; [reflexivity|]. vm_compute in Hu'. inversion Hu'. reflexivity.
    - right. split; [reflexivity|]. vm_compute in Hu'. inversion Hu'. reflexivity. }
  destruct (plan_first_pins_one_key rts m fixtures.keyB (fixtures.snapshot 400 1000))
    as (Hk & Hc & Hn).
  - vm_compute. reflexivity.
  - intros rt [<-|[<-|[<-|[]]]]; intros l; cbn [firstPass at_time fixtures.backwards];
      [reflexivity|symmetry; apply Permutation_rev|reflexivity].
  - discriminate.
  - vm_compute. auto.
  - vm_compute. reflexivity.
  - vm_compute. reflexivity.
  - vm_compute. reflexivity.
  - intros k u' Hin Hu' _ Hd.
    destruct (Hview k u' Hin Hu') as [[-> ->]|[-> _]]; [vm_compute; reflexivity|congruence].
  - vm_compute. reflexivity.
  - split; [exact Hk|]. split; [exact Hc|]. rewrite Hn. vm_compute. reflexivity.
Defined.

End pinning.
(** ** The counters of one client request *)

Section request_accounting.

Import keymanager handler.

Lemma occurrences_snoc (key k : string) (calls : list string) :
  occurrences k (calls ++ [key])
  = occurrences k calls + (if decide (key = k) then 1 else 0).
Proof.
  unfold occurrences. rewrite count_occ_app. cbn [count_occ].
  destruct (string_dec key k), (decide (key = k)); try congruence; lia.
Qed.

Lemma lastFailure_snoc (req : Request) (calls : list string) (key : string) :
  lastFailure req (calls ++ [key])
  = match makeRequest req key (length calls) with
    | inr err => Some err
    | inl _ => None
    end.
Proof.
  unfold lastFailure. rewrite last_snoc, length_app. cbn [length].
  replace (length calls + 1 - 1)%nat with (length calls) by lia. reflexivity.
Qed.

Lemma failedCalls_retried (req : Request) (calls : list string) :
  retried req calls -> failedCalls req calls = calls.
Proof.
  intros Hret. unfold failedCalls.
  destruct (last calls) as [key|] eqn:El.
  - destruct (lastFailure_retried _ _ _ Hret El) as (err & _ & _ & ->). reflexivity.
  - apply last_None in El. subst calls. reflexivity.
Qed.

Lemma failedCalls_snoc (req : Request) (calls : list string) (key : string) :
  failedCalls req (calls ++ [key])
  = match makeRequest req key (length calls) with
    | inr _ => calls ++ [key]
    | inl _ => calls
    end.
Proof.
  unfold failedCalls. rewrite lastFailure_snoc.
  destruct (makeRequest req key (length calls)); [|reflexivity].
  apply removelast_last.
Qed.

Lemma retryLoop_counts (left : nat) :
  forall (attempt : nat) (req : Request) (lastErr : option errors.TavilyError)
         (calls : list string) (h : Handler),
    attempt = length calls ->
    retried req calls ->
    lastErr = lastFailure req calls ->
    (forall k, - 2 ^ 63 <= counter (requestCounts (keyManager h)) k /\
               counter (requestCounts (keyManager h)) k + Z.of_nat left < 2 ^ 63) ->
    (forall k, - 2 ^ 63 <= counter (errorCounts (keyManager h)) k /\
               counter (errorCounts (keyManager h)) k + Z.of_nat left < 2 ^ 63) ->
    let r := retryLoop left attempt req lastErr calls h in
    forall k,
      counter (requestCounts (keyManager (fst r))) k
        - occurrences k (upstreamCalls (snd r))
      = counter (requestCounts (keyManager h)) k - occurrences k calls /\
      counter (errorCounts (keyManager (fst r))) k
        - occurrences k (failedCalls req (upstreamCalls (snd r)))
      = counter (errorCounts (keyManager h)) k - occurrences k calls.
Proof.
  induction left as [|left IH];
    intros attempt req lastErr calls h Hatt Hret Hlast Hreq Herr r k; subst r.
  - cbn [retryLoop]. rewrite keyManager_allRetriesFailed.
    destruct (upstreamCalls_allRetriesFailed lastErr calls h) as (-> & _ & _).
    rewrite (failedCalls_retried _ _ Hret). auto.
  - cbn [retryLoop].
    destruct (counts_GetNextKey (runtime req attempt) (keyManager h)) as [Hce Hcr].
    destruct (GetNextKey (runtime req attempt) (keyManager h)) as [m selected].
    cbn [fst snd] in Hce, Hcr.
    destruct selected as [[apiKey|noKey]|msg];
      cbn [handedOut] in Hcr;
      cbn [fst snd keyManager set_keyManager countError upstreamCalls panicked sent].
    2,3: rewrite Hce, Hcr, (failedCalls_retried _ _ Hret); auto.
    assert (Hr1 : forall k, counter (requestCounts m) k
                  = counter (requestCounts (keyManager h)) k
                    + (if decide (apiKey = k) then 1 else 0)).
    { intros k'. rewrite Hcr, counter_increment.
      destruct (decide (apiKey = k')) as [->|_]; [|lia].
      apply wrap64_small. destruct (Hreq k'). lia. }
    rewrite Hatt.
    destruct (makeRequest req apiKey (length calls)) as [resp|err] eqn:Hm.
    + assert (Hf : failedCalls req (calls ++ [apiKey]) = calls).
      { rewrite failedCalls_snoc, Hm. reflexivity. }
      destruct (slice_to apiKey 12);
        cbn [fst snd keyManager set_keyManager countSuccess upstreamCalls panicked sent];
        rewrite Hf, Hce, Hr1, occurrences_snoc; split; lia.
    + assert (Hf : failedCalls req (calls ++ [apiKey]) = calls ++ [apiKey]).
      { rewrite failedCalls_snoc, Hm. reflexivity. }
      destruct (counts_RecordError apiKey err (runtime req (length calls)) m)
        as [Hrr Hre].
      destruct (RecordError apiKey err (runtime req (length calls)) m) as [m' recorded].
      cbn [fst] in Hrr, Hre.
      assert (He1 : forall k, counter (errorCounts m') k
                    = counter (errorCounts (keyManager h)) k
                      + (if decide (apiKey = k) then 1 else 0)).
      { intros k'. rewrite Hre, counter_increment, Hce.
        destruct (decide (apiKey = k')) as [->|_]; [|lia].
        apply wrap64_small. destruct (Herr k'). lia. }
      assert (Hexit : counter (requestCounts m') k - occurrences k (calls ++ [apiKey])
                      = counter (requestCounts (keyManager h)) k - occurrences k calls /\
                      counter (errorCounts m') k - occurrences k (calls ++ [apiKey])
                      = counter (errorCounts (keyManager h)) k - occurrences k calls).
      { rewrite Hrr, Hr1, He1, occurrences_snoc. split; lia. }
      destruct recorded as [[]|msg];
        cbn [fst snd keyManager set_keyManager upstreamCalls panicked sent].
      2:{ rewrite Hf. exact Hexit. }
      destruct (errors.IsRetryable err) eqn:He; cbn [negb].
      * destruct (slice_to apiKey 12);
          cbn [fst snd keyManager set_keyManager upstreamCalls panicked sent].
        2:{ rewrite Hf. exact Hexit. }
        specialize (IH (S (length calls)) req (Some err) (calls ++ [apiKey])
                      (set_keyManager m' (set_keyManager m h))).
        cbn [keyManager set_keyManager] in IH.
        destruct (IH ltac:(rewrite length_app; simpl; lia)
                     ltac:(eapply retried_snoc; eassumption)
                     ltac:(rewrite lastFailure_snoc, Hm; reflexivity)) with (k := k)
          as [IHr IHe].
        -- intros k'. rewrite Hrr, Hr1. destruct (Hreq k').
           destruct (decide (apiKey = k')); lia.
        -- intros k'. rewrite He1. destruct (Herr k').
           destruct (decide (apiKey = k')); lia.
        -- rewrite IHr, IHe. exact Hexit.
      * rewrite keyManager_allRetriesFailed.
        destruct (upstreamCalls_allRetriesFailed (Some err) (calls ++ [apiKey])
                    (set_keyManager m' (set_keyManager m h))) as (-> & _ & _).
        cbn [keyManager set_keyManager]. rewrite Hf. exact Hexit.
Qed.

(** X20.  One client request credits each key with one request per
    upstream call made with it and with one error per call that failed:
    whether the request is answered or ends in a panic, the request counter
    of every key grows by the number of its upstream calls and its error
    counter by the number of those that ended in a classified error. *)
Theorem request_counts_follow_the_upstream_calls (req : Request) (h : Handler)
    (k : string) :
  let budget := Z.max 0 (config.MaxRetries (config h) + 1) in
  (forall key, - 2 ^ 63 <= counter (requestCounts (keyManager h)) key < 2 ^ 63 - budget) ->
  (forall key, - 2 ^ 63 <= counter (errorCounts (keyManager h)) key < 2 ^ 63 - budget) ->
  let r := proxyTavilyRequest req h in
  counter (requestCounts (keyManager (fst r))) k
  = counter (requestCounts (keyManager h)) k + occurrences k (upstreamCalls (snd r)) /\
  counter (errorCounts (keyManager (fst r))) k
  = counter (errorCounts (keyManager h)) k
    + occurrences k (failedCalls req (upstreamCalls (snd r))).
Proof.
  intros budget Hreq Herr r. subst r. unfold proxyTavilyRequest.
  destruct (bodyReadable req); cbn [negb].
  - pose proof (retryLoop_counts
                  (Z.to_nat (config.MaxRetries (config (countTotal h)) + 1)) 0 req None []
                  (countTotal h)) as H.
    cbn [keyManager countTotal] in H.
    change (config (countTotal h)) with (config h) in *.
    destruct (H eq_refl) with (k := k) as [Hr He].
    + intros i key Hi. rewrite lookup_nil in Hi. discriminate.
    + reflexivity.
    + intros key. destruct (Hreq key). subst budget. lia.
    + intros key. destruct (Herr key). subst budget. lia.
    + change (occurrences k []) with 0 in Hr, He. split; lia.
  - cbn [fst snd keyManager countError countTotal upstreamCalls sent].
    change (occurrences k []) with 0.
    change (occurrences k (failedCalls req [])) with 0. split; lia.
Qed.

Lemma request_counts_follow_the_upstream_calls_witness :
  let h := NewHandler (fixtures.managerOf (fixtures.tuned 5 2)
                         [fixtures.keyA; fixtures.keyB] 10) in
  let req := fixtures.requestAt 100
               (fun key _ => if String.eqb key fixtures.keyB
                             then HTTPResponse 500 "upstream down"
                             else HTTPResponse 200 "{}") in
  let r := proxyTavilyRequest req h in
  upstreamCalls (snd r) = [fixtures.keyB; fixtures.keyA] /\
  failedCalls req (upstreamCalls (snd r)) = [fixtures.keyB] /\
  counter (requestCounts (keyManager (fst r))) fixtures.keyB = 1 /\
  counter (errorCounts (keyManager (fst r))) fixtures.keyB = 1 /\
  counter (requestCounts (keyManager (fst r))) fixtures.keyA = 1 /\
  counter (errorCounts (keyManager (fst r))) fixtures.keyA = 0.
Proof.
  intros h req r.
  assert (Hc : upstreamCalls (snd r) = [fixtures.keyB; fixtures.keyA])
    by (vm_compute; reflexivity).
  assert (Hf : failedCalls req (upstreamCalls (snd r)) = [fixtures.keyB])
    by (vm_compute; reflexivity).
  assert (Hroom : forall counts : gmap string Z,
            (forall key, counter counts key = 0) ->
            forall key, - 2 ^ 63 <= counter counts key
                        < 2 ^ 63 - Z.max 0 (config.MaxRetries (config h) + 1)).
  { intros counts H0 key. rewrite H0. vm_compute. split; congruence. }
  assert (Hzero : (forall key, counter (requestCounts (keyManager h)) key = 0) /\
                  (forall key, counter (errorCounts (keyManager h)) key = 0)).
  { pose proof (NewManager_accounted (fixtures.tuned 5 2)
                  (fixtures.repositoryOf [fixtures.keyA; fixtures.keyB]) (at_time 10)
                  (keyManager h) eq_refl) as Hacc.
    split; intros key; destruct (Hacc key) as (H1 & H2 & H3); cbn [fst snd] in *;
      unfold inFlight in H2; rewrite lookup_empty in H2;
      change (default 0%nat None) with 0%nat in H2; lia. }
  destruct Hzero as [Hzr Hze].
  destruct (request_counts_follow_the_upstream_calls req h fixtures.keyB
              (Hroom _ Hzr) (Hroom _ Hze)) as [HrB HeB].
  destruct (request_counts_follow_the_upstream_calls req h fixtures.keyA
              (Hroom _ Hzr) (Hroom _ Hze)) as [HrA HeA].
  fold r in HrB, HeB, HrA, HeA.
  rewrite Hf in HeB, HeA. rewrite Hc in HrB, HrA.
  rewrite Hzr in HrB, HrA. rewrite Hze in HeB, HeA.
  split; [exact Hc|]. split; [exact Hf|].
  split; [rewrite HrB; reflexivity|]. split; [rewrite HeB; reflexivity|].
  split; [rewrite HrA; reflexivity|]. rewrite HeA; reflexivity.
Defined.

Lemma makeRequest_status (req : Request) (key : string) (attempt : nat) :
  match makeRequest req key attempt with
  | inl resp => status resp < 400
  | inr err => 400 <= errors.StatusCode err
  end.
Proof.
  unfold makeRequest. destruct (upstream req key attempt) as [|msg|statusCode body].
  - simpl. lia.
  - simpl. lia.
  - destruct (Z.leb_spec 400 statusCode); [|simpl; lia].
    unfold errors.ParseHTTPError, errors.NewTavilyErrorWithKey.
    destruct (errors.statusKind statusCode). cbn [errors.StatusCode].
    unfold errors.NewTavilyError. destruct (errors.classifyError _ _).
    cbn [errors.StatusCode]. exact H.
Qed.

Lemma retryLoop_stats (left : nat) :
  forall (attempt : nat) (req : Request) (lastErr : option errors.TavilyError)
         (calls : list string) (h : Handler),
    (forall err, lastErr = Some err -> 400 <= errors.StatusCode err) ->
    let r := retryLoop left attempt req lastErr calls h in
    panic (snd r) = None ->
    exists resp,
      written (snd r) = Some resp /\
      stats (fst r)
      = if status resp <? 400 then stats (countSuccess h) else stats (countError h).
Proof.
  induction left as [|left IH]; intros attempt req lastErr calls h Hlast r; subst r.
  - cbn [retryLoop]. intros _. unfold allRetriesFailed.
    destruct lastErr as [err|]; cbn [fst snd written sent].
    + eexists. split; [reflexivity|]. cbn [status httpError].
      specialize (Hlast err eq_refl).
      destruct (Z.ltb_spec (errors.StatusCode err) 400); [lia|reflexivity].
    + eexists. split; [reflexivity|]. reflexivity.
  - cbn [retryLoop].
    destruct (GetNextKey (runtime req attempt) (keyManager h)) as [m selected].
    destruct selected as [[apiKey|noKey]|msg]; cbn [fst snd panic written panicked sent].
    3: discriminate.
    2:{ intros _. eexists. split; [reflexivity|]. reflexivity. }
    pose proof (makeRequest_status req apiKey attempt) as Hstatus.
    destruct (makeRequest req apiKey attempt) as [resp|err].
    + destruct (slice_to apiKey 12); cbn [fst snd panic written panicked sent];
        [|discriminate].
      intros _. exists resp. split; [reflexivity|].
      destruct (Z.ltb_spec (status resp) 400); [reflexivity|lia].
    + destruct (RecordError apiKey err (runtime req attempt) _) as [m' recorded].
      destruct recorded as [[]|msg]; cbn [fst snd panic written panicked sent];
        [|discriminate].
      destruct (errors.IsRetryable err); cbn [negb].
      * destruct (slice_to apiKey 12); cbn [fst snd panic written panicked sent];
          [|discriminate].
        apply (IH (S attempt) req (Some err) (calls ++ [apiKey])
                 (set_keyManager m' (set_keyManager m h))).
        intros err' Heq. inversion Heq; subst. exact Hstatus.
      * intros _. unfold allRetriesFailed. cbn [fst snd written sent].
        eexists. split; [reflexivity|]. cbn [status httpError].
        destruct (Z.ltb_spec (errors.StatusCode err) 400); [lia|reflexivity].
Qed.

(** X21.  A client request that ends without a panic is counted once in
    [RequestsTotal] and once in exactly one of the two outcome counters:
    in [RequestsSuccess] when the response written has a status below 400,
    in [RequestsError] otherwise. *)
Theorem answered_request_is_counted_once (req : Request) (h : Handler) :
  let r := proxyTavilyRequest req h in
  panic (snd r) = None ->
  exists resp,
    written (snd r) = Some resp /\
    stats (fst r)
    = if status resp <? 400
      then stats (countSuccess (countTotal h))
      else stats (countError (countTotal h)).
Proof.
  intros r. subst r. unfold proxyTavilyRequest.
  destruct (bodyReadable req); cbn [negb].
  - apply retryLoop_stats. discriminate.
  - intros _. eexists. split; [reflexivity|]. reflexivity.
Qed.

Lemma answered_request_is_counted_once_witness :
  let h := NewHandler (fixtures.managerOf (fixtures.tuned 5 2)
                         [fixtures.keyA; fixtures.keyB] 10) in
  let ok := fixtures.requestAt 100 (fixtures.always (HTTPResponse 200 "{}")) in
  let bad := fixtures.requestAt 200 (fixtures.always (HTTPResponse 400 "no query")) in
  stats (fst (proxyTavilyRequest bad (fst (proxyTavilyRequest ok h))))
  = {| RequestsTotal := 2; RequestsSuccess := 1; RequestsError := 1 |}.
Proof.
  intros h ok bad.
  destruct (answered_request_is_counted_once ok h) as (resp & Hw & Hs);
    [vm_compute; reflexivity|].
  destruct (answered_request_is_counted_once bad (fst (proxyTavilyRequest ok h)))
    as (resp' & Hw' & Hs'); [vm_compute; reflexivity|].
  rewrite Hs'. vm_compute in Hw'. inversion Hw'; subst resp'.
  cbn [status]. change (400 <? 400) with false. cbv iota.
  cbn [stats countError countTotal RequestsTotal RequestsSuccess RequestsError].
  rewrite Hs. vm_compute in Hw. inversion Hw; subst resp.
  vm_compute. reflexivity.
Defined.

End request_accounting.
(** ** The key-management endpoints *)

Section key_management.

Import keymanager handler.

Lemma set_keyRepo_same (m : Manager) : keymanager.set_keyRepo (keymanager.keyRepo m) m = m.
Proof. destruct m; reflexivity. Qed.

Lemma updateKeyUsage_set_keyRepo (key : string) (rt : Runtime)
    (r : repository.KeyRepository) (m : Manager) :
  updateKeyUsage key rt (keymanager.set_keyRepo r m)
  = keymanager.set_keyRepo r (updateKeyUsage key rt m).
Proof.
  unfold updateKeyUsage. cbn [keyStatus keymanager.set_keyRepo set_lastUsed
                              set_requestCounts].
  destruct (keyStatus m !! key); reflexivity.
Qed.

Lemma roundRobinLoop_set_keyRepo (n : nat) (totalKeys : Z) (rt : Runtime)
    (r : repository.KeyRepository) :
  forall m : Manager,
    roundRobinLoop n totalKeys rt (keymanager.set_keyRepo r m)
    = (keymanager.set_keyRepo r (fst (roundRobinLoop n totalKeys rt m)),
       snd (roundRobinLoop n totalKeys rt m)).
Proof.
  induction n as [|n IH]; intros m; [reflexivity|].
  cbn [roundRobinLoop].
  change (currentIndex (keymanager.set_keyRepo r m)) with (currentIndex m).
  change (set_currentIndex (wrap64 (currentIndex m + 1)) (keymanager.set_keyRepo r m))
    with (keymanager.set_keyRepo r (set_currentIndex (wrap64 (currentIndex m + 1)) m)).
  change (keys (keymanager.set_keyRepo r
                  (set_currentIndex (wrap64 (currentIndex m + 1)) m)))
    with (keys (set_currentIndex (wrap64 (currentIndex m + 1)) m)).
  destruct (index _ _) as [key|msg]; [|reflexivity].
  change (isBlacklisted (keymanager.set_keyRepo r
                           (set_currentIndex (wrap64 (currentIndex m + 1)) m)) key)
    with (isBlacklisted (set_currentIndex (wrap64 (currentIndex m + 1)) m) key).
  destruct (isBlacklisted _ key).
  - apply IH.
  - cbn [fst snd]. now rewrite updateKeyUsage_set_keyRepo.
Qed.

Lemma GetNextKey_set_keyRepo (rt : Runtime) (r : repository.KeyRepository)
    (m : Manager) :
  GetNextKey rt (keymanager.set_keyRepo r m)
  = (keymanager.set_keyRepo r (fst (GetNextKey rt m)), snd (GetNextKey rt m)).
Proof.
  unfold GetNextKey, GetNextKeyWithStrategy.
  change (selectionStrategy (keymanager.set_keyRepo r m)) with (selectionStrategy m).
  change (usageTracker (keymanager.set_keyRepo r m)) with (usageTracker m).
  destruct (String.eqb (selectionStrategy m) types.StrategyPlanFirst).
  - destruct (usage.GetOptimalKey _ _ _ _) as [key|].
    + change (isBlacklisted (keymanager.set_keyRepo r m) key) with (isBlacklisted m key).
      destruct (isBlacklisted m key).
      * unfold getRoundRobinKey.
        change (keys (keymanager.set_keyRepo r m)) with (keys m).
        destruct (_ =? 0); [reflexivity|]. apply roundRobinLoop_set_keyRepo.
      * cbn [fst snd]. now rewrite updateKeyUsage_set_keyRepo.
    + unfold getRoundRobinKey.
      change (keys (keymanager.set_keyRepo r m)) with (keys m).
      destruct (_ =? 0); [reflexivity|]. apply roundRobinLoop_set_keyRepo.
  - unfold getRoundRobinKey.
    change (keys (keymanager.set_keyRepo r m)) with (keys m).
    destruct (_ =? 0); [reflexivity|]. apply roundRobinLoop_set_keyRepo.
Qed.

(** The handler [h'] differs from [h] in the repository at most. *)
Lemma repository_only_refl (h : Handler) :
  exists r, keyManager h = keymanager.set_keyRepo r (keyManager h).
Proof. exists (keymanager.keyRepo (keyManager h)). now rewrite set_keyRepo_same. Qed.

Lemma repository_only_addKeyHandler (decoded : option AddKeyRequest) (now : Time)
    (h : Handler) :
  exists r, keyManager (fst (addKeyHandler decoded now h))
            = keymanager.set_keyRepo r (keyManager h).
Proof.
  unfold addKeyHandler. destruct decoded as [request|]; [|apply repository_only_refl].
  destruct (negb _); [apply repository_only_refl|].
  destruct (String.eqb _ ""); [apply repository_only_refl|].
  destruct (repository.CreateKey _ _ _ _ _) as [repo created].
  destruct created as [createdKey|err].
  - destruct (slice_to _ 12); exists repo; reflexivity.
  - destruct (Contains err _); exists repo; reflexivity.
Qed.

Lemma repository_only_importText (text namePrefix notFound : string) (now : Time)
    (h : Handler) :
  exists r, keyManager (fst (importText text namePrefix notFound now h))
            = keymanager.set_keyRepo r (keyManager h).
Proof.
  unfold importText. destruct (_ =? 0); [apply repository_only_refl|].
  destruct (importKeysToDatabase _ _ _ _) as [repo results].
  destruct results; exists repo; reflexivity.
Qed.

Lemma repository_only_deleteKeyHandler (keyID : string) (h : Handler) :
  exists r, keyManager (fst (deleteKeyHandler keyID h))
            = keymanager.set_keyRepo r (keyManager h).
Proof.
  unfold deleteKeyHandler. destruct (String.eqb keyID ""); [apply repository_only_refl|].
  destruct (ParseInt keyID) as [id|]; [|apply repository_only_refl].
  destruct (repository.GetKeyByID _ _) as [key|e]; [|apply repository_only_refl].
  destruct (repository.DeleteKey _ _) as [repo err].
  destruct err; exists repo; reflexivity.
Qed.

Lemma repository_only_listKeysHandler (h : Handler) :
  exists r, keyManager (fst (listKeysHandler h))
            = keymanager.set_keyRepo r (keyManager h).
Proof.
  unfold listKeysHandler. destruct (repository.GetAllKeys _) as [ks|e];
    [|apply repository_only_refl].
  destruct (listRows ks); apply repository_only_refl.
Qed.

(** X22.  The key-management endpoints work on the repository only: after
    listing, adding, deleting, bulk-importing or uploading keys the key
    manager has the key slice it had, and its next selection returns what it
    would have returned without the call.  A key added at run time is not
    handed out, and a deleted key still is. *)
Theorem key_management_leaves_the_rotation_alone (h : Handler) (now : Time)
    (rt : Runtime) :
  (forall r : KeysRequest,
     keys (keyManager (fst (KeysHandler r now h))) = keys (keyManager h) /\
     snd (GetNextKey rt (keyManager (fst (KeysHandler r now h))))
     = snd (GetNextKey rt (keyManager h))) /\
  (forall r : keyRequest,
     keys (keyManager (fst (serveKeyRequest r now h))) = keys (keyManager h) /\
     snd (GetNextKey rt (keyManager (fst (serveKeyRequest r now h))))
     = snd (GetNextKey rt (keyManager h))).
Proof.
  assert (Hmain : forall h' : Handler,
            (exists r, keyManager h' = keymanager.set_keyRepo r (keyManager h)) ->
            keys (keyManager h') = keys (keyManager h) /\
            snd (GetNextKey rt (keyManager h')) = snd (GetNextKey rt (keyManager h))).
  { intros h' [r ->]. split; [reflexivity|]. now rewrite GetNextKey_set_keyRepo. }
  split; intros r; apply Hmain.
  - unfold KeysHandler.
    destruct (String.eqb (method r) "GET"); [apply repository_only_listKeysHandler|].
    destruct (String.eqb (method r) "POST"); [apply repository_only_addKeyHandler|].
    destruct (String.eqb (method r) "DELETE"); [apply repository_only_deleteKeyHandler|].
    apply repository_only_refl.
  - destruct r as [decoded|decoded|upload]; cbn [serveKeyRequest].
    + apply repository_only_addKeyHandler.
    + unfold BulkImportKeysHandler. destruct decoded as [request|];
        [|apply repository_only_refl].
      destruct (String.eqb _ ""); [apply repository_only_refl|].
      apply repository_only_importText.
    + unfold FileUploadKeysHandler. destruct (negb (formParses upload));
        [apply repository_only_refl|].
      destruct (file upload) as [[filename content]|]; [|apply repository_only_refl].
      destruct (negb _); [apply repository_only_refl|].
      destruct (String.eqb content ""); [apply repository_only_refl|].
      apply repository_only_importText.
Qed.

Lemma prefixed_nonempty (key : string) :
  HasPrefix key "tvly-" = true -> String.eqb key "" = false.
Proof. destruct key; [discriminate | reflexivity]. Qed.

(** X23.  A key added through [addKeyHandler] breaks the key list.  For a
    request whose key has the [tvly-] prefix, is not stored yet and fits
    its column, as do the name and the description, on a database that
    answers: the handler answers 500 "Failed to create key", yet the key is
    stored; from then on the listing of the keys answers 500 "Failed to
    fetch keys", and a second request for the same key answers 409 "Key
    already exists". *)
Theorem added_key_breaks_the_key_list (request : AddKeyRequest) (now : Time)
    (h : Handler) :
  HasPrefix (Key request) "tvly-" = true ->
  repository.reachable (keyRepo h) = true ->
  repository.wellFormed (keyRepo h) ->
  repository.insertError (Key request)
    (if String.eqb (Name request) "" then "API Key" else Name request)
    (Description request) = None ->
  ~ In (Key request) (repository.storedKeys (keyRepo h)) ->
  let r := addKeyHandler (Some request) now h in
  snd r = sent (httpError "Failed to create key" 500) [] /\
  repository.storedKeys (keyRepo (fst r))
  = repository.storedKeys (keyRepo h) ++ [Key request] /\
  snd (listKeysHandler (fst r)) = sent (httpError "Failed to fetch keys" 500) [] /\
  forall now',
    snd (addKeyHandler (Some request) now' (fst r))
    = sent (httpError "Key already exists" 409) [].
Proof.
  intros Hprefix Hreach Hwf Hfits Hnew r. subst r.
  pose proof (prefixed_nonempty _ Hprefix) as Hne.
  destruct (CreateKey_fresh_reads (keyRepo h) now (Key request)
              (if String.eqb (Name request) "" then "API Key" else Name request)
              (Description request) Hreach Hwf Hfits Hnew)
    as (Hres & Hkeys & Hreach' & _ & Hall & _).
  assert (Hadd : addKeyHandler (Some request) now h
                 = (set_keyRepo
                      (fst (repository.CreateKey (keyRepo h) now (Key request)
                              (if String.eqb (Name request) "" then "API Key"
                               else Name request) (Description request))) h,
                    sent (httpError "Failed to create key" 500) [])).
  { unfold addKeyHandler. rewrite Hprefix, Hne. cbn [negb].
    destruct (repository.CreateKey _ _ _ _ _) as [repo created].
    cbn [fst snd] in *. rewrite Hres. reflexivity. }
  rewrite Hadd. cbn [fst snd].
  match goal with |- context [set_keyRepo ?x h] => set (repo := x) in * end.
  change (keyRepo (set_keyRepo repo h)) with repo.
  split; [reflexivity|]. split; [exact Hkeys|]. split.
  - unfold listKeysHandler. change (keyRepo (set_keyRepo repo h)) with repo.
    rewrite Hall. reflexivity.
  - intros now'. unfold addKeyHandler. rewrite Hprefix, Hne. cbn [negb].
    change (keyRepo (set_keyRepo repo h)) with repo.
    rewrite (CreateKey_duplicate repo now' _ _ _ Hreach' Hfits).
    + reflexivity.
    + rewrite Hkeys. apply in_or_app. right. now left.
Qed.

Lemma added_key_breaks_the_key_list_witness :
  let h := NewHandler (fixtures.managerOf fixtures.defaultConfig [fixtures.keyA] 10) in
  let request := {| Key := fixtures.keyB; Name := ""; Description := "" |} in
  let r := addKeyHandler (Some request) 20 h in
  statusOf (snd (listKeysHandler h)) = Some 200 /\
  snd r = sent (httpError "Failed to create key" 500) [] /\
  repository.storedKeys (keyRepo (fst r)) = [fixtures.keyA; fixtures.keyB] /\
  snd (listKeysHandler (fst r)) = sent (httpError "Failed to fetch keys" 500) [] /\
  snd (addKeyHandler (Some request) 30 (fst r))
  = sent (httpError "Key already exists" 409) [].
Proof.
  intros h request r.
  destruct (added_key_breaks_the_key_list request 20 h) as (Hr & Hk & Hl & Hd).
  - reflexivity.
  - reflexivity.
  - intros row Hin. vm_compute in Hin. destruct Hin as [<-|[]]. reflexivity.
  - vm_compute. reflexivity.
  - vm_compute. intros [H|[]]. discriminate.
  - split; [vm_compute; reflexivity|]. split; [exact Hr|].
    split; [etransitivity; [exact Hk|reflexivity]|]. split; [exact Hl|]. apply Hd.
Defined.

Lemma findByValue_filter (rows : list repository.APIKey) (deleted keyValue : string) :
  repository.findByValue
    (List.filter (fun k => negb (String.eqb (repository.KeyValue k) deleted)) rows)
    keyValue
  = if String.eqb keyValue deleted then None
    else repository.findByValue rows keyValue.
Proof.
  unfold repository.findByValue. induction rows as [|k rows IH]; cbn [List.filter find].
  - destruct (String.eqb keyValue deleted); reflexivity.
  - destruct (String.eqb_spec (repository.KeyValue k) deleted) as [Hd|Hd]; cbn [negb].
    + rewrite IH. destruct (String.eqb_spec keyValue deleted) as [He|Hne];
        [reflexivity|].
      destruct (String.eqb_spec (repository.KeyValue k) keyValue); [congruence|].
      reflexivity.
    + cbn [find].
      destruct (String.eqb_spec (repository.KeyValue k) keyValue) as [Hk|Hk].
      * destruct (String.eqb_spec keyValue deleted); [congruence|reflexivity].
      * exact IH.
Qed.

(** X24.  [deleteKeyHandler] on the id of a row that it can read answers
    200 and removes the row of that key value together with its blacklist
    history: a lookup of the key value finds no row afterwards and every
    other key value is looked up as before.  On an id without a row, on the
    id of a row without blacklist reason, or when the database does not
    answer, it answers 404 and changes nothing. *)
Theorem deleteKeyHandler_removes_the_row (keyID : string) (id : Z) (h : Handler) :
  ParseInt keyID = Some id ->
  let r := deleteKeyHandler keyID h in
  match repository.GetKeyByID (keyRepo h) id with
  | inl row =>
      statusOf (snd r) = Some 200 /\
      repository.GetKeyByValue (keyRepo (fst r)) (repository.KeyValue row)
      = inr repository.noRowsError /\
      (forall other, other <> repository.KeyValue row ->
         repository.GetKeyByValue (keyRepo (fst r)) other
         = repository.GetKeyByValue (keyRepo h) other) /\
      (forall entry,
         In entry (repository.key_blacklist_history (keyRepo (fst r))) ->
         repository.HistoryKeyID entry <> repository.ID row)
  | inr _ => r = (h, sent (httpError "Key not found" 404) [])
  end.
Proof.
  intros Hparse r. subst r. unfold deleteKeyHandler.
  destruct (String.eqb_spec keyID "") as [->|_]; [discriminate|].
  rewrite Hparse.
  destruct (repository.GetKeyByID (keyRepo h) id) as [row|e] eqn:Hrow; [|reflexivity].
  apply GetKeyByID_inl in Hrow. destruct Hrow as (Hreach & Hfind & _).
  unfold repository.DeleteKey. rewrite Hreach. cbn [negb].
  apply find_some in Hfind. destruct Hfind as [Hin Hid].
  cbn [fst snd]. change (keyRepo (set_keyRepo ?repo h)) with repo.
  split; [reflexivity|].
  unfold repository.GetKeyByValue, repository.Scan.
  cbn [repository.reachable repository.api_keys repository.key_blacklist_history
       repository.null_reason].
  rewrite Hreach. cbn [negb]. split.
  { rewrite findByValue_filter, String.eqb_refl. reflexivity. }
  split.
  { intros other Hne. rewrite findByValue_filter.
    destruct (String.eqb_spec other (repository.KeyValue row)); [congruence|reflexivity]. }
  intros entry Hentry Heq. apply filter_In in Hentry. destruct Hentry as [_ Hkeep].
  apply negb_true_iff in Hkeep.
  assert (Hex : existsb (fun k => repository.ID k =? repository.HistoryKeyID entry)
                  (List.filter (fun k => String.eqb (repository.KeyValue k)
                                             (repository.KeyValue row))
                     (repository.api_keys (keyRepo h))) = true).
  { apply existsb_exists. exists row. split.
    - apply filter_In. split; [exact Hin|apply String.eqb_refl].
    - apply Z.eqb_eq. congruence. }
  congruence.
Qed.

Lemma deleteKeyHandler_removes_the_row_witness :
  let h := NewHandler (fixtures.managerOf fixtures.defaultConfig ["K1"; "K2"; "K3"] 10) in
  let r := deleteKeyHandler "2" h in
  ParseInt "2" = Some 2 /\
  statusOf (snd r) = Some 200 /\
  repository.storedKeys (keyRepo (fst r)) = ["K1"; "K3"] /\
  repository.GetKeyByValue (keyRepo (fst r)) "K2" = inr repository.noRowsError /\
  keys (keyManager (fst r)) = ["K1"; "K2"; "K3"].
Proof.
  intros h r.
  assert (Hp : ParseInt "2" = Some 2) by reflexivity.
  pose proof (deleteKeyHandler_removes_the_row "2" 2 h Hp) as H.
  assert (Hrow : exists row, repository.GetKeyByID (keyRepo h) 2 = inl row /\
                             repository.KeyValue row = "K2").
  { eexists. split; [vm_compute; reflexivity|reflexivity]. }
  destruct Hrow as (row & Hrow & Hkv). cbv zeta in H. rewrite Hrow in H.
  destruct H as (Hs & Hg & _). rewrite Hkv in Hg.
  split; [exact Hp|]. split; [exact Hs|]. split; [vm_compute; reflexivity|].
  split; [exact Hg|]. vm_compute. reflexivity.
Defined.

(** A key added through the API cannot be deleted through the API: the
    handler that looks the row up by its id answers 404, and the key stays
    stored. *)
Lemma added_key_cannot_be_deleted :
  let h := NewHandler (fixtures.managerOf fixtures.defaultConfig [fixtures.keyA] 10) in
  let request := {| Key := fixtures.keyB; Name := ""; Description := "" |} in
  let added := fst (addKeyHandler (Some request) 20 h) in
  List.map repository.ID (repository.api_keys (keyRepo added)) = [1; 2] /\
  deleteKeyHandler "2" added = (added, sent (httpError "Key not found" 404) []).
Proof. vm_compute. split; reflexivity. Qed.

End key_management.
(** ** Bulk import *)

Section bulk_import.

Import handler.

Lemma Contains_duplicateError (keyValue : string) :
  Contains (repository.duplicateError keyValue) "Duplicate entry" = true.
Proof. reflexivity. Qed.

Lemma Contains_scanError :
  Contains repository.scanError "Duplicate entry" = false.
Proof. vm_compute. reflexivity. Qed.

Lemma importLoop_stores (keys : list string) :
  forall (i : Z) (namePrefix : string) (now : Time) (repo : repository.KeyRepository)
         (count : ImportCount),
    repository.reachable repo = true ->
    repository.wellFormed repo ->
    forallb longEnough keys = true ->
    importFits keys i namePrefix = true ->
    exists repo' count',
      importLoop keys i namePrefix now repo count = (repo', Returned count') /\
      repository.reachable repo' = true /\
      repository.wellFormed repo' /\
      (forall k, In k (repository.storedKeys repo) -> In k (repository.storedKeys repo')) /\
      (forall k, In k keys -> In k (repository.storedKeys repo')) /\
      imported count' = imported count /\
      ((forall k, In k keys -> In k (repository.storedKeys repo)) ->
       repo' = repo /\ failed count' = failed count).
Proof.
  induction keys as [|key keys IH]; intros i namePrefix now repo count Hreach Hwf Hlong Hfit.
  - exists repo, count. cbn [importLoop]. repeat split; auto. intros k [].
  - cbn [forallb] in Hlong. apply andb_true_iff in Hlong. destruct Hlong as [Hk Hlong].
    cbn [importFits] in Hfit.
    destruct (repository.insertError key (namePrefix +:+ " " +:+ itoa (wrap64 (i + 1)))
                "Imported via web interface") as [|] eqn:Hfits; [discriminate|].
    cbn [importLoop].
    destruct (longEnough_slice key Hk) as [preview Hpreview].
    destruct (in_dec string_dec key (repository.storedKeys repo)) as [Hin|Hout].
    + (* already stored: a duplicate *)
      rewrite (CreateKey_duplicate repo now key _ _ Hreach Hfits Hin).
      rewrite Hpreview, Contains_duplicateError.
      match goal with |- context [importLoop keys (i + 1) namePrefix now repo ?c] =>
        destruct (IH (i + 1) namePrefix now repo c Hreach Hwf Hlong Hfit)
          as (repo' & count' & Hloop & Hr' & Hwf' & Hmono & Hall & Himp & Hidle)
      end.
      exists repo', count'. split; [exact Hloop|]. split; [exact Hr'|].
      split; [exact Hwf'|]. split; [exact Hmono|].
      split; [intros k [<-|Hk']; [apply Hmono, Hin|apply Hall, Hk']|].
      split; [exact Himp|].
      intros Hstored. destruct Hidle as [-> Hfailed].
      * intros k Hk'. apply Hstored. now right.
      * split; [reflexivity|exact Hfailed].
    + (* new: stored, and reported as a failure *)
      destruct (CreateKey_fresh_reads repo now key
                  (namePrefix +:+ " " +:+ itoa (wrap64 (i + 1)))
                  "Imported via web interface" Hreach Hwf Hfits Hout)
        as (Hres & Hkeys & Hreach1 & _).
      pose proof (wellFormed_CreateKey repo now key
                    (namePrefix +:+ " " +:+ itoa (wrap64 (i + 1)))
                    "Imported via web interface" Hwf) as Hwf1.
      destruct (repository.CreateKey repo now key _ _) as [repo1 created].
      cbn [fst snd] in *. subst created.
      rewrite Hpreview, Contains_scanError.
      match goal with |- context [importLoop keys (i + 1) namePrefix now repo1 ?c] =>
        destruct (IH (i + 1) namePrefix now repo1 c Hreach1 Hwf1 Hlong Hfit)
          as (repo' & count' & Hloop & Hr' & Hwf' & Hmono & Hall & Himp & _)
      end.
      exists repo', count'. split; [exact Hloop|]. split; [exact Hr'|].
      split; [exact Hwf'|].
      split; [intros k Hk'; apply Hmono; rewrite Hkeys; apply in_or_app; now left|].
      split; [intros k [<-|Hk']; [apply Hmono; rewrite Hkeys; apply in_or_app; right;
                                  now left|apply Hall, Hk']|].
      split; [exact Himp|].
      intros Hstored. exfalso. apply Hout, Hstored. now left.
Qed.

(** X25.  Importing the same text twice is idempotent, and no import ever
    reports an imported key.  When the database answers, every parsed key
    has at least twelve bytes and the keys and their names fit their
    columns, the first bulk import leaves every parsed key stored, yet it
    reports no imported key and the status "warning"; a second import of
    the same text leaves the rows as they are and reports no imported key,
    no failure and the status "warning". *)
Theorem bulk_import_is_idempotent (text prefix prefix' : string) (now now' : Time)
    (h : Handler) :
  repository.reachable (keyRepo h) = true ->
  repository.wellFormed (keyRepo h) ->
  forallb longEnough (parseKeysFromText text) = true ->
  parseKeysFromText text <> [] ->
  importFits (parseKeysFromText text) 0
    (if String.eqb prefix "" then "Imported Key" else prefix) = true ->
  importFits (parseKeysFromText text) 0
    (if String.eqb prefix' "" then "Imported Key" else prefix') = true ->
  let first :=
    BulkImportKeysHandler (Some {| Keys := text; Prefix := prefix |}) now h in
  let second :=
    BulkImportKeysHandler (Some {| Keys := text; Prefix := prefix' |}) now' (fst first) in
  panic (snd first) = None /\
  (forall key, In key (parseKeysFromText text) ->
     In key (repository.storedKeys (keyRepo (fst first)))) /\
  (exists doc,
     written (snd first) = Some {| status := 200; body := Document doc |} /\
     field "imported_count" doc = Some (JNumber 0) /\
     field "status" doc = Some (JString "warning")) /\
  repository.api_keys (keyRepo (fst second)) = repository.api_keys (keyRepo (fst first)) /\
  exists doc,
    written (snd second) = Some {| status := 200; body := Document doc |} /\
    field "imported_count" doc = Some (JNumber 0) /\
    field "error_count" doc = Some (JNumber 0) /\
    field "status" doc = Some (JString "warning").
Proof.
  intros Hreach Hwf Hlong Hne Hfit Hfit' first second. subst second first.
  unfold BulkImportKeysHandler. cbn [Keys Prefix].
  destruct (String.eqb_spec text "") as [->|_]; [now contradiction Hne|].
  unfold importText.
  destruct (Z.of_nat (length (parseKeysFromText text)) =? 0) eqn:Hlen.
  { destruct (parseKeysFromText text); [congruence|simpl in Hlen; lia]. }
  unfold importKeysToDatabase.
  set (zero := {| imported := 0; skipped := 0; failed := 0; errorDetails := [] |}).
  destruct (importLoop_stores (parseKeysFromText text) 0
              (if String.eqb prefix "" then "Imported Key" else prefix) now
              (keyRepo h) zero Hreach Hwf Hlong Hfit)
    as (repo1 & count1 & Hloop1 & Hreach1 & Hwf1 & _ & Hall1 & Himported1 & _).
  rewrite Hloop1. cbn [fst snd panic sent written].
  change (keyRepo (set_keyRepo repo1 h)) with repo1.
  split; [reflexivity|]. split; [exact Hall1|].
  split.
  { eexists. split; [reflexivity|].
    rewrite Himported1. subst zero. cbn [imported].
    destruct (0 <? failed count1); split; reflexivity. }
  destruct (importLoop_stores (parseKeysFromText text) 0
              (if String.eqb prefix' "" then "Imported Key" else prefix') now'
              repo1 zero Hreach1 Hwf1 Hlong Hfit')
    as (repo2 & count2 & Hloop2 & _ & _ & _ & _ & Himported2 & Hidle2).
  destruct (Hidle2 Hall1) as [-> Hfailed2].
  rewrite Hloop2. cbn [fst snd written sent].
  split; [reflexivity|].
  eexists. split; [reflexivity|].
  rewrite Hfailed2, Himported2. subst zero. cbn [failed imported].
  repeat split.
Qed.

Lemma bulk_import_is_idempotent_witness :
  let h := NewHandler (fixtures.managerOf fixtures.defaultConfig [fixtures.keyA] 10) in
  let first :=
    BulkImportKeysHandler (Some {| Keys := fixtures.keysText; Prefix := "" |}) 20 h in
  let second :=
    BulkImportKeysHandler (Some {| Keys := fixtures.keysText; Prefix := "again" |}) 30
      (fst first) in
  repository.storedKeys (keyRepo (fst first))
  = [fixtures.keyA; "tvly-abcdefghijkl"; "tvly-mnopqrstuvwx"] /\
  (exists doc,
     written (snd first) = Some {| status := 200; body := Document doc |} /\
     field "imported_count" doc = Some (JNumber 0) /\
     field "error_count" doc = Some (JNumber 2)) /\
  repository.api_keys (keyRepo (fst second)) = repository.api_keys (keyRepo (fst first)) /\
  exists doc,
    written (snd second) = Some {| status := 200; body := Document doc |} /\
    field "imported_count" doc = Some (JNumber 0) /\
    field "skipped_count" doc = Some (JNumber 2) /\
    field "status" doc = Some (JString "warning").
Proof.
  intros h first second.
  destruct (bulk_import_is_idempotent fixtures.keysText "" "again" 20 30 h)
    as (_ & _ & (doc1 & Hw1 & Hi1 & _) & Hrepo & doc & Hw & Hi & _ & Hs).
  - reflexivity.
  - intros row Hin. vm_compute in Hin. destruct Hin as [<-|[]]. reflexivity.
  - vm_compute. reflexivity.
  - vm_compute. discriminate.
  - vm_compute. reflexivity.
  - vm_compute. reflexivity.
  - split; [vm_compute; reflexivity|].
    split.
    { exists doc1. split; [exact Hw1|]. split; [exact Hi1|].
      pose proof Hw1 as Hc. vm_compute in Hc. injection Hc as <-.
      vm_compute. reflexivity. }
    split; [exact Hrepo|].
    exists doc. split; [exact Hw|]. split; [exact Hi|]. split; [|exact Hs].
    pose proof Hw as Hc. vm_compute in Hc. injection Hc as <-.
    vm_compute. reflexivity.
Defined.

End bulk_import.

(** ** The auth middleware *)

Section authentication.

Import middleware.

Lemma cut_append (s before after : string) :
  cut s = Some (before, after) -> s = before +:+ String " " after.
Proof.
  revert before. induction s as [|c s IH]; intros before; cbn [cut]; [discriminate|].
  destruct (Ascii.eqb_spec c " "%char) as [->|_].
  - intros H. inversion H. reflexivity.
  - destruct (cut s) as [[b a]|]; [|discriminate].
    intros H. inversion H; subst.
    change (String c b +:+ String " " after) with (String c (b +:+ String " " after)).
    f_equal. now apply IH.
Qed.

(** X26.  The auth middleware passes a request on exactly when no auth key
    is configured or the [Authorization] header is the text "Bearer ", one
    space included, followed by the configured key; everything else is
    answered with 401. *)
Theorem AuthMiddleware_admits_exactly_the_bearer_token (authKey authHeader : string) :
  (AuthMiddleware.Handler authKey authHeader = None <->
   authKey = "" \/ authHeader = "Bearer " +:+ authKey) /\
  (forall resp, AuthMiddleware.Handler authKey authHeader = Some resp ->
                handler.status resp = 401).
Proof.
  unfold AuthMiddleware.Handler. split.
  - destruct (String.eqb_spec authKey "") as [->|Hkey]; [split; auto|].
    split.
    + destruct (String.eqb authHeader ""); [discriminate|].
      unfold SplitN2. destruct (cut authHeader) as [[scheme token]|] eqn:Hcut;
        [|discriminate].
      destruct (String.eqb_spec scheme "Bearer") as [->|_]; [|discriminate].
      destruct (String.eqb_spec token authKey) as [->|_]; [|discriminate].
      intros _. right. exact (cut_append _ _ _ Hcut).
    + intros [H | ->]; [contradiction|].
      change (String.eqb ("Bearer " +:+ authKey) "") with false. cbv iota.
      change (SplitN2 ("Bearer " +:+ authKey)) with ["Bearer"; authKey].
      cbv iota. rewrite !String.eqb_refl. reflexivity.
  - intros resp.
    destruct (String.eqb authKey ""); [discriminate|].
    destruct (String.eqb authHeader ""); [intros H; inversion H; reflexivity|].
    destruct (SplitN2 authHeader) as [|scheme [|token [|]]];
      try (intros H; inversion H; reflexivity).
    destruct (negb (String.eqb scheme "Bearer")); [intros H; inversion H; reflexivity|].
    destruct (negb (String.eqb token authKey)); [intros H; inversion H; reflexivity|].
    discriminate.
Qed.

End authentication.
(** ** Fairness of the rotation *)

Section fairness.

Import keymanager.

Lemma turns_start (c N j : Z) : 0 < N -> turns c N 0 j = 0.
Proof.
  intros HN. unfold turns. rewrite Z.div_0_l, Z.mod_0_l by lia.
  pose proof (Z.mod_pos_bound (j - c - 1) N HN).
  destruct (Z.ltb_spec ((j - c - 1) mod N) 0); lia.
Qed.

Lemma turns_bounds (c N i j : Z) :
  0 < N -> 0 <= i ->
  i / N <= turns c N i j <= i / N + 1 /\ 0 <= turns c N i j <= i.
Proof.
  intros HN Hi. unfold turns.
  pose proof (Z.mod_pos_bound i N HN) as Hs.
  pose proof (Z.mod_pos_bound (j - c - 1) N HN) as Ho.
  pose proof (Z.div_mod i N ltac:(lia)) as Hdm.
  assert (Hq : 0 <= i / N) by (apply Z.div_pos; lia).
  destruct (Z.ltb_spec ((j - c - 1) mod N) (i mod N)); split; try lia; nia.
Qed.

Lemma turns_step (c N i j : Z) :
  0 < N -> 0 <= i -> 0 <= j < N ->
  turns c N (i + 1) j
  = turns c N i j + (if j =? (c + i + 1) mod N then 1 else 0).
Proof.
  intros HN Hi Hj. unfold turns.
  pose proof (Z.mod_pos_bound i N HN) as Hs.
  pose proof (Z.mod_pos_bound (j - c - 1) N HN) as Ho.
  pose proof (Z.div_mod i N ltac:(lia)) as Hdm.
  (* the key at index [j] is the one selected next iff its offset is [i mod N] *)
  assert (Hsel : j = (c + i + 1) mod N <-> (j - c - 1) mod N = i mod N).
  { split.
    - intros ->.
      replace ((c + i + 1) mod N - c - 1) with ((c + i + 1) mod N - (c + 1)) by lia.
      rewrite Zminus_mod_idemp_l.
      replace (c + i + 1 - (c + 1)) with i by lia. reflexivity.
    - intros Heq.
      rewrite <- (Z.mod_small j N) at 1 by lia.
      replace j with ((j - c - 1) + (c + 1)) at 1 by lia.
      rewrite <- Zplus_mod_idemp_l, Heq, Zplus_mod_idemp_l.
      f_equal. lia. }
  destruct (Z_lt_le_dec (i mod N + 1) N) as [Hlt|Hge].
  - assert (Hq : (i + 1) / N = i / N).
    { symmetry. apply (Z.div_unique (i + 1) N (i / N) (i mod N + 1)); lia. }
    assert (Hr : (i + 1) mod N = i mod N + 1).
    { symmetry. apply (Z.mod_unique (i + 1) N (i / N) (i mod N + 1)); lia. }
    rewrite Hq, Hr.
    destruct (Z.eqb_spec j ((c + i + 1) mod N)) as [He|He].
    + apply Hsel in He.
      destruct (Z.ltb_spec ((j - c - 1) mod N) (i mod N + 1)),
               (Z.ltb_spec ((j - c - 1) mod N) (i mod N)); lia.
    + assert ((j - c - 1) mod N <> i mod N) by (intros H; apply He, Hsel, H).
      destruct (Z.ltb_spec ((j - c - 1) mod N) (i mod N + 1)),
               (Z.ltb_spec ((j - c - 1) mod N) (i mod N)); lia.
  - assert (Hq : (i + 1) / N = i / N + 1).
    { symmetry. apply (Z.div_unique (i + 1) N (i / N + 1) 0); lia. }
    assert (Hr : (i + 1) mod N = 0).
    { symmetry. apply (Z.mod_unique (i + 1) N (i / N + 1) 0); lia. }
    rewrite Hq, Hr.
    destruct (Z.eqb_spec j ((c + i + 1) mod N)) as [He|He].
    + apply Hsel in He.
      destruct (Z.ltb_spec ((j - c - 1) mod N) 0),
               (Z.ltb_spec ((j - c - 1) mod N) (i mod N)); lia.
    + assert ((j - c - 1) mod N <> i mod N) by (intros H; apply He, Hsel, H).
      destruct (Z.ltb_spec ((j - c - 1) mod N) 0),
               (Z.ltb_spec ((j - c - 1) mod N) (i mod N)); lia.
Qed.

Lemma selections_step (n : nat) (t : Time) (m : Manager) :
  fst (fixtures.selections (S n) t m)
  = fst (fixtures.selections n (t + 1) (fst (GetNextKey (at_time t) m))).
Proof.
  cbn [fixtures.selections].
  destruct (GetNextKey (at_time t) m) as [m1 o]. cbn [fst].
  destruct (fixtures.selections n (t + 1) m1) as [m2 os]. reflexivity.
Qed.

Lemma selections_turns (n : nat) :
  forall (t : Time) (m : Manager) (c i : Z) (before : string -> Z),
    selectionStrategy m = types.StrategyRoundRobin ->
    blacklist m = ∅ ->
    NoDup (keys m) ->
    0 <= c -> 0 <= i -> currentIndex m = c + i ->
    c + i + Z.of_nat n < 2 ^ 63 ->
    (forall k, - 2 ^ 63 <= before k /\ before k + i + Z.of_nat n < 2 ^ 63) ->
    (forall (j : nat) k, keys m !! j = Some k ->
       counter (requestCounts m) k
       = before k + turns c (Z.of_nat (length (keys m))) i (Z.of_nat j)) ->
    forall (j : nat) k, keys m !! j = Some k ->
      counter (requestCounts (fst (fixtures.selections n t m))) k
      = before k
        + turns c (Z.of_nat (length (keys m))) (i + Z.of_nat n) (Z.of_nat j).
Proof.
  induction n as [|n IH];
    intros t m c i before Hst Hbl Hnd Hc Hi Hcur Hmax Hroom Hcount j k Hj.
  - cbn [fixtures.selections fst]. rewrite Z.add_0_r. now apply Hcount.
  - rewrite selections_step.
    assert (HN : 0 < Z.of_nat (length (keys m))).
    { apply lookup_lt_Some in Hj. lia. }
    set (N := Z.of_nat (length (keys m))) in *.
    pose proof (Z.mod_pos_bound (c + i + 1) N HN) as Hpos.
    destruct (keys m !! Z.to_nat ((c + i + 1) mod N)) as [key|] eqn:Hkey.
    2:{ apply lookup_ge_None in Hkey. subst N. lia. }
    assert (Hfree : isBlacklisted m key = false).
    { unfold isBlacklisted. now rewrite Hbl, lookup_empty. }
    destruct (round_robin_reads_advanced_cursor (at_time t) m key) as [Hout Hadv].
    { lia. }
    { rewrite Hcur. replace (c + i + 1) with (c + i + 1) by lia. exact Hkey. }
    { exact Hfree. }
    assert (Hnext : GetNextKey (at_time t) m = getRoundRobinKey (at_time t) m).
    { unfold GetNextKey, GetNextKeyWithStrategy. rewrite Hst. reflexivity. }
    destruct (counts_GetNextKey (at_time t) m) as [_ Hreq].
    destruct (blacklist_GetNextKeyWithStrategy (selectionStrategy m) (at_time t) m)
      as (Hbl' & Hst' & _).
    pose proof (keys_GetNextKeyWithStrategy (selectionStrategy m) (at_time t) m) as Hkeys.
    fold (GetNextKey (at_time t) m) in Hbl', Hst', Hkeys.
    rewrite Hnext in Hreq, Hbl', Hst', Hkeys |- *. rewrite Hout in Hreq.
    set (m1 := fst (getRoundRobinKey (at_time t) m)) in *.
    assert (Hstep : forall (j' : nat) k', keys m !! j' = Some k' ->
              counter (requestCounts m1) k'
              = before k' + turns c N (i + 1) (Z.of_nat j')).
    { intros j' k' Hj'. rewrite Hreq, counter_increment.
      pose proof (lookup_lt_Some _ _ _ Hj') as Hlt.
      rewrite turns_step by (subst N; lia).
      destruct (decide (key = k')) as [->|Hne].
      - assert (Hsame : j' = Z.to_nat ((c + i + 1) mod N)).
        { apply (NoDup_lookup (keys m) _ _ k' Hnd Hj' Hkey). }
        destruct (Z.eqb_spec (Z.of_nat j') ((c + i + 1) mod N)); [|lia].
        rewrite (Hcount j' k' Hj').
        destruct (Hroom k'). destruct (turns_bounds c N i (Z.of_nat j') HN Hi).
        rewrite wrap64_small; lia.
      - destruct (Z.eqb_spec (Z.of_nat j') ((c + i + 1) mod N)) as [He|_].
        + exfalso. apply Hne. rewrite <- He, Nat2Z.id, Hj' in Hkey. congruence.
        + rewrite (Hcount j' k' Hj'). lia. }
    replace (i + Z.of_nat (S n)) with (i + 1 + Z.of_nat n) by lia.
    rewrite <- Hkeys in Hnd, Hj. subst N.
    rewrite <- Hkeys.
    apply (IH (t + 1) m1 c (i + 1) before); try assumption; try lia.
    + congruence.
    + congruence.
    + intros k0. destruct (Hroom k0). lia.
    + intros j' k' Hj'. rewrite Hkeys in Hj' |- *. now apply Hstep.
Qed.

(** X27.  Round-robin selection is fair.  With the round-robin strategy,
    an empty blacklist and pairwise different keys, [n] selections in a row
    give every key of the slice either the whole part of [n / N] requests
    or one more, so that the request counters of two keys drift apart by at
    most one. *)
Theorem round_robin_is_fair (n : nat) (t : Time) (m : Manager) (k1 k2 : string) :
  selectionStrategy m = types.StrategyRoundRobin ->
  blacklist m = ∅ ->
  NoDup (keys m) ->
  0 <= currentIndex m ->
  currentIndex m + Z.of_nat n < 2 ^ 63 ->
  (forall k, - 2 ^ 63 <= counter (requestCounts m) k
             /\ counter (requestCounts m) k + Z.of_nat n < 2 ^ 63) ->
  In k1 (keys m) -> In k2 (keys m) ->
  let served := fun k =>
    counter (requestCounts (fst (fixtures.selections n t m))) k
    - counter (requestCounts m) k in
  let share := Z.of_nat n / Z.of_nat (length (keys m)) in
  share <= served k1 <= share + 1 /\
  share <= served k2 <= share + 1 /\
  -1 <= served k1 - served k2 <= 1.
Proof.
  intros Hst Hbl Hnd Hc Hmax Hroom H1 H2 served share.
  assert (HN : 0 < Z.of_nat (length (keys m))).
  { destruct (keys m); [destruct H1|simpl; lia]. }
  assert (Hall : forall k, In k (keys m) -> share <= served k <= share + 1).
  { intros k Hk. apply list_elem_of_In, list_elem_of_lookup_1 in Hk.
    destruct Hk as [j Hj].
    pose proof (selections_turns n t m (currentIndex m) 0
                  (fun k => counter (requestCounts m) k) Hst Hbl Hnd Hc
                  ltac:(lia) ltac:(lia) ltac:(lia)) as H.
    specialize (H ltac:(intros k0; destruct (Hroom k0); lia)).
    specialize (H ltac:(intros j' k' _; rewrite turns_start by exact HN; lia)).
    specialize (H j k Hj). cbv beta in H.
    unfold served. rewrite H. rewrite Z.add_0_l.
    destruct (turns_bounds (currentIndex m) (Z.of_nat (length (keys m)))
                (Z.of_nat n) (Z.of_nat j) HN ltac:(lia)) as [Hb _].
    subst share. lia. }
  pose proof (Hall k1 H1). pose proof (Hall k2 H2). lia.
Qed.

Lemma requestCounts_SetSelectionStrategy (strategy : types.SelectionStrategy)
    (m : Manager) :
  requestCounts (SetSelectionStrategy strategy m) = requestCounts m.
Proof. reflexivity. Qed.

Lemma round_robin_is_fair_witness :
  let m := SetSelectionStrategy types.StrategyRoundRobin
             (fixtures.managerOf fixtures.defaultConfig ["K1"; "K2"; "K3"] 10) in
  let m' := fst (fixtures.selections 7 11 m) in
  List.map (counter (requestCounts m')) ["K1"; "K2"; "K3"] = [2; 3; 2] /\
  -1 <= (counter (requestCounts m') "K1" - counter (requestCounts m) "K1")
        - (counter (requestCounts m') "K2" - counter (requestCounts m) "K2") <= 1.
Proof.
  intros m m'. split; [vm_compute; reflexivity|].
  assert (Hk : keys m = ["K1"; "K2"; "K3"]) by (vm_compute; reflexivity).
  assert (H0 : forall k, counter (requestCounts m) k = 0).
  { intros k.
    destruct (NewManager_accounted fixtures.defaultConfig
                (fixtures.repositoryOf ["K1"; "K2"; "K3"]) (at_time 10)
                (fixtures.managerOf fixtures.defaultConfig ["K1"; "K2"; "K3"] 10)
                eq_refl k) as (Ha & Hb & Hc).
    unfold inFlight in Hb. cbn [fst snd] in Ha, Hb, Hc. rewrite lookup_empty in Hb.
    change (default 0%nat None) with 0%nat in Hb.
    unfold m. rewrite requestCounts_SetSelectionStrategy. lia. }
  destruct (round_robin_is_fair 7 11 m "K1" "K2") as (_ & _ & H).
  - reflexivity.
  - vm_compute. reflexivity.
  - rewrite Hk.
    repeat (apply NoDup_cons_2; [rewrite list_elem_of_In; simpl; intuition discriminate|]).
    apply NoDup_nil_2.
  - vm_compute. congruence.
  - vm_compute. reflexivity.
  - intros k. rewrite H0. vm_compute. split; congruence.
  - rewrite Hk. simpl. auto.
  - rewrite Hk. simpl. auto.
  - exact H.
Defined.

End fairness.
(** ** The keys of an import text *)

Section trimming.

Import handler.

Lemma stripPrefix_Some (prefix l rest : list ascii) :
  stripPrefix prefix l = Some rest <-> l = prefix ++ rest.
Proof.
  revert l. induction prefix as [|p prefix IH]; intros l; cbn [stripPrefix app].
  - split; [intros H; now inversion H|intros ->; reflexivity].
  - destruct l as [|c l]; [split; discriminate|].
    destruct (Ascii.eqb_spec p c) as [->|Hne].
    + rewrite IH. split; [intros ->; reflexivity|intros H; now inversion H].
    + split; [discriminate|intros H; inversion H; congruence].
Qed.

Lemma stripOne_None (encodings : list (list ascii)) (l : list ascii) :
  stripOne encodings l = None <-> forall e, In e encodings -> stripPrefix e l = None.
Proof.
  induction encodings as [|e encodings IH]; cbn [stripOne].
  - split; [intros _ e []|reflexivity].
  - destruct (stripPrefix e l) as [l'|] eqn:He.
    + split; [discriminate|]. intros H. specialize (H e (or_introl eq_refl)). congruence.
    + rewrite IH. split.
      * intros H e' [<-|Hin]; [exact He|now apply H].
      * intros H e' Hin. apply H. now right.
Qed.

Lemma stripOne_Some (encodings : list (list ascii)) (l rest : list ascii) :
  stripOne encodings l = Some rest -> exists e, In e encodings /\ l = e ++ rest.
Proof.
  induction encodings as [|e encodings IH]; cbn [stripOne]; [discriminate|].
  destruct (stripPrefix e l) as [l'|] eqn:He.
  - intros H. inversion H; subst. exists e. split; [now left|].
    now apply stripPrefix_Some.
  - intros H. destruct (IH H) as (e' & Hin & Heq). exists e'. split; [now right|exact Heq].
Qed.

Lemma stripAll_suffix (fuel : nat) (encodings : list (list ascii)) :
  forall l, exists dropped, l = dropped ++ stripAll fuel encodings l.
Proof.
  induction fuel as [|fuel IH]; intros l; cbn [stripAll]; [now exists []|].
  destruct (stripOne encodings l) as [l'|] eqn:Hone; [|now exists []].
  destruct (stripOne_Some _ _ _ Hone) as (e & _ & ->).
  destruct (IH l') as [dropped Hd]. exists (e ++ dropped).
  rewrite <- app_assoc. now rewrite <- Hd.
Qed.

Lemma stripAll_done (fuel : nat) (encodings : list (list ascii)) :
  Forall (fun e => e <> []) encodings ->
  forall l, (length l <= fuel)%nat ->
    stripOne encodings (stripAll fuel encodings l) = None.
Proof.
  intros Hne. induction fuel as [|fuel IH]; intros l Hlen; cbn [stripAll].
  - destruct l; [|simpl in Hlen; lia].
    apply stripOne_None. intros e Hin.
    rewrite Forall_forall in Hne. specialize (Hne e (proj2 (list_elem_of_In _ _) Hin)).
    destruct e; [congruence|reflexivity].
  - destruct (stripOne encodings l) as [l'|] eqn:Hone; [|exact Hone].
    apply IH. destruct (stripOne_Some _ _ _ Hone) as (e & Hin & ->).
    rewrite Forall_forall in Hne. specialize (Hne e (proj2 (list_elem_of_In _ _) Hin)).
    rewrite length_app in Hlen. destruct e; [congruence|simpl in Hlen; lia].
Qed.

Lemma stripAll_fixed (fuel : nat) (encodings : list (list ascii)) (l : list ascii) :
  stripOne encodings l = None -> stripAll fuel encodings l = l.
Proof.
  intros H. destruct fuel; cbn [stripAll]; [reflexivity|]. now rewrite H.
Qed.

Lemma stripOne_prefix (encodings : list (list ascii)) (l rest : list ascii) :
  stripOne encodings (l ++ rest) = None -> stripOne encodings l = None.
Proof.
  rewrite !stripOne_None. intros H e Hin. specialize (H e Hin).
  destruct (stripPrefix e l) as [l'|] eqn:He; [|reflexivity].
  apply stripPrefix_Some in He. subst l.
  rewrite <- app_assoc in H.
  assert (Hs : stripPrefix e (e ++ l' ++ rest) = Some (l' ++ rest))
    by now apply stripPrefix_Some.
  congruence.
Qed.

Lemma spaceEncodings_nonempty :
  Forall (fun e : list ascii => e <> []) spaceEncodings /\
  Forall (fun e : list ascii => e <> []) (List.map (@rev ascii) spaceEncodings).
Proof.
  split; vm_compute; repeat (constructor; [discriminate|]); constructor.
Qed.

Lemma trimRight_prefix (l : list ascii) :
  exists dropped, l = trimRight l ++ dropped.
Proof.
  unfold trimRight.
  destruct (stripAll_suffix (length l) (List.map (@rev ascii) spaceEncodings) (rev l))
    as [dropped Hd].
  exists (rev dropped).
  rewrite <- rev_app_distr, <- Hd, rev_involutive. reflexivity.
Qed.

Lemma trimLeft_suffix (l : list ascii) :
  exists dropped, l = dropped ++ trimLeft l.
Proof. apply stripAll_suffix. Qed.

Lemma TrimSpace_trimmed (s : string) :
  let chars := list_ascii_of_string (TrimSpace s) in
  startsWithSpace chars = false /\ endsWithSpace chars = false /\
  incl chars (list_ascii_of_string s).
Proof.
  intros chars. subst chars. unfold TrimSpace.
  rewrite list_ascii_of_string_of_list_ascii.
  set (l := list_ascii_of_string s).
  destruct spaceEncodings_nonempty as [Hne Hne'].
  assert (Hleft : stripOne spaceEncodings (trimLeft l) = None).
  { apply stripAll_done; [exact Hne|lia]. }
  destruct (trimRight_prefix (trimLeft l)) as [dropped Hd].
  split; [|split].
  - unfold startsWithSpace. rewrite Hd in Hleft.
    now rewrite (stripOne_prefix _ _ _ Hleft).
  - unfold endsWithSpace, trimRight. rewrite rev_involutive.
    rewrite stripAll_done; [reflexivity|exact Hne'|]. rewrite length_rev. lia.
  - destruct (trimLeft_suffix l) as [dropped' Hd'].
    intros c Hc. rewrite Hd'. apply in_or_app. right.
    rewrite Hd. apply in_or_app. now left.
Qed.

Lemma dropCR_incl (line : list ascii) : incl (dropCR line) line.
Proof.
  unfold dropCR. destruct (rev line) as [|c before] eqn:Hrev; [apply incl_refl|].
  destruct (Ascii.eqb c (ascii_of_nat 13)); [|apply incl_refl].
  intros x Hx. apply in_rev in Hx.
  apply in_rev. rewrite Hrev. now right.
Qed.

Lemma scanLines_single_line (text : list ascii) :
  forall (line : list ascii) (n : Z) (token : string),
    ~ In (ascii_of_nat 10) line ->
    In token (scanLines text line n) ->
    ~ In (ascii_of_nat 10) (list_ascii_of_string token).
Proof.
  induction text as [|c text IH]; intros line n token Hline; cbn [scanLines].
  - destruct line as [|c0 line']; [intros []|].
    intros [<-|[]]. rewrite list_ascii_of_string_of_list_ascii.
    intros H. apply dropCR_incl, in_rev in H. contradiction.
  - destruct (Ascii.eqb_spec c (ascii_of_nat 10)) as [->|Hc].
    + intros [<-|Hin].
      * rewrite list_ascii_of_string_of_list_ascii.
        intros H. apply dropCR_incl, in_rev in H. contradiction.
      * apply (IH [] 0 token); [intros []|exact Hin].
    + destruct (MaxScanTokenSize <=? n + 1); [intros []|].
      apply IH. intros [H|H]; [congruence|contradiction].
Qed.

(** X28.  The keys that [parseKeysFromText] returns are clean: no key
    starts or ends with a white-space rune (a carriage return included),
    no key contains a line feed, and trimming a key again gives the key
    itself. *)
Theorem parsed_keys_are_trimmed (text key : string) :
  In key (parseKeysFromText text) ->
  let chars := list_ascii_of_string key in
  startsWithSpace chars = false /\
  endsWithSpace chars = false /\
  ~ In (ascii_of_nat 10) chars /\
  TrimSpace key = key.
Proof.
  intros Hin chars. subst chars. unfold parseKeysFromText in Hin.
  apply filter_In in Hin. destruct Hin as [Hin _].
  apply in_map_iff in Hin. destruct Hin as (line & <- & Hline).
  destruct (TrimSpace_trimmed line) as (Hs & He & Hincl). cbv zeta in Hs, He, Hincl.
  split; [exact Hs|]. split; [exact He|]. split.
  - intros H. apply Hincl in H.
    apply (scanLines_single_line _ [] 0 line (fun F => F) Hline H).
  - set (l := list_ascii_of_string (TrimSpace line)) in *.
    unfold TrimSpace at 1. fold l.
    assert (Hl : trimLeft l = l).
    { unfold trimLeft. apply stripAll_fixed. unfold startsWithSpace in Hs.
      destruct (stripOne spaceEncodings l); [discriminate|reflexivity]. }
    assert (Hr : trimRight l = l).
    { unfold trimRight. rewrite stripAll_fixed; [apply rev_involutive|].
      unfold endsWithSpace in He.
      destruct (stripOne _ (rev l)); [discriminate|reflexivity]. }
    rewrite Hl, Hr. subst l. apply string_of_list_ascii_of_string.
Qed.

Lemma parsed_keys_are_trimmed_witness :
  parseKeysFromText fixtures.keysText = ["tvly-abcdefghijkl"; "tvly-mnopqrstuvwx"] /\
  endsWithSpace (list_ascii_of_string "tvly-mnopqrstuvwx") = false /\
  TrimSpace "tvly-mnopqrstuvwx" = "tvly-mnopqrstuvwx".
Proof.
  assert (Hp : parseKeysFromText fixtures.keysText
               = ["tvly-abcdefghijkl"; "tvly-mnopqrstuvwx"]) by (vm_compute; reflexivity).
  assert (Hin : In "tvly-mnopqrstuvwx" (parseKeysFromText fixtures.keysText)).
  { rewrite Hp. right. now left. }
  destruct (parsed_keys_are_trimmed fixtures.keysText "tvly-mnopqrstuvwx" Hin)
    as (_ & He & _ & Ht).
  split; [exact Hp|]. split; [exact He|exact Ht].
Defined.

End trimming.
